(* ===== verification/_CoqProject ===== *)
-Q . S2P
Prelude.v
CString.v
Kernel.v
Events.v
Ring.v
Crypto.v
Cdev.v
EventManager.v
Device.v
Reporting.v
Rotation.v
LogSession.v
Interleaving.v
DeviceHistory.v
ReadRace.v
WaitQueue.v
Smp.v
Arch.v
Watchlists.v
Hooks.v
ProbeDetectors.v
FtraceDirect.v
BecomeRoot.v
ResetTainted.v
AuditHooks.v
FilterIp.v
Main.v
TaskstatsHooks.v
FileAccess.v
Hiding.v
SimpleDetectors.v
Scenarios.v
PyRe.v
Console.v
DmesgReader.v
DmesgFacts.v
DmesgLog.v
DmesgPaths.v
EventLog.v
DmesgRuns.v
Agent.v
AgentFacts.v
AgentDevice.v
LogServer.v
LogServerFacts.v
EndToEnd.v
AgentRuns.v
ServerRuns.v
