(* ===== verification/Prelude.v ===== *)
(** * Photon Ring: a verification development

    Photon Ring (src/lksm) is a Linux kernel module that watches for the
    traces of rootkits, and an agent that carries its reports to a remote
    server.  In src/lksm/kernel_module, detectors (modules/) put probes on
    kernel functions; what they find goes as an event to the event manager
    (comms/event_manager.c), which buffers it per CPU and flushes it to the
    device channel (comms/cdev_ch.c), where it is sealed by the crypto layer
    (comms/crypto.c) into a frame of a ring.  The agent (photon_agent.c)
    receives the master key from the server over TLS, hands it to the module
    by ioctl and forwards the frames it reads from /dev/photon_ring.  main.c
    loads and unloads the parts in order.  The server
    (src/lksm/python_tools/server.py) derives the session keys again, opens
    the frames, and logs and indexes the events.  Besides, the detectors print
    their alerts, and a daemon (src/lksm/python_tools/main.py) polls dmesg and
    makes events of them with regular expressions
    (core/modules/dmesg_reader.py, core/module_base.py).

    ** Files

    Shared: [Prelude] (machine integers, little-endian encoding, fixed-size
    fields), [CString] (the string.h functions), [Kernel] (the environment that
    answers kernel calls, the state monad, the predicate transformer [wp]).

    Reporting path: [Events] (include/event_manager.h), [Ring] (the ring
    arithmetic and the interface [BoundedQueue] both rings implement),
    [Crypto] (comms/crypto.c), [Cdev] (comms/cdev_ch.c), [EventManager]
    (comms/event_manager.c), [Device] (photon_rotate_key and the ioctl, which
    report through the event manager).  [Reporting] and [LogSession] hold the
    properties of the path.  Then the path with several parties: [Interleaving]
    and [DeviceHistory] (senders, readers, openers and key ioctls taking their
    turns on the device), [Rotation] (a send cut into its pieces against a key
    rotation), [ReadRace] (a read against another read), [WaitQueue] (readers
    asleep beside the senders and the tear-down that wake them), [Smp] (any
    number of threads inside photon_log_event).

    Detectors: [Arch] (include/photon_ring_arch.h), [Watchlists]
    (include/watchlists.h), [Hooks] (probes, console, and the interface
    [DetectorLaws] between a detector and main.c), [ProbeDetectors]
    (kprobe_detector.c, kretprobe_detector.c, kallsyms_detector.c),
    [FtraceDirect] (ftrace_direct_detector.c), [BecomeRoot]
    (become_root_detector.c), [ResetTainted] (reset_tainted_detector.c),
    [AuditHooks] (hooking_audit_detector.c), [TaskstatsHooks]
    (taskstats_hook_detector.c, a second copy of it), [FilterIp]
    (tcp_hiding_detector.c, icmp_hook_detector.c, bpf_hook_detector.c),
    [FileAccess] (hook_file_access.c), [Hiding] (hiding_stat.c,
    hiding_directory.c), [SimpleDetectors] (trace_pid, hiding_readlink,
    hiding_chdir, hooks_write, clear_taint_dmesg, lkrg_bypass), and [Main]
    (main.c: the registry, loading, unloading).  [Scenarios] runs them on one
    concrete kernel.

    Agent: [Agent] (photon_agent.c over an interface [Platform]), [AgentFacts]
    (its properties on any platform that keeps the promises [Wire],
    [DeviceLog] and [Finite]), [AgentDevice] (the platform whose device is the
    module's own model), [AgentRuns] (concrete runs).

    Server: [LogServer] (server.py from the frame to the document),
    [LogServerFacts] (its properties), [EndToEnd] (kernel, agent and server
    joined), [ServerRuns] (concrete runs).

    Dmesg reader: [PyRe] (Python's regular expressions as a backtracking
    matcher, exact for the language of a pattern), [Console] (what printk makes
    of a format, and the digits it writes), [DmesgReader] (dmesg_reader.py with
    its patterns in their order, the registry and the daemon's loop),
    [DmesgFacts] (each pattern on the line it is meant for), [DmesgLog] (the
    reader over whole logs), [DmesgPaths] (from a probe to the event, and the
    alerts that get lost), [EventLog] (output/json_logger.py, what
    output/es_writer.py indexes, and run_daemon of main.py), [DmesgRuns]
    (concrete logs).

    ** State and operations

    The statics of a C file are a record ([crypto_state], [cdev_state],
    [manager], [world], [reset_tainted], [audit], ...), a function of the file
    is a definition of the same name in a state monad.  A kernel call that can
    fail takes its answer from the environment, so a theorem that quantifies
    over the environment covers every pattern of failing calls.  A run ends
    with [Ret], or in [Deadlock] (a lock taken twice, a sleep nobody ends) or
    [Fault] (a NULL or out-of-bounds access); [wp] excludes the last two, so
    every property stated with it also says that the code returns.  Integers
    keep their widths ([u8] to [u64], [s32]).  The agent's monad has no result
    for a loop that has used up its steps; [pwp] states what holds then, too.
    Where operations overlap, a thread is a program counter and one step is
    what the code does between two points where another can get in: a region
    under a lock, or a stretch that touches nothing shared.  Each such cutting
    comes with a lemma that puts the whole operation together again
    ([send_alone_eq], [rotate_alone_eq], [read_alone_eq], [turns_alone],
    [sequential_is_one_thread]); these say that two renderings of the same code
    agree, and no more.

    ** What the theorems show

    - Reporting path: key derivation is HKDF-SHA256 of RFC 5869; a master key
      is installed entirely or not at all; decryption undoes encryption; the
      rings implement bounded queues; a logged event reaches the channel
      exactly once, in order and with gapless numbers, well typed, and the
      reader as one frame; set-up acquires everything or nothing and tear-down
      releases it; reads, opens and ioctls on every branch; bounds of the
      device in every reachable state.
    - Several parties: whatever the schedule, concurrent calls of
      photon_log_event end, block nowhere, and neither lose nor repeat an
      event; for operations one at a time in any order the device is a FIFO of
      the sent events with a count of the missing ones, where a read too short
      or failing cuts or loses the one frame it took ([device_is_fifo]); a
      waiting reader misses no wake-up, and ends with -EIO after the shutdown
      and else with the oldest frame ([waiting_readers_are_served]); a send
      during a rotation yields one well-formed frame, labelled and sealed with
      old or new, but not always both with the same; a read inside another read
      destroys a frame.
    - Findings as theorems: a failed setkey during rotation deadlocks, events
      before the key exchange are lost, a short read loses a frame, symbols
      overflow a payload field, filter entries outlive detectors, and others
      listed with the components.
    - Detectors: each hook reports exactly what its policy says, with the
      payload, severity and console line; the parsers (rendered stacks, /proc
      paths, sensitive paths) accept exactly what a plain description says;
      every registered detector obeys [DetectorLaws], from which [Main] derives
      that loading is all-or-nothing and that load and unload leave no probe
      and no kernel object, whatever calls fail.
    - Agent: exact transfers, verbatim forwarding, termination of the relay,
      no leaked descriptor or TLS object, the key wiped before the relay; and
      one session end to end from the server's key offer to the heartbeat
      frame the server receives.
    - Server: its HKDF and session keys are the kernel's; it opens every frame
      the kernel seals; its handler ends whatever arrives; its key cache is
      right and bounded; and, by [first_session_end_to_end], it logs none of
      the kernel's events, whose size it has wrong.

    - Dmesg reader: what fifteen kinds of alert print is read back with the
      same values, once each however often the log is dumped
      ([daemon_reports], [file_open_reported]); the daemon logs every tagged
      line exactly once, or ends on a time it cannot read ([daemon_exact]); each
      event is one line of its day's file, from which it can be read back,
      whether the index takes it or not ([events_logged]); an alert whose caller is in a module is not recognised
      ([module_callers_missed]).

    ** Bounds and fuel

    Loops over buffers, arrays and lists are structural.  [flush_loop] and
    [hkdf_expand_loop] take as fuel the capacity of the buffer and the output
    length, and the stack parser ([scan_lines]) the length of the text, which
    their specifications show to be enough.  [recv_loop] and
    [send_loop] take the number of bytes, since each call moves at least one.
    [relay_loop] and [reconnect_loop] need not end; [relay_terminates] gives a
    sufficient number of rounds for a device that ends, and the invariants hold
    for every number.  [Smp] needs no fuel: its steps are bounded by a measure.
    The server's loops take the number of bytes asked for and of bytes to come.
    The regular expressions need none: every step of the matcher is structural
    in the pattern or the text.  The reader of event lines takes the length of
    the text.  The printed numbers have at most 20 decimal, 16
    hexadecimal and 22 octal digits, enough for 64 bits.

    ** Assumptions

    HMAC-SHA256 returns 32 bytes; AES-GCM appends a tag of 16 bytes and its
    decryption inverts it, the same function in the kernel and in the server's
    library; [regs_get_kernel_argument] agrees with the macro's own switch; the
    tainted mask can be read once its symbol is found.  What kernel pointers
    lead to, rendered stacks, symbol names and the answers of OpenSSL and of
    system calls are parameters.  The payload structs, event types and the
    four-argument photon_log_event that hiding_stat.c and
    tcp_hiding_detector.c use and nothing declares are records of parameters
    ([stat_api], [tcp_api]), so that of these events the theorems give what is
    handed over, not that it arrives; so is the taskstats entry of main.c's registry,
    which names functions no file defines.  Of a printed line, a symbol with
    its offset ([%pS]) is a parameter.  The frames of a rendered stack are
    symbols with their offsets; an address without a symbol is not covered.  The dmesg reader's text is the bytes of
    ASCII strings: a character beyond ASCII is some bytes that no class of a
    pattern names, which is what Python does but for spaces, digits and line
    ends outside ASCII, and subprocess's decoding of the bytes, which can raise,
    is left out; its times are exact rationals, which doubles tell apart
    at the six decimals dmesg prints.  How Python writes a float is a parameter:
    on one line, without a comma, and readable.  Each hypothesis is met by the
    concrete instances of [Reporting], [Scenarios], [AgentRuns], [ServerRuns]
    and [DmesgRuns].

    ** Not modelled

    In [Smp] the hand-over of one event to the channel is one step, in
    [WaitQueue] a whole send and the whole tear-down are, and
    nowhere does a key installation happen in the middle of an encryption (the
    code does not exclude it; what the kernel's crypto API then does is not
    its own).  Progress messages of printk; a printing hook that is re-entered
    by its own printk; the agent's log output and on_signal, whose flag is part
    of the platform; of the server the accept loop, TLS, the Elasticsearch
    client, the renderings of times and addresses and the command line; of the
    daemon the discovery of its modules, the connection to Elasticsearch, its
    configuration and the dashboard that nothing uses any more; the scripts and
    the build files. *)
From Stdlib Require Import ZArith Lia.
From Stdlib Require Import Strings.Byte.
From Stdlib Require Import Strings.String.
From stdpp Require Import base numbers list strings.

Abbreviation byte := Byte.byte.

#[export] Instance byte_eq_dec : EqDecision byte := Byte.byte_eq_dec.

Declare Scope photon_scope.
Delimit Scope photon_scope with photon.

(** ** Machine integers *)

Definition wrap (w z : Z) : Z := (z mod 2 ^ w)%Z.
Definition u8 (z : Z) : Z := wrap 8 z.
Definition u16 (z : Z) : Z := wrap 16 z.
Definition u32 (z : Z) : Z := wrap 32 z.
Definition u64 (z : Z) : Z := wrap 64 z.

(** Two's complement reading of the low [w] bits: a C cast to a signed type. *)
Definition swrap (w z : Z) : Z :=
  let r := wrap w z in
  if (r <? 2 ^ (w - 1))%Z then r else (r - 2 ^ w)%Z.
Definition s32 (z : Z) : Z := swrap 32 z.

Lemma wrap_range w z : (0 <= w)%Z -> (0 <= wrap w z < 2 ^ w)%Z.
Proof. intros. apply Z.mod_pos_bound. lia. Qed.

Lemma wrap_small w z : (0 <= z < 2 ^ w)%Z -> wrap w z = z.
Proof. apply Z.mod_small. Qed.

Lemma wrap_wrap w z : wrap w (wrap w z) = wrap w z.
Proof. unfold wrap. apply Zmod_mod. Qed.

(** ** Error numbers of the kernel's [errno.h] *)
Definition EPERM : Z := 1.
Definition ENOENT : Z := 2.
Definition EINTR : Z := 4.
Definition EIO : Z := 5.
Definition ENOMEM : Z := 12.
Definition EFAULT : Z := 14.
Definition EBUSY : Z := 16.
Definition EEXIST : Z := 17.
Definition ENODEV : Z := 19.
Definition EINVAL : Z := 22.
Definition ENOTTY : Z := 25.
Definition ENOSPC : Z := 28.
Definition EMSGSIZE : Z := 90.
Definition ENOKEY : Z := 126.

(** ** Bytes and little-endian integers *)

Definition byte_to_Z (b : byte) : Z := Z.of_N (Byte.to_N b).
Definition byte_of_Z (z : Z) : byte :=
  match Byte.of_N (Z.to_N (z mod 256)) with Some b => b | None => x00 end.

Lemma byte_to_Z_range b : (0 <= byte_to_Z b < 256)%Z.
Proof. unfold byte_to_Z. pose proof (Byte.to_N_bounded b). lia. Qed.

Lemma byte_to_of_Z z : byte_to_Z (byte_of_Z z) = (z mod 256)%Z.
Proof.
  unfold byte_to_Z, byte_of_Z.
  destruct (Byte.of_N _) as [b|] eqn:E.
  - apply Byte.to_of_N in E. rewrite E.
    apply Z2N.id, Z.mod_pos_bound. lia.
  - apply Byte.of_N_None_iff in E.
    pose proof (Z.mod_pos_bound z 256 ltac:(lia)). lia.
Qed.

Lemma byte_of_to_Z b : byte_of_Z (byte_to_Z b) = b.
Proof.
  unfold byte_of_Z. rewrite Z.mod_small by apply byte_to_Z_range.
  unfold byte_to_Z. rewrite N2Z.id, Byte.of_to_N. done.
Qed.

(** [le_encode n z]: the [n] low-order bytes of [z], least significant first,
    the memory image of an [8n]-bit integer on the targets of the module. *)
Fixpoint le_encode (n : nat) (z : Z) : list byte :=
  match n with
  | O => []
  | S n => byte_of_Z z :: le_encode n (z / 256)
  end.

Fixpoint le_decode (l : list byte) : Z :=
  match l with
  | [] => 0
  | b :: l => (byte_to_Z b + 256 * le_decode l)%Z
  end.

Lemma length_le_encode n z : length (le_encode n z) = n.
Proof. revert z. induction n; intros; simpl; [done|]. by rewrite IHn. Qed.

Lemma le_decode_range l : (0 <= le_decode l < 2 ^ (8 * Z.of_nat (length l)))%Z.
Proof.
  induction l as [|b l IH]; simpl; [lia|].
  pose proof (byte_to_Z_range b).
  replace (8 * Z.of_nat (S (length l)))%Z with (8 + 8 * Z.of_nat (length l))%Z by lia.
  rewrite Z.pow_add_r by lia. change (2 ^ 8)%Z with 256%Z. nia.
Qed.

Lemma le_decode_encode n z :
  le_decode (le_encode n z) = (z mod 2 ^ (8 * Z.of_nat n))%Z.
Proof.
  revert z. induction n as [|n IH]; intros z; simpl le_decode.
  - simpl. by rewrite Z.mod_1_r.
  - rewrite byte_to_of_Z, IH.
    replace (8 * Z.of_nat (S n))%Z with (8 + 8 * Z.of_nat n)%Z by lia.
    rewrite Z.pow_add_r by lia. change (2 ^ 8)%Z with 256%Z.
    rewrite Z.rem_mul_r by lia. done.
Qed.

Lemma le_encode_decode l : le_encode (length l) (le_decode l) = l.
Proof.
  induction l as [|b l IH]; simpl; [done|].
  pose proof (byte_to_Z_range b). f_equal.
  - rewrite <- (byte_of_to_Z b) at 2. unfold byte_of_Z.
    rewrite Z.mul_comm, Z.mod_add by lia. done.
  - rewrite (Z.mul_comm 256), Z.div_add by lia.
    rewrite Z.div_small by lia. rewrite Z.add_0_l. done.
Qed.

(** [fit n l]: the first [n] bytes of [l], zero-padded to exactly [n]; what a
    buffer of [n] bytes holds after a read of [l] into it. *)
Definition zeros (n : nat) : list byte := replicate n x00.
Definition fit (n : nat) (l : list byte) : list byte :=
  take n l ++ zeros (n - length l).

Lemma length_zeros n : length (zeros n) = n.
Proof. apply length_replicate. Qed.

Lemma length_fit n l : length (fit n l) = n.
Proof. unfold fit. rewrite length_app, length_take, length_zeros. lia. Qed.

Lemma fit_exact n l : length l = n -> fit n l = l.
Proof.
  intros <-. unfold fit.
  rewrite firstn_all, Nat.sub_diag. apply app_nil_r.
Qed.

Create HintDb photon.
Create Rewrite HintDb photon.
#[export] Hint Rewrite length_le_encode length_zeros length_fit @length_app
  @length_replicate @length_insert : photon.
#[export] Hint Resolve wrap_range byte_to_Z_range : photon.
#[global] Arguments le_encode : simpl never.
#[global] Arguments le_decode : simpl never.
#[global] Arguments zeros : simpl never.
#[global] Arguments fit : simpl never.
