(* ===== verification/CString.v ===== *)
(** * C strings
    NUL-terminated strings as Coq strings without NUL, the [string.h]
    functions the module calls on them, fixed-size [char] fields of packed
    structs, and the decimal conversion [snprintf] performs. *)
From Stdlib Require Import ZArith Lia.
From Stdlib Require Import Strings.Byte Strings.Ascii Strings.String.
From stdpp Require Import base numbers list strings.
From S2P Require Import Prelude.

(** A C string holds no NUL byte. *)
Fixpoint no_nul (s : string) : bool :=
  match s with
  | EmptyString => true
  | String c s => negb (Ascii.eqb c zero) && no_nul s
  end.

(** [strcmp (a, b) == 0] *)
Definition strcmp_eq (a b : string) : bool := String.eqb a b.

(** [strncmp (a, b, n) == 0] *)
Fixpoint strncmp_eq (a b : string) (n : nat) {struct n} : bool :=
  match n with
  | O => true
  | S n =>
      match a, b with
      | EmptyString, EmptyString => true
      | String x a, String y b => Ascii.eqb x y && strncmp_eq a b n
      | _, _ => false
      end
  end.

(** [strstr (hay, needle) != NULL] *)
Fixpoint strstr_found (hay needle : string) : bool :=
  String.prefix needle hay ||
  match hay with
  | EmptyString => false
  | String _ hay => strstr_found hay needle
  end.

(** [strncpy (field, s, n - 1)] into a zeroed [char field[n]]. *)
Definition char_field (n : nat) (s : string) : list byte :=
  fit n (take (n - 1) (list_byte_of_string s)).

(** Reading a [char] field back as a C string: the bytes before the first NUL. *)
Fixpoint field_string (l : list byte) : string :=
  match l with
  | [] => EmptyString
  | b :: l => if Byte.eqb b x00 then EmptyString
              else String (ascii_of_byte b) (field_string l)
  end.

Fixpoint string_take (n : nat) (s : string) {struct n} : string :=
  match n, s with
  | S n, String c s => String c (string_take n s)
  | _, _ => EmptyString
  end.

(** Decimal conversion ([%llu], and [%d] for a non-negative argument). *)
Definition digit (z : Z) : ascii := ascii_of_byte (byte_of_Z (48 + z mod 10)).
Fixpoint decimal_fuel (fuel : nat) (z : Z) (acc : string) : string :=
  match fuel with
  | O => acc
  | S fuel =>
      let acc := String (digit z) acc in
      if (z <? 10)%Z then acc else decimal_fuel fuel (z / 10) acc
  end.
(** 20 digits are enough for every u64: 2^64 < 10^20. *)
Definition print_u64 (z : Z) : string := decimal_fuel 20 z EmptyString.
Definition print_int (z : Z) : string :=
  if (z <? 0)%Z then String "-"%char (print_u64 (- z)) else print_u64 z.

(** [snprintf (field, n, "%s", s)] into a zeroed field of [n] bytes. *)
Definition snprintf_field (n : nat) (s : string) : list byte := char_field n s.

Lemma length_char_field n s : length (char_field n s) = n.
Proof. apply length_fit. Qed.
#[export] Hint Rewrite length_char_field : photon.

Lemma strncmp_eq_refl s n : strncmp_eq s s n = true.
Proof.
  revert s; induction n as [|n IH]; intros [|c s]; simpl; try done.
  by rewrite Ascii.eqb_refl, IH.
Qed.

Lemma strncmp_eq_spec a b n :
  strncmp_eq a b n = true <-> string_take n a = string_take n b.
Proof.
  revert a b; induction n as [|n IH]; intros a b; simpl; [by split|].
  destruct a as [|x a], b as [|y b]; try (by split).
  rewrite andb_true_iff, Ascii.eqb_eq, IH.
  split; [by intros [-> ->] | by intros [= -> ->]].
Qed.

(** Comparing over the whole length of [p] is the prefix test. *)
Lemma strncmp_eq_prefix a p :
  strncmp_eq a p (String.length p) = String.prefix p a.
Proof.
  revert a; induction p as [|c p IH]; intros a; [by destruct a|].
  destruct a as [|x a]; simpl; [done|].
  destruct (ascii_dec c x) as [->|Hne].
  - by rewrite Ascii.eqb_refl, IH.
  - destruct (Ascii.eqb_spec x c) as [->|_]; [done|reflexivity].
Qed.

Lemma string_length_app (a b : string) :
  String.length (a +:+ b) = (String.length a + String.length b)%nat.
Proof. induction a as [|x a IH]; simpl; [done|]. by rewrite IH. Qed.

Lemma strstr_found_spec hay needle :
  strstr_found hay needle = true <->
  exists pre post, hay = (pre +:+ (needle +:+ post))%string.
Proof.
  split.
  - induction hay as [|c hay IH]; simpl; rewrite ?orb_false_r.
    + destruct needle; [|done]. intros _. by exists "", "".
    + intros [H|H]%orb_true_iff.
      * change (String.prefix needle (String c hay) = true) in H.
        rewrite <- strncmp_eq_prefix in H.
        revert H. generalize (String c hay) as h. clear.
        intros h H. exists "". revert h H.
        induction needle as [|d needle IH]; intros h H; [by exists h|].
        destruct h as [|e h]; simpl in H; [done|].
        apply andb_true_iff in H as [->%Ascii.eqb_eq H].
        destruct (IH _ H) as [post Hp]. exists post. simpl in *. by rewrite Hp.
      * destruct (IH H) as (pre & post & ->).
        by exists (String c pre), post.
  - intros (pre & post & ->). induction pre as [|c pre IH]; simpl.
    + assert (String.prefix needle (needle +:+ post) = true) as H.
      { clear. induction needle as [|d needle IH]; simpl; [by destruct post|].
        by destruct (ascii_dec d d). }
      destruct (needle +:+ post)%string; simpl in *; by rewrite H.
    + change ((String.prefix needle (String c (pre +:+ (needle +:+ post)))
        || strstr_found (pre +:+ (needle +:+ post)) needle) = true).
      by rewrite IH, orb_true_r.
Qed.

Lemma ascii_of_byte_inj b b' : ascii_of_byte b = ascii_of_byte b' -> b = b'.
Proof.
  intros H. by rewrite <- (byte_of_ascii_of_byte b), H, byte_of_ascii_of_byte.
Qed.

Lemma field_string_app_zeros n s m :
  no_nul s = true ->
  field_string (take n (list_byte_of_string s) ++ zeros (S m)) = string_take n s.
Proof.
  revert s. induction n as [|n IH]; intros s Hs; [done|].
  destruct s as [|c s]; [done|]. simpl in *.
  apply andb_true_iff in Hs as [Hc Hs].
  destruct (Byte.eqb _ _) eqn:E.
  - apply Byte.byte_dec_bl in E. exfalso.
    rewrite <- (ascii_of_byte_of_ascii c), E in Hc. done.
  - rewrite ascii_of_byte_of_ascii. f_equal. by apply IH.
Qed.

(** A field filled by [strncpy] reads back as the string cut to [n - 1]
    characters: it is always NUL-terminated. *)
Lemma field_string_char_field n s :
  (0 < n)%nat -> no_nul s = true ->
  field_string (char_field n s) = string_take (n - 1) s.
Proof.
  intros Hn Hs. unfold char_field, fit. rewrite take_take, Nat.min_r by lia.
  pose proof (length_take (list_byte_of_string s) (n - 1)) as Hl.
  replace (n - length (take (n - 1) (list_byte_of_string s)))%nat
    with (S (n - 1 - length (take (n - 1) (list_byte_of_string s)))) by lia.
  by apply field_string_app_zeros.
Qed.

Lemma strcmp_eq_true a b : strcmp_eq a b = true <-> a = b.
Proof. apply String.eqb_eq. Qed.

Lemma prefix_spec p s : String.prefix p s = true <-> exists rest, s = (p +:+ rest)%string.
Proof.
  rewrite <- strncmp_eq_prefix. revert s. induction p as [|c p IH]; intros s; cbn [String.length strncmp_eq].
  - split; [by exists s|done].
  - destruct s as [|x s]; [split; [done|by intros (? & ?)]|].
    rewrite andb_true_iff, Ascii.eqb_eq, IH. split.
    + intros [-> [r ->]]. by exists r.
    + intros (r & [= -> ->]). split; [done|by exists r].
Qed.
