(* ===== verification/Kernel.v ===== *)
(** * The kernel environment and the state monad of the module
    Code of the module runs against an environment that decides what the
    kernel's own functions return: [env_rets] gives, in call order, the result
    of every call that can fail (0 is success; an allocator returning NULL or
    an ERR_PTR is a nonzero code), [env_time] the clock readings, [env_rand]
    what [get_random_bytes] yields, [env_cpus] the CPU each [get_cpu] finds
    itself on (the scheduler may migrate the thread between two calls);
    [env_live] counts the kernel objects that
    were allocated and not yet freed.  A run ends in [Ret], or in [Deadlock]
    (a lock taken twice by the same thread, a sleep nobody ends) or [Fault]
    (a NULL or out-of-bounds access).  [wp] is the total-correctness
    predicate transformer: it excludes both. *)
From Stdlib Require Import ZArith Lia.
From Stdlib Require Import Strings.Byte Strings.String.
From stdpp Require Import base numbers list strings option.
From S2P Require Import Prelude.

Record task := mk_task { pid : Z; comm : string }.

Record env := mk_env {
  env_rets : list Z;
  env_time : list Z;
  env_rand : list (list byte);
  env_live : Z;
  env_cpus : list nat;
  current : task;
}.

Definition set_rets (r : list Z) (e : env) : env :=
  mk_env r (env_time e) (env_rand e) (env_live e) (env_cpus e) (current e).
Definition set_time (t : list Z) (e : env) : env :=
  mk_env (env_rets e) t (env_rand e) (env_live e) (env_cpus e) (current e).
Definition set_rand (r : list (list byte)) (e : env) : env :=
  mk_env (env_rets e) (env_time e) r (env_live e) (env_cpus e) (current e).
Definition set_cpus (c : list nat) (e : env) : env :=
  mk_env (env_rets e) (env_time e) (env_rand e) (env_live e) c (current e).
Definition add_live (d : Z) (e : env) : env :=
  mk_env (env_rets e) (env_time e) (env_rand e) (env_live e + d) (env_cpus e) (current e).

Inductive outcome (A : Type) :=
  | Ret (a : A)
  | Deadlock
  | Fault.
Arguments Ret {A} _.
Arguments Deadlock {A}.
Arguments Fault {A}.

Definition M (S A : Type) : Type := env -> S -> outcome (A * env * S).

#[export] Instance M_ret S : MRet (M S) := fun A a e s => Ret (a, e, s).
#[export] Instance M_bind S : MBind (M S) := fun A B f m e s =>
  match m e s with
  | Ret (a, e', s') => f a e' s'
  | Deadlock => Deadlock
  | Fault => Fault
  end.

Definition get {S} : M S S := fun e s => Ret (s, e, s).
Definition put {S} (s' : S) : M S unit := fun e s => Ret (tt, e, s').
Definition modify {S} (f : S -> S) : M S unit := fun e s => Ret (tt, e, f s).
Definition deadlock {S A} : M S A := fun e s => Deadlock.
Definition fault {S A} : M S A := fun e s => Fault.

(** A call into the kernel that can fail: the environment's next code. *)
Definition kcall {S} : M S Z := fun e s =>
  match env_rets e with
  | [] => Ret (0%Z, e, s)
  | r :: rs => Ret (r, set_rets rs e, s)
  end.

(** An allocation ([kmalloc], [kcalloc], [crypto_alloc_shash], ...): 0 and one
    more live object, or the code of the failure; [kfree] gives it back. *)
Definition kalloc {S} : M S Z := fun e s =>
  match env_rets e with
  | [] => Ret (0%Z, add_live 1 e, s)
  | r :: rs => Ret (r, if Z.eqb r 0 then add_live 1 (set_rets rs e) else set_rets rs e, s)
  end.
Definition kfree {S} : M S unit := fun e s => Ret (tt, add_live (-1) e, s).

(** [ktime_get_ns], [ktime_get_real_ns]: a u64 reading. *)
Definition ktime_get {S} : M S Z := fun e s =>
  match env_time e with
  | [] => Ret (0%Z, e, s)
  | t :: ts => Ret (u64 t, set_time ts e, s)
  end.

(** [get_random_bytes (buf, n)] *)
Definition get_random_bytes {S} (n : nat) : M S (list byte) := fun e s =>
  match env_rand e with
  | [] => Ret (zeros n, e, s)
  | r :: rs => Ret (fit n r, set_rand rs e, s)
  end.

(** [get_cpu ()] on a machine of [n] CPUs *)
Definition smp_processor_id {S} (n : nat) : M S nat := fun e s =>
  match env_cpus e with
  | [] => Ret (O, e, s)
  | c :: cs => Ret ((c mod n)%nat, set_cpus cs e, s)
  end.

Definition get_current {S} : M S task := fun e s => Ret (current e, e, s).

(** Run an operation of a part [S] inside a state [T] that contains it. *)
Definition zoom {S T A} (g : T -> S) (p : S -> T -> T) (m : M S A) : M T A :=
  fun e t =>
    match m e (g t) with
    | Ret (a, e', s') => Ret (a, e', p s' t)
    | Deadlock => Deadlock
    | Fault => Fault
    end.

(** [no_fail e]: no kernel call fails any more.  [env_rel d e e']: what every
    operation guarantees of the environment it ran in; [d] objects are live
    on top of those at the start. *)
Definition no_fail (e : env) : Prop := Forall (fun r => r = 0%Z) (env_rets e).
Definition env_rel (d : Z) (e e' : env) : Prop :=
  env_live e' = (env_live e + d)%Z /\ (no_fail e -> no_fail e') /\ current e' = current e.

Lemma env_rel_refl e : env_rel 0 e e.
Proof. unfold env_rel. split_and!; [lia|done|done]. Qed.

Lemma env_rel_trans d1 d2 e1 e2 e3 :
  env_rel d1 e1 e2 -> env_rel d2 e2 e3 -> env_rel (d1 + d2) e1 e3.
Proof. unfold env_rel. intros (?&?&?) (?&?&?). split_and!; [lia|tauto|congruence]. Qed.

Ltac env_solve :=
  repeat match goal with
  | H : env_rel _ _ _ |- _ => destruct H as (? & ? & ?)
  end;
  unfold env_rel; split_and?; try done; first [lia | congruence | tauto].

(** ** Total correctness *)
Definition wp {S A} (m : M S A) (Q : A -> env -> S -> Prop) (e : env) (s : S) : Prop :=
  match m e s with
  | Ret (a, e', s') => Q a e' s'
  | Deadlock | Fault => False
  end.

Section wp.
Context {S : Type}.

Lemma wp_bind {A B} (m : M S A) (f : A -> M S B) Q e s :
  wp m (fun a e' s' => wp (f a) Q e' s') e s -> wp (m ≫= f) Q e s.
Proof.
  unfold wp, mbind, M_bind. by destruct (m e s) as [[[a e'] s']| |].
Qed.

Lemma wp_ret {A} (a : A) (Q : A -> env -> S -> Prop) e s :
  Q a e s -> wp (mret a) Q e s.
Proof. done. Qed.

Lemma wp_mono {A} (m : M S A) (P Q : A -> env -> S -> Prop) e s :
  wp m P e s -> (forall a e' s', P a e' s' -> Q a e' s') -> wp m Q e s.
Proof. unfold wp. destruct (m e s) as [[[a e'] s']| |]; auto. Qed.

Lemma wp_get Q e s : Q s e s -> wp (get (S := S)) Q e s.
Proof. done. Qed.

Lemma wp_put (Q : unit -> env -> S -> Prop) s' e s : Q tt e s' -> wp (put s') Q e s.
Proof. done. Qed.

Lemma wp_modify (Q : unit -> env -> S -> Prop) f e s :
  Q tt e (f s) -> wp (modify f) Q e s.
Proof. done. Qed.

Lemma wp_kcall (Q : Z -> env -> S -> Prop) e s :
  (forall r e', env_rel 0 e e' -> (no_fail e -> r = 0%Z) -> Q r e' s) -> wp kcall Q e s.
Proof.
  intros HQ. unfold wp, kcall. destruct (env_rets e) as [|r rs] eqn:E.
  - apply HQ; [apply env_rel_refl|done].
  - apply HQ; unfold env_rel, no_fail; simpl; rewrite E, ?Forall_cons_iff;
      [split_and!; [lia|tauto|done]|tauto].
Qed.

(** Success allocates one object, any nonzero code none. *)
Lemma wp_kalloc (Q : Z -> env -> S -> Prop) e s :
  (forall e', env_rel 1 e e' -> Q 0%Z e' s) ->
  (forall r e', env_rel 0 e e' -> r <> 0%Z -> ~ no_fail e -> Q r e' s) ->
  wp kalloc Q e s.
Proof.
  intros H0 H1. unfold wp, kalloc. destruct (env_rets e) as [|r rs] eqn:E.
  - apply H0. unfold env_rel, no_fail; simpl. split_and!; done.
  - destruct (Z.eqb_spec r 0) as [->|Hr]; [apply H0|apply H1; [|done|]];
      unfold env_rel, no_fail; simpl; rewrite E, ?Forall_cons_iff;
      [split_and!; [lia|tauto|done]|split_and!; [lia|tauto|done]|].
    by intros [-> _].
Qed.

Lemma wp_kfree (Q : unit -> env -> S -> Prop) e s :
  (forall e', env_rel (-1) e e' -> Q tt e' s) -> wp kfree Q e s.
Proof. intros HQ. apply HQ. unfold env_rel. simpl. split_and!; [lia|done|done]. Qed.

Lemma wp_ktime (Q : Z -> env -> S -> Prop) e s :
  (forall t e', env_rel 0 e e' -> (0 <= t < 2 ^ 64)%Z -> Q t e' s) -> wp ktime_get Q e s.
Proof.
  intros HQ. unfold wp, ktime_get. destruct (env_time e) as [|t ts].
  - apply HQ; [apply env_rel_refl|lia].
  - apply HQ; [apply (env_rel_refl e)|by apply wrap_range].
Qed.

Lemma wp_random (Q : list byte -> env -> S -> Prop) n e s :
  (forall b e', env_rel 0 e e' -> length b = n -> Q b e' s) ->
  wp (get_random_bytes n) Q e s.
Proof.
  intros HQ. unfold wp, get_random_bytes. destruct (env_rand e) as [|r rs].
  - apply HQ; [apply env_rel_refl|apply length_zeros].
  - apply HQ; [apply (env_rel_refl e)|apply length_fit].
Qed.

Lemma wp_cpu (Q : nat -> env -> S -> Prop) n e s :
  (0 < n)%nat -> (forall c e', env_rel 0 e e' -> (c < n)%nat -> Q c e' s) ->
  wp (smp_processor_id n) Q e s.
Proof.
  intros Hn HQ. unfold wp, smp_processor_id. destruct (env_cpus e) as [|c cs].
  - apply HQ; [apply env_rel_refl|lia].
  - apply HQ; [apply (env_rel_refl e)|apply Nat.mod_upper_bound; lia].
Qed.

Lemma wp_current (Q : task -> env -> S -> Prop) e s :
  Q (current e) e s -> wp get_current Q e s.
Proof. done. Qed.

Lemma wp_zoom {T A} (g : T -> S) (p : S -> T -> T) (m : M S A) Q e t :
  wp m (fun a e' s' => Q a e' (p s' t)) e (g t) -> wp (zoom g p m) Q e t.
Proof. unfold wp, zoom. by destruct (m e (g t)) as [[[a e'] s']| |]. Qed.

Lemma wp_eq {A} (m : M S A) (Q : A -> env -> S -> Prop) e s a e' s' :
  m e s = Ret (a, e', s') -> Q a e' s' -> wp m Q e s.
Proof. unfold wp. by intros ->. Qed.

Lemma wp_state {A} (m : M S A) (Q : A -> env -> S -> Prop) e s s' :
  s' = s -> wp m Q e s -> wp m Q e s'.
Proof. by intros ->. Qed.

(** From [wp] to an execution: the run returns and its result satisfies Q. *)
Lemma wp_run {A} (m : M S A) (Q : A -> env -> S -> Prop) e s :
  wp m Q e s -> exists a e' s', m e s = Ret (a, e', s') /\ Q a e' s'.
Proof.
  unfold wp. destruct (m e s) as [[[a e'] s']| |]; [|done|done]. eauto 10.
Qed.

Lemma run_wp {A} (m : M S A) (Q : A -> env -> S -> Prop) e s a e' s' :
  m e s = Ret (a, e', s') -> wp m Q e s -> Q a e' s'.
Proof. unfold wp. by intros ->. Qed.
End wp.

(** Boolean tests of the code as propositions. *)
Ltac zbool :=
  repeat match goal with
  | H : negb _ = true |- _ => apply negb_true_iff in H
  | H : negb _ = false |- _ => apply negb_false_iff in H
  | H : (_ || _) = false |- _ => apply orb_false_iff in H as [? ?]
  | H : (_ && _) = true |- _ => apply andb_true_iff in H as [? ?]
  | H : Z.eqb _ _ = true |- _ => apply Z.eqb_eq in H
  | H : Z.eqb _ _ = false |- _ => apply Z.eqb_neq in H
  end.

(** Inside [b], tests of a code known to be nonzero are false. *)
Ltac rewrite_neq0 b :=
  repeat match b with
  | context [Z.eqb ?r 0] =>
      match goal with H : r <> 0%Z |- _ => rewrite (proj2 (Z.eqb_neq r 0) H) end
  end.

(** Components extend [wp_step] by redefining [wp_extra]. *)
Ltac wp_extra := fail.
Ltac wp_step :=
  match goal with
  | |- wp (_ ≫= _) _ _ _ => apply wp_bind
  | |- wp (mret _) _ _ _ => apply wp_ret
  | |- wp get _ _ _ => apply wp_get
  | |- wp (put _) _ _ _ => apply wp_put
  | |- wp (modify _) _ _ _ => apply wp_modify
  | |- wp kcall _ _ _ => apply wp_kcall; intros ? ? ? ?
  | |- wp kalloc _ _ _ => apply wp_kalloc; [intros ? ?|intros ? ? ? ? ?]
  | |- wp kfree _ _ _ => apply wp_kfree; intros ? ?
  | |- wp ktime_get _ _ _ => apply wp_ktime; intros ? ? ? ?
  | |- wp (get_random_bytes _) _ _ _ => apply wp_random; intros ? ? ? ?
  | |- wp get_current _ _ _ => apply wp_current
  | |- wp (zoom _ _ _) _ _ _ => apply wp_zoom
  | |- wp (if ?b then ?x else ?y) ?Q ?e ?s =>
      lazymatch type of b with bool => idtac end;
      rewrite_neq0 b;
      lazymatch goal with |- wp (if ?b then ?x else ?y) ?Q ?e ?s =>
      lazymatch eval cbn in b with
      | true => change (wp x Q e s)
      | false => change (wp y Q e s)
      | _ => destruct b eqn:?; zbool; try (exfalso; first [congruence | discriminate])
      end
      | _ => idtac
      end
  | |- wp _ _ _ _ => wp_extra
  end.
Ltac wp_steps := repeat (wp_step; cbn beta iota zeta).

(** ** Mutexes
    A mutex that its own holder takes again blocks for ever. *)
Definition mutex_lock {S} (held : S -> bool) (set : bool -> S -> S) : M S unit :=
  s ← get; if held s then deadlock else modify (set true).
Definition mutex_unlock {S} (set : bool -> S -> S) : M S unit := modify (set false).

Section mutex.
Context {S : Type} (held : S -> bool) (set : bool -> S -> S).

Lemma wp_mutex_lock (Q : unit -> env -> S -> Prop) e s :
  held s = false -> Q tt e (set true s) -> wp (mutex_lock held set) Q e s.
Proof.
  intros Hh HQ. unfold mutex_lock. apply wp_bind, wp_get. rewrite Hh.
  by apply wp_modify.
Qed.

Lemma mutex_lock_held e s : held s = true -> mutex_lock held set e s = Deadlock.
Proof. intros Hh. unfold mutex_lock, mbind, M_bind, get. by rewrite Hh. Qed.

Lemma wp_mutex_unlock (Q : unit -> env -> S -> Prop) e s :
  Q tt e (set false s) -> wp (mutex_unlock set) Q e s.
Proof. done. Qed.
End mutex.
