(* ===== verification/Events.v ===== *)
(** * Event envelope and payload structs
    [include/event_manager.h]: severities, event types, detector ids, flag
    bits, the packed envelope [struct photon_event] and the five payload
    structs, each with its packed memory image.  The class [Packed] is what a
    struct promises to the code that copies it around as bytes: a fixed size
    and an image that can be read back. *)
From Stdlib Require Import ZArith Lia.
From Stdlib Require Import Strings.Byte.
From stdpp Require Import base numbers list strings option.
From S2P Require Import Prelude.

(** ** Constants of [event_manager.h] *)
Definition PHOTON_SEV_INFO : Z := 0.
Definition PHOTON_SEV_SUSPICIOUS : Z := 1.
Definition PHOTON_SEV_ALERT : Z := 2.
Definition PHOTON_SEV_CRITICAL : Z := 3.

Inductive photon_event_type :=
  | PHOTON_EVENT_PROBE_KPROBE
  | PHOTON_EVENT_PROBE_KRETPROBE
  | PHOTON_EVENT_PROBE_KALLSYMS
  | PHOTON_EVENT_FTRACE_HOOK
  | PHOTON_EVENT_PRIVESC_UID
  | PHOTON_EVENT_HIDING_PROCESS
  | PHOTON_EVENT_HIDING_NETWORK
  | PHOTON_EVENT_SYSTEM_HEARTBEAT
  | PHOTON_EVENT_SYSTEM_KEY_ROTATION.

#[export] Instance photon_event_type_eq_dec : EqDecision photon_event_type.
Proof. solve_decision. Defined.

Definition event_type_code (t : photon_event_type) : Z :=
  match t with
  | PHOTON_EVENT_PROBE_KPROBE => 1
  | PHOTON_EVENT_PROBE_KRETPROBE => 2
  | PHOTON_EVENT_PROBE_KALLSYMS => 3
  | PHOTON_EVENT_FTRACE_HOOK => 4
  | PHOTON_EVENT_PRIVESC_UID => 5
  | PHOTON_EVENT_HIDING_PROCESS => 6
  | PHOTON_EVENT_HIDING_NETWORK => 7
  | PHOTON_EVENT_SYSTEM_HEARTBEAT => 100
  | PHOTON_EVENT_SYSTEM_KEY_ROTATION => 101
  end.

Inductive photon_detector_id :=
  | PHOTON_DETECTOR_KPROBE
  | PHOTON_DETECTOR_KRETPROBE
  | PHOTON_DETECTOR_STAT
  | PHOTON_DETECTOR_BPF
  | PHOTON_DETECTOR_FTRACE
  | PHOTON_DETECTOR_PRIVESC.

#[export] Instance photon_detector_id_eq_dec : EqDecision photon_detector_id.
Proof. solve_decision. Defined.

Definition detector_id_code (d : photon_detector_id) : Z :=
  match d with
  | PHOTON_DETECTOR_KPROBE => 1
  | PHOTON_DETECTOR_KRETPROBE => 2
  | PHOTON_DETECTOR_STAT => 3
  | PHOTON_DETECTOR_BPF => 4
  | PHOTON_DETECTOR_FTRACE => 5
  | PHOTON_DETECTOR_PRIVESC => 6
  end.

Definition PHOTON_MAX_EVENT_DATA : nat := 256.

Definition PROBE_FLAG_WATCHLISTED : Z := 1.
Definition PROBE_FLAG_ANON_HANDLER : Z := 2.
Definition PROBE_FLAG_HIGH_ACTIVE : Z := 4.
Definition PROBE_FLAG_BATCH : Z := 8.

Definition FTRACE_HOOK_SRC_SET_FILTER : Z := 0.
Definition FTRACE_HOOK_SRC_SET_NOTRACE : Z := 1.
Definition FTRACE_HOOK_SRC_MODIFY : Z := 2.

Definition HIDDEN_ENTITY_PROCESS : Z := 0.
Definition HIDDEN_ENTITY_NETWORK : Z := 1.
Definition HIDDEN_FLAG_TASK_EXISTS : Z := 1.
Definition HIDDEN_FLAG_VFS_MISSING : Z := 2.
Definition HIDDEN_FLAG_IS_DIR : Z := 4.

(** ** The structs *)
Record photon_event := mk_photon_event {
  sequence_num : Z;
  timestamp_ns : Z;
  event_type : Z;
  detector_id : Z;
  severity : Z;
  _pad : list byte;
  caller_pid : Z;
  caller_comm : list byte;
  data_len : Z;
  data : list byte;
}.

Record probe_hook_data := mk_probe_hook_data {
  symbol_name : list byte;
  target_addr : Z;
  handler_addr : Z;
  entry_addr : Z;
  maxactive : Z;
  batch_count : Z;
  flags : Z;
}.

Record ftrace_hook_data := mk_ftrace_hook_data {
  target_symbol : list byte;
  fh_target_addr : Z;
  new_addr_symbol : list byte;
  new_addr : Z;
  filter_pattern : list byte;
  hook_source : Z;
}.

Record privesc_data := mk_privesc_data {
  old_uid : Z;
  new_uid : Z;
  return_addr : Z;
}.

Record hidden_entity_data := mk_hidden_entity_data {
  entity_type : Z;
  target_pid : Z;
  target_path : list byte;
  syscall_name : list byte;
  hooked_addr : Z;
  real_nlink : Z;
  he_flags : Z;
}.

Record system_data := mk_system_data {
  uptime_ns : Z;
  events_sent : Z;
  events_dropped : Z;
  new_rotation_num : Z;
}.

(** ** Reading fields back *)
Definition get_bytes (n : nat) (l : list byte) : option (list byte * list byte) :=
  if decide (n <= length l)%nat then Some (take n l, drop n l) else None.

Definition get_uint (n : nat) (l : list byte) : option (Z * list byte) :=
  '(b, l) ← get_bytes n l; Some (le_decode b, l).

(** A signed [int] is stored in two's complement. *)
Definition get_int (l : list byte) : option (Z * list byte) :=
  '(z, l) ← get_uint 4 l; Some (s32 z, l).

Definition int_range (z : Z) : Prop := (- 2 ^ 31 <= z < 2 ^ 31)%Z.
Definition uint_range (n : nat) (z : Z) : Prop := (0 <= z < 2 ^ (8 * Z.of_nat n))%Z.

Lemma get_bytes_app b l : get_bytes (length b) (b ++ l) = Some (b, l).
Proof.
  unfold get_bytes. rewrite decide_True by (rewrite length_app; lia).
  by rewrite take_app_length, drop_app_length.
Qed.

Lemma get_bytes_eq n b l : length b = n -> get_bytes n (b ++ l) = Some (b, l).
Proof. intros <-. apply get_bytes_app. Qed.

Lemma get_uint_encode n z l :
  uint_range n z -> get_uint n (le_encode n z ++ l) = Some (z, l).
Proof.
  intros Hz. unfold get_uint.
  rewrite get_bytes_eq by apply length_le_encode. simpl.
  by rewrite le_decode_encode, Z.mod_small.
Qed.

Lemma get_int_encode z l :
  int_range z -> get_int (le_encode 4 z ++ l) = Some (z, l).
Proof.
  unfold int_range. intros Hz. unfold get_int, get_uint.
  rewrite get_bytes_eq by apply length_le_encode.
  cbn -[le_encode le_decode s32]. rewrite le_decode_encode.
  change (8 * Z.of_nat 4)%Z with 32%Z.
  unfold s32, swrap, wrap. rewrite Zmod_mod. do 2 f_equal.
  change (32 - 1)%Z with 31%Z. change (2 ^ 31)%Z with 2147483648%Z in *.
  change (2 ^ 32)%Z with 4294967296%Z.
  destruct (decide (0 <= z)%Z).
  - rewrite Z.mod_small by lia. destruct (Z.ltb_spec z 2147483648); lia.
  - replace (z mod 4294967296)%Z with (z + 4294967296)%Z.
    + destruct (Z.ltb_spec (z + 4294967296) 2147483648); lia.
    + apply (Z.mod_unique_pos _ _ (-1)); lia.
Qed.

#[export] Hint Rewrite get_uint_encode get_int_encode get_bytes_eq
  using (first [assumption | by autorewrite with photon]) : photon.

(** ** The interface of a packed struct *)
Class Packed (A : Type) := {
  sizeof : nat;
  pack : A -> list byte;
  unpack : list byte -> option (A * list byte);
  packed_wf : A -> Prop;
}.
#[global] Arguments sizeof A {_} : assert.

Class PackedLaws (A : Type) `{Packed A} := {
  length_pack (a : A) : packed_wf a -> length (pack a) = sizeof A;
  unpack_pack (a : A) (rest : list byte) :
    packed_wf a -> unpack (pack a ++ rest) = Some (a, rest);
}.

Section packed.
Context `{PackedLaws A}.

Lemma pack_inj (a b : A) : packed_wf a -> packed_wf b -> pack a = pack b -> a = b.
Proof.
  intros Ha Hb E. pose proof (unpack_pack a [] Ha) as Ea.
  rewrite E, unpack_pack in Ea by done. by injection Ea.
Qed.
End packed.

Ltac packed_length :=
  intros; cbn -[le_encode] in *; destruct_and?; unfold PHOTON_MAX_EVENT_DATA in *;
  rewrite ?length_app, ?length_le_encode; lia.
Ltac packed_round :=
  intros [] rest ?; cbn -[le_encode get_uint get_int get_bytes] in *;
  destruct_and?; rewrite <- ?app_assoc;
  repeat (first
    [ rewrite get_uint_encode by assumption
    | rewrite get_int_encode by assumption
    | rewrite get_bytes_eq by assumption ];
    cbn -[le_encode get_uint get_int get_bytes]);
  reflexivity.

#[export] Instance photon_event_packed : Packed photon_event := {
  sizeof := 306;
  pack e :=
    le_encode 8 (sequence_num e) ++ le_encode 8 (timestamp_ns e) ++
    le_encode 4 (event_type e) ++ le_encode 4 (detector_id e) ++
    le_encode 1 (severity e) ++ _pad e ++ le_encode 4 (caller_pid e) ++
    caller_comm e ++ le_encode 2 (data_len e) ++ data e;
  unpack l :=
    '(sq, l) ← get_uint 8 l; '(ts, l) ← get_uint 8 l;
    '(et, l) ← get_uint 4 l; '(di, l) ← get_uint 4 l;
    '(sv, l) ← get_uint 1 l; '(pd, l) ← get_bytes 3 l;
    '(pi, l) ← get_uint 4 l; '(co, l) ← get_bytes 16 l;
    '(dl, l) ← get_uint 2 l; '(da, l) ← get_bytes PHOTON_MAX_EVENT_DATA l;
    Some (mk_photon_event sq ts et di sv pd pi co dl da, l);
  packed_wf e :=
    uint_range 8 (sequence_num e) /\ uint_range 8 (timestamp_ns e) /\
    uint_range 4 (event_type e) /\ uint_range 4 (detector_id e) /\
    uint_range 1 (severity e) /\ length (_pad e) = 3 /\
    uint_range 4 (caller_pid e) /\ length (caller_comm e) = 16 /\
    uint_range 2 (data_len e) /\ length (data e) = PHOTON_MAX_EVENT_DATA;
}.

#[export] Instance photon_event_laws : PackedLaws photon_event.
Proof. split; [packed_length|packed_round]. Qed.

#[export] Instance probe_hook_data_packed : Packed probe_hook_data := {
  sizeof := 100;
  pack p :=
    symbol_name p ++ le_encode 8 (target_addr p) ++ le_encode 8 (handler_addr p) ++
    le_encode 8 (entry_addr p) ++ le_encode 4 (maxactive p) ++
    le_encode 4 (batch_count p) ++ le_encode 4 (flags p);
  unpack l :=
    '(sn, l) ← get_bytes 64 l; '(ta, l) ← get_uint 8 l;
    '(ha, l) ← get_uint 8 l; '(ea, l) ← get_uint 8 l;
    '(ma, l) ← get_int l; '(bc, l) ← get_int l; '(fl, l) ← get_uint 4 l;
    Some (mk_probe_hook_data sn ta ha ea ma bc fl, l);
  packed_wf p :=
    length (symbol_name p) = 64 /\ uint_range 8 (target_addr p) /\
    uint_range 8 (handler_addr p) /\ uint_range 8 (entry_addr p) /\
    int_range (maxactive p) /\ int_range (batch_count p) /\ uint_range 4 (flags p);
}.

#[export] Instance probe_hook_data_laws : PackedLaws probe_hook_data.
Proof. split; [packed_length|packed_round]. Qed.

#[export] Instance ftrace_hook_data_packed : Packed ftrace_hook_data := {
  sizeof := 209;
  pack p :=
    target_symbol p ++ le_encode 8 (fh_target_addr p) ++ new_addr_symbol p ++
    le_encode 8 (new_addr p) ++ filter_pattern p ++ le_encode 1 (hook_source p);
  unpack l :=
    '(ts, l) ← get_bytes 64 l; '(ta, l) ← get_uint 8 l;
    '(ns, l) ← get_bytes 64 l; '(na, l) ← get_uint 8 l;
    '(fp, l) ← get_bytes 64 l; '(hs, l) ← get_uint 1 l;
    Some (mk_ftrace_hook_data ts ta ns na fp hs, l);
  packed_wf p :=
    length (target_symbol p) = 64 /\ uint_range 8 (fh_target_addr p) /\
    length (new_addr_symbol p) = 64 /\ uint_range 8 (new_addr p) /\
    length (filter_pattern p) = 64 /\ uint_range 1 (hook_source p);
}.

#[export] Instance ftrace_hook_data_laws : PackedLaws ftrace_hook_data.
Proof. split; [packed_length|packed_round]. Qed.

#[export] Instance privesc_data_packed : Packed privesc_data := {
  sizeof := 16;
  pack p :=
    le_encode 4 (old_uid p) ++ le_encode 4 (new_uid p) ++ le_encode 8 (return_addr p);
  unpack l :=
    '(ou, l) ← get_uint 4 l; '(nu, l) ← get_uint 4 l; '(ra, l) ← get_uint 8 l;
    Some (mk_privesc_data ou nu ra, l);
  packed_wf p :=
    uint_range 4 (old_uid p) /\ uint_range 4 (new_uid p) /\ uint_range 8 (return_addr p);
}.

#[export] Instance privesc_data_laws : PackedLaws privesc_data.
Proof. split; [packed_length|packed_round]. Qed.

#[export] Instance hidden_entity_data_packed : Packed hidden_entity_data := {
  sizeof := 117;
  pack p :=
    le_encode 1 (entity_type p) ++ le_encode 4 (target_pid p) ++ target_path p ++
    syscall_name p ++ le_encode 8 (hooked_addr p) ++ le_encode 4 (real_nlink p) ++
    le_encode 4 (he_flags p);
  unpack l :=
    '(et, l) ← get_uint 1 l; '(tp, l) ← get_uint 4 l;
    '(pa, l) ← get_bytes 64 l; '(sc, l) ← get_bytes 32 l;
    '(ha, l) ← get_uint 8 l; '(nl, l) ← get_uint 4 l; '(fl, l) ← get_uint 4 l;
    Some (mk_hidden_entity_data et tp pa sc ha nl fl, l);
  packed_wf p :=
    uint_range 1 (entity_type p) /\ uint_range 4 (target_pid p) /\
    length (target_path p) = 64 /\ length (syscall_name p) = 32 /\
    uint_range 8 (hooked_addr p) /\ uint_range 4 (real_nlink p) /\
    uint_range 4 (he_flags p);
}.

#[export] Instance hidden_entity_data_laws : PackedLaws hidden_entity_data.
Proof. split; [packed_length|packed_round]. Qed.

#[export] Instance system_data_packed : Packed system_data := {
  sizeof := 32;
  pack p :=
    le_encode 8 (uptime_ns p) ++ le_encode 8 (events_sent p) ++
    le_encode 8 (events_dropped p) ++ le_encode 8 (new_rotation_num p);
  unpack l :=
    '(up, l) ← get_uint 8 l; '(es, l) ← get_uint 8 l;
    '(ed, l) ← get_uint 8 l; '(nr, l) ← get_uint 8 l;
    Some (mk_system_data up es ed nr, l);
  packed_wf p :=
    uint_range 8 (uptime_ns p) /\ uint_range 8 (events_sent p) /\
    uint_range 8 (events_dropped p) /\ uint_range 8 (new_rotation_num p);
}.

#[export] Instance system_data_laws : PackedLaws system_data.
Proof. split; [packed_length|packed_round]. Qed.
