(* ===== verification/Ring.v ===== *)
(** * Ring buffers and their bounded-FIFO contract
    The head/tail arithmetic the two rings of the module share
    ([struct event_buffer] and [struct photon_ring_buf] both use
    "[(head + 1) % capacity == tail] is full, [head == tail] is empty"), and
    the class [BoundedQueue] that states what a ring promises to its clients:
    a FIFO of at most [capacity - 1] elements that counts what it drops.
    Any implementation of the class refines the abstract queue [spec_step] on
    every sequence of operations. *)
From Stdlib Require Import ZArith Lia.
From stdpp Require Import base numbers list option.
From S2P Require Import Prelude Kernel.

Definition ring_len (cap head tail : Z) : Z := ((head - tail) mod cap)%Z.

Section ring.
Context {A : Type} `{Inhabited A}.

Definition ring_view (slots : list A) (cap head tail : Z) : list A :=
  (fun k => slots !!! Z.to_nat ((tail + k) mod cap)) <$> seqZ 0 (ring_len cap head tail).

Definition ring_ok (slots : list A) (cap head tail : Z) : Prop :=
  (1 < cap < 2 ^ 32)%Z /\ Z.of_nat (length slots) = cap /\
  (0 <= head < cap)%Z /\ (0 <= tail < cap)%Z.

Implicit Types slots : list A.

Lemma ring_next slots cap head tail :
  ring_ok slots cap head tail -> (u32 (head + 1) mod cap)%Z = ((head + 1) mod cap)%Z.
Proof. intros (? & ? & ? & ?). by rewrite (wrap_small 32) by lia. Qed.

Lemma ring_len_range cap head tail :
  (0 < cap)%Z -> (0 <= ring_len cap head tail < cap)%Z.
Proof. intros. by apply Z.mod_pos_bound. Qed.

Lemma length_ring_view slots cap head tail :
  length (ring_view slots cap head tail) = Z.to_nat (ring_len cap head tail).
Proof. unfold ring_view. by rewrite length_fmap, length_seqZ. Qed.

Lemma ring_len_small cap head tail :
  (0 <= head < cap)%Z -> (0 <= tail < cap)%Z ->
  ring_len cap head tail = (if Z.leb tail head then head - tail else head - tail + cap)%Z.
Proof.
  intros. unfold ring_len. destruct (Z.leb_spec tail head).
  - apply Z.mod_small; lia.
  - symmetry. apply (Z.mod_unique_pos _ _ (-1)); lia.
Qed.

Lemma mod_succ_small cap head :
  (0 <= head < cap)%Z ->
  ((head + 1) mod cap)%Z = (if Z.eqb (head + 1) cap then 0 else head + 1)%Z.
Proof.
  intros. destruct (Z.eqb_spec (head + 1) cap) as [->|].
  - apply Z_mod_same_full.
  - apply Z.mod_small; lia.
Qed.

Lemma ring_empty_iff slots cap head tail :
  ring_ok slots cap head tail ->
  Z.eqb head tail = true <-> ring_view slots cap head tail = [].
Proof.
  intros (? & ? & ? & ?). rewrite Z.eqb_eq. split.
  - intros ->. unfold ring_view, ring_len. by rewrite Z.sub_diag, Z.mod_0_l by lia.
  - intros E%(f_equal length). rewrite length_ring_view, ring_len_small in E by lia.
    simpl in E. destruct (Z.leb_spec tail head); lia.
Qed.

Lemma ring_full_iff slots cap head tail :
  ring_ok slots cap head tail ->
  Z.eqb (u32 (head + 1) mod cap) tail = true <->
  Z.of_nat (length (ring_view slots cap head tail)) = (cap - 1)%Z.
Proof.
  intros Hok. rewrite (ring_next slots _ _ tail) by done.
  destruct Hok as (? & ? & ? & ?). rewrite Z.eqb_eq, length_ring_view.
  rewrite ring_len_small, mod_succ_small by lia.
  destruct (Z.eqb_spec (head + 1) cap), (Z.leb_spec tail head); lia.
Qed.

Lemma ring_push slots cap head tail x :
  ring_ok slots cap head tail ->
  Z.eqb (u32 (head + 1) mod cap) tail = false ->
  ring_ok (<[Z.to_nat head := x]> slots) cap (u32 (head + 1) mod cap) tail /\
  ring_view (<[Z.to_nat head := x]> slots) cap (u32 (head + 1) mod cap) tail =
  ring_view slots cap head tail ++ [x].
Proof.
  intros Hok Hnf. rewrite (ring_next slots _ _ tail) in * by done.
  pose proof Hok as (? & Hl & ? & ?). apply Z.eqb_neq in Hnf.
  pose proof (Z.mod_pos_bound (head + 1) cap ltac:(lia)).
  split; [unfold ring_ok; rewrite length_insert; lia|].
  assert (ring_len cap ((head + 1) mod cap) tail = ring_len cap head tail + 1)%Z as El.
  { rewrite !ring_len_small by lia. rewrite mod_succ_small in * by lia.
    destruct (Z.eqb_spec (head + 1) cap), (Z.leb_spec tail head); 
      repeat case_match; lia. }
  pose proof (ring_len_range cap head tail ltac:(lia)).
  unfold ring_view. rewrite El, seqZ_app by lia. rewrite fmap_app. f_equal.
  - apply list_fmap_ext. intros i k [-> Hk]%lookup_seqZ.
    rewrite list_lookup_total_insert_ne; [done|].
    intros E. apply Z2Nat.inj in E; [|lia|by apply Z.mod_pos_bound; lia].
    apply (f_equal (fun z => (z - tail) mod cap)%Z) in E.
    fold (ring_len cap head tail) in E.
    rewrite Zminus_mod_idemp_l in E.
    replace (tail + (0 + Z.of_nat i) - tail)%Z with (Z.of_nat i) in E by lia.
    rewrite Z.mod_small in E by lia. lia.
  - replace (seqZ (0 + ring_len cap head tail) 1) with [ring_len cap head tail].
    2: { rewrite (seqZ_cons _ 1) by lia. by rewrite Z.add_0_l. }
    simpl. f_equal.
    replace ((tail + ring_len cap head tail) mod cap)%Z with head.
    + rewrite list_lookup_total_insert_eq by lia. done.
    + unfold ring_len. rewrite Zplus_mod_idemp_r.
      replace (tail + (head - tail))%Z with head by lia.
      by rewrite Z.mod_small by lia.
Qed.

Lemma ring_pop slots cap head tail :
  ring_ok slots cap head tail ->
  Z.eqb head tail = false ->
  ring_ok slots cap head (u32 (tail + 1) mod cap) /\
  ring_view slots cap head tail =
  slots !!! Z.to_nat tail :: ring_view slots cap head (u32 (tail + 1) mod cap).
Proof.
  intros Hok Hne. pose proof Hok as (? & Hl & ? & ?). apply Z.eqb_neq in Hne.
  rewrite (wrap_small 32) by lia.
  pose proof (Z.mod_pos_bound (tail + 1) cap ltac:(lia)).
  split; [unfold ring_ok; lia|].
  assert (ring_len cap head tail = ring_len cap head ((tail + 1) mod cap) + 1)%Z as El.
  { rewrite !ring_len_small by lia. rewrite mod_succ_small in * by lia.
    destruct (Z.eqb_spec (tail + 1) cap), (Z.leb_spec tail head);
      repeat case_match; lia. }
  pose proof (ring_len_range cap head ((tail + 1) mod cap) ltac:(lia)).
  unfold ring_view. rewrite El, seqZ_cons by lia. simpl. f_equal.
  - by rewrite Z.add_0_r, Z.mod_small by lia.
  - replace (Z.pred (ring_len cap head ((tail + 1) mod cap) + 1))%Z
      with (ring_len cap head ((tail + 1) mod cap)) by lia.
    change (Z.succ 0) with 1%Z.
    replace 1%Z with (Z.succ 0) at 1 by lia. rewrite <- (fmap_add_seqZ 1 0).
    rewrite <- list_fmap_compose. apply list_fmap_ext. intros i k _. simpl.
    rewrite Zplus_mod_idemp_l. do 3 f_equal. lia.
Qed.

(** Changing the slot at [tail] does not affect the elements after it. *)
Lemma ring_view_insert_tail slots cap head tail x :
  ring_ok slots cap head tail -> Z.eqb head tail = false ->
  ring_view (<[Z.to_nat tail := x]> slots) cap head (u32 (tail + 1) mod cap) =
  ring_view slots cap head (u32 (tail + 1) mod cap).
Proof.
  intros Hok Hne. destruct (ring_pop _ _ _ _ Hok Hne) as [Hok' Hv].
  pose proof Hok as (? & Hl & ? & ?).
  assert (ring_ok (<[Z.to_nat tail := x]> slots) cap head tail) as Hok2
    by (unfold ring_ok; rewrite length_insert; lia).
  destruct (ring_pop _ _ _ _ Hok2 Hne) as [_ Hv2].
  enough (ring_view (<[Z.to_nat tail := x]> slots) cap head tail =
          x :: ring_view slots cap head (u32 (tail + 1) mod cap)) as E.
  { rewrite Hv2 in E. by injection E. }
  apply list_eq. intros i. unfold ring_view in *.
  destruct i as [|i].
  { rewrite Hv2. simpl. by rewrite list_lookup_total_insert_eq by lia. }
  trans (drop 1 ((fun k => slots !!! Z.to_nat ((tail + k) mod cap)) <$>
                 seqZ 0 (ring_len cap head tail)) !! i).
  2: { rewrite Hv. done. }
  rewrite lookup_drop, !list_lookup_fmap. simpl.
  destruct (seqZ 0 (ring_len cap head tail) !! S i) as [k|] eqn:Ek; [|done].
  apply lookup_seqZ in Ek as [-> Hk]. simpl.
  rewrite list_lookup_total_insert_ne; [done|].
  pose proof (ring_len_range cap head tail ltac:(lia)).
  intros E. apply Z2Nat.inj in E; [|lia|by apply Z.mod_pos_bound; lia].
  apply (f_equal (fun z => (z - tail) mod cap)%Z) in E.
  rewrite Zminus_mod_idemp_l, Z.sub_diag, Z.mod_0_l in E by lia.
  replace (tail + (0 + Z.of_nat (S i)) - tail)%Z with (Z.of_nat (S i)) in E by lia.
  rewrite Z.mod_small in E by lia. lia.
Qed.
End ring.

(** ** The abstract queue *)
Inductive qop (A : Type) := Enq (a : A) | Deq.
Arguments Enq {A} _.
Arguments Deq {A}.

Inductive qres (A : Type) := REnq (ret : Z) | RDeq (o : option A).
Arguments REnq {A} _.
Arguments RDeq {A} _.

(** One operation on a FIFO of at most [room] elements with a u32 drop counter. *)
Definition spec_step {A} (room : nat) (op : qop A) (st : list A * Z)
    : qres A * (list A * Z) :=
  let '(l, dropped) := st in
  match op with
  | Enq a =>
      if decide (length l < room)%nat then (REnq 0, (l ++ [a], dropped))
      else (REnq (- ENOSPC), (l, u32 (dropped + 1)))
  | Deq =>
      match l with
      | [] => (RDeq None, ([], dropped))
      | a :: l => (RDeq (Some a), (l, dropped))
      end
  end.

Fixpoint spec_run {A} (room : nat) (ops : list (qop A)) (st : list A * Z)
    : list (qres A) * (list A * Z) :=
  match ops with
  | [] => ([], st)
  | op :: ops =>
      let (r, st) := spec_step room op st in
      let (rs, st) := spec_run room ops st in (r :: rs, st)
  end.

(** ** What a ring promises *)
Class BoundedQueue (Q A : Type) := {
  bq_inv : Q -> Prop;
  bq_view : Q -> list A;
  bq_room : Q -> nat;
  bq_dropped : Q -> Z;
  bq_elem : A -> Prop;
  bq_enq : A -> M Q Z;
  bq_deq : M Q (option A);
}.

Class BoundedQueueLaws (Q A : Type) `{BoundedQueue Q A} := {
  bq_bound (q : Q) : bq_inv q -> (length (bq_view q) <= bq_room q)%nat;
  bq_enq_room (a : A) (e : env) (q : Q) :
    bq_inv q -> bq_elem a -> (length (bq_view q) < bq_room q)%nat ->
    exists q', bq_enq a e q = Ret (0%Z, e, q') /\ bq_inv q' /\
      bq_view q' = bq_view q ++ [a] /\ bq_dropped q' = bq_dropped q /\
      bq_room q' = bq_room q;
  bq_enq_full (a : A) (e : env) (q : Q) :
    bq_inv q -> length (bq_view q) = bq_room q ->
    exists q', bq_enq a e q = Ret ((- ENOSPC)%Z, e, q') /\ bq_inv q' /\
      bq_view q' = bq_view q /\ bq_dropped q' = u32 (bq_dropped q + 1) /\
      bq_room q' = bq_room q;
  bq_deq_empty (e : env) (q : Q) :
    bq_inv q -> bq_view q = [] -> bq_deq e q = Ret (None, e, q);
  bq_deq_cons (e : env) (q : Q) (a : A) (l : list A) :
    bq_inv q -> bq_view q = a :: l ->
    exists q', bq_deq e q = Ret (Some a, e, q') /\ bq_inv q' /\
      bq_view q' = l /\ bq_dropped q' = bq_dropped q /\ bq_room q' = bq_room q;
}.

Section refinement.
Context {Q A : Type} `{BoundedQueueLaws Q A}.

Definition impl_step (op : qop A) : M Q (qres A) :=
  match op with
  | Enq a => r ← bq_enq a; mret (REnq r)
  | Deq => o ← bq_deq; mret (RDeq o)
  end.

Fixpoint impl_run (ops : list (qop A)) : M Q (list (qres A)) :=
  match ops with
  | [] => mret []
  | op :: ops => r ← impl_step op; rs ← impl_run ops; mret (r :: rs)
  end.

Definition op_ok (op : qop A) : Prop :=
  match op with Enq a => bq_elem a | Deq => True end.

Lemma impl_step_refines op e (q : Q) :
  bq_inv q -> op_ok op ->
  exists q', impl_step op e q = Ret ((spec_step (bq_room q) op (bq_view q, bq_dropped q)).1, e, q') /\
    bq_inv q' /\ bq_room q' = bq_room q /\
    (bq_view q', bq_dropped q') = (spec_step (bq_room q) op (bq_view q, bq_dropped q)).2.
Proof.
  intros Hq Hop. pose proof (bq_bound q Hq) as Hb.
  destruct op as [a|]; simpl; unfold mbind, M_bind.
  - case_decide as Hr.
    + destruct (bq_enq_room a e q) as (q' & -> & ? & ? & ? & ?); [done..|].
      exists q'. simpl. repeat split; try done. congruence.
    + destruct (bq_enq_full a e q) as (q' & -> & ? & ? & ? & ?); [done|lia|].
      exists q'. simpl. repeat split; try done. congruence.
  - destruct (bq_view q) as [|a l] eqn:Ev.
    + rewrite bq_deq_empty by done. exists q. simpl. by rewrite Ev.
    + destruct (bq_deq_cons e q a l) as (q' & -> & ? & ? & ? & ?); [done..|].
      exists q'. simpl. repeat split; try done. congruence.
Qed.

(** Every implementation of the class refines the abstract queue. *)
Lemma impl_run_refines ops e (q : Q) :
  bq_inv q -> Forall op_ok ops ->
  exists q', impl_run ops e q = Ret ((spec_run (bq_room q) ops (bq_view q, bq_dropped q)).1, e, q') /\
    bq_inv q' /\
    (bq_view q', bq_dropped q') = (spec_run (bq_room q) ops (bq_view q, bq_dropped q)).2.
Proof.
  revert q. induction ops as [|op ops IH]; intros q Hq Hops.
  - exists q. done.
  - apply Forall_cons_iff in Hops as [Hop Hops].
    destruct (impl_step_refines op e q Hq Hop) as (q1 & Es & Hq1 & Er & Ev).
    destruct (IH q1 Hq1 Hops) as (q2 & Ers & Hq2 & Ev2).
    destruct (spec_step (bq_room q) op (bq_view q, bq_dropped q)) as [r st] eqn:Est.
    simpl in Es, Ev. rewrite Er, Ev in Ers, Ev2.
    exists q2. cbn [spec_run impl_run]. rewrite Est.
    unfold mbind, M_bind. rewrite Es, Ers.
    by destruct (spec_run (bq_room q) ops st) as [rs st'].
Qed.
End refinement.
