(* ===== verification/Crypto.v ===== *)
(** * The crypto layer
    [comms/crypto.c] with [include/crypto.h]: HKDF-SHA256 session keys, the
    AES-256-GCM encryption of events, master-key installation and teardown.
    HMAC-SHA256 and the AEAD are the kernel's crypto API, code outside the
    repository: they are parameters, and every allocation and API call takes
    its return code from the environment.  [photon_rotate_key] is in
    [Device], because it reports through the event manager. *)
From Stdlib Require Import ZArith Lia.
From Stdlib Require Import Strings.Byte Strings.String.
From stdpp Require Import base numbers list strings option.
From S2P Require Import Prelude CString Kernel Events.

Definition PHOTON_KEY_SIZE : nat := 32.
Definition PHOTON_IV_SIZE : nat := 12.
Definition PHOTON_TAG_SIZE : nat := 16.

(** [struct crypto_aead]: [None] as key is CRYPTO_TFM_NEED_KEY. *)
Record crypto_aead := mk_crypto_aead {
  tfm_key : option (list byte);
  tfm_authsize : Z;
}.

(** The statics of crypto.c. *)
Record crypto_state := mk_crypto_state {
  g_tfm : option crypto_aead;
  g_master_key : list byte;
  g_session_key : list byte;
  g_key_set : bool;
  g_rotation_counter : Z;
  crypto_mutex : bool;
  crypto_enc_lock : bool;
  g_encryptions : Z;
  g_decryptions : Z;
}.

Definition set_tfm t st := mk_crypto_state t (g_master_key st) (g_session_key st)
  (g_key_set st) (g_rotation_counter st) (crypto_mutex st) (crypto_enc_lock st) (g_encryptions st) (g_decryptions st).
Definition set_master k st := mk_crypto_state (g_tfm st) k (g_session_key st)
  (g_key_set st) (g_rotation_counter st) (crypto_mutex st) (crypto_enc_lock st) (g_encryptions st) (g_decryptions st).
Definition set_session k st := mk_crypto_state (g_tfm st) (g_master_key st) k
  (g_key_set st) (g_rotation_counter st) (crypto_mutex st) (crypto_enc_lock st) (g_encryptions st) (g_decryptions st).
Definition set_key_set b st := mk_crypto_state (g_tfm st) (g_master_key st) (g_session_key st)
  b (g_rotation_counter st) (crypto_mutex st) (crypto_enc_lock st) (g_encryptions st) (g_decryptions st).
Definition set_rotation r st := mk_crypto_state (g_tfm st) (g_master_key st) (g_session_key st)
  (g_key_set st) r (crypto_mutex st) (crypto_enc_lock st) (g_encryptions st) (g_decryptions st).
Definition set_mutex b st := mk_crypto_state (g_tfm st) (g_master_key st) (g_session_key st)
  (g_key_set st) (g_rotation_counter st) b (crypto_enc_lock st) (g_encryptions st) (g_decryptions st).
Definition set_enc_lock b st := mk_crypto_state (g_tfm st) (g_master_key st) (g_session_key st)
  (g_key_set st) (g_rotation_counter st) (crypto_mutex st) b (g_encryptions st) (g_decryptions st).
Definition set_encryptions n st := mk_crypto_state (g_tfm st) (g_master_key st) (g_session_key st)
  (g_key_set st) (g_rotation_counter st) (crypto_mutex st) (crypto_enc_lock st) n (g_decryptions st).
Definition set_decryptions n st := mk_crypto_state (g_tfm st) (g_master_key st) (g_session_key st)
  (g_key_set st) (g_rotation_counter st) (crypto_mutex st) (crypto_enc_lock st) (g_encryptions st) n.

(** The statics when the module is loaded. *)
Definition crypto_initial : crypto_state :=
  mk_crypto_state None (zeros PHOTON_KEY_SIZE) (zeros PHOTON_KEY_SIZE) false 0 false false 0 0.

(** [struct photon_encrypted_msg] of cdev_ch.h *)
Record photon_encrypted_msg := mk_photon_encrypted_msg {
  enc_sequence_num : Z;
  rotation_num : Z;
  iv : list byte;
  encrypted_len : Z;
  auth_tag : list byte;
  encrypted_data : list byte;
}.

Definition pack_encrypted_msg (m : photon_encrypted_msg) : list byte :=
  le_encode 8 (enc_sequence_num m) ++ le_encode 8 (rotation_num m) ++ iv m ++
  le_encode 2 (encrypted_len m) ++ auth_tag m ++ encrypted_data m.

(** A computation that stops at the first error code ([if (ret) goto out]). *)
Abbreviation MR A := (M crypto_state (Z + A)).
Definition mr_ok {A} (a : A) : MR A := fun e s => Ret (inr a, e, s).
Definition mr_err {A} (err : Z) : MR A := fun e s => Ret (inl err, e, s).
Definition mr_bind {A B} (m : MR A) (f : A -> MR B) : MR B := fun e s =>
  match m e s with
  | Ret (inr a, e', s') => f a e' s'
  | Ret (inl err, e', s') => Ret (inl err, e', s')
  | Deadlock => Deadlock
  | Fault => Fault
  end.
Notation "x ←? m ; k" := (mr_bind m (fun x => k))
  (at level 20, m at level 100, k at level 200, format "x  ←?  m ;  '/' k") : photon_scope.
Open Scope photon_scope.

Definition EBADMSG : Z := 74.

(** [ret = call(...); if (ret) goto out;] *)
Definition check_call : MR unit :=
  r ← kcall; if Z.eqb r 0 then mr_ok tt else mr_err r.

Section crypto.
Context (hmac_sha256 : list byte -> list byte -> list byte).
Context (aead_encrypt : list byte -> list byte -> list byte -> list byte).
Context (aead_decrypt : list byte -> list byte -> list byte -> option (list byte)).

Definition verify_crypto_transform (st : crypto_state) : Z :=
  match g_tfm st with
  | None => - EINVAL
  | Some _ => if negb (g_key_set st) then - ENOKEY else 0
  end.

Definition photon_get_random_iv : M crypto_state (list byte) :=
  get_random_bytes PHOTON_IV_SIZE.

Definition photon_get_rotation_number (st : crypto_state) : Z := g_rotation_counter st.

Definition photon_has_key (st : crypto_state) : bool := g_key_set st.

(** The shash API: [init] empties the message, [update] appends to it,
    [final] returns the HMAC of the message under the key of [setkey]. *)
Definition shash_update (msg data : list byte) : MR (list byte) :=
  _ ←? check_call; mr_ok (msg ++ data).
Definition shash_final (key msg : list byte) : MR (list byte) :=
  _ ←? check_call; mr_ok (hmac_sha256 key msg).

(** Allocate the transform and its descriptor, run [body], free both. *)
Definition with_shash (body : MR (list byte)) : MR (list byte) :=
  r ← kalloc;                                  (* crypto_alloc_shash *)
  if negb (Z.eqb r 0) then mr_err r else
  r ← kalloc;                                  (* kmalloc of the descriptor *)
  if negb (Z.eqb r 0) then (kfree ;; mr_err (- ENOMEM)) else
  res ← body;
  kfree ;; kfree ;; mret res.

Definition hkdf_extract (salt ikm : list byte) : MR (list byte) :=
  with_shash (
    _ ←? check_call;                           (* crypto_shash_setkey (salt) *)
    _ ←? check_call;                           (* crypto_shash_init *)
    msg ←? shash_update [] ikm;
    shash_final salt msg).

(** The loop of [hkdf_expand] from position [pos] with [okm] written so far. *)
Fixpoint hkdf_expand_loop (fuel : nat) (prk info t okm : list byte)
    (counter : Z) (pos okm_len : nat) : MR (list byte) :=
  if decide (pos < okm_len)%nat then
    match fuel with
    | O => deadlock
    | S fuel =>
        _ ←? check_call;                       (* crypto_shash_init *)
        msg ←? (if (1 <? counter)%Z then shash_update [] t else mr_ok []);
        msg ←? (match info with [] => mr_ok msg | _ => shash_update msg info end);
        msg ←? shash_update msg [byte_of_Z counter];
        t ←? shash_final prk msg;
        let copy_len := Nat.min (okm_len - pos) 32 in
        hkdf_expand_loop fuel prk info t (okm ++ take copy_len t)
          (u8 (counter + 1)) (pos + copy_len) okm_len
    end
  else mr_ok okm.

(** Each iteration writes at least one byte: [okm_len] iterations suffice. *)
Definition hkdf_expand (prk info : list byte) (okm_len : nat) : MR (list byte) :=
  if decide (255 * 32 < okm_len)%nat then mr_err (- EINVAL) else
  with_shash (
    _ ←? check_call;                           (* crypto_shash_setkey (prk) *)
    hkdf_expand_loop okm_len prk info (zeros 32) [] 1 0 okm_len).

Definition session_info (rotation : Z) : list byte :=
  list_byte_of_string (String.append "photon-ring-v1-" (print_u64 rotation)).

Definition lock_crypto : M crypto_state unit := mutex_lock crypto_mutex set_mutex.
Definition unlock_crypto : M crypto_state unit := mutex_unlock set_mutex.
Definition lock_enc : M crypto_state unit := mutex_lock crypto_enc_lock set_enc_lock.
Definition unlock_enc : M crypto_state unit := mutex_unlock set_enc_lock.

Definition photon_derive_session_key (rotation : Z) : MR (list byte) :=
  st ← get;
  if negb (g_key_set st) then mr_err (- ENOKEY) else
  lock_crypto ;;
  st ← get;
  res ← (prk ←? hkdf_extract (le_encode 8 rotation) (g_master_key st);
         hkdf_expand prk (session_info rotation) PHOTON_KEY_SIZE);
  unlock_crypto ;;
  mret res.

(** [crypto_aead_setkey]: a failure leaves the transform without a key. *)
Definition crypto_aead_setkey (key : list byte) : M crypto_state Z :=
  r ← kcall;
  st ← get;
  match g_tfm st with
  | None => fault
  | Some t =>
      modify (set_tfm (Some (mk_crypto_aead
        (if Z.eqb r 0 then Some key else None) (tfm_authsize t)))) ;;
      mret r
  end.

Definition crypto_aead_setauthsize (n : Z) : M crypto_state Z :=
  r ← kcall;
  st ← get;
  match g_tfm st with
  | None => fault
  | Some t =>
      (if Z.eqb r 0 then modify (set_tfm (Some (mk_crypto_aead (tfm_key t) n)))
       else mret tt) ;;
      mret r
  end.

Definition wipe_keys : M crypto_state unit :=
  modify (set_master (zeros PHOTON_KEY_SIZE)) ;;
  modify (set_session (zeros PHOTON_KEY_SIZE)) ;;
  modify (set_key_set false).

Definition photon_set_encryption_key (key : option (list byte)) : M crypto_state Z :=
  match key with
  | None => mret (- EINVAL)%Z
  | Some key =>
    st ← get;
    match g_tfm st with
    | None => mret (- EINVAL)%Z
    | Some _ =>
      lock_crypto ;;
      modify (set_master (fit PHOTON_KEY_SIZE key)) ;;
      modify (set_key_set true) ;;
      unlock_crypto ;;
      res ← photon_derive_session_key 0;
      match res with
      | inl err =>
          lock_crypto ;;
          modify (set_master (zeros PHOTON_KEY_SIZE)) ;;
          modify (set_key_set false) ;;
          unlock_crypto ;;
          mret err
      | inr derived_key =>
          lock_crypto ;;
          modify (set_session derived_key) ;;
          ret ← crypto_aead_setkey derived_key;
          ret ← (if negb (Z.eqb ret 0) then (wipe_keys ;; mret ret) else
                 ret ← crypto_aead_setauthsize (Z.of_nat PHOTON_TAG_SIZE);
                 if negb (Z.eqb ret 0) then (wipe_keys ;; mret ret) else
                 modify (set_rotation 0) ;; mret 0%Z);
          unlock_crypto ;;
          mret ret
      end
    end
  end.

Definition crypto_aead_encrypt (nonce plaintext : list byte)
    : M crypto_state (Z * list byte) :=
  st ← get;
  match g_tfm st with
  | None => fault
  | Some t =>
      match tfm_key t with
      | None => mret ((- ENOKEY)%Z, [])
      | Some key =>
          r ← kcall;
          if Z.eqb r 0 then mret (0%Z, aead_encrypt key nonce plaintext)
          else mret (r, [])
      end
  end.

Definition crypto_aead_decrypt (nonce ciphertext : list byte)
    : M crypto_state (Z * list byte) :=
  st ← get;
  match g_tfm st with
  | None => fault
  | Some t =>
      match tfm_key t with
      | None => mret ((- ENOKEY)%Z, [])
      | Some key =>
          r ← kcall;
          if negb (Z.eqb r 0) then mret (r, []) else
          match aead_decrypt key nonce ciphertext with
          | Some plaintext => mret (0%Z, plaintext)
          | None => mret ((- EBADMSG)%Z, [])
          end
      end
  end.

Definition kfree_if (b : bool) : M crypto_state unit := if b then kfree else mret tt.

Definition set_iv (nonce : list byte) (m : photon_encrypted_msg) : photon_encrypted_msg :=
  mk_photon_encrypted_msg (enc_sequence_num m) (rotation_num m) nonce
    (encrypted_len m) (auth_tag m) (encrypted_data m).

Definition photon_encrypt_event (event : photon_event) (enc_msg : photon_encrypted_msg)
    : M crypto_state (Z * photon_encrypted_msg) :=
  st ← get;
  let ret := verify_crypto_transform st in
  if negb (Z.eqb ret 0) then mret (ret, enc_msg) else
  let plaintext_len := sizeof photon_event in
  p ← kalloc;                                       (* plaintext *)
  c ← kalloc;                                       (* ciphertext *)
  res ← (if negb (Z.eqb p 0) || negb (Z.eqb c 0)
         then mret ((- ENOMEM)%Z, enc_msg, false) else
         nonce ← photon_get_random_iv;
         let enc_msg := set_iv nonce enc_msg in
         q ← kalloc;                                (* aead_request_alloc *)
         if negb (Z.eqb q 0) then mret ((- ENOMEM)%Z, enc_msg, false) else
         lock_enc ;;
         out ← crypto_aead_encrypt nonce (pack event);
         unlock_enc ;;
         if negb (Z.eqb out.1 0) then mret (out.1, enc_msg, true) else
         modify (fun st => set_encryptions (u64 (g_encryptions st + 1)) st) ;;
         mret (0%Z,
           mk_photon_encrypted_msg (sequence_num event) (rotation_num enc_msg) nonce
             (Z.of_nat plaintext_len)
             (take PHOTON_TAG_SIZE (drop plaintext_len out.2))
             (take plaintext_len out.2),
           true));
  kfree_if (Z.eqb p 0) ;;
  kfree_if (Z.eqb c 0) ;;
  kfree_if res.2 ;;
  mret (res.1.1, res.1.2).

(** [None]: the event buffer is left as it was.  Copying a whole
    [struct photon_event] out of a shorter plaintext buffer reads past its end. *)
Definition photon_decrypt_event (enc_msg : photon_encrypted_msg)
    : M crypto_state (Z * option photon_event) :=
  st ← get;
  let ret := verify_crypto_transform st in
  if negb (Z.eqb ret 0) then mret (ret, None) else
  let plaintext_len := Z.to_nat (encrypted_len enc_msg) in
  c ← kalloc;                                       (* ciphertext *)
  p ← kalloc;                                       (* plaintext *)
  res ← (if negb (Z.eqb c 0) || negb (Z.eqb p 0)
         then mret ((- ENOMEM)%Z, None, false) else
         if decide (length (encrypted_data enc_msg) < plaintext_len)%nat then fault else
         let ciphertext := take plaintext_len (encrypted_data enc_msg) ++ auth_tag enc_msg in
         q ← kalloc;                                (* aead_request_alloc *)
         if negb (Z.eqb q 0) then mret ((- ENOMEM)%Z, None, false) else
         lock_crypto ;;
         out ← crypto_aead_decrypt (iv enc_msg) ciphertext;
         unlock_crypto ;;
         if negb (Z.eqb out.1 0) then mret (out.1, None, true) else
         if decide (plaintext_len < sizeof photon_event)%nat then fault else
         modify (fun st => set_decryptions (u64 (g_decryptions st + 1)) st) ;;
         mret (0%Z, fst <$> unpack (take (sizeof photon_event) out.2), true));
  kfree_if (Z.eqb c 0) ;;
  kfree_if (Z.eqb p 0) ;;
  kfree_if res.2 ;;
  mret (res.1.1, res.1.2).

(** [crypto_layer_init]: [IS_ERR] is any nonzero code of the allocator. *)
Definition crypto_layer_init : M crypto_state Z :=
  r ← kalloc;
  if negb (Z.eqb r 0) then (modify (set_tfm None) ;; mret r) else
  modify (set_tfm (Some (mk_crypto_aead None 0))) ;;
  mret 0%Z.

Definition crypto_layer_exit : M crypto_state unit :=
  st ← get;
  (if g_key_set st then (lock_crypto ;; wipe_keys ;; unlock_crypto) else mret tt) ;;
  st ← get;
  match g_tfm st with
  | Some _ => kfree ;; modify (set_tfm None)
  | None => mret tt
  end.
End crypto.

(** ** RFC 5869
    HKDF-Expand as the RFC states it: T(0) is empty,
    T(i) = HMAC(PRK, T(i-1) | info | i), and the output is the first [L]
    octets of T(1) | T(2) | ... | T(ceil (L / 32)). *)
Section rfc5869.
Context (hmac_sha256 : list byte -> list byte -> list byte).

Fixpoint rfc_T (prk info : list byte) (i : nat) : list byte :=
  match i with
  | O => []
  | S i => hmac_sha256 prk (rfc_T prk info i ++ info ++ [byte_of_Z (Z.of_nat (S i))])
  end.

Definition rfc_blocks (prk info : list byte) (from n : nat) : list byte :=
  mjoin (rfc_T prk info <$> seq from n).

Definition rfc_expand (prk info : list byte) (L : nat) : list byte :=
  take L (rfc_blocks prk info 1 ((L + 31) / 32)).

Definition rfc_extract (salt ikm : list byte) : list byte := hmac_sha256 salt ikm.

(** The session key of rotation [rot]: the contract of
    [photon_derive_session_key]. *)
Definition session_key (master : list byte) (rot : Z) : list byte :=
  rfc_expand (rfc_extract (le_encode 8 rot) master) (session_info rot) PHOTON_KEY_SIZE.
End rfc5869.

(** ** Computations that either give one value or report a failed call *)
Definition computes {A} (m : MR A) (a : A) : Prop :=
  forall e s, wp m (fun r e' s' => s' = s /\ env_rel 0 e e' /\
    match r with
    | inr x => x = a
    | inl err => err <> 0%Z /\ ~ no_fail e
    end) e s.

Section wp_mr.
Lemma wp_mr_bind {A B} (m : MR A) (f : A -> MR B) Q e s :
  wp m (fun r e' s' =>
    match r with inl err => Q (inl err) e' s' | inr a => wp (f a) Q e' s' end) e s ->
  wp (mr_bind m f) Q e s.
Proof. unfold wp, mr_bind. by destruct (m e s) as [[[[?|?] ?] ?]| |]. Qed.

Lemma wp_mr_ok {A} (a : A) (Q : (Z + A)%type -> env -> crypto_state -> Prop) e s :
  Q (inr a) e s -> wp (mr_ok a) Q e s.
Proof. done. Qed.

Lemma wp_mr_err {A} err (Q : (Z + A)%type -> env -> crypto_state -> Prop) e s :
  Q (inl err) e s -> wp (mr_err err) Q e s.
Proof. done. Qed.

End wp_mr.

Ltac wp_extra ::=
  match goal with
  | |- wp (mr_ok _) _ _ _ => apply wp_mr_ok
  | |- wp (mr_err _) _ _ _ => apply wp_mr_err
  end.

Section computes.
Lemma computes_ok {A} (a : A) : computes (mr_ok a) a.
Proof. intros e s. split_and!; [done|apply env_rel_refl|done]. Qed.

Lemma computes_check : computes check_call tt.
Proof.
  intros e s. unfold check_call. wp_steps.
  - split_and!; [done|done|done].
  - split_and!; [done|done|done|tauto].
Qed.

Lemma computes_bind {A B} (m : MR A) (f : A -> MR B) a b :
  computes m a -> computes (f a) b -> computes (mr_bind m f) b.
Proof.
  intros Hm Hf e s. apply wp_mr_bind. eapply wp_mono; [apply Hm|].
  intros [err|x] e1 s1 (-> & He & Hr); simpl in *; [done|].
  subst x. eapply wp_mono; [apply Hf|].
  intros [err|x] e2 s2 (-> & He2 & Hr); split_and!; try done.
  - exact (env_rel_trans 0 0 _ _ _ He He2).
  - tauto.
  - unfold env_rel in He. tauto.
  - exact (env_rel_trans 0 0 _ _ _ He He2).
Qed.

Lemma computes_with_shash (body : MR (list byte)) a :
  computes body a -> computes (with_shash body) a.
Proof.
  intros Hb e s. unfold with_shash. wp_steps; try done.
  - eapply wp_mono; [apply Hb|]. intros r e1 s1 (-> & He & Hr). wp_steps.
    split_and!; [done|env_solve|]. destruct r; [|done]. env_solve.
  - split_and!; [done|env_solve|done|env_solve].
Qed.
End computes.

#[export] Hint Resolve computes_ok computes_check computes_bind computes_with_shash : photon.

Section facts.
Context (hmac_sha256 : list byte -> list byte -> list byte).
Context (hmac_length : forall k m, length (hmac_sha256 k m) = 32).
Abbreviation rfc_T := (rfc_T hmac_sha256).
Abbreviation rfc_blocks := (rfc_blocks hmac_sha256).

Lemma computes_update msg d : computes (shash_update msg d) (msg ++ d).
Proof. eapply computes_bind; [apply computes_check|apply computes_ok]. Qed.

Lemma computes_final key msg :
  computes (shash_final hmac_sha256 key msg) (hmac_sha256 key msg).
Proof. eapply computes_bind; [apply computes_check|apply computes_ok]. Qed.

(** [hkdf_extract] computes HKDF-Extract. *)
Lemma hkdf_extract_computes salt ikm :
  computes (hkdf_extract hmac_sha256 salt ikm) (rfc_extract hmac_sha256 salt ikm).
Proof.
  apply computes_with_shash.
  eapply computes_bind; [apply computes_check|].
  eapply computes_bind; [apply computes_check|].
  eapply computes_bind; [apply computes_update|].
  apply computes_final.
Qed.

Lemma length_rfc_T prk info i : (0 < i)%nat -> length (rfc_T prk info i) = 32.
Proof. destruct i; [lia|]. intros _. apply hmac_length. Qed.

Lemma rfc_blocks_cons prk info i n :
  rfc_blocks prk info i (S n) = rfc_T prk info i ++ rfc_blocks prk info (S i) n.
Proof. done. Qed.

Lemma rfc_blocks_app prk info i n m :
  rfc_blocks prk info i (n + m) = rfc_blocks prk info i n ++ rfc_blocks prk info (i + n) m.
Proof. unfold rfc_blocks. by rewrite seq_app, fmap_app, join_app. Qed.

Lemma length_rfc_blocks prk info i n :
  (0 < i)%nat -> length (rfc_blocks prk info i n) = (32 * n)%nat.
Proof.
  revert i. induction n as [|n IH]; intros i Hi; [done|].
  rewrite rfc_blocks_cons, length_app, length_rfc_T, IH by lia. lia.
Qed.

(** One iteration of the loop computes T(i) from T(i-1). *)
Lemma block_computes prk info i (k : list byte -> MR (list byte)) b :
  (0 < i < 256)%nat ->
  computes (k (rfc_T prk info i)) b ->
  computes
    (_ ←? check_call;
     msg ←? (if (1 <? Z.of_nat i)%Z then shash_update [] (rfc_T prk info (i - 1)) else mr_ok []);
     msg ←? (match info with [] => mr_ok msg | _ => shash_update msg info end);
     msg ←? shash_update msg [byte_of_Z (Z.of_nat i)];
     t ←? shash_final hmac_sha256 prk msg; k t) b.
Proof.
  intros Hi Hk. destruct i as [|i]; [lia|].
  replace (S i - 1)%nat with i by lia.
  eapply computes_bind; [apply computes_check|].
  eapply (computes_bind _ _ (rfc_T prk info i)).
  { destruct (Z.ltb_spec 1 (Z.of_nat (S i))).
    - apply (computes_update []).
    - destruct i; [apply computes_ok|lia]. }
  eapply (computes_bind _ _ (rfc_T prk info i ++ info)).
  { destruct info; [rewrite app_nil_r; apply computes_ok|apply computes_update]. }
  eapply computes_bind; [apply computes_update|].
  eapply computes_bind; [apply computes_final|].
  rewrite <- app_assoc. exact Hk.
Qed.

Lemma hkdf_expand_loop_computes prk info fuel i t okm counter pos L :
  (0 < i)%nat -> (L <= pos + fuel)%nat -> (L <= pos + 32 * (256 - i))%nat ->
  ((pos < L)%nat -> counter = Z.of_nat i /\ (t = rfc_T prk info (i - 1) \/ i = 1%nat)) ->
  computes (hkdf_expand_loop hmac_sha256 fuel prk info t okm counter pos L)
    (okm ++ take (L - pos) (rfc_blocks prk info i fuel)).
Proof.
  revert i t okm counter pos. induction fuel as [|fuel IH];
    intros i t okm counter pos Hi Hf Hc Ht; simpl; case_decide as Hp; try lia.
  1, 3: replace (L - pos)%nat with 0%nat by lia; rewrite take_0, app_nil_r;
        apply computes_ok.
  destruct (Ht Hp) as [-> Ht']. clear Ht.
  assert (Hblock : computes (hkdf_expand_loop hmac_sha256 fuel prk info (rfc_T prk info i)
    (okm ++ take (Nat.min (L - pos) 32) (rfc_T prk info i)) (u8 (Z.of_nat i + 1))
    (pos + Nat.min (L - pos) 32) L)
    (okm ++ take (L - pos) (rfc_blocks prk info i (S fuel)))).
  { rewrite rfc_blocks_cons, take_app, length_rfc_T, app_assoc by lia.
    replace (take (Nat.min (L - pos) 32) (rfc_T prk info i))
      with (take (L - pos) (rfc_T prk info i)).
    2: { pose proof (length_rfc_T prk info i ltac:(lia)).
         destruct (Nat.min_spec (L - pos) 32) as [[_ ->]|[? ->]]; [done|].
         by rewrite !take_ge by lia. }
    replace (L - pos - 32)%nat with (L - (pos + Nat.min (L - pos) 32))%nat by lia.
    apply IH; [lia..|]. intros Hlt. split.
    - rewrite (wrap_small 8) by lia. lia.
    - left. by replace (S i - 1)%nat with i by lia. }
  destruct Ht' as [Ht'|Ht']; subst.
  - by apply (block_computes prk info i (fun t => _)); [lia|].
  - replace (1 <? Z.of_nat 1)%Z with false by done.
    pose proof (block_computes prk info 1 (fun t0 => hkdf_expand_loop hmac_sha256 fuel prk
      info t0 (okm ++ take (Nat.min (L - pos) 32) t0) (u8 (Z.of_nat 1 + 1))
      (pos + Nat.min (L - pos) 32) L) _ ltac:(lia) Hblock) as Hb.
    exact Hb.
Qed.

Lemma hkdf_expand_computes prk info L :
  (L <= 255 * 32)%nat ->
  computes (hkdf_expand hmac_sha256 prk info L) (rfc_expand hmac_sha256 prk info L).
Proof.
  intros HL. unfold hkdf_expand. rewrite decide_False by lia.
  apply computes_with_shash. eapply computes_bind; [apply computes_check|].
  pose proof (hkdf_expand_loop_computes prk info L 1 (zeros 32) [] 1 0 L) as Hl.
  replace (rfc_expand hmac_sha256 prk info L)
    with ([] ++ take (L - 0) (rfc_blocks prk info 1 L)).
  { apply Hl; [lia..|]. intros _. split; [done|by right]. }
  simpl. rewrite Nat.sub_0_r. unfold rfc_expand.
  pose proof (Nat.div_mod_eq (L + 31) 32). pose proof (Nat.mod_upper_bound (L + 31) 32).
  destruct (decide (L = 0)%nat) as [->|]; [done|].
  replace L with ((L + 31) / 32 + (L - (L + 31) / 32))%nat at 2 by lia.
  rewrite rfc_blocks_app, take_app_le; [done|].
  rewrite length_rfc_blocks by lia. lia.
Qed.
End facts.

(** ** Keys *)
Section locks.
Lemma wp_lock_crypto (Q : unit -> env -> crypto_state -> Prop) e s :
  crypto_mutex s = false -> Q tt e (set_mutex true s) -> wp lock_crypto Q e s.
Proof. apply wp_mutex_lock. Qed.

Lemma wp_unlock_crypto (Q : unit -> env -> crypto_state -> Prop) e s :
  Q tt e (set_mutex false s) -> wp unlock_crypto Q e s.
Proof. apply wp_mutex_unlock. Qed.

Lemma wp_lock_enc (Q : unit -> env -> crypto_state -> Prop) e s :
  crypto_enc_lock s = false -> Q tt e (set_enc_lock true s) -> wp lock_enc Q e s.
Proof. apply wp_mutex_lock. Qed.

Lemma wp_unlock_enc (Q : unit -> env -> crypto_state -> Prop) e s :
  Q tt e (set_enc_lock false s) -> wp unlock_enc Q e s.
Proof. apply wp_mutex_unlock. Qed.

Lemma wp_wipe_keys (Q : unit -> env -> crypto_state -> Prop) e s :
  Q tt e (set_key_set false (set_session (zeros PHOTON_KEY_SIZE)
            (set_master (zeros PHOTON_KEY_SIZE) s))) ->
  wp wipe_keys Q e s.
Proof. done. Qed.
End locks.

Ltac wp_extra ::=
  match goal with
  | |- wp (mr_ok _) _ _ _ => apply wp_mr_ok
  | |- wp (mr_err _) _ _ _ => apply wp_mr_err
  | |- wp wipe_keys _ _ _ => apply wp_wipe_keys
  | |- wp unlock_crypto _ _ _ => apply wp_unlock_crypto
  | |- wp lock_crypto _ _ _ => apply wp_lock_crypto; [done|]
  end.

Section key_facts.
Context (hmac_sha256 : list byte -> list byte -> list byte).
Context (hmac_length : forall k m, length (hmac_sha256 k m) = 32).
Abbreviation session_key := (session_key hmac_sha256).

Lemma set_mutex_id s : crypto_mutex s = false -> set_mutex false s = s.
Proof. by destruct s; simpl; intros ->. Qed.

Lemma set_enc_lock_restore s :
  crypto_enc_lock s = false -> set_enc_lock false (set_enc_lock true s) = s.
Proof. by destruct s; simpl; intros ->. Qed.

Lemma set_mutex_restore s : crypto_mutex s = false -> set_mutex false (set_mutex true s) = s.
Proof. by destruct s; simpl; intros ->. Qed.

Lemma length_session_key master rot : length (session_key master rot) = 32.
Proof.
  unfold session_key, rfc_expand. rewrite length_take.
  change ((PHOTON_KEY_SIZE + 31) / 32)%nat with 1%nat.
  rewrite length_rfc_blocks; [done|done|lia].
Qed.

(** With the mutex free and a master key set, the derivation returns the
    RFC 5869 key of the rotation or the code of a failed kernel call, leaks
    nothing and leaves the state alone. *)
Lemma derive_session_key_spec rot e s :
  crypto_mutex s = false -> g_key_set s = true ->
  wp (photon_derive_session_key hmac_sha256 rot) (fun r e' s' =>
    s' = s /\ env_rel 0 e e' /\
    match r with
    | inr k => k = session_key (g_master_key s) rot
    | inl err => err <> 0%Z /\ ~ no_fail e
    end) e s.
Proof.
  intros Hm Hk. unfold photon_derive_session_key. wp_steps.
  assert (computes
    (mr_bind (hkdf_extract hmac_sha256 (le_encode 8 rot) (g_master_key s))
      (fun prk => hkdf_expand hmac_sha256 prk (session_info rot) PHOTON_KEY_SIZE))
    (session_key (g_master_key s) rot)) as Hc.
  { eapply computes_bind; [apply hkdf_extract_computes|].
    apply hkdf_expand_computes; [done|]. vm_compute. lia. }
  eapply wp_mono; [apply Hc|]. intros r e1 s1 (-> & He & Hr).
  wp_steps.
  change (set_mutex false (set_mutex true s)) with (set_mutex false s).
  rewrite set_mutex_id by done. done.
Qed.

(** The keys are consistent: once a key is set the transform is loaded with
    the current session key, which is the HKDF key of the current rotation. *)
Definition keys_ok (s : crypto_state) : Prop :=
  g_key_set s = true ->
  g_session_key s = session_key (g_master_key s) (g_rotation_counter s) /\
  g_tfm s = Some (mk_crypto_aead (Some (g_session_key s)) (Z.of_nat PHOTON_TAG_SIZE)).

Definition crypto_inv (s : crypto_state) : Prop :=
  crypto_mutex s = false /\ crypto_enc_lock s = false /\
  (0 <= g_rotation_counter s < 2 ^ 64)%Z /\
  (0 <= g_encryptions s < 2 ^ 64)%Z /\ keys_ok s.

Definition key_wiped (s : crypto_state) : Prop :=
  g_key_set s = false /\ g_master_key s = zeros PHOTON_KEY_SIZE.

Lemma crypto_initial_inv : crypto_inv crypto_initial.
Proof. unfold crypto_inv, keys_ok. simpl. split_and!; done. Qed.

Lemma wp_setkey (Q : Z -> env -> crypto_state -> Prop) key t e s :
  g_tfm s = Some t ->
  (forall e', env_rel 0 e e' ->
    Q 0%Z e' (set_tfm (Some (mk_crypto_aead (Some key) (tfm_authsize t))) s)) ->
  (forall r e', env_rel 0 e e' -> r <> 0%Z -> ~ no_fail e ->
    Q r e' (set_tfm (Some (mk_crypto_aead None (tfm_authsize t))) s)) ->
  wp (crypto_aead_setkey key) Q e s.
Proof.
  intros Ht H0 H1. unfold crypto_aead_setkey. wp_steps. rewrite Ht. wp_steps.
  destruct (Z.eqb_spec r 0) as [->|Hr]; [by apply H0|].
  apply H1; [done|done|tauto].
Qed.

Lemma wp_setauthsize (Q : Z -> env -> crypto_state -> Prop) n t e s :
  g_tfm s = Some t ->
  (forall e', env_rel 0 e e' ->
    Q 0%Z e' (set_tfm (Some (mk_crypto_aead (tfm_key t) n)) s)) ->
  (forall r e', env_rel 0 e e' -> r <> 0%Z -> ~ no_fail e -> Q r e' s) ->
  wp (crypto_aead_setauthsize n) Q e s.
Proof.
  intros Ht H0 H1. unfold crypto_aead_setauthsize. wp_steps. rewrite Ht. wp_steps.
  - subst. by apply H0.
  - apply H1; [done|done|tauto].
Qed.

(** [photon_set_encryption_key] either installs the master key and its
    rotation-0 session key, or leaves no key at all. *)
Lemma set_encryption_key_spec key t e s :
  crypto_inv s -> g_tfm s = Some t ->
  wp (photon_set_encryption_key hmac_sha256 (Some key)) (fun r e' s' =>
    crypto_inv s' /\ env_rel 0 e e' /\ is_Some (g_tfm s') /\
    (r = 0%Z -> g_key_set s' = true /\ g_rotation_counter s' = 0%Z /\
                g_master_key s' = fit PHOTON_KEY_SIZE key) /\
    (r <> 0%Z -> key_wiped s' /\ ~ no_fail e)) e s.
Proof.
  intros (Hm & Hl & Hrot & Hen & _) Ht. unfold photon_set_encryption_key.
  wp_steps. rewrite Ht. wp_steps.
  eapply wp_mono; [by apply derive_session_key_spec|].
  intros [err|k] e1 s1 (-> & He & Hr); wp_steps.
  - unfold crypto_inv, keys_ok, key_wiped. simpl.
    split_and!; try done; env_solve.
  - subst k. eapply wp_setkey; [exact Ht|intros e2 He2|intros r e2 He2 Hr Hf]; wp_steps.
    + eapply wp_setauthsize; [done|intros e3 He3|intros r e3 He3 Hr Hf]; wp_steps;
        unfold crypto_inv, keys_ok, key_wiped; simpl;
        split_and!; try done; env_solve.
    + unfold crypto_inv, keys_ok, key_wiped. simpl.
      split_and!; try done; env_solve.
Qed.

(** The two refusals leave everything as it was. *)
Lemma set_encryption_key_null e s :
  photon_set_encryption_key hmac_sha256 None e s = Ret ((- EINVAL)%Z, e, s).
Proof. done. Qed.

Lemma set_encryption_key_no_tfm key e s :
  g_tfm s = None ->
  photon_set_encryption_key hmac_sha256 (Some key) e s = Ret ((- EINVAL)%Z, e, s).
Proof.
  intros Ht. unfold photon_set_encryption_key, mbind, M_bind, get. by rewrite Ht.
Qed.
End key_facts.

(** ** Events under the session key *)
Section event_facts.
Context (hmac_sha256 : list byte -> list byte -> list byte).
Context (aead_encrypt : list byte -> list byte -> list byte -> list byte).
Context (aead_decrypt : list byte -> list byte -> list byte -> option (list byte)).
Context (aead_length : forall k n p,
  length (aead_encrypt k n p) = (length p + PHOTON_TAG_SIZE)%nat).
Context (aead_correct : forall k n p, aead_decrypt k n (aead_encrypt k n p) = Some p).

(** The message that carries [ev] under [key]. *)
Definition sealed_msg (key nonce : list byte) (rot : Z) (ev : photon_event)
    : photon_encrypted_msg :=
  mk_photon_encrypted_msg (sequence_num ev) rot nonce (Z.of_nat (sizeof photon_event))
    (take PHOTON_TAG_SIZE (drop (sizeof photon_event) (aead_encrypt key nonce (pack ev))))
    (take (sizeof photon_event) (aead_encrypt key nonce (pack ev))).

Definition bump_encryptions (s : crypto_state) : crypto_state :=
  set_encryptions (u64 (g_encryptions s + 1)) s.

Lemma bump_encryptions_inv s : crypto_inv hmac_sha256 s -> crypto_inv hmac_sha256 (bump_encryptions s).
Proof.
  intros (Hm & Hl & Hr & _ & Hk).
  split; [done|split; [done|split; [done|split; [|done]]]].
  apply (wrap_range 64). lia.
Qed.

Lemma wp_aead_encrypt (Q : Z * list byte -> env -> crypto_state -> Prop) n p key a e s :
  g_tfm s = Some (mk_crypto_aead (Some key) a) ->
  (forall e', env_rel 0 e e' -> Q (0%Z, aead_encrypt key n p) e' s) ->
  (forall r e', env_rel 0 e e' -> r <> 0%Z -> ~ no_fail e -> Q (r, []) e' s) ->
  wp (crypto_aead_encrypt aead_encrypt n p) Q e s.
Proof.
  intros Ht H0 H1. unfold crypto_aead_encrypt. wp_steps. rewrite Ht. simpl.
  wp_steps; [by apply H0|apply H1; [done|done|tauto]].
Qed.

Lemma wp_aead_decrypt (Q : Z * list byte -> env -> crypto_state -> Prop) n p key a e s :
  g_tfm s = Some (mk_crypto_aead (Some key) a) ->
  (forall e', env_rel 0 e e' -> Q (0%Z, p) e' s) ->
  (forall r e', env_rel 0 e e' -> r <> 0%Z -> ~ no_fail e -> Q (r, []) e' s) ->
  wp (crypto_aead_decrypt aead_decrypt n (aead_encrypt key n p)) Q e s.
Proof.
  intros Ht H0 H1. unfold crypto_aead_decrypt. wp_steps. rewrite Ht. simpl.
  wp_steps; [apply H1; [done|done|tauto]|].
  rewrite aead_correct. by apply H0.
Qed.

Lemma verify_loaded s :
  is_Some (g_tfm s) -> g_key_set s = true -> verify_crypto_transform s = 0%Z.
Proof. intros [t Ht] Hk. unfold verify_crypto_transform. by rewrite Ht, Hk. Qed.

Ltac wp_extra ::=
  lazymatch goal with
  | |- wp (kfree_if (Z.eqb ?r 0)) _ _ _ => rewrite_neq0 (Z.eqb r 0); unfold kfree_if
  | |- wp (kfree_if _) _ _ _ => unfold kfree_if; cbn [fst snd]
  end.

(** The transform is loaded with the session key, whichever rotation that
    is the key of. *)
Definition can_seal (s : crypto_state) : Prop :=
  crypto_enc_lock s = false /\ g_key_set s = true /\
  g_tfm s = Some (mk_crypto_aead (Some (g_session_key s)) (Z.of_nat PHOTON_TAG_SIZE)).

Lemma crypto_inv_can_seal s : crypto_inv hmac_sha256 s -> g_key_set s = true -> can_seal s.
Proof. intros (_ & Hl & _ & _ & Hk) Hs. by destruct (Hk Hs). Qed.

(** The encryption with the transform loaded: error codes pass through,
    nothing leaks on any path. *)
Lemma encrypt_event_spec ev m e s :
  can_seal s ->
  wp (photon_encrypt_event aead_encrypt ev m) (fun r e' s' =>
    env_rel 0 e e' /\
    (r.1 = 0%Z -> s' = bump_encryptions s /\
      exists nonce, length nonce = PHOTON_IV_SIZE /\
        r.2 = sealed_msg (g_session_key s) nonce (rotation_num m) ev) /\
    (r.1 <> 0%Z -> s' = s /\ ~ no_fail e)) e s.
Proof.
  intros (Hl & Hset & Ht).
  unfold photon_encrypt_event, photon_get_random_iv. wp_step. wp_step. cbn zeta.
  rewrite verify_loaded by eauto. wp_steps.
  1: apply wp_lock_enc; [done|]; wp_step; eapply wp_aead_encrypt;
    [exact Ht|intros ? ?|intros ? ? ? ? ?]; wp_step; apply wp_unlock_enc;
    cbn beta; rewrite set_enc_lock_restore by done; wp_steps.
  all: cbn [fst snd] in *; zbool; try done.
  all: split; [env_solve|split; [intros ?|intros ?; split; [done|env_solve]]]; try done.
  split; [done|]. by exists b.
Qed.

(** Without a transform or a key nothing is touched. *)
Lemma encrypt_event_refused ev m e s :
  g_tfm s = None \/ g_key_set s = false ->
  photon_encrypt_event aead_encrypt ev m e s =
    Ret ((verify_crypto_transform s, m), e, s) /\ verify_crypto_transform s <> 0%Z.
Proof.
  intros Hs. assert (Hv : verify_crypto_transform s <> 0%Z).
  { unfold verify_crypto_transform. destruct Hs as [-> | ->]; [done|]. by destruct (g_tfm s). }
  split; [|done]. unfold photon_encrypt_event, mbind, M_bind, get.
  by rewrite (proj2 (Z.eqb_neq _ _) Hv).
Qed.

Definition bump_decryptions (s : crypto_state) : crypto_state :=
  set_decryptions (u64 (g_decryptions s + 1)) s.

(** Decrypting a message sealed under the current session key returns the
    event it carries, unless a kernel call fails. *)
Lemma decrypt_sealed_spec nonce rot ev e s :
  crypto_inv hmac_sha256 s -> g_key_set s = true -> packed_wf ev ->
  wp (photon_decrypt_event aead_decrypt (sealed_msg (g_session_key s) nonce rot ev))
    (fun r e' s' =>
      env_rel 0 e e' /\
      (r.1 = 0%Z -> s' = bump_decryptions s /\ r.2 = Some ev) /\
      (r.1 <> 0%Z -> s' = s /\ r.2 = None /\ ~ no_fail e)) e s.
Proof.
  intros (Hm & _ & _ & _ & Hk) Hset Hwf. destruct (Hk Hset) as [_ Ht].
  pose proof (length_pack ev Hwf) as Hl.
  pose proof (aead_length (g_session_key s) nonce (pack ev)) as Hal.
  unfold photon_decrypt_event. wp_step. wp_step. cbn zeta.
  rewrite verify_loaded by eauto. cbn [encrypted_len sealed_msg iv auth_tag encrypted_data].
  rewrite Nat2Z.id. wp_steps; cbn [fst snd] in *; zbool; try done.
  all: try by (split; [env_solve|split; intros ?; split_and?; first [done|env_solve]]).
  rewrite decide_False by (rewrite length_take; lia).
  rewrite take_take, Nat.min_id.
  replace (take _ _ ++ take _ _) with (aead_encrypt (g_session_key s) nonce (pack ev)).
  2: { rewrite <- (take_drop (sizeof photon_event) (aead_encrypt _ _ _)) at 1.
       f_equal. symmetry. apply take_ge. rewrite length_drop. lia. }
  wp_steps; cbn [fst snd] in *; zbool.
  2: by split; [env_solve|split; intros ?; split_and?; first [done|env_solve]].
  apply wp_lock_crypto; [done|]. wp_steps.
  eapply wp_aead_decrypt; [exact Ht|intros ? ?|intros ? ? ? ? ?]; wp_steps;
    (apply wp_unlock_crypto; wp_steps); cbn [fst snd] in *; zbool; try done.
  2: by split; [env_solve|split; intros ?; split_and?;
       first [by apply set_mutex_restore|done|env_solve]].
  rewrite set_mutex_restore by done. rewrite decide_False by lia.
  wp_steps. cbn [fst snd]. split; [env_solve|split; [|done]]. intros _. split; [done|].
  rewrite <- Hl, firstn_all, <- (app_nil_r (pack ev)). by rewrite unpack_pack.
Qed.
End event_facts.

(** ** The layer's life *)
Section layer_facts.
Lemma crypto_layer_init_spec e s :
  wp crypto_layer_init (fun r e' s' =>
    (r = 0%Z -> env_rel 1 e e' /\ s' = set_tfm (Some (mk_crypto_aead None 0)) s) /\
    (r <> 0%Z -> env_rel 0 e e' /\ s' = set_tfm None s /\ ~ no_fail e)) e s.
Proof.
  unfold crypto_layer_init. wp_steps; (split; intros ?; try done);
    split_and?; first [done|env_solve].
Qed.

(** Tear-down wipes both keys if one was set and releases the transform. *)
Lemma crypto_layer_exit_spec e s :
  crypto_mutex s = false -> is_Some (g_tfm s) ->
  wp crypto_layer_exit (fun _ e' s' =>
    env_rel (-1) e e' /\ g_tfm s' = None /\ g_key_set s' = false /\
    crypto_mutex s' = false /\
    (g_key_set s = true -> g_master_key s' = zeros PHOTON_KEY_SIZE /\
                           g_session_key s' = zeros PHOTON_KEY_SIZE)) e s.
Proof.
  intros Hm [t Ht]. unfold crypto_layer_exit. wp_steps; simpl; rewrite Ht; wp_steps;
    split_and!; try done; congruence.
Qed.
End layer_facts.
