(* ===== verification/Cdev.v ===== *)
(** * The character device channel
    [comms/cdev_ch.c] with [include/cdev_ch.h]: the frame ring between the
    module and its reader, [open], [release] and [read] of /dev/photon_ring,
    the assembly of an encrypted frame, and the set-up and tear-down of the
    device.  [photon_cdev_ioctl] is in [Device], because it reports through
    the event manager. *)
From Stdlib Require Import ZArith Lia.
From Stdlib Require Import Strings.Byte.
From stdpp Require Import base numbers list option.
From S2P Require Import Prelude Kernel Events Ring Crypto.

(** u64 sequence_num + u64 rotation_num + iv + u16 encrypted_len + auth_tag
    + the ciphertext of one event; and the u32 length prefix. *)
Definition ENC_HDR_SIZE : nat := (8 + 8 + 12 + 2 + 16)%nat.
Definition PHOTON_FRAME_BODY_MAX : nat := (ENC_HDR_SIZE + sizeof photon_event)%nat.
Definition PHOTON_FRAME_SLOT_SIZE : nat := (4 + PHOTON_FRAME_BODY_MAX)%nat.
Definition PHOTON_RING_BUF_FRAMES : Z := 256.

Record frame_slot := mk_frame_slot {
  slot_data : list byte;
  slot_len : Z;
}.

#[export] Instance frame_slot_inhabited : Inhabited frame_slot :=
  populate (mk_frame_slot (zeros PHOTON_FRAME_SLOT_SIZE) 0).

Record photon_ring_buf := mk_photon_ring_buf {
  slots : option (list frame_slot);
  rb_head : Z;
  rb_tail : Z;
  rb_capacity : Z;
  rb_dropped : Z;
}.

Record cdev_state := mk_cdev_state {
  g_ring : photon_ring_buf;
  g_shutting_down : bool;
  g_open_mutex : bool;
  g_is_open : bool;
  g_read_staging : list byte;
  g_read_wq_wakeups : Z;
}.

Definition set_ring r st := mk_cdev_state r (g_shutting_down st) (g_open_mutex st)
  (g_is_open st) (g_read_staging st) (g_read_wq_wakeups st).
Definition set_shutting_down b st := mk_cdev_state (g_ring st) b (g_open_mutex st)
  (g_is_open st) (g_read_staging st) (g_read_wq_wakeups st).
Definition set_open_mutex b st := mk_cdev_state (g_ring st) (g_shutting_down st) b
  (g_is_open st) (g_read_staging st) (g_read_wq_wakeups st).
Definition set_is_open b st := mk_cdev_state (g_ring st) (g_shutting_down st) (g_open_mutex st)
  b (g_read_staging st) (g_read_wq_wakeups st).
Definition set_staging d st := mk_cdev_state (g_ring st) (g_shutting_down st) (g_open_mutex st)
  (g_is_open st) d (g_read_wq_wakeups st).
Definition wake_up_readers st := mk_cdev_state (g_ring st) (g_shutting_down st) (g_open_mutex st)
  (g_is_open st) (g_read_staging st) (g_read_wq_wakeups st + 1).

Definition ring_initial : photon_ring_buf := mk_photon_ring_buf None 0 0 0 0.
Definition cdev_initial : cdev_state :=
  mk_cdev_state ring_initial false false false (zeros PHOTON_FRAME_SLOT_SIZE) 0.

(** ** The frame ring *)
Definition ring_buf_init (capacity : Z) : M photon_ring_buf Z :=
  r ← kalloc;                                         (* kcalloc *)
  if negb (Z.eqb r 0) then mret (- ENOMEM)%Z else
  put (mk_photon_ring_buf
    (Some (replicate (Z.to_nat capacity)
             (mk_frame_slot (zeros PHOTON_FRAME_SLOT_SIZE) 0))) 0 0 capacity 0) ;;
  mret 0%Z.

Definition ring_buf_free : M photon_ring_buf unit :=
  rb ← get;
  match slots rb with
  | Some _ =>
      kfree ;;
      put (mk_photon_ring_buf None (rb_head rb) (rb_tail rb) (rb_capacity rb) (rb_dropped rb))
  | None => mret tt
  end.

Definition ring_buf_full (rb : photon_ring_buf) : bool :=
  Z.eqb (u32 (rb_head rb + 1) mod rb_capacity rb) (rb_tail rb).
Definition ring_buf_empty (rb : photon_ring_buf) : bool :=
  Z.eqb (rb_head rb) (rb_tail rb).

(** [memcpy (dst, src, n)] over the start of a buffer. *)
Definition overwrite (src dst : list byte) : list byte := src ++ drop (length src) dst.

(** A zero capacity divides by zero, an absent or short buffer faults. *)
Definition ring_buf_push (frame : list byte) (total_len : Z) : M photon_ring_buf Z :=
  rb ← get;
  if Z.eqb (rb_capacity rb) 0 then fault else
  if ring_buf_full rb then
    put (mk_photon_ring_buf (slots rb) (rb_head rb) (rb_tail rb) (rb_capacity rb)
           (u32 (rb_dropped rb + 1))) ;;
    mret (- ENOSPC)%Z
  else
  match slots rb with
  | None => fault
  | Some sl =>
      let n := Z.to_nat total_len in
      match sl !! Z.to_nat (rb_head rb) with
      | None => fault
      | Some slot =>
          if decide (length (slot_data slot) < n \/ length frame < n)%nat then fault else
          let slot' := mk_frame_slot (overwrite (take n frame) (slot_data slot)) total_len in
          put (mk_photon_ring_buf (Some (<[Z.to_nat (rb_head rb) := slot']> sl))
                 (u32 (rb_head rb + 1) mod rb_capacity rb) (rb_tail rb)
                 (rb_capacity rb) (rb_dropped rb)) ;;
          mret 0%Z
      end
  end.

(** The number of bytes copied and the bytes. *)
Definition ring_buf_pop_locked (dst_len : Z) : M photon_ring_buf (Z * list byte) :=
  rb ← get;
  if ring_buf_empty rb then mret (0%Z, []) else
  match slots rb with
  | None => fault
  | Some sl =>
      match sl !! Z.to_nat (rb_tail rb) with
      | None => fault
      | Some slot =>
          let copy_len := Z.min (slot_len slot) dst_len in
          let n := Z.to_nat copy_len in
          if decide (length (slot_data slot) < Z.to_nat (slot_len slot))%nat then fault else
          let slot' := mk_frame_slot
            (overwrite (zeros (Z.to_nat (slot_len slot))) (slot_data slot)) (slot_len slot) in
          put (mk_photon_ring_buf (Some (<[Z.to_nat (rb_tail rb) := slot']> sl))
                 (rb_head rb) (u32 (rb_tail rb + 1) mod rb_capacity rb)
                 (rb_capacity rb) (rb_dropped rb)) ;;
          mret (copy_len, take n (slot_data slot))
      end
  end.

(** ** File operations *)
Definition on_ring {A} (m : M photon_ring_buf A) : M cdev_state A := zoom g_ring set_ring m.
Definition lock_open : M cdev_state unit := mutex_lock g_open_mutex set_open_mutex.
Definition unlock_open : M cdev_state unit := mutex_unlock set_open_mutex.

Definition photon_cdev_open (cap_sys_admin : bool) : M cdev_state Z :=
  if negb cap_sys_admin then mret (- EPERM)%Z else
  lock_open ;;
  st ← get;
  if g_is_open st then (unlock_open ;; mret (- EBUSY)%Z) else
  modify (set_is_open true) ;;
  unlock_open ;;
  mret 0%Z.

Definition photon_cdev_release : M cdev_state Z :=
  lock_open ;;
  modify (set_is_open false) ;;
  unlock_open ;;
  mret 0%Z.

(** [wait_event_interruptible] of a reader nobody else runs beside: 0 at once
    if the condition holds; otherwise the caller sleeps until a signal (a
    nonzero code) or for ever.  The wake-ups by a new frame and by the shutdown
    are counted in [g_read_wq_wakeups]; what they do for readers asleep beside
    the senders is in [WaitQueue]. *)
Definition wait_readable : M cdev_state Z :=
  st ← get;
  if negb (ring_buf_empty (g_ring st)) || g_shutting_down st then mret 0%Z else
  r ← kcall;
  if Z.eqb r 0 then deadlock else mret r.

(** The return value and the bytes copied to the caller's buffer. *)
Definition photon_cdev_read (count : Z) : M cdev_state (Z * list byte) :=
  ret ← wait_readable;
  if negb (Z.eqb ret 0) then mret ((- EINTR)%Z, []) else
  st ← get;
  if g_shutting_down st then mret ((- EIO)%Z, []) else
  popped ← on_ring (ring_buf_pop_locked (Z.of_nat PHOTON_FRAME_SLOT_SIZE));
  modify (fun st => set_staging (overwrite popped.2 (g_read_staging st)) st) ;;
  if Z.eqb popped.1 0 then mret (0%Z, []) else
  if (count <? 4)%Z then mret ((- EINVAL)%Z, []) else
  let frame_len := Z.min popped.1 (u32 count) in
  r ← kcall;                                          (* copy_to_user *)
  st ← get;
  let out := take (Z.to_nat frame_len) (g_read_staging st) in
  modify (set_staging (zeros PHOTON_FRAME_SLOT_SIZE)) ;;
  if negb (Z.eqb r 0) then mret ((- EFAULT)%Z, []) else
  mret (frame_len, out).

(** ** Sending *)
Record channel := mk_channel { ch_crypto : crypto_state; ch_cdev : cdev_state }.
Definition set_crypto c ch := mk_channel c (ch_cdev ch).
Definition set_cdev d ch := mk_channel (ch_crypto ch) d.
Definition on_crypto {A} (m : M crypto_state A) : M channel A := zoom ch_crypto set_crypto m.
Definition on_cdev {A} (m : M cdev_state A) : M channel A := zoom ch_cdev set_cdev m.

Section send.
Context (aead_encrypt : list byte -> list byte -> list byte -> list byte).

(** [photon_send_encrypted_event] from the label on: the rotation number is
    read once, without a lock, before the event is sealed. *)
Definition send_labelled (rotation : Z) (event : photon_event) : M channel Z :=
  let enc0 := mk_photon_encrypted_msg 0 rotation [] 0 [] [] in
  res ← on_crypto (photon_encrypt_event aead_encrypt event enc0);
  if negb (Z.eqb res.1 0) then mret res.1 else
  let enc := res.2 in
  let body_size := (8 + 8 + 12 + 2 + 16 + encrypted_len enc)%Z in
  let total_size := u32 (4 + body_size) in
  let frame := le_encode 4 (u32 body_size) ++ pack_encrypted_msg enc in
  if decide (PHOTON_FRAME_SLOT_SIZE < length frame)%nat then fault else
  if (Z.of_nat PHOTON_FRAME_SLOT_SIZE <? total_size)%Z then mret (- EMSGSIZE)%Z else
  ret ← on_cdev (on_ring (ring_buf_push frame total_size));
  if Z.eqb ret (- ENOSPC) then mret 0%Z else
  on_cdev (modify wake_up_readers) ;;
  mret 0%Z.

Definition photon_send_encrypted_event (event : photon_event) : M channel Z :=
  ch ← get;
  if negb (photon_has_key (ch_crypto ch)) then mret 0%Z else
  send_labelled (photon_get_rotation_number (ch_crypto ch)) event.
End send.

(** ** Device set-up and tear-down
    The registrations (device number, cdev, class, device node) are live
    objects of the environment, as the ring's memory is. *)
Definition cdev_channel_init : M cdev_state Z :=
  ret ← on_ring (ring_buf_init PHOTON_RING_BUF_FRAMES);
  if negb (Z.eqb ret 0) then mret ret else
  ret ← kalloc;                                       (* alloc_chrdev_region *)
  if negb (Z.eqb ret 0) then (on_ring ring_buf_free ;; mret ret) else
  ret ← kalloc;                                       (* cdev_add *)
  if negb (Z.eqb ret 0) then (kfree ;; on_ring ring_buf_free ;; mret ret) else
  ret ← kalloc;                                       (* class_create *)
  if negb (Z.eqb ret 0) then (kfree ;; kfree ;; on_ring ring_buf_free ;; mret ret) else
  ret ← kalloc;                                       (* device_create *)
  if negb (Z.eqb ret 0) then (kfree ;; kfree ;; kfree ;; on_ring ring_buf_free ;; mret ret) else
  mret 0%Z.

Definition cdev_channel_exit : M cdev_state unit :=
  modify (set_shutting_down true) ;;
  modify wake_up_readers ;;
  kfree ;;                                            (* device_destroy *)
  kfree ;;                                            (* class_destroy *)
  kfree ;;                                            (* cdev_del *)
  kfree ;;                                            (* unregister_chrdev_region *)
  on_ring ring_buf_free.

(** ** The ring as a bounded queue of frames *)
Definition frame_bytes (s : frame_slot) : list byte := take (Z.to_nat (slot_len s)) (slot_data s).
Definition slot_ok (s : frame_slot) : Prop :=
  length (slot_data s) = PHOTON_FRAME_SLOT_SIZE /\
  (0 <= slot_len s <= Z.of_nat PHOTON_FRAME_SLOT_SIZE)%Z.

Definition ring_frames (rb : photon_ring_buf) : list (list byte) :=
  match slots rb with
  | Some sl => frame_bytes <$> ring_view sl (rb_capacity rb) (rb_head rb) (rb_tail rb)
  | None => []
  end.

Definition ring_inv (rb : photon_ring_buf) : Prop :=
  exists sl, slots rb = Some sl /\ ring_ok sl (rb_capacity rb) (rb_head rb) (rb_tail rb) /\
    Forall slot_ok sl /\ Forall (fun f => f <> []) (ring_frames rb).

Definition frame_ok (f : list byte) : Prop :=
  f <> [] /\ (length f <= PHOTON_FRAME_SLOT_SIZE)%nat.

#[export] Instance ring_queue : BoundedQueue photon_ring_buf (list byte) := {
  bq_inv := ring_inv;
  bq_view := ring_frames;
  bq_room rb := Z.to_nat (rb_capacity rb - 1);
  bq_dropped := rb_dropped;
  bq_elem := frame_ok;
  bq_enq f := ring_buf_push f (Z.of_nat (length f));
  bq_deq := r ← ring_buf_pop_locked (Z.of_nat PHOTON_FRAME_SLOT_SIZE);
            mret (if Z.eqb r.1 0 then None else Some r.2);
}.

Section ring_facts.
Lemma length_overwrite src dst :
  (length src <= length dst)%nat -> length (overwrite src dst) = length dst.
Proof. unfold overwrite. rewrite length_app, length_drop. lia. Qed.

Lemma take_overwrite src dst : take (length src) (overwrite src dst) = src.
Proof. apply take_app_length. Qed.

Lemma length_ring_frames rb sl :
  slots rb = Some sl ->
  length (ring_frames rb) = length (ring_view sl (rb_capacity rb) (rb_head rb) (rb_tail rb)).
Proof. unfold ring_frames. intros ->. apply length_fmap. Qed.

Lemma ring_slot_lookup (sl : list frame_slot) cap head tail i :
  ring_ok sl cap head tail -> (0 <= i < cap)%Z -> sl !! Z.to_nat i = Some (sl !!! Z.to_nat i).
Proof. intros (?&?&?&?) ?. apply list_lookup_lookup_total_lt. lia. Qed.

Lemma ring_full_frames rb :
  ring_inv rb -> ring_buf_full rb = true <->
  length (ring_frames rb) = Z.to_nat (rb_capacity rb - 1).
Proof.
  intros (sl & Hs & Hok & _). rewrite (length_ring_frames rb sl) by done.
  unfold ring_buf_full. rewrite (ring_full_iff sl) by done.
  destruct Hok as (? & _). lia.
Qed.

Lemma ring_frames_room rb :
  ring_inv rb -> ring_frames rb = [] -> ring_buf_full rb = false.
Proof.
  intros Hinv Hfr. apply not_true_is_false. rewrite ring_full_frames, Hfr by done.
  destruct Hinv as (sl & _ & (? & _) & _). simpl. lia.
Qed.

Lemma ring_push_spec f e rb :
  ring_inv rb -> frame_ok f -> ring_buf_full rb = false ->
  exists rb', ring_buf_push f (Z.of_nat (length f)) e rb = Ret (0%Z, e, rb') /\
    ring_inv rb' /\ ring_frames rb' = ring_frames rb ++ [f] /\
    rb_dropped rb' = rb_dropped rb /\ rb_capacity rb' = rb_capacity rb.
Proof.
  intros (sl & Hs & Hok & Hsl & Hne) [Hf Hlen] Hfull.
  pose proof Hok as (? & ? & ? & ?).
  pose proof (ring_slot_lookup _ _ _ _ (rb_head rb) Hok ltac:(lia)) as Hlk.
  set (slot := sl !!! Z.to_nat (rb_head rb)) in *.
  pose proof (Forall_lookup_1 _ _ _ _ Hsl Hlk) as [Hd Hl].
  set (slot' := mk_frame_slot (overwrite f (slot_data slot)) (Z.of_nat (length f))).
  destruct (ring_push sl _ _ _ slot' Hok Hfull) as [Hok' Hview].
  eexists. split; [|split; [|split; [|split]]].
  - unfold ring_buf_push, mbind, M_bind, get.
    rewrite (proj2 (Z.eqb_neq _ _)) by lia. rewrite Hfull, Hs, Hlk, Nat2Z.id.
    rewrite decide_False by lia. rewrite firstn_all. reflexivity.
  - eexists. split; [done|]. split; [done|]. split.
    + apply Forall_insert; [done|]. split; simpl; [|lia].
      by rewrite length_overwrite by lia.
    + unfold ring_frames. simpl. fold slot'. rewrite Hview, fmap_app.
      apply Forall_app_2; [by unfold ring_frames in Hne; rewrite Hs in Hne|].
      apply Forall_singleton. unfold frame_bytes; simpl.
      by rewrite Nat2Z.id, take_overwrite.
  - unfold ring_frames. simpl. fold slot'. rewrite Hview, fmap_app, Hs. f_equal.
    unfold frame_bytes; simpl. by rewrite Nat2Z.id, take_overwrite.
  - done.
  - done.
Qed.

Lemma ring_push_full f n e rb :
  (rb_capacity rb <> 0)%Z -> ring_buf_full rb = true ->
  ring_buf_push f n e rb = Ret ((- ENOSPC)%Z, e,
    mk_photon_ring_buf (slots rb) (rb_head rb) (rb_tail rb) (rb_capacity rb)
      (u32 (rb_dropped rb + 1))).
Proof.
  intros Hc Hfull. unfold ring_buf_push, mbind, M_bind, get.
  rewrite (proj2 (Z.eqb_neq _ _)) by done. by rewrite Hfull.
Qed.

Lemma ring_pop_spec f fs e rb :
  ring_inv rb -> ring_frames rb = f :: fs ->
  exists rb', ring_buf_pop_locked (Z.of_nat PHOTON_FRAME_SLOT_SIZE) e rb =
      Ret ((Z.of_nat (length f), f), e, rb') /\
    ring_inv rb' /\ ring_frames rb' = fs /\
    rb_dropped rb' = rb_dropped rb /\ rb_capacity rb' = rb_capacity rb.
Proof.
  intros (sl & Hs & Hok & Hsl & Hne) Hfr.
  assert (Hemp : ring_buf_empty rb = false).
  { unfold ring_buf_empty. apply not_true_is_false. rewrite (ring_empty_iff sl) by done.
    intros E. unfold ring_frames in Hfr. by rewrite Hs, E in Hfr. }
  pose proof Hok as (? & ? & ? & ?).
  pose proof (ring_slot_lookup _ _ _ _ (rb_tail rb) Hok ltac:(lia)) as Hlk.
  destruct (ring_pop sl _ _ _ Hok Hemp) as [Hok' Hview].
  set (slot := sl !!! Z.to_nat (rb_tail rb)) in *.
  pose proof (Forall_lookup_1 _ _ _ _ Hsl Hlk) as [Hd Hl].
  unfold ring_frames in Hfr, Hne. rewrite Hs, Hview in *. simpl in Hfr.
  injection Hfr as Hf Hfs. apply Forall_cons_iff in Hne as [_ Hne].
  assert (Hlf : Z.of_nat (length f) = slot_len slot).
  { rewrite <- Hf. unfold frame_bytes. rewrite length_take. lia. }
  eexists. split; [|split; [|split; [|split]]].
  - unfold ring_buf_pop_locked, mbind, M_bind, get. rewrite Hemp, Hs, Hlk.
    rewrite decide_False by lia. rewrite Z.min_l by lia.
    fold (frame_bytes slot). rewrite Hf, Hlf. reflexivity.
  - eexists. split; [done|]. simpl. split; [|split].
    + unfold ring_ok in *. by rewrite length_insert.
    + apply Forall_insert; [done|]. split; simpl; [|done].
      rewrite length_overwrite; rewrite ?length_zeros; lia.
    + unfold ring_frames. simpl. by rewrite ring_view_insert_tail.
  - unfold ring_frames. simpl. by rewrite ring_view_insert_tail.
  - done.
  - done.
Qed.

Lemma ring_pop_empty n e rb :
  ring_inv rb -> ring_frames rb = [] -> ring_buf_pop_locked n e rb = Ret ((0%Z, []), e, rb).
Proof.
  intros (sl & Hs & Hok & _) Hfr. unfold ring_buf_pop_locked, mbind, M_bind, get.
  replace (ring_buf_empty rb) with true; [done|]. symmetry.
  unfold ring_buf_empty. rewrite (ring_empty_iff sl) by done.
  unfold ring_frames in Hfr. rewrite Hs in Hfr. by apply fmap_nil_inv in Hfr.
Qed.
End ring_facts.

#[export] Instance ring_queue_laws : BoundedQueueLaws photon_ring_buf (list byte).
Proof.
  split; simpl.
  - intros rb (sl & Hs & Hok & _). rewrite (length_ring_frames rb sl), length_ring_view by done.
    destruct Hok as (? & _). pose proof (ring_len_range (rb_capacity rb) (rb_head rb) (rb_tail rb)).
    lia.
  - intros f e rb Hinv Hf Hlt.
    assert (Hfull : ring_buf_full rb = false).
    { apply not_true_is_false. rewrite ring_full_frames by done. lia. }
    destruct (ring_push_spec f e rb Hinv Hf Hfull) as (rb' & ? & ? & ? & ? & Hc).
    exists rb'. by rewrite Hc.
  - intros f e rb Hinv Hlen. apply ring_full_frames in Hlen; [|done].
    pose proof Hinv as (sl & Hs & Hok & _). destruct Hok as (? & _).
    rewrite ring_push_full by (done || lia). eexists. split; [done|]. by split.
  - intros e rb Hinv Hfr. unfold mbind, M_bind. by rewrite ring_pop_empty.
  - intros e rb f fs Hinv Hfr.
    destruct (ring_pop_spec f fs e rb Hinv Hfr) as (rb' & Hpop & ? & ? & ? & Hc).
    exists rb'. unfold mbind, M_bind. rewrite Hpop. simpl.
    destruct Hinv as (_ & _ & _ & _ & Hne). rewrite Hfr in Hne.
    apply Forall_cons_iff in Hne as [Hne _]. destruct f; [done|]. by rewrite Hc.
Qed.

Ltac wp_extra ::=
  lazymatch goal with
  | |- wp (on_ring _) _ _ _ => apply wp_zoom
  | |- wp (on_crypto _) _ _ _ => apply wp_zoom
  | |- wp (on_cdev _) _ _ _ => apply wp_zoom
  | |- wp lock_open _ _ _ => apply wp_mutex_lock; [done|]
  | |- wp unlock_open _ _ _ => apply wp_mutex_unlock
  end.

(** ** Sending under the ring's contract *)
Section send_facts.
Context (hmac_sha256 : list byte -> list byte -> list byte).
Context (aead_encrypt : list byte -> list byte -> list byte -> list byte).
Context (aead_length : forall k n p,
  length (aead_encrypt k n p) = (length p + PHOTON_TAG_SIZE)%nat).
Abbreviation send := (photon_send_encrypted_event aead_encrypt).

Definition channel_inv (ch : channel) : Prop :=
  crypto_inv hmac_sha256 (ch_crypto ch) /\ ring_inv (g_ring (ch_cdev ch)).

Definition ch_frames (ch : channel) : list (list byte) := ring_frames (g_ring (ch_cdev ch)).

(** The frame of one event: length prefix and sealed message. *)
Definition event_frame (key nonce : list byte) (rot : Z) (ev : photon_event) : list byte :=
  le_encode 4 (Z.of_nat PHOTON_FRAME_BODY_MAX) ++
  pack_encrypted_msg (sealed_msg aead_encrypt key nonce rot ev).

Lemma length_event_frame key nonce rot ev :
  packed_wf ev -> length nonce = PHOTON_IV_SIZE ->
  length (event_frame key nonce rot ev) = PHOTON_FRAME_SLOT_SIZE.
Proof.
  intros Hwf Hn. pose proof (length_pack ev Hwf) as Hl.
  pose proof (aead_length key nonce (pack ev)) as Hal.
  unfold event_frame, pack_encrypted_msg.
  cbn [sealed_msg enc_sequence_num rotation_num iv encrypted_len auth_tag encrypted_data].
  rewrite !length_app, !length_le_encode, !length_take, length_drop, Hn, Hal, Hl.
  done.
Qed.

Lemma event_frame_ok key nonce rot ev :
  packed_wf ev -> length nonce = PHOTON_IV_SIZE -> frame_ok (event_frame key nonce rot ev).
Proof.
  intros Hwf Hn. pose proof (length_event_frame key nonce rot ev Hwf Hn) as Hl. split; [|lia].
  intros E. by rewrite E in Hl.
Qed.

(** What the channel does with a frame: append it, or count it as dropped. *)
Definition accepts (f : list byte) (ch ch' : channel) : Prop :=
  rb_capacity (g_ring (ch_cdev ch')) = rb_capacity (g_ring (ch_cdev ch)) /\
  if ring_buf_full (g_ring (ch_cdev ch)) then
    ch_frames ch' = ch_frames ch /\
    rb_dropped (g_ring (ch_cdev ch')) = u32 (rb_dropped (g_ring (ch_cdev ch)) + 1)
  else
    ch_frames ch' = ch_frames ch ++ [f] /\
    rb_dropped (g_ring (ch_cdev ch')) = rb_dropped (g_ring (ch_cdev ch)).

(** A send changes the ring and wakes readers, nothing else of the device. *)
Definition same_status (st st' : cdev_state) : Prop :=
  g_shutting_down st' = g_shutting_down st /\ g_open_mutex st' = g_open_mutex st /\
  g_is_open st' = g_is_open st /\ g_read_staging st' = g_read_staging st.

Lemma ring_inv_capacity rb : ring_inv rb -> (rb_capacity rb <> 0)%Z.
Proof. intros (sl & _ & (? & _) & _). lia. Qed.

Lemma send_no_key ev e ch :
  g_key_set (ch_crypto ch) = false -> send ev e ch = Ret (0%Z, e, ch).
Proof.
  intros Hk. unfold photon_send_encrypted_event, photon_has_key, mbind, M_bind, get.
  by rewrite Hk.
Qed.

(** With a key: 0, and the event is sealed under the current session key,
    labelled as told, and handed to the ring; or the code of a failed kernel
    call and nothing sent. *)
Lemma send_labelled_spec rot ev e ch :
  can_seal (ch_crypto ch) -> ring_inv (g_ring (ch_cdev ch)) -> packed_wf ev ->
  wp (send_labelled aead_encrypt rot ev) (fun r e' ch' =>
    ring_inv (g_ring (ch_cdev ch')) /\ env_rel 0 e e' /\
    same_status (ch_cdev ch) (ch_cdev ch') /\
    (r = 0%Z -> ch_crypto ch' = bump_encryptions (ch_crypto ch) /\
      exists nonce, length nonce = PHOTON_IV_SIZE /\
        accepts (event_frame (g_session_key (ch_crypto ch)) nonce
                   rot ev) ch ch') /\
    (r <> 0%Z -> ch' = ch /\ ~ no_fail e)) e ch.
Proof.
  intros Hc Hr Hwf. unfold send_labelled. cbv zeta. wp_steps.
  eapply wp_mono; [by apply encrypt_event_spec|].
  intros [r m] e1 c1 (He1 & H0 & H1). cbn [fst snd] in *. wp_steps.
  - destruct (H1 Heqb) as [-> Hf]. split_and!; try done; by destruct ch.
  - destruct (H0 Heqb) as [-> (nonce & Hn & ->)]. clear H0 H1.
    cbn [rotation_num encrypted_len sealed_msg].
    pose proof (length_event_frame (g_session_key (ch_crypto ch)) nonce
      rot ev Hwf Hn) as Hlen.
    pose proof (event_frame_ok (g_session_key (ch_crypto ch)) nonce
      rot ev Hwf Hn) as Hok.
    change (le_encode 4 _ ++ _) with (event_frame (g_session_key (ch_crypto ch)) nonce
      rot ev).
    set (f := event_frame _ _ _ _) in *.
    rewrite decide_False by lia.
    change (u32 (4 + _)) with (Z.of_nat PHOTON_FRAME_SLOT_SIZE).
    rewrite Z.ltb_irrefl. rewrite <- Hlen.
    destruct (ring_buf_full (g_ring (ch_cdev ch))) eqn:Hfull.
    + wp_steps.
      eapply wp_eq; [exact (ring_push_full f _ e1 _ (ring_inv_capacity _ Hr) Hfull)|].
      wp_steps. split; [exact Hr|].
      split; [done|]. split; [done|]. split; [|done].
      intros _. split; [done|]. exists nonce. split; [done|].
      unfold accepts. by rewrite Hfull.
    + destruct (ring_push_spec f e1 _ Hr Hok Hfull) as (rb' & Hp & Hr' & Hfr & Hd & Hcap).
      wp_steps. eapply wp_eq; [exact Hp|].
      wp_steps; (split; [exact Hr'|]);
        (split; [done|]); (split; [done|]); (split; [|done]);
        intros _; (split; [done|]); exists nonce; (split; [done|]);
        unfold accepts; by rewrite Hfull.
Qed.

(** With a key: the same under the current key, labelled with its rotation. *)
Lemma send_spec ev e ch :
  channel_inv ch -> g_key_set (ch_crypto ch) = true -> packed_wf ev ->
  wp (send ev) (fun r e' ch' =>
    channel_inv ch' /\ env_rel 0 e e' /\
    same_status (ch_cdev ch) (ch_cdev ch') /\
    (r = 0%Z -> ch_crypto ch' = bump_encryptions (ch_crypto ch) /\
      exists nonce, length nonce = PHOTON_IV_SIZE /\
        accepts (event_frame (g_session_key (ch_crypto ch)) nonce
                   (g_rotation_counter (ch_crypto ch)) ev) ch ch') /\
    (r <> 0%Z -> ch' = ch /\ ~ no_fail e)) e ch.
Proof.
  intros [Hc Hr] Hk Hwf. unfold photon_send_encrypted_event, photon_has_key. wp_steps.
  eapply wp_mono; [by apply send_labelled_spec; [apply (crypto_inv_can_seal hmac_sha256)|..]|].
  intros r e' ch' (Hr' & He & Hst & H0 & H1). split_and!; try done. split; [|done].
  destruct (decide (r = 0%Z)) as [Hz|Hz]; [|by destruct (H1 Hz) as [-> _]].
  destruct (H0 Hz) as [-> _]. by apply bump_encryptions_inv.
Qed.
End send_facts.

(** ** Reading *)
Section read_facts.
Lemma wait_readable_now e st :
  ring_buf_empty (g_ring st) = false \/ g_shutting_down st = true ->
  wait_readable e st = Ret (0%Z, e, st).
Proof.
  intros H. unfold wait_readable, mbind, M_bind, get.
  replace (negb (ring_buf_empty (g_ring st)) || g_shutting_down st) with true; [done|].
  destruct H as [-> | ->]; [done|by rewrite orb_true_r].
Qed.

Lemma wait_readable_sleeps e st :
  ring_buf_empty (g_ring st) = true -> g_shutting_down st = false ->
  wait_readable e st =
    match env_rets e with
    | [] => Deadlock
    | r :: rs => if Z.eqb r 0 then Deadlock else Ret (r, set_rets rs e, st)
    end.
Proof.
  intros He Hs. unfold wait_readable, mbind, M_bind, get, kcall.
  rewrite He, Hs. simpl. destruct (env_rets e) as [|r rs]; [done|].
  by destruct (Z.eqb r 0).
Qed.

Lemma ring_frames_nonempty rb f fs :
  ring_inv rb -> ring_frames rb = f :: fs -> f <> [] /\ ring_buf_empty rb = false.
Proof.
  intros (sl & Hs & Hok & _ & Hne) Hfr. split.
  - rewrite Hfr in Hne. by apply Forall_cons_iff in Hne as [? _].
  - unfold ring_buf_empty. apply not_true_is_false. rewrite (ring_empty_iff sl) by done.
    intros E. unfold ring_frames in Hfr. by rewrite Hs, E in Hfr.
Qed.

Lemma take_take_overwrite n f dst :
  (n <= length f)%nat -> take n (overwrite f dst) = take n f.
Proof. intros. unfold overwrite. by apply take_app_le. Qed.

(** One [read] delivers the oldest frame, cut to the caller's buffer; the
    rest of a cut frame is gone. *)
Lemma read_spec f fs count e st :
  ring_inv (g_ring st) -> g_shutting_down st = false ->
  ring_frames (g_ring st) = f :: fs -> (4 <= count)%Z ->
  wp (photon_cdev_read count) (fun r e' st' =>
    ring_inv (g_ring st') /\ ring_frames (g_ring st') = fs /\ env_rel 0 e e' /\
    g_read_staging st' = zeros PHOTON_FRAME_SLOT_SIZE /\
    (r = (Z.min (Z.of_nat (length f)) (u32 count),
          take (Z.to_nat (Z.min (Z.of_nat (length f)) (u32 count))) f) \/
     r = ((- EFAULT)%Z, []) /\ ~ no_fail e)) e st.
Proof.
  intros Hinv Hsd Hfr Hc.
  destruct (ring_pop_spec f fs e _ Hinv Hfr) as (rb' & Hp & Hinv' & Hfr' & _ & _).
  destruct (ring_frames_nonempty _ _ _ Hinv Hfr) as [Hf Hemp].
  pose proof (wrap_range 32 count) as Hu.
  assert (Hlen : length f <> 0%nat) by (by destruct f).
  unfold photon_cdev_read. wp_steps.
  eapply wp_eq; [apply wait_readable_now; by left|]. wp_steps.
  eapply wp_eq; [exact Hp|]. cbn [fst snd].
  wp_steps; cbn [fst snd] in *; zbool; [lia|lia| |].
  - split_and!; try done. right. split; [done|]. tauto.
  - split_and!; try done. left. f_equal. apply take_take_overwrite. lia.
Qed.

(** After the shutdown flag is up every read fails with EIO at once. *)
Lemma read_shutdown count e st :
  g_shutting_down st = true -> photon_cdev_read count e st = Ret (((- EIO)%Z, []), e, st).
Proof.
  intros Hs. unfold photon_cdev_read, mbind, M_bind.
  rewrite wait_readable_now by (by right). unfold get. cbn -[wait_readable].
  by rewrite Hs.
Qed.

(** A caller with less than the length prefix of room loses the frame: it is
    consumed, and nothing is delivered. *)
Lemma read_short f fs count e st :
  ring_inv (g_ring st) -> g_shutting_down st = false ->
  ring_frames (g_ring st) = f :: fs -> (count < 4)%Z ->
  wp (photon_cdev_read count) (fun r e' st' =>
    r = ((- EINVAL)%Z, []) /\ ring_frames (g_ring st') = fs) e st.
Proof.
  intros Hinv Hsd Hfr Hc.
  destruct (ring_pop_spec f fs e _ Hinv Hfr) as (rb' & Hp & Hinv' & Hfr' & _ & _).
  destruct (ring_frames_nonempty _ _ _ Hinv Hfr) as [Hf Hemp].
  assert (Hlen : length f <> 0%nat) by (by destruct f).
  unfold photon_cdev_read. wp_steps.
  eapply wp_eq; [apply wait_readable_now; by left|]. wp_steps.
  eapply wp_eq; [exact Hp|]. cbn [fst snd].
  wp_steps; cbn [fst snd] in *; zbool; first [lia|done].
Qed.
End read_facts.

(** ** The device's life *)
Section device_facts.
Lemma open_exclusive e st :
  g_open_mutex st = false ->
  photon_cdev_open true e st =
    if g_is_open st then Ret ((- EBUSY)%Z, e, st)
    else Ret (0%Z, e, set_is_open true st).
Proof.
  intros Hm. unfold photon_cdev_open, lock_open, unlock_open, mutex_lock, mutex_unlock.
  unfold mbind, M_bind, get, modify. simpl. rewrite Hm. simpl.
  destruct st; simpl in *; subst. by destruct g_is_open0.
Qed.

Lemma release_spec e st :
  g_open_mutex st = false ->
  photon_cdev_release e st = Ret (0%Z, e, set_is_open false st).
Proof.
  intros Hm. unfold photon_cdev_release, lock_open, unlock_open, mutex_lock, mutex_unlock.
  unfold mbind, M_bind, get, modify. simpl. rewrite Hm. by destruct st; simpl in *; subst.
Qed.

Lemma wp_ring_init (Q : Z -> env -> photon_ring_buf -> Prop) cap e rb :
  (1 < cap < 2 ^ 32)%Z ->
  (forall e' rb', env_rel 1 e e' -> ring_inv rb' -> ring_frames rb' = [] ->
     is_Some (slots rb') -> rb_capacity rb' = cap -> rb_dropped rb' = 0%Z -> Q 0%Z e' rb') ->
  (forall r e', env_rel 0 e e' -> ~ no_fail e -> r <> 0%Z -> Q r e' rb) ->
  wp (ring_buf_init cap) Q e rb.
Proof.
  intros Hcap H0 H1. unfold ring_buf_init. wp_steps; [|by apply H1].
  assert (Hfr : ring_view (A := frame_slot)
    (replicate (Z.to_nat cap) (mk_frame_slot (zeros PHOTON_FRAME_SLOT_SIZE) 0)) cap 0 0 = []).
  { unfold ring_view, ring_len. by rewrite Z.mod_0_l by lia. }
  assert (Hfr2 : ring_frames (mk_photon_ring_buf (Some (replicate (Z.to_nat cap)
     (mk_frame_slot (zeros PHOTON_FRAME_SLOT_SIZE) 0))) 0 0 cap 0) = []).
  { unfold ring_frames. cbn [slots rb_capacity rb_head rb_tail]. by rewrite Hfr. }
  apply H0; try done. eexists. split; [done|]. split; [|split].
  - unfold ring_ok. simpl. rewrite length_replicate. lia.
  - apply Forall_replicate. split; [apply length_zeros|]. simpl. lia.
  - by rewrite Hfr2.
Qed.

Lemma wp_ring_free (Q : unit -> env -> photon_ring_buf -> Prop) e rb :
  is_Some (slots rb) ->
  (forall e', env_rel (-1) e e' -> Q tt e' (mk_photon_ring_buf None (rb_head rb) (rb_tail rb)
      (rb_capacity rb) (rb_dropped rb))) ->
  wp ring_buf_free Q e rb.
Proof.
  intros [sl Hs] HQ. unfold ring_buf_free. wp_steps. rewrite Hs. wp_steps. by apply HQ.
Qed.

(** Set-up is all or nothing: the ring and the four registrations, or, with
    the code of the call that failed, none of them. *)
Lemma cdev_channel_init_spec e st :
  wp cdev_channel_init (fun r e' st' =>
    (r = 0%Z -> env_rel 5 e e' /\ ring_inv (g_ring st') /\ ring_frames (g_ring st') = [] /\
       rb_capacity (g_ring st') = PHOTON_RING_BUF_FRAMES /\
       g_shutting_down st' = g_shutting_down st /\ g_open_mutex st' = g_open_mutex st /\
       rb_dropped (g_ring st') = 0%Z) /\
    (r <> 0%Z -> env_rel 0 e e' /\ ~ no_fail e)) e st.
Proof.
  unfold cdev_channel_init. wp_steps.
  apply wp_ring_init; [done|intros e1 rb He1 Hi Hfr Hsl Hcap Hd|intros r e1 He1 Hf Hr]; wp_steps.
  2-5: apply wp_ring_free; [done|intros ? ?]; wp_steps.
  all: split; intros ?; try done; split_and?; first [done|env_solve].
Qed.

Lemma cdev_channel_exit_spec e st :
  is_Some (slots (g_ring st)) ->
  wp cdev_channel_exit (fun _ e' st' =>
    env_rel (-5) e e' /\ slots (g_ring st') = None /\ g_shutting_down st' = true) e st.
Proof.
  intros Hs. unfold cdev_channel_exit. wp_steps.
  apply wp_ring_free; [done|]. intros e5 He5. split_and!; try done. env_solve.
Qed.
End device_facts.
