(* ===== verification/EventManager.v ===== *)
(** * The event manager
    [comms/event_manager.c]: the per-CPU event buffers, the statistics and the
    sequence counter, [photon_log_event] with its flush-and-retry, the
    heartbeat, and the set-up and tear-down of the whole reporting path (the
    event manager initialises the crypto layer and the device).  The spinlock
    of a buffer is a flag, so that a buffer entered twice by one thread shows
    as [Deadlock]; other CPUs that enqueue while [flush_event_buffer] has
    released the lock are in [Smp]. *)
From Stdlib Require Import ZArith Lia.
From Stdlib Require Import Strings.Byte Strings.String.
From stdpp Require Import base numbers list strings option.
From S2P Require Import Prelude CString Kernel Events Ring Crypto Cdev.

Definition EVENT_BUFFER_SIZE : Z := 256.

Record event_buffer := mk_event_buffer {
  lock : bool;
  events : option (list photon_event);
  head : Z;
  tail : Z;
  capacity : Z;
  dropped : Z;
}.

Definition set_lock b buf := mk_event_buffer b (events buf) (head buf) (tail buf)
  (capacity buf) (dropped buf).
Definition set_head h buf := mk_event_buffer (lock buf) (events buf) h (tail buf)
  (capacity buf) (dropped buf).
Definition set_tail t buf := mk_event_buffer (lock buf) (events buf) (head buf) t
  (capacity buf) (dropped buf).
Definition set_events evs buf := mk_event_buffer (lock buf) evs (head buf) (tail buf)
  (capacity buf) (dropped buf).
Definition set_dropped d buf := mk_event_buffer (lock buf) (events buf) (head buf) (tail buf)
  (capacity buf) d.

(** [g_stats] *)
Record stats := mk_stats {
  total_events : Z;
  total_dropped : Z;
  total_sent : Z;
  send_failures : Z;
}.

Definition inc_events s := mk_stats (u64 (total_events s + 1)) (total_dropped s)
  (total_sent s) (send_failures s).
Definition inc_dropped s := mk_stats (total_events s) (u64 (total_dropped s + 1))
  (total_sent s) (send_failures s).
Definition inc_sent s := mk_stats (total_events s) (total_dropped s)
  (u64 (total_sent s + 1)) (send_failures s).
Definition inc_failures s := mk_stats (total_events s) (total_dropped s)
  (total_sent s) (u64 (send_failures s + 1)).

(** The reporting path: the statics of event_manager.c over the channel. *)
Record manager := mk_manager {
  event_buffers : list event_buffer;
  g_sequence_counter : Z;
  g_stats : stats;
  chan : channel;
}.

Definition set_buffers b m := mk_manager b (g_sequence_counter m) (g_stats m) (chan m).
Definition set_sequence n m := mk_manager (event_buffers m) n (g_stats m) (chan m).
Definition set_stats s m := mk_manager (event_buffers m) (g_sequence_counter m) s (chan m).
Definition set_chan c m := mk_manager (event_buffers m) (g_sequence_counter m) (g_stats m) c.

Definition buffer_initial : event_buffer := mk_event_buffer false None 0 0 0 0.
Definition manager_initial (ncpu : nat) : manager :=
  mk_manager (replicate ncpu buffer_initial) 0 (mk_stats 0 0 0 0)
    (mk_channel crypto_initial cdev_initial).

(** ** One buffer *)
Definition spin_lock : M event_buffer unit := mutex_lock lock set_lock.
Definition spin_unlock : M event_buffer unit := mutex_unlock set_lock.

(** [mem] is what the uninitialised memory of [kmalloc_array] holds. *)
Definition init_event_buffer (mem : nat -> photon_event) : M event_buffer Z :=
  r ← kalloc;
  if negb (Z.eqb r 0) then (modify (fun b => set_events None (set_lock false b)) ;; mret (- ENOMEM)%Z)
  else
  put (mk_event_buffer false (Some (mem <$> seq 0 (Z.to_nat EVENT_BUFFER_SIZE)))
         0 0 EVENT_BUFFER_SIZE 0) ;;
  mret 0%Z.

Definition free_event_buffer : M event_buffer unit :=
  b ← get;
  match events b with
  | Some _ => kfree ;; modify (set_events None)
  | None => mret tt
  end.

Definition buffer_is_full (b : event_buffer) : bool :=
  Z.eqb (u32 (head b + 1) mod capacity b) (tail b).
Definition buffer_is_empty (b : event_buffer) : bool := Z.eqb (head b) (tail b).

(** The locked part of [enqueue_event]; an absent buffer faults, as does the
    division by a zero capacity. *)
Definition buffer_enqueue (event : photon_event) : M event_buffer Z :=
  spin_lock ;;
  b ← get;
  if Z.eqb (capacity b) 0 then fault else
  ret ← (if buffer_is_full b then
           modify (set_dropped (u32 (dropped b + 1))) ;; mret (- ENOSPC)%Z
         else
         match events b with
         | None => fault
         | Some evs =>
             if decide (length evs <= Z.to_nat (head b))%nat then fault else
             modify (set_events (Some (<[Z.to_nat (head b) := event]> evs))) ;;
             modify (set_head (u32 (head b + 1) mod capacity b)) ;;
             mret 0%Z
         end);
  spin_unlock ;;
  mret ret.

(** The locked part of one turn of [flush_event_buffer]'s loop: [None] when the
    buffer is empty. The lock is left as it was found. *)
Definition take_event : M event_buffer (option photon_event) :=
  b ← get;
  if buffer_is_empty b then mret None else
  match events b ≫= fun evs => evs !! Z.to_nat (tail b) with
  | None => fault
  | Some event =>
      if Z.eqb (capacity b) 0 then fault else
      modify (set_tail (u32 (tail b + 1) mod capacity b)) ;;
      mret (Some event)
  end.

(** Run an operation on the buffer of [cpu]. *)
Definition on_buffer {A} (cpu : nat) (m : M event_buffer A) : M manager A := fun e s =>
  match event_buffers s !! cpu with
  | None => Fault
  | Some b => zoom (fun _ => b) (fun b' s => set_buffers (<[cpu := b']> (event_buffers s)) s) m e s
  end.
Definition on_channel {A} (m : M channel A) : M manager A := zoom chan set_chan m.
Definition count (f : stats -> stats) : M manager unit :=
  modify (fun s => set_stats (f (g_stats s)) s).

Fixpoint for_each {S} (cpus : list nat) (f : nat -> M S unit) : M S unit :=
  match cpus with
  | [] => mret tt
  | c :: cs => f c ;; for_each cs f
  end.
Definition for_each_possible_cpu (f : nat -> M manager unit) : M manager unit :=
  s ← get; for_each (seq 0 (length (event_buffers s))) f.

Definition enqueue_event (event : photon_event) : M manager Z :=
  s ← get;
  cpu ← smp_processor_id (length (event_buffers s));
  ret ← on_buffer cpu (buffer_enqueue event);
  (if Z.eqb ret (- ENOSPC) then count inc_dropped else mret tt) ;;
  mret ret.

(** The envelope of an event. *)
Definition make_event (seq ts event_type detector_id severity : Z) (t : task)
    (data : option (list byte)) (data_len : Z) : photon_event :=
  mk_photon_event seq ts event_type detector_id severity (zeros 3) (u32 (pid t))
    (char_field 16 (comm t)) data_len
    (match data with
     | Some d => fit PHOTON_MAX_EVENT_DATA (take (Z.to_nat data_len) d)
     | None => zeros PHOTON_MAX_EVENT_DATA
     end).

Section manager.
Context (aead_encrypt : list byte -> list byte -> list byte -> list byte).

(** The loop runs with the lock held and releases it around the send. *)
Fixpoint flush_loop (fuel cpu : nat) : M manager unit :=
  o ← on_buffer cpu take_event;
  match o with
  | None => mret tt
  | Some event =>
      match fuel with
      | O => deadlock
      | S fuel =>
          on_buffer cpu spin_unlock ;;
          ret ← on_channel (photon_send_encrypted_event aead_encrypt event);
          (if negb (Z.eqb ret 0) then count inc_failures else count inc_sent) ;;
          on_buffer cpu spin_lock ;;
          flush_loop fuel cpu
      end
  end.

(** A buffer holds at most [capacity - 1] events: that many turns suffice. *)
Definition flush_event_buffer (cpu : nat) : M manager unit :=
  on_buffer cpu spin_lock ;;
  b ← on_buffer cpu get;
  flush_loop (Z.to_nat (capacity b)) cpu ;;
  on_buffer cpu spin_unlock.

Definition flush_all_buffers : M manager unit :=
  for_each_possible_cpu flush_event_buffer.

(** The second half of [photon_log_event]: enqueue, on a full buffer flush
    and retry once, then flush. *)
Definition submit_event (event : photon_event) : M manager Z :=
  count inc_events ;;
  ret ← enqueue_event event;
  ret ← (if negb (Z.eqb ret 0) then (flush_all_buffers ;; enqueue_event event) else mret 0%Z);
  if negb (Z.eqb ret 0) then mret ret else
  flush_all_buffers ;;
  mret 0%Z.

(** The arguments are converted to the parameters' types; [data] of [None]
    is a NULL pointer, and a buffer shorter than [data_len] faults. *)
Definition photon_log_event (event_type detector_id severity : Z)
    (data : option (list byte)) (data_len : Z) : M manager Z :=
  let data_len := u16 data_len in
  if (Z.of_nat PHOTON_MAX_EVENT_DATA <? data_len)%Z then mret (- EINVAL)%Z else
  modify (fun s => set_sequence (u64 (g_sequence_counter s + 1)) s) ;;
  s ← get;
  ts ← ktime_get;
  t ← get_current;
  (match data with
   | Some d => if decide (length d < Z.to_nat data_len)%nat then fault else mret tt
   | None => mret tt
   end) ;;
  let event := make_event (g_sequence_counter s) ts (u32 event_type) (u32 detector_id)
    (u8 severity) t data data_len in
  submit_event event.

Definition photon_send_heartbeat : M manager Z :=
  up ← ktime_get;
  s ← get;
  let hb := mk_system_data up (total_sent (g_stats s)) (total_dropped (g_stats s)) 0 in
  photon_log_event (event_type_code PHOTON_EVENT_SYSTEM_HEARTBEAT) 0 PHOTON_SEV_INFO
    (Some (pack hb)) (Z.of_nat (sizeof system_data)).

Definition photon_get_sequence (s : manager) : Z := g_sequence_counter s.

(** The buffers in turn, up to the first failure. *)
Fixpoint init_event_buffers (mem : nat -> nat -> photon_event) (cpus : list nat) : M manager Z :=
  match cpus with
  | [] => mret 0%Z
  | cpu :: cpus =>
      ret ← on_buffer cpu (init_event_buffer (mem cpu));
      if negb (Z.eqb ret 0) then mret ret else init_event_buffers mem cpus
  end.

Definition free_event_buffers : M manager unit :=
  for_each_possible_cpu (fun cpu => on_buffer cpu free_event_buffer).

Definition event_manager_init (mem : nat -> nat -> photon_event) : M manager Z :=
  s ← get;
  ret ← init_event_buffers mem (seq 0 (length (event_buffers s)));
  if negb (Z.eqb ret 0) then (free_event_buffers ;; mret ret) else
  count (fun _ => mk_stats 0 0 0 0) ;;
  ret ← on_channel (on_crypto crypto_layer_init);
  if negb (Z.eqb ret 0) then (free_event_buffers ;; mret ret) else
  ret ← on_channel (on_cdev cdev_channel_init);
  if negb (Z.eqb ret 0) then
    (on_channel (on_crypto crypto_layer_exit) ;; free_event_buffers ;; mret ret)
  else mret 0%Z.

Definition event_manager_exit : M manager unit :=
  flush_all_buffers ;;
  on_channel (on_cdev cdev_channel_exit) ;;
  on_channel (on_crypto crypto_layer_exit) ;;
  free_event_buffers.
End manager.

(** ** A buffer as a bounded queue of events *)
#[export] Instance photon_event_inhabited : Inhabited photon_event :=
  populate (make_event 0 0 0 0 0 (mk_task 0 EmptyString) None 0).

Definition buffer_view (b : event_buffer) : list photon_event :=
  match events b with
  | Some evs => ring_view evs (capacity b) (head b) (tail b)
  | None => []
  end.

Definition buffer_inv (b : event_buffer) : Prop :=
  lock b = false /\ Forall packed_wf (buffer_view b) /\
  exists evs, events b = Some evs /\ ring_ok evs (capacity b) (head b) (tail b).

#[export] Instance event_queue : BoundedQueue event_buffer photon_event := {
  bq_inv := buffer_inv;
  bq_view := buffer_view;
  bq_room b := Z.to_nat (capacity b - 1);
  bq_dropped := dropped;
  bq_elem := packed_wf;
  bq_enq := buffer_enqueue;
  bq_deq := spin_lock ;; o ← take_event; spin_unlock ;; mret o;
}.

Section buffer_facts.
Lemma set_lock_restore b : lock b = false -> set_lock false (set_lock true b) = b.
Proof. by destruct b; simpl; intros ->. Qed.

Lemma buffer_full_view b :
  buffer_inv b -> buffer_is_full b = true <->
  length (buffer_view b) = Z.to_nat (capacity b - 1).
Proof.
  intros (_ & _ & evs & He & Hok). unfold buffer_is_full, buffer_view. rewrite He.
  rewrite (ring_full_iff evs) by done. destruct Hok as (? & _). lia.
Qed.

Lemma buffer_empty_view b :
  buffer_inv b -> buffer_is_empty b = true <-> buffer_view b = [].
Proof.
  intros (_ & _ & evs & He & Hok). unfold buffer_is_empty, buffer_view. rewrite He.
  by apply ring_empty_iff.
Qed.

Lemma buffer_enqueue_room ev e b :
  buffer_inv b -> packed_wf ev -> buffer_is_full b = false ->
  exists b', buffer_enqueue ev e b = Ret (0%Z, e, b') /\ buffer_inv b' /\
    buffer_view b' = buffer_view b ++ [ev] /\ dropped b' = dropped b /\
    capacity b' = capacity b.
Proof.
  intros (Hl & Hwf & evs & He & Hok) Hev Hfull. pose proof Hok as (? & ? & ? & ?).
  destruct (ring_push evs _ _ _ ev Hok Hfull) as [Hok' Hview].
  unfold buffer_view in *. rewrite He in *.
  eexists. split; [|split_and!].
  - unfold buffer_enqueue, spin_lock, spin_unlock, mutex_lock, mutex_unlock.
    unfold mbind, M_bind, get, modify. rewrite Hl. cbn -[decide].
    rewrite (proj2 (Z.eqb_neq _ _)) by lia.
    change (buffer_is_full (set_lock true b)) with (buffer_is_full b).
    rewrite Hfull, He. rewrite decide_False by lia. reflexivity.
  - split; [done|]. cbn. rewrite Hview. split; [by apply Forall_app_2; [|apply Forall_singleton]|].
    by eexists.
  - done.
  - done.
  - done.
Qed.

Lemma buffer_enqueue_full ev e b :
  lock b = false -> (capacity b <> 0)%Z -> buffer_is_full b = true ->
  buffer_enqueue ev e b = Ret ((- ENOSPC)%Z, e, set_dropped (u32 (dropped b + 1)) b).
Proof.
  intros Hl Hc Hfull. unfold buffer_enqueue, spin_lock, spin_unlock, mutex_lock, mutex_unlock.
  unfold mbind, M_bind, get, modify. rewrite Hl. cbn -[decide].
  rewrite (proj2 (Z.eqb_neq _ _)) by done.
  change (buffer_is_full (set_lock true b)) with (buffer_is_full b).
  rewrite Hfull. simpl. by destruct b; simpl in *; subst.
Qed.

Lemma buffer_capacity b : buffer_inv b -> (1 < capacity b)%Z.
Proof. intros (_ & _ & evs & _ & (? & _)). lia. Qed.

(** [take_event] does not look at the lock: it works on a locked buffer. *)
Lemma take_event_cons lk ev evs e b :
  buffer_inv b -> buffer_view b = ev :: evs ->
  exists b', take_event e (set_lock lk b) = Ret (Some ev, e, set_lock lk b') /\
    buffer_inv b' /\ buffer_view b' = evs /\ dropped b' = dropped b /\
    capacity b' = capacity b.
Proof.
  intros (Hl & Hwf & sl & He & Hok) Hv.
  assert (Hemp : buffer_is_empty b = false).
  { apply not_true_is_false. rewrite buffer_empty_view; [by rewrite Hv|].
    split; [done|]. split; [done|]. by eexists. }
  pose proof Hok as (? & ? & ? & ?).
  unfold buffer_view in *. rewrite He in *.
  destruct (ring_pop sl _ _ _ Hok Hemp) as [Hok' Hview]. rewrite Hview in *.
  injection Hv as Hev Hevs. apply Forall_cons_iff in Hwf as [Hw Hwf].
  exists (set_tail (u32 (tail b + 1) mod capacity b) b). split; [|split_and!; try done].
  - unfold take_event, mbind, M_bind, get, modify.
    change (buffer_is_empty (set_lock lk b)) with (buffer_is_empty b).
    cbn -[lookup]. rewrite Hemp, He. cbn -[lookup].
    rewrite (list_lookup_lookup_total_lt sl (Z.to_nat (tail b))) by lia.
    rewrite (proj2 (Z.eqb_neq _ _)) by lia. rewrite Hev. reflexivity.
  - unfold buffer_inv, buffer_view. cbn. rewrite He. split_and!; [done|done|]. by eexists.
  - cbn. by rewrite He.
Qed.

Lemma take_event_nil lk e b :
  buffer_inv b -> buffer_view b = [] ->
  take_event e (set_lock lk b) = Ret (None, e, set_lock lk b).
Proof.
  intros Hinv Hv. apply buffer_empty_view in Hv; [|done].
  unfold take_event, mbind, M_bind, get.
  change (buffer_is_empty (set_lock lk b)) with (buffer_is_empty b). by rewrite Hv.
Qed.
End buffer_facts.

#[export] Instance event_queue_laws : BoundedQueueLaws event_buffer photon_event.
Proof.
  split; simpl.
  - intros b (_ & _ & evs & He & Hok). unfold buffer_view. rewrite He, length_ring_view.
    destruct Hok as (? & _). pose proof (ring_len_range (capacity b) (head b) (tail b)). lia.
  - intros ev e b Hinv Hev Hlt.
    assert (Hfull : buffer_is_full b = false).
    { apply not_true_is_false. rewrite buffer_full_view by done. lia. }
    destruct (buffer_enqueue_room ev e b Hinv Hev Hfull) as (b' & ? & ? & ? & ? & Hc).
    exists b'. by rewrite Hc.
  - intros ev e b Hinv Hlen. apply buffer_full_view in Hlen; [|done].
    pose proof (buffer_capacity b Hinv). pose proof Hinv as (? & _).
    rewrite buffer_enqueue_full by (done || lia). eexists. split; [done|]. by split.
  - intros e b Hinv Hv. destruct (Hinv) as (Hl & _).
    unfold spin_lock, mutex_lock, mbind, M_bind, get, modify. rewrite Hl.
    rewrite take_event_nil by done. cbn. by rewrite set_lock_restore.
  - intros e b ev evs Hinv Hv. destruct (Hinv) as (Hl & _).
    destruct (take_event_cons true ev evs e b Hinv Hv) as (b' & Ht & Hi & ? & ? & Hc).
    exists b'. unfold spin_lock, mutex_lock, mbind, M_bind, get, modify. rewrite Hl, Ht.
    cbn. rewrite set_lock_restore by apply Hi. by rewrite Hc.
Qed.

(** ** Delivery
    What handing an event to the channel does: nothing without a key, one frame
    sealed under the current key with one, nothing when a kernel call fails. *)
Section delivery.
Context (hmac_sha256 : list byte -> list byte -> list byte).
Context (aead_encrypt : list byte -> list byte -> list byte -> list byte).
Context (aead_length : forall k n p,
  length (aead_encrypt k n p) = (length p + PHOTON_TAG_SIZE)%nat).
Abbreviation channel_inv := (channel_inv hmac_sha256).

Inductive deliver1 (ev : photon_event) (ch : channel) : Z -> channel -> Prop :=
  | deliver_no_key :
      g_key_set (ch_crypto ch) = false -> deliver1 ev ch 0 ch
  | deliver_sealed nonce ch' :
      g_key_set (ch_crypto ch) = true -> length nonce = PHOTON_IV_SIZE ->
      ch_crypto ch' = bump_encryptions (ch_crypto ch) ->
      same_status (ch_cdev ch) (ch_cdev ch') ->
      accepts (event_frame aead_encrypt (g_session_key (ch_crypto ch)) nonce
        (g_rotation_counter (ch_crypto ch)) ev) ch ch' ->
      deliver1 ev ch 0 ch'
  | deliver_failed r :
      g_key_set (ch_crypto ch) = true -> r <> 0%Z -> deliver1 ev ch r ch.

(** [deliver evs ch n k ch']: the events in order, [n] of them counted as
    sent and [k] as failed. *)
Inductive deliver : list photon_event -> channel -> nat -> nat -> channel -> Prop :=
  | deliver_nil ch : deliver [] ch 0 0 ch
  | deliver_sent ev evs ch ch1 n k ch2 :
      deliver1 ev ch 0 ch1 -> deliver evs ch1 n k ch2 -> deliver (ev :: evs) ch (S n) k ch2
  | deliver_lost ev evs ch r n k ch2 :
      r <> 0%Z -> deliver1 ev ch r ch -> deliver evs ch n k ch2 ->
      deliver (ev :: evs) ch n (S k) ch2.

Lemma deliver_app evs1 evs2 ch1 ch2 ch3 n1 k1 n2 k2 :
  deliver evs1 ch1 n1 k1 ch2 -> deliver evs2 ch2 n2 k2 ch3 ->
  deliver (evs1 ++ evs2) ch1 (n1 + n2) (k1 + k2) ch3.
Proof.
  intros H1 H2. induction H1; simpl; [done|..].
  - eapply deliver_sent; eauto.
  - eapply deliver_lost; eauto.
Qed.

Lemma deliver_count evs ch n k ch' : deliver evs ch n k ch' -> (n + k = length evs)%nat.
Proof. induction 1; simpl; lia. Qed.

(** Without a key everything counts as sent and nothing reaches the ring. *)
Lemma deliver_unkeyed evs ch n k ch' :
  deliver evs ch n k ch' -> g_key_set (ch_crypto ch) = false ->
  ch' = ch /\ n = length evs /\ k = 0%nat.
Proof.
  induction 1 as [|ev evs ch ch1 n k ch2 H1 H2 IH|ev evs ch r n k ch2 Hr H1 H2 IH];
    intros Hk; [done|..]; inversion H1; subst; try congruence; simpl.
  destruct (IH Hk) as (-> & -> & ->). done.
Qed.

(** One event with a key and no failure: the keys but for the counter stay,
    and the event's frame goes to the ring if there is room. *)
Lemma deliver_one ev ch n ch' :
  deliver [ev] ch n 0 ch' -> g_key_set (ch_crypto ch) = true ->
  exists nonce, length nonce = PHOTON_IV_SIZE /\
    ch_crypto ch' = bump_encryptions (ch_crypto ch) /\
    (ring_buf_full (g_ring (ch_cdev ch)) = false ->
     ch_frames ch' = ch_frames ch ++
       [event_frame aead_encrypt (g_session_key (ch_crypto ch)) nonce
          (g_rotation_counter (ch_crypto ch)) ev]).
Proof.
  intros Hd Hk. inversion Hd as [|ev' evs ch0 ch1 n0 k0 ch2 H1 H2|]; subst.
  inversion H2; subst. inversion H1 as [Hk'|nonce ch1 _ Hn Hc Hst [_ Ha]|]; subst; [congruence| |done].
  exists nonce. split_and!; [done|done|]. intros Hfull. rewrite Hfull in Ha. by apply Ha.
Qed.

(** Delivery never touches the keys or the device's status. *)
Lemma deliver_key evs ch n k ch' :
  deliver evs ch n k ch' ->
  g_key_set (ch_crypto ch') = g_key_set (ch_crypto ch) /\
  g_session_key (ch_crypto ch') = g_session_key (ch_crypto ch) /\
  g_rotation_counter (ch_crypto ch') = g_rotation_counter (ch_crypto ch).
Proof.
  induction 1 as [|ev evs ch ch1 n k ch2 H1 H2 IH|]; [done| |done].
  destruct IH as (-> & -> & ->).
  inversion H1 as [|nonce ch1' ? ? Hc|]; subst; [done| |done]. by rewrite Hc.
Qed.

Lemma deliver_status evs ch n k ch' :
  deliver evs ch n k ch' -> same_status (ch_cdev ch) (ch_cdev ch').
Proof.
  induction 1 as [|ev evs ch ch1 n k ch2 H1 H2 IH|]; [done| |done].
  assert (same_status (ch_cdev ch) (ch_cdev ch1)) as Hst by (inversion H1; by subst).
  destruct Hst as (?&?&?&?), IH as (?&?&?&?). unfold same_status. split_and!; congruence.
Qed.

Lemma deliver_tfm evs ch n k ch' :
  deliver evs ch n k ch' -> g_tfm (ch_crypto ch') = g_tfm (ch_crypto ch).
Proof.
  induction 1 as [|ev evs ch ch1 n k ch2 H1 H2 IH|]; [done| |done]. rewrite IH.
  inversion H1 as [|nonce ch1' ? ? Hc|]; subst; [done| |done]. by rewrite Hc.
Qed.

(** What [photon_send_encrypted_event] does is one delivery. *)
Lemma send_deliver ev e ch :
  channel_inv ch -> packed_wf ev ->
  wp (photon_send_encrypted_event aead_encrypt ev) (fun r e' ch' =>
    channel_inv ch' /\ env_rel 0 e e' /\ deliver1 ev ch r ch' /\
    (r <> 0%Z -> ch' = ch) /\ (no_fail e -> r = 0%Z)) e ch.
Proof.
  intros Hinv Hwf. destruct (g_key_set (ch_crypto ch)) eqn:Hk.
  - eapply wp_mono; [by eapply send_spec|].
    intros r e' ch' (Hi & He & Hst & H0 & H1). split_and!; try done.
    + destruct (decide (r = 0%Z)) as [->|Hr].
      * destruct (H0 eq_refl) as (Hb & nonce & Hn & Ha). by eapply deliver_sealed.
      * destruct (H1 Hr) as [-> _]. by apply deliver_failed.
    + intros Hr. by destruct (H1 Hr).
    + intros Hf. destruct (decide (r = 0%Z)) as [|Hr]; [done|].
      by destruct (H1 Hr) as [_ []].
  - eapply wp_eq; [by apply send_no_key|].
    split_and!; try done; [apply env_rel_refl|by apply deliver_no_key].
Qed.
End delivery.

Ltac wp_extra ::=
  lazymatch goal with
  | |- wp (on_ring _) _ _ _ => apply wp_zoom
  | |- wp (on_crypto _) _ _ _ => apply wp_zoom
  | |- wp (on_cdev _) _ _ _ => apply wp_zoom
  | |- wp (on_channel _) _ _ _ => apply wp_zoom
  | |- wp (count _) _ _ _ => apply wp_modify
  | |- wp (mutex_lock _ _) _ _ _ => apply wp_mutex_lock; [done|]
  | |- wp spin_lock _ _ _ => apply wp_mutex_lock; [done|]
  | |- wp spin_unlock _ _ _ => apply wp_mutex_unlock
  end.

(** ** The whole manager *)
Definition stat_range (z : Z) : Prop := (0 <= z < 2 ^ 64)%Z.
Definition stats_ok (s : stats) : Prop :=
  stat_range (total_events s) /\ stat_range (total_dropped s) /\
  stat_range (total_sent s) /\ stat_range (send_failures s).

Definition add_sent (n k : nat) (s : stats) : stats :=
  mk_stats (total_events s) (total_dropped s)
    (u64 (total_sent s + Z.of_nat n)) (u64 (send_failures s + Z.of_nat k)).

(** The events that wait in the buffers, CPU by CPU. *)
Definition pending (m : manager) : list photon_event :=
  concat (buffer_view <$> event_buffers m).
Definition view_at (m : manager) (cpu : nat) : list photon_event :=
  from_option buffer_view [] (event_buffers m !! cpu).

Section manager_facts.
Context (hmac_sha256 : list byte -> list byte -> list byte).
Context (aead_encrypt : list byte -> list byte -> list byte -> list byte).
Context (aead_length : forall k n p,
  length (aead_encrypt k n p) = (length p + PHOTON_TAG_SIZE)%nat).
Abbreviation channel_inv := (channel_inv hmac_sha256).
Abbreviation deliver := (deliver aead_encrypt).
Abbreviation flush_event_buffer := (flush_event_buffer aead_encrypt).
Abbreviation flush_all_buffers := (flush_all_buffers aead_encrypt).

Definition manager_inv (m : manager) : Prop :=
  event_buffers m <> [] /\ Forall buffer_inv (event_buffers m) /\
  stat_range (g_sequence_counter m) /\ stats_ok (g_stats m) /\ channel_inv (chan m).

(** What flushing [evs] does to everything but the buffers. *)
Definition flushed (e : env) (evs : list photon_event) (m m' : manager) : Prop :=
  exists n k, deliver evs (chan m) n k (chan m') /\
    g_stats m' = add_sent n k (g_stats m) /\
    g_sequence_counter m' = g_sequence_counter m /\
    (no_fail e -> k = 0%nat).

Lemma add_sent_0 s : stats_ok s -> add_sent 0 0 s = s.
Proof.
  intros (_ & _ & Hs & Hf). destruct s as [a b c d]. unfold add_sent. simpl in *.
  rewrite !Z.add_0_r. by rewrite !(wrap_small 64).
Qed.

Lemma add_sent_add n1 k1 n2 k2 s :
  add_sent n2 k2 (add_sent n1 k1 s) = add_sent (n1 + n2) (k1 + k2) s.
Proof.
  unfold add_sent, u64, wrap. simpl. rewrite !Zplus_mod_idemp_l, !Nat2Z.inj_add.
  by rewrite !Z.add_assoc.
Qed.

Lemma u64_stat z : stat_range (u64 z).
Proof. by apply (wrap_range 64). Qed.

Lemma u64_small z : stat_range z -> u64 z = z.
Proof. apply (wrap_small 64). Qed.

Lemma inc_ok s :
  stats_ok s -> stats_ok (inc_sent s) /\ stats_ok (inc_failures s) /\
  stats_ok (inc_events s) /\ stats_ok (inc_dropped s).
Proof.
  unfold stats_ok. intros (? & ? & ? & ?). simpl. split_and!; auto using u64_stat.
Qed.

(** One delivery and its counter. *)
Lemma flushed_one e ev r m m' ch :
  stats_ok (g_stats m) -> deliver1 aead_encrypt ev (chan m) r ch ->
  (r <> 0%Z -> ch = chan m) -> (no_fail e -> r = 0%Z) ->
  chan m' = ch -> g_sequence_counter m' = g_sequence_counter m ->
  g_stats m' = (if Z.eqb r 0 then inc_sent (g_stats m) else inc_failures (g_stats m)) ->
  flushed e [ev] m m'.
Proof.
  intros (_ & _ & ? & ?) Hd Hr Hf Hch Hq Hs. unfold flushed. rewrite Hs, Hch.
  destruct (Z.eqb_spec r 0) as [->|Hr0].
  - exists 1%nat, 0%nat. split; [eapply deliver_sent; [exact Hd|apply deliver_nil]|].
    split_and!; try done. unfold add_sent, inc_sent. simpl.
    rewrite Z.add_0_r. by rewrite (u64_small (send_failures (g_stats m))).
  - exists 0%nat, 1%nat. rewrite (Hr Hr0) in *.
    split; [eapply deliver_lost; [exact Hr0|exact Hd|apply deliver_nil]|].
    split_and!; try done; [|by intros ?%Hf]. unfold add_sent, inc_failures. simpl.
    rewrite Z.add_0_r. by rewrite (u64_small (total_sent (g_stats m))).
Qed.

Lemma add_sent_ok n k s : stats_ok s -> stats_ok (add_sent n k s).
Proof.
  unfold stats_ok, add_sent. simpl. intros (? & ? & _ & _).
  split_and!; auto using u64_stat.
Qed.

Lemma flushed_nil e m m' :
  stats_ok (g_stats m) -> chan m' = chan m -> g_stats m' = g_stats m ->
  g_sequence_counter m' = g_sequence_counter m -> flushed e [] m m'.
Proof.
  intros Hs Hc Hst Hq. unfold flushed. rewrite Hc, Hst. exists 0%nat, 0%nat. rewrite add_sent_0 by done.
  split_and!; try done. apply deliver_nil.
Qed.

Lemma flushed_app d e e' evs1 evs2 m1 m2 m3 :
  env_rel d e e' -> flushed e evs1 m1 m2 -> flushed e' evs2 m2 m3 ->
  flushed e (evs1 ++ evs2) m1 m3.
Proof.
  intros He (n1 & k1 & Hd1 & Hs1 & Hq1 & Hf1) (n2 & k2 & Hd2 & Hs2 & Hq2 & Hf2).
  exists (n1 + n2)%nat, (k1 + k2)%nat. split; [by eapply deliver_app|].
  rewrite Hs2, Hs1, add_sent_add. split; [done|]. split; [congruence|].
  intros Hnf. destruct He as (_ & He & _). rewrite Hf1, Hf2; auto.
Qed.

Lemma flushed_stats e evs m m' : stats_ok (g_stats m) -> flushed e evs m m' -> stats_ok (g_stats m').
Proof. intros Hs (n & k & _ & -> & _). by apply add_sent_ok. Qed.

(** Replace one buffer. *)
Definition put_buffer (cpu : nat) (b : event_buffer) (m : manager) : manager :=
  set_buffers (<[cpu := b]> (event_buffers m)) m.

Lemma put_buffer_put cpu b b' m : put_buffer cpu b (put_buffer cpu b' m) = put_buffer cpu b m.
Proof. unfold put_buffer. simpl. by rewrite list_insert_insert_eq. Qed.

Lemma put_buffer_lookup cpu b m :
  (cpu < length (event_buffers m))%nat -> event_buffers (put_buffer cpu b m) !! cpu = Some b.
Proof. apply list_lookup_insert_eq. Qed.

Lemma wp_on_buffer {A} (Q : A -> env -> manager -> Prop) cpu b (x : M event_buffer A) e m :
  event_buffers m !! cpu = Some b ->
  wp x (fun a e' b' => Q a e' (put_buffer cpu b' m)) e b -> wp (on_buffer cpu x) Q e m.
Proof.
  intros Hb Hx. unfold wp, on_buffer. rewrite Hb. unfold zoom. unfold wp in Hx.
  by destruct (x e b) as [[[a e'] b']| |].
Qed.

(** The buffer of [cpu], still locked, is empty and [evs] went out. *)
Definition emptied (cpu : nat) (b : event_buffer) (evs : list photon_event)
    (e : env) (m : manager) (e' : env) (m' : manager) : Prop :=
  exists b', buffer_inv b' /\ buffer_view b' = [] /\ capacity b' = capacity b /\
    event_buffers m' = <[cpu := set_lock true b']> (event_buffers m) /\
    channel_inv (chan m') /\ env_rel 0 e e' /\ flushed e evs m m'.

(** The state after one turn of the loop, about to take the next event. *)
Definition sent_one (cpu : nat) (b1 : event_buffer) (r : Z) (ch1 : channel) (m : manager)
    : manager :=
  mk_manager (<[cpu := set_lock true b1]> (event_buffers m)) (g_sequence_counter m)
    (if Z.eqb r 0 then inc_sent (g_stats m) else inc_failures (g_stats m)) ch1.

Lemma emptied_cons cpu b b1 ev r ch1 e e1 m e2 m2 :
  stats_ok (g_stats m) -> capacity b1 = capacity b -> env_rel 0 e e1 ->
  deliver1 aead_encrypt ev (chan m) r ch1 ->
  (r <> 0%Z -> ch1 = chan m) -> (no_fail e -> r = 0%Z) ->
  emptied cpu b1 (buffer_view b1) e1 (sent_one cpu b1 r ch1 m) e2 m2 ->
  emptied cpu b (ev :: buffer_view b1) e m e2 m2.
Proof.
  intros Hst Hc1 He1 Hd1 Hr1 Hf1 (b2 & Hi2 & Hv2 & Hc2 & Hb2 & Hch2 & He2 & Hfl).
  exists b2. split_and!; try done; [congruence| |env_solve|].
  { rewrite Hb2. simpl. by rewrite list_insert_insert_eq. }
  change (ev :: buffer_view b1) with ([ev] ++ buffer_view b1).
  eapply (flushed_app 0); [exact He1| |exact Hfl]. by eapply flushed_one.
Qed.

(** One turn per event: with the buffer locked and fuel for what it holds,
    the loop empties it and hands over every event in order. *)
Lemma flush_loop_spec fuel cpu b e m :
  event_buffers m !! cpu = Some (set_lock true b) -> buffer_inv b ->
  channel_inv (chan m) -> stats_ok (g_stats m) -> (length (buffer_view b) <= fuel)%nat ->
  wp (flush_loop aead_encrypt fuel cpu)
    (fun _ e' m' => emptied cpu b (buffer_view b) e m e' m') e m.
Proof.
  revert b e m. induction fuel as [|fuel IH]; intros b e m Hb Hinv Hch Hst Hlen.
  all: destruct (buffer_view b) as [|ev evs] eqn:Hv; simpl in Hlen; try lia.
  1,2: cbn [flush_loop]; wp_step; eapply wp_on_buffer; [exact Hb|];
    (eapply wp_eq; [by apply (take_event_nil true)|]); wp_steps; exists b; split_and!;
    try done; [apply env_rel_refl|by apply flushed_nil].
  cbn [flush_loop]. wp_step. eapply wp_on_buffer; [exact Hb|].
  destruct (take_event_cons true ev evs e b Hinv Hv) as (b1 & Ht & Hi1 & <- & _ & Hc1).
  eapply wp_eq; [exact Ht|]. clear Ht.
  pose proof (lookup_lt_Some _ _ _ Hb) as Hlt. cbn beta iota.
  wp_step. eapply wp_on_buffer; [by apply put_buffer_lookup|]. apply wp_mutex_unlock.
  cbn beta. rewrite put_buffer_put. wp_step. apply wp_zoom.
  destruct Hinv as (_ & Hwf & _). rewrite Hv in Hwf. apply Forall_cons_iff in Hwf as [Hev _].
  eapply wp_mono; [by eapply send_deliver|].
  intros r e1 ch1 (Hch1 & He1 & Hd1 & Hr1 & Hf1). destruct (inc_ok _ Hst) as (? & ? & _).
  assert (Hrec : wp (flush_loop aead_encrypt fuel cpu)
    (fun _ e' m' => emptied cpu b (ev :: buffer_view b1) e m e' m') e1
    (sent_one cpu b1 r ch1 m)).
  { eapply wp_mono; [apply (IH b1); try done; [by apply list_lookup_insert_eq|
      by unfold sent_one; simpl; case_match|lia]|].
    intros [] e2 m2. cbn beta. by eapply emptied_cons. }
  wp_steps; zbool; (eapply wp_on_buffer; [by apply put_buffer_lookup|]); wp_steps.
  all: eapply wp_state; [|exact Hrec]; unfold put_buffer, set_stats, set_chan, set_buffers, sent_one;
    cbn [event_buffers g_sequence_counter g_stats chan].
  all: rewrite list_insert_insert_eq; f_equal; first [by rewrite (proj2 (Z.eqb_neq _ _))|by subst r].
Qed.

(** ** Flushing *)
Lemma flush_event_buffer_spec cpu b e m :
  manager_inv m -> event_buffers m !! cpu = Some b ->
  wp (flush_event_buffer cpu) (fun _ e' m' =>
    exists b', buffer_inv b' /\ buffer_view b' = [] /\ capacity b' = capacity b /\
      event_buffers m' = <[cpu := b']> (event_buffers m) /\
      channel_inv (chan m') /\ env_rel 0 e e' /\ flushed e (buffer_view b) m m') e m.
Proof.
  intros (_ & Hbufs & _ & Hst & Hch) Hb. pose proof (lookup_lt_Some _ _ _ Hb) as Hlt.
  pose proof (Forall_lookup_1 _ _ _ _ Hbufs Hb) as Hinv.
  pose proof (bq_bound b Hinv) as Hbound. simpl in Hbound.
  unfold flush_event_buffer. wp_step. eapply wp_on_buffer; [exact Hb|].
  apply wp_mutex_lock; [apply Hinv|]. cbn beta.
  wp_step. eapply wp_on_buffer; [by apply put_buffer_lookup|]. wp_step. cbn beta.
  rewrite put_buffer_put. wp_step. eapply wp_mono.
  { apply (flush_loop_spec _ cpu b); try done; [by apply put_buffer_lookup|]. simpl. lia. }
  intros _ e' m' (b' & Hi' & Hv' & Hc' & Hb' & Hch' & He' & Hfl).
  simpl in Hb'. rewrite list_insert_insert_eq in Hb'.
  eapply wp_on_buffer; [rewrite Hb'; by apply list_lookup_insert_eq|]. apply wp_mutex_unlock.
  exists b'. rewrite set_lock_restore by apply Hi'. split_and!; try done.
  unfold put_buffer. simpl. by rewrite Hb', list_insert_insert_eq.
Qed.

Lemma flushed_inv e evs bufs m m' :
  manager_inv m -> bufs <> [] -> Forall buffer_inv bufs -> event_buffers m' = bufs ->
  channel_inv (chan m') -> flushed e evs m m' -> manager_inv m'.
Proof.
  intros (_ & _ & Hq & Hst & _) Hne Hb Hbufs Hch Hfl. unfold manager_inv. rewrite Hbufs.
  split_and!; try done; [|by eapply flushed_stats].
  destruct Hfl as (n & k & _ & _ & -> & _). done.
Qed.

Lemma insert_not_nil {A} i (x : A) l : l <> [] -> <[i := x]> l <> [].
Proof. by destruct l, i. Qed.

(** Flushing the buffers of [cpus] in turn. *)
Lemma flush_each_spec cpus e m :
  manager_inv m -> NoDup cpus -> Forall (fun c => (c < length (event_buffers m))%nat) cpus ->
  wp (for_each cpus flush_event_buffer) (fun _ e' m' =>
    manager_inv m' /\ env_rel 0 e e' /\
    (forall c, c ∈ cpus -> view_at m' c = []) /\
    (forall c, c ∉ cpus -> event_buffers m' !! c = event_buffers m !! c) /\
    length (event_buffers m') = length (event_buffers m) /\
    flushed e (concat (view_at m <$> cpus)) m m') e m.
Proof.
  revert e m. induction cpus as [|c cpus IH]; intros e m Hinv Hnd Hlt; simpl.
  { wp_steps. pose proof Hinv as (? & ? & ? & ? & ?).
    split_and!; try done; [apply env_rel_refl|by intros c ?%not_elem_of_nil|by apply flushed_nil]. }
  apply list.NoDup_cons in Hnd as [Hc Hnd]. apply Forall_cons_iff in Hlt as [Hlc Hlt].
  destruct (lookup_lt_is_Some_2 _ _ Hlc) as [b Hb].
  wp_step. eapply wp_mono; [by apply (flush_event_buffer_spec c b)|].
  intros [] e1 m1 (b1 & Hi1 & Hv1 & _ & Hb1 & Hch1 & He1 & Hfl1).
  assert (Hinv1 : manager_inv m1).
  { pose proof Hinv as (? & ? & _).
    eapply flushed_inv; [exact Hinv| | |exact Hb1|done|exact Hfl1];
      [by apply insert_not_nil|by apply Forall_insert]. }
  assert (Hother : forall c', c' <> c -> event_buffers m1 !! c' = event_buffers m !! c').
  { intros c' Hne. rewrite Hb1. by apply list_lookup_insert_ne. }
  eapply wp_mono; [apply IH; [done|done|]|].
  { by rewrite Hb1, length_insert. }
  intros [] e2 m2 (Hinv2 & He2 & Hd2 & Ho2 & Hl2 & Hfl2). split_and!; try done.
  - env_solve.
  - intros c' [->|Hin]%elem_of_cons; [|by apply Hd2].
    unfold view_at. rewrite Ho2, Hb1, list_lookup_insert_eq by done. done.
  - intros c' [Hne Hnin]%not_elem_of_cons. by rewrite Ho2, Hother.
  - by rewrite Hl2, Hb1, length_insert.
  - unfold view_at at 1. rewrite Hb. simpl. eapply (flushed_app 0); [done..|].
    assert (Heq : view_at m1 <$> cpus = view_at m <$> cpus); [|rewrite Heq in Hfl2; exact Hfl2].
    apply list_fmap_ext. intros i c' Hin. unfold view_at. rewrite Hother; [done|].
    intros ->. apply Hc. by eapply list_elem_of_lookup_2.
Qed.

Definition drained (m : manager) : Prop :=
  Forall (fun b => buffer_view b = []) (event_buffers m).

Lemma pending_views m : concat (view_at m <$> seq 0 (length (event_buffers m))) = pending m.
Proof.
  unfold pending. f_equal. apply list_eq. intros i. rewrite !list_lookup_fmap.
  destruct (decide (i < length (event_buffers m))%nat) as [Hi|Hi].
  - rewrite lookup_seq_lt by done. simpl. unfold view_at.
    by destruct (lookup_lt_is_Some_2 _ _ Hi) as [b ->].
  - rewrite lookup_seq_ge by lia. by rewrite lookup_ge_None_2 by lia.
Qed.

Lemma pending_drained m : drained m -> pending m = [].
Proof.
  unfold drained, pending. induction (event_buffers m) as [|b bs IH]; [done|].
  intros [Hb Hd]%Forall_cons_iff. rewrite fmap_cons, concat_cons, Hb. by apply IH.
Qed.

(** After [flush_all_buffers] nothing waits, and what waited was handed over
    CPU by CPU in order. *)
Lemma flush_all_spec e m :
  manager_inv m ->
  wp flush_all_buffers (fun _ e' m' =>
    manager_inv m' /\ drained m' /\ env_rel 0 e e' /\
    length (event_buffers m') = length (event_buffers m) /\ flushed e (pending m) m m') e m.
Proof.
  intros Hinv. unfold flush_all_buffers, for_each_possible_cpu. wp_steps.
  eapply wp_mono; [apply flush_each_spec; [done|apply list.NoDup_seq|]|].
  { apply Forall_seq. intros c. lia. }
  intros [] e' m' (Hi & He & Hd & _ & Hl & Hfl). rewrite pending_views in Hfl.
  split_and!; try done. apply Forall_lookup. intros i b Hb.
  pose proof (lookup_lt_Some _ _ _ Hb) as Hlt.
  specialize (Hd i). unfold view_at in Hd. rewrite Hb in Hd. apply Hd.
  rewrite elem_of_seq. lia.
Qed.

(** ** Enqueueing *)
Lemma pending_insert (bufs : list event_buffer) (i : nat) b b' ev :
  bufs !! i = Some b -> buffer_view b' = buffer_view b ++ [ev] ->
  concat (buffer_view <$> <[i := b']> bufs) ≡ₚ concat (buffer_view <$> bufs) ++ [ev].
Proof.
  intros Hi Hv. revert i Hi. induction bufs as [|b0 bufs IH]; intros [|i] Hi; try done.
  - injection Hi as ->. simpl. rewrite Hv, <- !app_assoc. apply Permutation_app_head, Permutation_app_comm.
  - simpl. rewrite <- app_assoc. apply Permutation_app_head. by apply IH.
Qed.

Lemma pending_insert_same (bufs : list event_buffer) (i : nat) b b' :
  bufs !! i = Some b -> buffer_view b' = buffer_view b ->
  buffer_view <$> <[i := b']> bufs = buffer_view <$> bufs.
Proof.
  intros Hi Hv. rewrite list_fmap_insert, Hv. apply list_insert_id.
  rewrite list_lookup_fmap, Hi. done.
Qed.

Lemma views_pending m m' :
  buffer_view <$> event_buffers m' = buffer_view <$> event_buffers m -> pending m' = pending m.
Proof. unfold pending. by intros ->. Qed.

(** 0 and the event waits, or -ENOSPC, which only a buffer with
    [capacity - 1] waiting events gives, and a drop is counted. *)
Lemma enqueue_event_spec ev e m :
  manager_inv m -> packed_wf ev ->
  wp (enqueue_event ev) (fun r e' m' =>
    manager_inv m' /\ env_rel 0 e e' /\ chan m' = chan m /\
    length (event_buffers m') = length (event_buffers m) /\
    g_sequence_counter m' = g_sequence_counter m /\
    ((r = 0%Z /\ pending m' ≡ₚ pending m ++ [ev] /\ g_stats m' = g_stats m) \/
     (r = (- ENOSPC)%Z /\ buffer_view <$> event_buffers m' = buffer_view <$> event_buffers m /\
      g_stats m' = inc_dropped (g_stats m) /\ ~ drained m))) e m.
Proof.
  intros Hinv Hev. pose proof Hinv as (Hne & Hbufs & Hq & Hst & Hch).
  unfold enqueue_event. wp_step. wp_step. cbn beta. wp_step.
  apply wp_cpu; [destruct (event_buffers m); simpl; [done|lia]|]. intros c e1 He1 Hc.
  destruct (lookup_lt_is_Some_2 _ _ Hc) as [b Hb].
  pose proof (Forall_lookup_1 _ _ _ _ Hbufs Hb) as Hbi. pose proof (buffer_capacity b Hbi) as Hcap.
  wp_step. eapply wp_on_buffer; [exact Hb|].
  destruct (inc_ok _ Hst) as (_ & _ & _ & Hstd).
  destruct (buffer_is_full b) eqn:Hfull.
  - eapply wp_eq; [apply buffer_enqueue_full; [apply Hbi|lia|done]|].
    set (b' := set_dropped _ b). assert (Hi' : buffer_inv b') by exact Hbi.
    wp_steps; (split; [|split_and!; try done; [by simpl; rewrite length_insert|]]);
      try (unfold manager_inv; simpl; split_and!; try done;
           [by apply insert_not_nil|by apply Forall_insert]).
    right. split_and!; try done; [by simpl; rewrite (pending_insert_same _ _ b)|].
    intros Hd. pose proof (Forall_lookup_1 _ _ _ _ Hd Hb) as Hv. simpl in Hv.
    apply buffer_full_view in Hfull; [|done]. rewrite Hv in Hfull. simpl in Hfull. lia.
  - destruct (buffer_enqueue_room ev e1 b Hbi Hev Hfull) as (b' & Heq & Hi' & Hv & Hd & Hc').
    eapply wp_eq; [exact Heq|].
    wp_steps; (split; [|split_and!; try done; [by simpl; rewrite length_insert|]]);
      try (unfold manager_inv; simpl; split_and!; try done;
           [by apply insert_not_nil|by apply Forall_insert]).
    left. split_and!; try done. by apply (pending_insert _ _ b).
Qed.

(** ** Logging *)
Lemma u_range n z : uint_range n (wrap (8 * Z.of_nat n) z).
Proof. apply wrap_range. lia. Qed.

Lemma make_event_wf sq ts et di sv t d dl :
  stat_range sq -> stat_range ts -> (0 <= dl < 2 ^ 16)%Z ->
  packed_wf (make_event sq ts (u32 et) (u32 di) (u8 sv) t d dl).
Proof.
  intros Hsq Hts Hdl. cbn -[PHOTON_MAX_EVENT_DATA char_field u32 u8].
  split_and!; try done; try apply (u_range 4); try apply (u_range 1).
  - apply length_char_field.
  - destruct d; [apply length_fit|apply length_zeros].
Qed.

Definition log_data_ok (data : option (list byte)) (dl : Z) : Prop :=
  match data with Some d => (Z.to_nat (u16 dl) <= length d)%nat | None => True end.

Lemma u16_range z : (0 <= u16 z < 2 ^ 16)%Z.
Proof. by apply (wrap_range 16). Qed.

Lemma flushed_chan e evs m1 m2 m3 :
  chan m1 = chan m2 -> flushed e evs m2 m3 ->
  exists n k, deliver evs (chan m1) n k (chan m3) /\ (no_fail e -> k = 0%nat) /\
    total_sent (g_stats m3) = u64 (total_sent (g_stats m2) + Z.of_nat n) /\
    send_failures (g_stats m3) = u64 (send_failures (g_stats m2) + Z.of_nat k).
Proof. intros -> (n & k & ? & -> & ? & ?). by exists n, k. Qed.

(** What one successful [photon_log_event] does: the next sequence number is
    used, one event more is counted, and the new event and everything that
    waited is handed over, each exactly once; nothing waits afterwards. *)
Definition submitted (e : env) (ev : photon_event) (m m' : manager) : Prop :=
  drained m' /\
  g_sequence_counter m' = g_sequence_counter m /\
  total_events (g_stats m') = u64 (total_events (g_stats m) + 1) /\
  (drained m -> total_dropped (g_stats m') = total_dropped (g_stats m)) /\
  exists evs n k, evs ≡ₚ pending m ++ [ev] /\
    deliver evs (chan m) n k (chan m') /\ (no_fail e -> k = 0%nat) /\
    total_sent (g_stats m') = u64 (total_sent (g_stats m) + Z.of_nat n) /\
    send_failures (g_stats m') = u64 (send_failures (g_stats m) + Z.of_nat k).

Lemma submitted_intro e ev evs m m1 m' :
  flushed e evs m1 m' -> drained m' -> evs ≡ₚ pending m ++ [ev] ->
  chan m1 = chan m -> g_sequence_counter m1 = g_sequence_counter m ->
  total_events (g_stats m1) = u64 (total_events (g_stats m) + 1) ->
  total_sent (g_stats m1) = total_sent (g_stats m) ->
  send_failures (g_stats m1) = send_failures (g_stats m) ->
  (drained m -> total_dropped (g_stats m1) = total_dropped (g_stats m)) ->
  submitted e ev m m'.
Proof.
  intros (n & k & Hd & Hs & Hq & Hf) Hdr Hevs Hc Hq1 Hte Hts Hsf Htd.
  rewrite Hc in Hd. unfold submitted. rewrite Hs, Hq. simpl. rewrite Hts, Hsf.
  split_and!; try done. by exists evs, n, k.
Qed.

Lemma flushed_eq e evs m1 m2 m3 :
  chan m1 = chan m2 -> g_stats m1 = g_stats m2 ->
  g_sequence_counter m1 = g_sequence_counter m2 ->
  flushed e evs m1 m3 -> flushed e evs m2 m3.
Proof. unfold flushed. intros -> -> ->. done. Qed.

Lemma env_weaken e e' : env_rel 0 e e' -> no_fail e -> no_fail e'.
Proof. intros (_ & H & _). done. Qed.

Lemma flushed_weaken e e' evs m m' :
  env_rel 0 e e' -> flushed e' evs m m' -> flushed e evs m m'.
Proof.
  intros He (n & k & ? & ? & ? & Hf). exists n, k. split_and!; try done.
  intros Hnf. apply Hf. by eapply env_weaken.
Qed.

Lemma submitted_weaken e e' ev m m' :
  env_rel 0 e e' -> submitted e' ev m m' -> submitted e ev m m'.
Proof.
  intros He (? & ? & ? & ? & evs & n & k & ? & ? & Hf & ? & ?).
  split_and!; try done. exists evs, n, k. split_and!; try done.
  intros Hnf. apply Hf. by eapply env_weaken.
Qed.

Lemma manager_inv_count m :
  manager_inv m -> manager_inv (set_stats (inc_events (g_stats m)) m).
Proof.
  intros (? & ? & ? & Hst & ?). destruct (inc_ok _ Hst) as (_ & _ & ? & _).
  unfold manager_inv. simpl. by split_and!.
Qed.

(** -ENOSPC never comes out: the flush that follows a full buffer empties it. *)
Lemma submit_event_spec ev e m :
  manager_inv m -> packed_wf ev ->
  wp (submit_event aead_encrypt ev) (fun r e' m' =>
    manager_inv m' /\ env_rel 0 e e' /\ r = 0%Z /\
    length (event_buffers m') = length (event_buffers m) /\ submitted e ev m m') e m.
Proof.
  intros Hinv Hev. unfold submit_event. wp_steps. set (m0 := set_stats _ _).
  pose proof (manager_inv_count m Hinv) as Hinv0. fold m0 in Hinv0.
  eapply wp_mono; [by apply enqueue_event_spec|].
  intros r e1 m1 (Hinv1 & He1 & Hc1 & Hl1 & Hq1 & [(-> & Hp1 & Hs1)|(-> & Hp1 & Hs1 & Hnd)]);
    wp_steps.
  - eapply wp_mono; [by apply flush_all_spec|].
    intros [] e2 m2 (Hinv2 & Hd2 & He2 & Hl2 & Hfl2). wp_steps.
    split_and!; try done; [env_solve|simpl in *; congruence|].
    eapply submitted_intro; [by eapply flushed_weaken|done|exact Hp1|..];
      try done; rewrite ?Hs1; done.
  - eapply wp_mono; [by apply flush_all_spec|].
    intros [] e2 m2 (Hinv2 & Hd2 & He2 & Hl2 & Hfl2).
    eapply wp_mono; [by apply enqueue_event_spec|].
    intros r e3 m3 (Hinv3 & He3 & Hc3 & Hl3 & Hq3 & [(-> & Hp3 & Hs3)|(_ & _ & _ & Hnd3)]);
      [|done].
    wp_steps. eapply wp_mono; [by apply flush_all_spec|].
    intros [] e4 m4 (Hinv4 & Hd4 & He4 & Hl4 & Hfl4). wp_steps.
    split_and!; try done; [env_solve|simpl in *; congruence|].
    apply (flushed_eq _ _ m3 m2) in Hfl4; [|done..].
    rewrite (pending_drained m2 Hd2) in Hp3.
    apply views_pending in Hp1.
    eapply (submitted_intro _ _ (pending m1 ++ pending m3) _ m1);
      [|done| |done|done|by rewrite Hs1..|by intros ?%Hnd].
    + eapply flushed_weaken; [exact He1|]. eapply (flushed_app 0); [exact He2|exact Hfl2|].
      by eapply flushed_weaken.
    + rewrite Hp1, Hp3. done.
Qed.

Lemma log_event_spec et di sv data dl e m :
  manager_inv m -> log_data_ok data dl -> (u16 dl <= Z.of_nat PHOTON_MAX_EVENT_DATA)%Z ->
  wp (photon_log_event aead_encrypt et di sv data dl) (fun r e' m' =>
    manager_inv m' /\ env_rel 0 e e' /\ r = 0%Z /\
    length (event_buffers m') = length (event_buffers m) /\
    exists ts, stat_range ts /\
      submitted e (make_event (u64 (g_sequence_counter m + 1)) ts (u32 et) (u32 di) (u8 sv)
                  (current e) data (u16 dl)) (set_sequence (u64 (g_sequence_counter m + 1)) m) m')
    e m.
Proof.
  intros Hinv Hdata Hdl. pose proof (u16_range dl) as Hr16.
  unfold photon_log_event. cbv zeta. rewrite (proj2 (Z.ltb_ge _ _)) by done.
  wp_steps. eapply (wp_eq _ _ _ _ tt).
  { destruct data as [d|]; [|reflexivity]. simpl in Hdata.
    rewrite decide_False by lia. reflexivity. }
  assert (Hc : current e' = current e) by (env_solve).
  eapply wp_mono; [apply submit_event_spec|].
  - destruct Hinv as (? & ? & ? & ? & ?). unfold manager_inv. simpl.
    split_and!; auto using u64_stat.
  - apply make_event_wf; [apply u64_stat|done|done].
  - intros r e2 m2 (Hi2 & He2 & -> & Hl2 & Hsub). split_and!; try done; [env_solve|].
    exists t. split; [done|]. rewrite <- Hc. by eapply submitted_weaken.
Qed.

(** An oversized payload is refused before anything happens. *)
Lemma log_event_too_large et di sv data dl e m :
  (Z.of_nat PHOTON_MAX_EVENT_DATA < u16 dl)%Z ->
  photon_log_event aead_encrypt et di sv data dl e m = Ret ((- EINVAL)%Z, e, m).
Proof. intros H. unfold photon_log_event. cbv zeta. by rewrite (proj2 (Z.ltb_lt _ _) H). Qed.
End manager_facts.

(** ** The life of the event manager *)
Definition alloc1 (b : event_buffer) : Z := match events b with Some _ => 1 | None => 0 end.
(** The number of buffers that own memory. *)
Definition allocated (bufs : list event_buffer) : Z :=
  foldr (fun b n => (alloc1 b + n)%Z) 0%Z bufs.

Section life.
Context (hmac_sha256 : list byte -> list byte -> list byte).
Context (aead_encrypt : list byte -> list byte -> list byte -> list byte).
Context (aead_length : forall k n p,
  length (aead_encrypt k n p) = (length p + PHOTON_TAG_SIZE)%nat).
Abbreviation minv := (manager_inv hmac_sha256).

Lemma allocated_insert (bufs : list event_buffer) (i : nat) b b' :
  bufs !! i = Some b -> allocated (<[i := b']> bufs) = (allocated bufs - alloc1 b + alloc1 b')%Z.
Proof.
  revert i. induction bufs as [|b0 bufs IH]; intros [|i] Hi; try done; simpl.
  - injection Hi as ->. lia.
  - rewrite IH by done. lia.
Qed.

Lemma allocated_all bufs :
  Forall buffer_inv bufs -> allocated bufs = Z.of_nat (length bufs).
Proof.
  induction 1 as [|b bufs (_ & _ & evs & He & _) _ IH]; [done|].
  cbn [allocated foldr length]. unfold allocated in IH. rewrite IH.
  unfold alloc1. rewrite He. lia.
Qed.

Lemma allocated_none bufs : Forall (fun b => events b = None) bufs -> allocated bufs = 0%Z.
Proof.
  induction 1 as [|b bufs He _ IH]; [done|].
  cbn [allocated foldr]. unfold allocated in IH. rewrite IH. unfold alloc1. by rewrite He.
Qed.

(** A fresh buffer is empty, whatever its memory holds. *)
Lemma init_event_buffer_spec mem e b :
  wp (init_event_buffer mem) (fun r e' b' =>
    env_rel (alloc1 b') e e' /\
    (r = 0%Z -> buffer_inv b' /\ buffer_view b' = []) /\
    (r <> 0%Z -> events b' = None /\ ~ no_fail e)) e b.
Proof.
  unfold init_event_buffer. wp_steps; [|by split_and!].
  set (b' := mk_event_buffer _ _ _ _ _ _).
  assert (Hv : buffer_view b' = []).
  { unfold buffer_view, b'. cbn [events capacity head tail].
    unfold ring_view, ring_len. by rewrite Z.mod_0_l by done. }
  split_and!; try done. intros _. split; [|done]. unfold buffer_inv. rewrite Hv.
  split_and!; [done|done|]. eexists. split; [done|].
  unfold ring_ok. cbn [capacity head tail b']. rewrite length_fmap, length_seq. done.
Qed.

(** The loop owns what the buffers own, also when it stops early. *)
Lemma init_event_buffers_spec mem cpus e m :
  NoDup cpus -> (forall c, c ∈ cpus -> exists b, event_buffers m !! c = Some b /\ events b = None) ->
  wp (init_event_buffers mem cpus) (fun r e' m' =>
    env_rel (allocated (event_buffers m') - allocated (event_buffers m)) e e' /\
    length (event_buffers m') = length (event_buffers m) /\
    m' = set_buffers (event_buffers m') m /\
    (forall c, c ∉ cpus -> event_buffers m' !! c = event_buffers m !! c) /\
    (r = 0%Z -> forall c, c ∈ cpus -> exists b, event_buffers m' !! c = Some b /\
                    buffer_inv b /\ buffer_view b = []) /\
    (r <> 0%Z -> ~ no_fail e)) e m.
Proof.
  revert e m. induction cpus as [|c cpus IH]; intros e m Hnd Hnone; cbn [init_event_buffers].
  { wp_steps. rewrite Z.sub_diag. split_and!; try done; [apply env_rel_refl|by destruct m|].
    by intros _ c ?%not_elem_of_nil. }
  apply list.NoDup_cons in Hnd as [Hc Hnd].
  destruct (Hnone c) as (b & Hb & Hbn); [by left|].
  wp_step. eapply wp_on_buffer; [exact Hb|].
  eapply wp_mono; [apply init_event_buffer_spec|]. intros r e1 b1 (He1 & H0 & H1).
  assert (Hal : allocated (event_buffers (put_buffer c b1 m)) =
                (allocated (event_buffers m) + alloc1 b1)%Z).
  { simpl. rewrite (allocated_insert _ _ b) by done. unfold alloc1 at 1. rewrite Hbn. lia. }
  assert (Hoth : forall c', c' <> c ->
    event_buffers (put_buffer c b1 m) !! c' = event_buffers m !! c').
  { intros c' Hne. simpl. by apply list_lookup_insert_ne. }
  wp_steps.
  - split_and!; try done; [|by simpl; rewrite length_insert| |by intros Hr; destruct (H1 Hr)].
    + rewrite Hal. by replace (_ - _)%Z with (alloc1 b1) by lia.
    + intros c' [Hne _]%not_elem_of_cons. by apply Hoth.
  - destruct (H0 Heqb0) as [Hi1 Hv1].
    eapply wp_mono; [apply (IH e1 (put_buffer c b1 m)); [done|]|].
    { intros c' Hin. rewrite Hoth by (intros ->; done). apply Hnone. by right. }
    intros r2 e2 m2 (He2 & Hl2 & Hm2 & Ho2 & H02 & H12). split_and!.
    + rewrite Hal in He2. env_solve.
    + rewrite Hl2. simpl. by rewrite length_insert.
    + by rewrite Hm2.
    + intros c' [Hne Hnin]%not_elem_of_cons. by rewrite Ho2, Hoth.
    + intros -> c' [->|Hin]%elem_of_cons; [|by apply H02].
      exists b1. rewrite Ho2 by done. split; [|done].
      apply put_buffer_lookup. by eapply lookup_lt_Some.
    + intros Hr Hnf. apply (H12 Hr). by apply He1.
Qed.

(** Freeing releases every buffer that owns memory. *)
Lemma free_event_buffer_spec e b :
  wp free_event_buffer (fun _ e' b' =>
    env_rel (- alloc1 b) e e' /\ b' = set_events None b) e b.
Proof.
  unfold free_event_buffer, alloc1. wp_steps. destruct (events b) eqn:Hb; wp_steps.
  - done.
  - split; [apply env_rel_refl|]. destruct b; simpl in *; by subst.
Qed.

Lemma free_each_spec cpus e m :
  NoDup cpus -> Forall (fun c => (c < length (event_buffers m))%nat) cpus ->
  wp (for_each cpus (fun cpu => on_buffer cpu free_event_buffer)) (fun _ e' m' =>
    env_rel (allocated (event_buffers m') - allocated (event_buffers m)) e e' /\
    m' = set_buffers (event_buffers m') m /\
    length (event_buffers m') = length (event_buffers m) /\
    (forall c, c ∉ cpus -> event_buffers m' !! c = event_buffers m !! c) /\
    (forall c, c ∈ cpus -> exists b, event_buffers m' !! c = Some b /\ events b = None)) e m.
Proof.
  revert e m. induction cpus as [|c cpus IH]; intros e m Hnd Hlt; cbn [for_each].
  { wp_steps. rewrite Z.sub_diag. split_and!; try done; [apply env_rel_refl|by destruct m|].
    by intros c ?%not_elem_of_nil. }
  apply list.NoDup_cons in Hnd as [Hc Hnd]. apply Forall_cons_iff in Hlt as [Hlc Hlt].
  destruct (lookup_lt_is_Some_2 _ _ Hlc) as [b Hb].
  wp_step. eapply wp_on_buffer; [exact Hb|].
  eapply wp_mono; [apply free_event_buffer_spec|]. intros [] e1 b1 (He1 & ->).
  set (m1 := put_buffer c (set_events None b) m).
  eapply wp_mono; [apply (IH e1 m1); [done|by simpl; rewrite length_insert]|].
  intros [] e2 m2 (He2 & Hm2 & Hl2 & Ho2 & Hn2).
  simpl in He2, Hl2. rewrite (allocated_insert _ _ b) in He2 by done.
  rewrite length_insert in Hl2. split_and!; try done.
  - cbn [alloc1 events set_events] in He2. env_solve.
  - intros c' [Hne Hnin]%not_elem_of_cons. rewrite Ho2 by done.
    by apply list_lookup_insert_ne.
  - intros c' [->|Hin]%elem_of_cons; [|by apply Hn2].
    exists (set_events None b). rewrite Ho2 by done. split; [|done]. by apply put_buffer_lookup.
Qed.

Lemma wp_free_event_buffers (Q : unit -> env -> manager -> Prop) e m :
  (forall e' bufs, env_rel (- allocated (event_buffers m)) e e' ->
     length bufs = length (event_buffers m) -> Forall (fun b => events b = None) bufs ->
     Q tt e' (set_buffers bufs m)) ->
  wp free_event_buffers Q e m.
Proof.
  intros HQ. unfold free_event_buffers, for_each_possible_cpu. wp_steps.
  eapply wp_mono; [apply free_each_spec; [apply list.NoDup_seq|]|].
  { apply Forall_seq. lia. }
  intros [] e' m' (He & Hm & Hl & _ & Hn).
  assert (Hnone : Forall (fun b => events b = None) (event_buffers m')).
  { apply Forall_lookup. intros i b Hb. pose proof (lookup_lt_Some _ _ _ Hb).
    destruct (Hn i) as (b' & Hb' & ?); [rewrite elem_of_seq; lia|]. congruence. }
  rewrite (allocated_none _ Hnone) in He. rewrite Hm. by apply HQ.
Qed.

(** The statics as the module finds them when it is loaded. *)
Definition fresh (m : manager) : Prop :=
  event_buffers m <> [] /\ Forall (fun b => events b = None) (event_buffers m) /\
  stat_range (g_sequence_counter m) /\ ch_crypto (chan m) = crypto_initial.

Lemma init_all_buffers_spec mem e m :
  fresh m ->
  wp (init_event_buffers mem (seq 0 (length (event_buffers m)))) (fun r e' m' =>
    exists bufs, m' = set_buffers bufs m /\ length bufs = length (event_buffers m) /\
      (r = 0%Z -> env_rel (Z.of_nat (length bufs)) e e' /\
         Forall buffer_inv bufs /\ Forall (fun b => buffer_view b = []) bufs) /\
      (r <> 0%Z -> env_rel (allocated bufs) e e' /\ ~ no_fail e)) e m.
Proof.
  intros (_ & Hnone & _). pose proof (allocated_none _ Hnone) as Hal0.
  eapply wp_mono; [apply init_event_buffers_spec; [apply list.NoDup_seq|]|].
  { intros c Hc%elem_of_seq. destruct (lookup_lt_is_Some_2 (event_buffers m) c) as [b Hb]; [lia|].
    exists b. split; [done|]. by apply (Forall_lookup_1 _ _ _ _ Hnone Hb). }
  intros r e1 m1 (He1 & Hl1 & Hm1 & _ & H0 & H1). rewrite Hal0, Z.sub_0_r in He1.
  exists (event_buffers m1). split_and!; [done|done| |by eauto].
  intros ->. specialize (H0 eq_refl).
  assert (Hbufs : forall i b, event_buffers m1 !! i = Some b -> buffer_inv b /\ buffer_view b = []).
  { intros i b Hb. pose proof (lookup_lt_Some _ _ _ Hb).
    destruct (H0 i) as (b' & Hb' & ?); [rewrite elem_of_seq; lia|]. congruence. }
  assert (Hinvs : Forall buffer_inv (event_buffers m1)).
  { apply Forall_lookup. intros i b Hb. by apply (Hbufs i b). }
  rewrite (allocated_all _ Hinvs) in He1. split_and!; [done|done|].
  apply Forall_lookup. intros i b Hb. by apply (Hbufs i b).
Qed.

(** Set-up is all or nothing: one buffer per CPU, the transform, the ring and
    four registrations and a manager ready to log; or the code of the call
    that failed and nothing allocated. *)
Lemma event_manager_init_spec mem e m :
  fresh m ->
  wp (event_manager_init mem) (fun r e' m' =>
    length (event_buffers m') = length (event_buffers m) /\
    (r = 0%Z -> env_rel (Z.of_nat (length (event_buffers m)) + 6) e e' /\
       minv m' /\ drained m' /\ g_key_set (ch_crypto (chan m')) = false /\
       ch_frames (chan m') = [] /\ g_stats m' = mk_stats 0 0 0 0 /\
       is_Some (g_tfm (ch_crypto (chan m')))) /\
    (r <> 0%Z -> env_rel 0 e e' /\ ~ no_fail e /\
       Forall (fun b => events b = None) (event_buffers m'))) e m.
Proof.
  intros Hfresh. pose proof Hfresh as (Hne & _ & Hq & Hcr).
  unfold event_manager_init. wp_steps.
  eapply wp_mono; [by apply init_all_buffers_spec|].
  intros r e1 m1 (bufs & -> & Hl1 & H01 & H11). wp_steps.
  { destruct (H11 ltac:(done)) as (He1 & Hf1).
    apply wp_free_event_buffers. intros e2 bufs2 He2 Hl2 Hn2. wp_steps. simpl in *.
    split_and!; [congruence|done|]. intros _. split_and!; [env_solve|done|done]. }
  destruct (H01 ltac:(done)) as (He1 & Hinvs & Hviews). clear H01 H11.
  cbn [set_stats set_buffers chan]. rewrite Hcr.
  eapply wp_mono; [apply crypto_layer_init_spec|].
  intros r2 e2 c2 (H02 & H12). wp_steps.
  { destruct (H12 ltac:(done)) as (He2 & _ & Hf2).
    apply wp_free_event_buffers. intros e3 bufs3 He3 Hl3 Hn3. wp_steps. simpl in *.
    rewrite (allocated_all _ Hinvs) in He3.
    split_and!; [congruence|done|]. intros _. split_and!; [env_solve| |done].
    intros Hnf. apply Hf2. by apply He1. }
  destruct (H02 ltac:(done)) as (He2 & ->). clear H02 H12.
  eapply wp_mono; [apply cdev_channel_init_spec|].
  intros r3 e3 d3 (H03 & H13). wp_steps.
  - destruct (H13 ltac:(done)) as (He3 & Hf3).
    eapply wp_mono; [by apply crypto_layer_exit_spec; eauto|].
    intros [] e4 c4 (He4 & _).
    wp_steps. apply wp_free_event_buffers. intros e5 bufs5 He5 Hl5 Hn5. wp_steps. simpl in *.
    rewrite (allocated_all _ Hinvs) in He5.
    split_and!; [congruence|done|]. intros _. split_and!; [env_solve| |done].
    intros Hnf. apply Hf3. apply He2. by apply He1.
  - destruct (H03 ltac:(done)) as (He3 & Hri & Hrf & _). simpl in *.
    split_and!; [done| |done]. intros _. rewrite Hl1 in He1. split_and!; try done.
    + env_solve.
    + assert (bufs <> []) by (intros ->; by destruct (event_buffers m)).
      unfold manager_inv. simpl. split_and!; try done.
Qed.

(** Tear-down hands over what waits, stops the readers, wipes the keys and
    releases everything set-up acquired. *)
Lemma event_manager_exit_spec e m :
  minv m -> is_Some (g_tfm (ch_crypto (chan m))) ->
  wp (event_manager_exit aead_encrypt) (fun _ e' m' =>
    env_rel (- (Z.of_nat (length (event_buffers m)) + 6)) e e' /\
    Forall (fun b => events b = None) (event_buffers m') /\
    g_shutting_down (ch_cdev (chan m')) = true /\
    g_tfm (ch_crypto (chan m')) = None /\ g_key_set (ch_crypto (chan m')) = false /\
    (g_key_set (ch_crypto (chan m)) = true ->
       g_master_key (ch_crypto (chan m')) = zeros PHOTON_KEY_SIZE /\
       g_session_key (ch_crypto (chan m')) = zeros PHOTON_KEY_SIZE)) e m.
Proof.
  intros Hinv [t Ht]. unfold event_manager_exit. wp_steps.
  eapply wp_mono; [by eapply flush_all_spec|].
  intros [] e1 m1 (Hinv1 & _ & He1 & Hl1 & (n & k & Hd & _)). wp_steps.
  destruct Hinv1 as (_ & Hbufs & _ & _ & (Hc1 & Hr1)).
  destruct (deliver_key _ _ _ _ _ _ Hd) as (Hk1 & _).
  pose proof (deliver_tfm _ _ _ _ _ _ Hd) as Ht1.
  eapply wp_mono; [apply cdev_channel_exit_spec|].
  { destruct Hr1 as (sl & -> & _). done. }
  intros [] e2 d2 (He2 & _ & Hsd). wp_steps.
  eapply wp_mono; [apply crypto_layer_exit_spec; simpl; [apply Hc1|rewrite Ht1, Ht; done]|].
  intros [] e3 c3 (He3 & Ht3 & Hk3 & _ & Hw3). wp_steps.
  apply wp_free_event_buffers. intros e4 bufs He4 Hl4 Hn4. simpl in *.
  rewrite (allocated_all _ Hbufs), Hl1 in He4.
  split_and!; try done; [env_solve|]. intros Hk. apply Hw3. by rewrite Hk1.
Qed.

Lemma heartbeat_wf up s :
  stat_range up -> stats_ok s ->
  packed_wf (mk_system_data up (total_sent s) (total_dropped s) 0).
Proof. intros ? (_ & ? & ? & _). simpl. by split_and!. Qed.

(** The heartbeat is one logged event with the counters as they were. *)
Lemma send_heartbeat_spec e m :
  minv m ->
  wp (photon_send_heartbeat aead_encrypt) (fun r e' m' =>
    minv m' /\ env_rel 0 e e' /\ r = 0%Z /\
    length (event_buffers m') = length (event_buffers m) /\
    exists up ts, stat_range up /\ stat_range ts /\
      submitted aead_encrypt e
        (make_event (u64 (g_sequence_counter m + 1)) ts 100 0 0 (current e)
           (Some (pack (mk_system_data up (total_sent (g_stats m)) (total_dropped (g_stats m)) 0))) 32)
        (set_sequence (u64 (g_sequence_counter m + 1)) m) m') e m.
Proof.
  intros Hinv. unfold photon_send_heartbeat. wp_steps.
  assert (Hwf : packed_wf (mk_system_data t (total_sent (g_stats m)) (total_dropped (g_stats m)) 0)).
  { apply heartbeat_wf; [done|]. by apply Hinv. }
  eapply wp_mono; [eapply log_event_spec; [done|done| |done]|].
  - unfold log_data_ok. rewrite (length_pack _ Hwf). done.
  - intros r e2 m2 (Hi2 & He2 & -> & Hl2 & ts & Hts & Hsub).
    assert (Hc : current e' = current e) by env_solve. rewrite Hc in Hsub.
    split_and!; try done; [env_solve|]. exists t, ts. split_and!; try done.
    eapply submitted_weaken; [done|exact Hsub].
Qed.
End life.
