(* ===== verification/Device.v ===== *)
(** * Key rotation and the device's ioctl
    [photon_rotate_key] of [comms/crypto.c] and [photon_cdev_ioctl] of
    [comms/cdev_ch.c]: the two operations of the lower layers that report
    through the event manager, over the whole reporting path. *)
From Stdlib Require Import ZArith Lia.
From Stdlib Require Import Strings.Byte Strings.String.
From stdpp Require Import base numbers list strings option.
From S2P Require Import Prelude CString Kernel Events Ring Crypto Cdev EventManager.

(** [_IOW (type, nr, T)] for a [T] of [size] bytes. *)
Definition _IOW (type nr size : Z) : Z :=
  Z.lor (Z.shiftl 1 30) (Z.lor (Z.shiftl size 16) (Z.lor (Z.shiftl type 8) nr)).
Definition PHOTON_RING_IOC_MAGIC : Z := 0xBE.
Definition PHOTON_IOC_SET_KEY : Z := _IOW PHOTON_RING_IOC_MAGIC 1 32.

Definition on_keys {A} (m : M crypto_state A) : M manager A := on_channel (on_crypto m).

Section device.
Context (hmac_sha256 : list byte -> list byte -> list byte).
Context (aead_encrypt : list byte -> list byte -> list byte -> list byte).

Definition bump_rotation (d : Z) : M crypto_state unit :=
  modify (fun c => set_rotation (u64 (g_rotation_counter c + d)) c).

(** The locked part of [photon_rotate_key]; on a failed setkey it derives the
    previous key again, for which [photon_derive_session_key] takes the mutex. *)
Definition install_session_key (new_session_key : list byte) : M crypto_state Z :=
  lock_crypto ;;
  modify (set_session (zeros PHOTON_KEY_SIZE)) ;;
  modify (set_session new_session_key) ;;
  ret ← crypto_aead_setkey new_session_key;
  if negb (Z.eqb ret 0) then
    bump_rotation (-1) ;;
    c ← get;
    res ← photon_derive_session_key hmac_sha256 (g_rotation_counter c);
    (match res with inr k => modify (set_session k) | inl _ => mret tt end) ;;
    c ← get;
    crypto_aead_setkey (g_session_key c) ;;
    unlock_crypto ;;
    mret ret
  else
  unlock_crypto ;;
  mret 0%Z.

Definition photon_rotate_key : M manager Z :=
  s ← get;
  if negb (g_key_set (ch_crypto (chan s))) then mret (- ENOKEY)%Z else
  on_keys (bump_rotation 1) ;;
  s ← get;
  let new_rotation := g_rotation_counter (ch_crypto (chan s)) in
  res ← on_keys (photon_derive_session_key hmac_sha256 new_rotation);
  match res with
  | inl err => on_keys (bump_rotation (-1)) ;; mret err
  | inr new_session_key =>
      ret ← on_keys (install_session_key new_session_key);
      if negb (Z.eqb ret 0) then mret ret else
      up ← ktime_get;
      photon_log_event aead_encrypt (event_type_code PHOTON_EVENT_SYSTEM_KEY_ROTATION) 0
        PHOTON_SEV_INFO (Some (pack (mk_system_data up 0 0 new_rotation)))
        (Z.of_nat (sizeof system_data)) ;;
      mret 0%Z
  end.

(** [user] is the memory [arg] points to. *)
Definition photon_cdev_ioctl (cap_sys_admin : bool) (cmd : Z) (user : list byte)
    : M manager Z :=
  if negb cap_sys_admin then mret (- EPERM)%Z else
  if Z.eqb cmd PHOTON_IOC_SET_KEY then
    s ← get;
    if photon_has_key (ch_crypto (chan s)) then mret (- EEXIST)%Z else
    r ← kcall;                                      (* copy_from_user *)
    if negb (Z.eqb r 0) then mret (- EFAULT)%Z else
    let key := fit PHOTON_KEY_SIZE user in
    ret ← on_keys (photon_set_encryption_key hmac_sha256 (Some key));
    if negb (Z.eqb ret 0) then mret ret else
    photon_send_heartbeat aead_encrypt ;;
    mret 0%Z
  else mret (- ENOTTY)%Z.
End device.

Ltac wp_extra ::=
  lazymatch goal with
  | |- wp (on_ring _) _ _ _ => apply wp_zoom
  | |- wp (on_crypto _) _ _ _ => apply wp_zoom
  | |- wp (on_cdev _) _ _ _ => apply wp_zoom
  | |- wp (on_channel _) _ _ _ => apply wp_zoom
  | |- wp (on_keys _) _ _ _ => apply wp_zoom, wp_zoom
  | |- wp (bump_rotation _) _ _ _ => apply wp_modify
  | |- wp (count _) _ _ _ => apply wp_modify
  | |- wp unlock_crypto _ _ _ => apply wp_unlock_crypto
  | |- wp lock_crypto _ _ _ => apply wp_lock_crypto; [done|]
  end.

Section device_facts.
Context (hmac_sha256 : list byte -> list byte -> list byte).
Context (hmac_length : forall k m, length (hmac_sha256 k m) = 32%nat).
Context (aead_encrypt : list byte -> list byte -> list byte -> list byte).
Context (aead_length : forall k n p,
  length (aead_encrypt k n p) = (length p + PHOTON_TAG_SIZE)%nat).
Abbreviation minv := (manager_inv hmac_sha256).
Abbreviation session_key := (session_key hmac_sha256).
Abbreviation keys m := (ch_crypto (chan m)).

(** The keys after a rotation that succeeded. *)
Definition rotated (c c' : crypto_state) : Prop :=
  crypto_inv hmac_sha256 c' /\ g_key_set c' = true /\
  g_master_key c' = g_master_key c /\
  g_rotation_counter c' = u64 (g_rotation_counter c + 1) /\
  g_session_key c' = session_key (g_master_key c) (u64 (g_rotation_counter c + 1)) /\
  g_encryptions c' = g_encryptions c.

Lemma set_chan_inv m c :
  minv m -> crypto_inv hmac_sha256 c ->
  minv (set_chan (set_crypto c (chan m)) m).
Proof.
  intros (? & ? & ? & ? & ? & ?) Hc. unfold manager_inv, channel_inv. simpl. by split_and!.
Qed.

(** A setkey that fails sends the rotation into its own lock. *)
Lemma install_session_key_fails k t e c r rs :
  crypto_mutex c = false -> g_key_set c = true -> g_tfm c = Some t ->
  env_rets e = r :: rs -> r <> 0%Z ->
  install_session_key hmac_sha256 k e c = Deadlock.
Proof.
  intros Hm Hk Ht He Hr. destruct c; simpl in *; subst.
  unfold install_session_key, lock_crypto, crypto_aead_setkey.
  unfold mutex_lock, bump_rotation, mbind, M_bind, get, modify, kcall.
  cbn -[photon_derive_session_key Z.eqb]. rewrite He. cbn -[photon_derive_session_key Z.eqb]. rewrite (proj2 (Z.eqb_neq r 0) Hr).
  reflexivity.
Qed.

Lemma install_session_key_spec k t e c :
  crypto_mutex c = false -> g_tfm c = Some t -> g_key_set c = true ->
  no_fail e ->
  wp (install_session_key hmac_sha256 k) (fun r e' c' =>
    r = 0%Z /\ env_rel 0 e e' /\
    c' = set_session k (set_tfm (Some (mk_crypto_aead (Some k) (tfm_authsize t))) c)) e c.
Proof.
  intros Hm Ht Hk Hnf. unfold install_session_key. wp_steps.
  eapply wp_setkey; [exact Ht|intros e1 He1|intros r e1 He1 Hr Hf; done].
  wp_steps. split_and!; try done. by destruct c; simpl in *; subst.
Qed.

Definition rotation_event (e : env) (up ts rot : Z) (m : manager) : photon_event :=
  make_event (u64 (g_sequence_counter m + 1)) ts 101 0 0 (current e)
    (Some (pack (mk_system_data up 0 0 rot))) 32.

Lemma u64_undo z : (0 <= z < 2 ^ 64)%Z -> u64 (u64 (z + 1) + -1) = z.
Proof.
  intros Hz. unfold u64, wrap. rewrite Zplus_mod_idemp_l.
  replace (z + 1 + -1)%Z with z by lia. by apply Z.mod_small.
Qed.

Lemma rotate_no_key e m :
  g_key_set (keys m) = false ->
  photon_rotate_key hmac_sha256 aead_encrypt e m = Ret ((- ENOKEY)%Z, e, m).
Proof. intros Hk. unfold photon_rotate_key, mbind, M_bind, get. by rewrite Hk. Qed.

Lemma manager_keys_eq m c :
  c = keys m -> set_chan (set_crypto c (chan m)) m = m.
Proof. intros ->. by destruct m as [? ? ? []]. Qed.

(** A rotation that meets no failing kernel call installs the next session
    key and then logs the new number: the event goes out under the new key. *)
Lemma rotate_spec e m :
  minv m -> g_key_set (keys m) = true -> no_fail e ->
  wp (photon_rotate_key hmac_sha256 aead_encrypt) (fun r e' m' =>
    r = 0%Z /\ minv m' /\ env_rel 0 e e' /\
    exists c up ts, rotated (keys m) c /\
      submitted aead_encrypt e
        (rotation_event e up ts (g_rotation_counter c) m)
        (set_sequence (u64 (g_sequence_counter m + 1)) (set_chan (set_crypto c (chan m)) m)) m')
    e m.
Proof.
  intros Hinv Hk Hnf. pose proof Hinv as (_ & _ & _ & _ & (Hc & _)).
  destruct Hc as (Hm & Hl & Hrot & Hen & Hko). destruct (Hko Hk) as [Hsk Ht].
  unfold photon_rotate_key. wp_steps.
  eapply wp_mono; [by apply derive_session_key_spec|].
  intros res e1 c1 (-> & He1 & Hres). destruct res as [err|k]; [by destruct Hres|].
  simpl in Hres. subst k. assert (Hnf1 : no_fail e1) by (by apply He1).
  wp_steps. eapply wp_mono; [by eapply install_session_key_spec; eauto|].
  intros r e2 c2 (-> & He2 & ->). wp_steps.
  pose proof (u64_stat (g_rotation_counter (keys m) + 1)) as Hr.
  set (rot := g_rotation_counter (keys (set_chan _ m))).
  change rot with (u64 (g_rotation_counter (keys m) + 1)) in *. clear rot.
  set (rot := u64 (g_rotation_counter (keys m) + 1)) in *.
  set (c := set_session (session_key (g_master_key (keys m)) rot)
    (set_tfm (Some (mk_crypto_aead (Some (session_key (g_master_key (keys m)) rot))
      (Z.of_nat PHOTON_TAG_SIZE))) (set_rotation rot (keys m)))).
  assert (Hrotd : rotated (keys m) c).
  { unfold rotated, c, crypto_inv, keys_ok. simpl. repeat split; try done; apply Hr || lia. }
  eapply wp_state; [|eapply wp_mono; [eapply log_event_spec; [done|
    by apply (set_chan_inv m c); [|apply Hrotd]| |]|]].
  - reflexivity.
  - unfold log_data_ok. rewrite length_pack; [done|]. cbn. repeat split; try apply Hr; lia.
  - done.
  - intros r e4 m4 (Hi4 & He4 & -> & Hl4 & ts & Hts & Hsub).
    assert (Hcur : current e' = current e) by env_solve. rewrite Hcur in Hsub.
    wp_steps. split_and!; try done; [env_solve|]. exists c, t, ts. split; [done|].
    eapply submitted_weaken; [|exact Hsub]. env_solve.
Qed.

(** A failed derivation rolls the counter back: nothing has changed. *)
Lemma rotate_derive_fails err e e1 m :
  minv m -> g_key_set (keys m) = true ->
  photon_derive_session_key hmac_sha256 (u64 (g_rotation_counter (keys m) + 1)) e
    (set_rotation (u64 (g_rotation_counter (keys m) + 1)) (keys m)) =
    Ret (inl err, e1, set_rotation (u64 (g_rotation_counter (keys m) + 1)) (keys m)) ->
  photon_rotate_key hmac_sha256 aead_encrypt e m = Ret (err, e1, m).
Proof.
  intros (_ & _ & _ & _ & ((_ & _ & Hrot & _) & _)) Hk Hd.
  unfold photon_rotate_key, on_keys, on_channel, on_crypto, bump_rotation, zoom.
  unfold mbind, M_bind, get, modify. rewrite Hk. cbn -[photon_derive_session_key u64].
  rewrite Hd. cbn -[u64]. rewrite u64_undo by done.
  by destruct m as [? ? ? [[] ?]].
Qed.

(** When the derivation works and the setkey that follows fails, the restore
    path derives a key while it holds the mutex: the thread never returns. *)
Lemma rotate_setkey_deadlock k e e1 r rs m :
  minv m -> g_key_set (keys m) = true ->
  photon_derive_session_key hmac_sha256 (u64 (g_rotation_counter (keys m) + 1)) e
    (set_rotation (u64 (g_rotation_counter (keys m) + 1)) (keys m)) =
    Ret (inr k, e1, set_rotation (u64 (g_rotation_counter (keys m) + 1)) (keys m)) ->
  env_rets e1 = r :: rs -> r <> 0%Z ->
  photon_rotate_key hmac_sha256 aead_encrypt e m = Deadlock.
Proof.
  intros (_ & _ & _ & _ & ((Hm & _ & _ & _ & Hko) & _)) Hk Hd He1 Hr.
  destruct (Hko Hk) as [_ Ht].
  unfold photon_rotate_key, on_keys, on_channel, on_crypto, bump_rotation, zoom.
  unfold mbind, M_bind, get, modify. rewrite Hk.
  cbn -[photon_derive_session_key u64 install_session_key set_rotation].
  change (g_rotation_counter (set_rotation ?z _)) with z.
  rewrite Hd. cbn -[u64 install_session_key set_rotation].
  by erewrite install_session_key_fails.
Qed.

(** ** The ioctl *)
Abbreviation ioctl := (photon_cdev_ioctl hmac_sha256 aead_encrypt).

(** Refusals: no capability, another command, a key already there. *)
Lemma ioctl_refused cap cmd user e m :
  cap = false \/ cmd <> PHOTON_IOC_SET_KEY \/ g_key_set (keys m) = true ->
  ioctl cap cmd user e m =
    Ret (if negb cap then (- EPERM)%Z else
         if Z.eqb cmd PHOTON_IOC_SET_KEY then (- EEXIST)%Z else (- ENOTTY)%Z, e, m).
Proof.
  intros H. unfold photon_cdev_ioctl, photon_has_key, mbind, M_bind, get.
  destruct cap; [|done]. cbn [negb].
  destruct (Z.eqb_spec cmd PHOTON_IOC_SET_KEY) as [->|]; [|done].
  destruct H as [?|[?|Hk]]; [done|done|]. by rewrite Hk.
Qed.

(** The one accepted call installs the user's 32 bytes as master key, with
    its rotation-0 session key, and sends a heartbeat under it; any failure
    leaves no key. *)
Lemma ioctl_set_key_spec user e m :
  minv m -> is_Some (g_tfm (keys m)) -> g_key_set (keys m) = false ->
  wp (ioctl true PHOTON_IOC_SET_KEY user) (fun r e' m' =>
    minv m' /\ env_rel 0 e e' /\
    (r <> 0%Z -> ~ no_fail e /\ g_key_set (keys m') = false /\
       g_sequence_counter m' = g_sequence_counter m) /\
    (r = 0%Z -> exists c up ts,
       stat_range ts /\ crypto_inv hmac_sha256 c /\ g_key_set c = true /\
       g_rotation_counter c = 0%Z /\ g_master_key c = fit PHOTON_KEY_SIZE user /\
       submitted aead_encrypt e
         (make_event (u64 (g_sequence_counter m + 1)) ts 100 0 0 (current e)
           (Some (pack (mk_system_data up (total_sent (g_stats m)) (total_dropped (g_stats m)) 0))) 32)
         (set_sequence (u64 (g_sequence_counter m + 1)) (set_chan (set_crypto c (chan m)) m)) m'))
    e m.
Proof.
  intros Hinv [t Ht] Hk. pose proof Hinv as (_ & _ & _ & _ & (Hc & _)).
  unfold photon_cdev_ioctl, photon_has_key. wp_steps.
  { split_and!; try done. intros _. split_and!; try done. tauto. }
  eapply wp_mono; [by eapply set_encryption_key_spec|].
  intros r2 e2 c2 (Hc2 & He2 & Ht2 & H02 & H12). pose proof (set_chan_inv m c2 Hinv Hc2) as Hinv2.
  wp_steps.
  - destruct (H12 ltac:(done)) as [[Hk2 _] Hf]. split_and!; try done; [env_solve|].
    intros _. split_and!; try done. intros Hnf. apply Hf. by eapply env_weaken.
  - destruct (H02 ltac:(done)) as (Hk2 & Hr2 & Hm2).
    eapply wp_mono; [by apply send_heartbeat_spec|].
    intros r3 e3 m3 (Hi3 & He3 & -> & Hl3 & up & ts & Hup & Hts & Hsub). wp_steps.
    rewrite (fit_exact _ (fit _ _)) in Hm2 by apply length_fit.
    split_and!; try done; [env_solve|]. intros _. exists c2, up, ts. split_and!; try done.
    assert (Hcur : current e2 = current e) by env_solve. rewrite Hcur in Hsub.
    eapply submitted_weaken; [|exact Hsub]. env_solve.
Qed.
End device_facts.
