(* ===== verification/Reporting.v ===== *)
(** * What the reporting path guarantees
    The properties of the crypto layer, the device and the event manager, each
    with a run at a concrete input.  The runs use [toy_hmac] and [toy_encrypt]
    for the kernel's HMAC-SHA256 and AES-GCM: 32 bytes of output, and a
    ciphertext 16 bytes longer than its plaintext that decrypts to it. *)
From Stdlib Require Import ZArith Lia.
From Stdlib Require Import Strings.Byte Strings.String.
From stdpp Require Import base numbers list strings option.
From S2P Require Import Prelude CString Kernel Events Ring Crypto Cdev EventManager Device.

(** ** Concrete inputs *)
Definition toy_hmac (k m : list byte) : list byte := fit 32 (rev m ++ k).
Definition toy_encrypt (k n p : list byte) : list byte := p ++ fit PHOTON_TAG_SIZE (n ++ k).
Definition toy_decrypt (k n c : list byte) : option (list byte) :=
  let p := take (length c - PHOTON_TAG_SIZE) c in
  if decide (c = toy_encrypt k n p) then Some p else None.

Definition toy_env : env := mk_env [] [] [] 0 [] (mk_task 7 "insmod").
Definition toy_mem (cpu slot : nat) : photon_event := inhabitant.

Definition after {S A} (m : M S A) (s : S) : S :=
  match m toy_env s with Ret (_, _, s') => s' | _ => s end.

(** The module after loading on a machine with two CPUs, and once keyed. *)
Definition loaded : manager := after (event_manager_init toy_mem) (manager_initial 2).
Definition toy_key : list byte := byte_of_Z <$> seqZ 1 32.
Definition keyed : manager :=
  after (photon_cdev_ioctl toy_hmac toy_encrypt true PHOTON_IOC_SET_KEY toy_key) loaded.

Section concrete.
Lemma toy_hmac_length k m : length (toy_hmac k m) = 32%nat.
Proof. apply length_fit. Qed.

Lemma toy_encrypt_length k n p : length (toy_encrypt k n p) = (length p + PHOTON_TAG_SIZE)%nat.
Proof. unfold toy_encrypt. by rewrite length_app, length_fit. Qed.

Lemma toy_encrypt_correct k n p : toy_decrypt k n (toy_encrypt k n p) = Some p.
Proof.
  unfold toy_decrypt. rewrite toy_encrypt_length.
  replace (length p + PHOTON_TAG_SIZE - PHOTON_TAG_SIZE)%nat with (length p) by lia.
  replace (take (length p) (toy_encrypt k n p)) with p
    by (unfold toy_encrypt; by rewrite take_app_length).
  by rewrite decide_True.
Qed.

Lemma toy_no_fail : no_fail toy_env.
Proof. by apply Forall_nil. Qed.

Lemma fresh_initial n : (0 < n)%nat -> fresh (manager_initial n).
Proof.
  intros Hn. unfold fresh, manager_initial. cbn [event_buffers g_sequence_counter chan ch_crypto].
  split_and!; try done; [by destruct n; [lia|]|by apply Forall_replicate].
Qed.

Lemma after_spec {S A} (m : M S A) (Q : S -> Prop) s :
  wp m (fun _ _ s' => Q s') toy_env s -> Q (after m s).
Proof. unfold wp, after. by destruct (m toy_env s) as [[[a e'] s']| |]. Qed.

Lemma loaded_spec : manager_inv toy_hmac loaded /\ drained loaded /\
  ch_frames (chan loaded) = [] /\ is_Some (g_tfm (ch_crypto (chan loaded))) /\
  g_key_set (ch_crypto (chan loaded)) = false.
Proof.
  pattern loaded. unfold loaded. apply after_spec. eapply wp_mono.
  { apply (event_manager_init_spec toy_hmac toy_mem). apply fresh_initial. lia. }
  intros r e' m (_ & H0 & H1). destruct (decide (r = 0%Z)) as [Hr|Hr].
  - destruct (H0 Hr) as (_ & ? & ? & ? & ? & _ & ?). done.
  - destruct (H1 Hr) as (_ & [] & _). apply toy_no_fail.
Qed.

Lemma keyed_facts : manager_inv toy_hmac keyed /\ drained keyed.
Proof.
  destruct loaded_spec as (Hi & _ & _ & Ht & Hk).
  pattern keyed. unfold keyed. apply after_spec. eapply wp_mono.
  { eapply (ioctl_set_key_spec toy_hmac toy_hmac_length toy_encrypt toy_encrypt_length
      toy_key toy_env loaded); done. }
  intros r e' m (Hm & _ & H1 & H0). split; [done|].
  destruct (decide (r = 0%Z)) as [Hr|Hr].
  - destruct (H0 Hr) as (c & up & ts & _ & _ & _ & _ & _ & (? & _)). done.
  - destruct (H1 Hr) as ([] & _). apply toy_no_fail.
Qed.

Lemma keyed_spec : manager_inv toy_hmac keyed.
Proof. apply keyed_facts. Qed.

Lemma keyed_drained : drained keyed.
Proof. apply keyed_facts. Qed.

Lemma keyed_key : g_key_set (ch_crypto (chan keyed)) = true.
Proof. vm_compute. reflexivity. Qed.

Lemma keyed_crypto : crypto_inv toy_hmac (ch_crypto (chan keyed)).
Proof. apply keyed_spec. Qed.
End concrete.

(** ** Keys *)
Section keys.
Context (hmac_sha256 : list byte -> list byte -> list byte).
Context (aead_encrypt : list byte -> list byte -> list byte -> list byte).
Context (aead_decrypt : list byte -> list byte -> list byte -> option (list byte)).

(** [hkdf_expand] is HKDF-Expand of RFC 5869 for every output length the
    RFC allows: when no kernel call fails, it returns the first [L] octets
    of T(1) | T(2) | ..., leaves the state alone and frees what it allocated. *)
Theorem hkdf_expand_is_rfc5869 prk info L e s :
  (forall k m, length (hmac_sha256 k m) = 32%nat) -> (L <= 255 * 32)%nat -> no_fail e ->
  exists e', hkdf_expand hmac_sha256 prk info L e s =
      Ret (inr (rfc_expand hmac_sha256 prk info L), e', s) /\ env_live e' = env_live e.
Proof.
  intros Hlen HL Hnf.
  destruct (wp_run _ _ _ _ (hkdf_expand_computes hmac_sha256 Hlen prk info L HL e s))
    as ([err|k] & e' & s' & -> & -> & (He & _) & Hr); [by destruct Hr|].
  subst k. exists e'. split; [done|lia].
Qed.

(** C5. The session key of a rotation is HKDF-SHA256 with the rotation number
    as salt, the master key as input and "photon-ring-v1-<rotation>" as
    context; a failing kernel call is reported and changes nothing, and no
    run leaks memory or leaves the mutex held. *)
Theorem derive_session_key_correct rot e s :
  (forall k m, length (hmac_sha256 k m) = 32%nat) ->
  crypto_mutex s = false -> g_key_set s = true ->
  exists r e', photon_derive_session_key hmac_sha256 rot e s = Ret (r, e', s) /\
    env_live e' = env_live e /\
    match r with
    | inr k => k = rfc_expand hmac_sha256
        (rfc_extract hmac_sha256 (le_encode 8 rot) (g_master_key s)) (session_info rot) 32
    | inl err => err <> 0%Z /\ ~ no_fail e
    end.
Proof.
  intros Hlen Hm Hk.
  destruct (wp_run _ _ _ _ (derive_session_key_spec hmac_sha256 Hlen rot e s Hm Hk))
    as (r & e' & s' & E & -> & (He & _) & Hr).
  exists r, e'. split; [exact E|]. split; [lia|exact Hr].
Qed.

(** C25. [photon_set_encryption_key] is all or nothing: on 0 the master key is
    the caller's 32 bytes, the rotation is 0 and the transform is loaded with
    the session key of that rotation; on an error no key is set and the
    master key is wiped.  Either way the keys stay consistent. *)
Theorem set_encryption_key_all_or_nothing key e s :
  (forall k m, length (hmac_sha256 k m) = 32%nat) ->
  crypto_inv hmac_sha256 s -> is_Some (g_tfm s) ->
  wp (photon_set_encryption_key hmac_sha256 (Some key)) (fun r e' s' =>
    crypto_inv hmac_sha256 s' /\ env_live e' = env_live e /\
    (r = 0%Z -> g_key_set s' = true /\ g_master_key s' = fit PHOTON_KEY_SIZE key /\
       g_session_key s' = session_key hmac_sha256 (fit PHOTON_KEY_SIZE key) 0 /\
       g_tfm s' = Some (mk_crypto_aead (Some (g_session_key s')) (Z.of_nat PHOTON_TAG_SIZE))) /\
    (r <> 0%Z -> g_key_set s' = false /\ g_master_key s' = zeros PHOTON_KEY_SIZE)) e s.
Proof.
  intros Hlen Hinv [t Ht].
  eapply wp_mono; [by apply (set_encryption_key_spec hmac_sha256 Hlen key t)|].
  intros r e' s' (Hi & He & _ & H0 & H1). split_and!; [done|env_solve| |].
  - intros Hr. destruct (H0 Hr) as (Hk & Hrot & Hm). destruct Hi as (_ & _ & _ & _ & Hko).
    destruct (Hko Hk) as [Hs Ht']. rewrite Hrot, Hm in Hs. done.
  - intros Hr. by destruct (H1 Hr) as [[? ?] _].
Qed.

(** C6. Encryption and decryption are inverse: the message
    [photon_encrypt_event] makes under the current session key carries the
    event's sequence number, and [photon_decrypt_event] gives the event back. *)
Theorem encrypt_decrypt_roundtrip ev m0 e s :
  (forall k n p, length (aead_encrypt k n p) = (length p + PHOTON_TAG_SIZE)%nat) ->
  (forall k n p, aead_decrypt k n (aead_encrypt k n p) = Some p) ->
  crypto_inv hmac_sha256 s -> g_key_set s = true -> packed_wf ev -> no_fail e ->
  wp (out ← photon_encrypt_event aead_encrypt ev m0;
      back ← photon_decrypt_event aead_decrypt out.2;
      mret (out, back)) (fun r e' s' =>
    r.1.1 = 0%Z /\ r.2 = (0%Z, Some ev) /\ enc_sequence_num r.1.2 = sequence_num ev /\
    env_live e' = env_live e /\ crypto_inv hmac_sha256 s') e s.
Proof.
  intros Hlen Hcor Hinv Hk Hwf Hnf. apply wp_bind.
  eapply wp_mono; [by apply encrypt_event_spec, (crypto_inv_can_seal hmac_sha256)|].
  intros [r m] e1 s1 (He1 & H0 & H1). cbn [fst snd] in *.
  destruct (decide (r = 0%Z)) as [->|Hr]; [|by destruct (H1 Hr)].
  destruct (H0 eq_refl) as (-> & nonce & Hn & ->). apply wp_bind.
  pose proof (bump_encryptions_inv _ _ Hinv) as Hinv1.
  eapply wp_mono; [eapply (decrypt_sealed_spec hmac_sha256 aead_encrypt aead_decrypt Hlen Hcor
    nonce (rotation_num m0) ev e1 (bump_encryptions s)); done|].
  intros [r e'] e2 s2 (He2 & H02 & H12). cbn [fst snd] in *. apply wp_ret.
  destruct (decide (r = 0%Z)) as [->|Hr].
  - destruct (H02 eq_refl) as [-> ->]. cbn [fst snd]. split_and!; try done. env_solve.
  - destruct (H12 Hr) as (_ & _ & []). by apply He1.
Qed.

(** Without a key or without a transform nothing is encrypted or
    decrypted: the code is -ENOKEY or -EINVAL, no allocation is made and no
    state changes. *)
Theorem crypt_refused ev m e s :
  g_tfm s = None \/ g_key_set s = false ->
  (exists r, (r = (- EINVAL)%Z \/ r = (- ENOKEY)%Z) /\
     photon_encrypt_event aead_encrypt ev m e s = Ret ((r, m), e, s) /\
     photon_decrypt_event aead_decrypt m e s = Ret ((r, None), e, s)).
Proof.
  intros Hs. exists (verify_crypto_transform s).
  destruct (encrypt_event_refused aead_encrypt ev m e s Hs) as [-> Hv]. split_and!; [|done|].
  - unfold verify_crypto_transform in *. destruct (g_tfm s); [|by left].
    destruct (g_key_set s); [done|by right].
  - unfold photon_decrypt_event, mbind, M_bind, get. by rewrite (proj2 (Z.eqb_neq _ _) Hv).
Qed.
End keys.

Lemma hkdf_expand_is_rfc5869_witness :
  exists e', hkdf_expand toy_hmac [x01] [x02; x03] 100 toy_env crypto_initial =
    Ret (inr (rfc_expand toy_hmac [x01] [x02; x03] 100), e', crypto_initial) /\
    env_live e' = env_live toy_env.
Proof.
  apply (hkdf_expand_is_rfc5869 toy_hmac [x01] [x02; x03] 100 toy_env crypto_initial);
    [apply toy_hmac_length|vm_compute; lia|apply toy_no_fail].
Defined.

Lemma derive_session_key_correct_witness :
  exists r e', photon_derive_session_key toy_hmac 5 toy_env (ch_crypto (chan keyed)) =
    Ret (r, e', ch_crypto (chan keyed)) /\ env_live e' = env_live toy_env /\
    match r with
    | inr k => k = rfc_expand toy_hmac
        (rfc_extract toy_hmac (le_encode 8 5) (g_master_key (ch_crypto (chan keyed))))
        (session_info 5) 32
    | inl err => err <> 0%Z /\ ~ no_fail toy_env
    end.
Proof.
  apply (derive_session_key_correct toy_hmac 5 toy_env (ch_crypto (chan keyed)));
    [apply toy_hmac_length|apply keyed_crypto|apply keyed_key].
Defined.

Lemma set_encryption_key_all_or_nothing_witness :
  wp (photon_set_encryption_key toy_hmac (Some toy_key)) (fun r e' s' =>
    crypto_inv toy_hmac s' /\ env_live e' = env_live toy_env /\
    (r = 0%Z -> g_key_set s' = true /\ g_master_key s' = fit PHOTON_KEY_SIZE toy_key /\
       g_session_key s' = session_key toy_hmac (fit PHOTON_KEY_SIZE toy_key) 0 /\
       g_tfm s' = Some (mk_crypto_aead (Some (g_session_key s')) (Z.of_nat PHOTON_TAG_SIZE))) /\
    (r <> 0%Z -> g_key_set s' = false /\ g_master_key s' = zeros PHOTON_KEY_SIZE))
    toy_env (ch_crypto (chan loaded)).
Proof.
  apply (set_encryption_key_all_or_nothing toy_hmac toy_key toy_env (ch_crypto (chan loaded)));
    [apply toy_hmac_length|apply loaded_spec|apply loaded_spec].
Defined.

Definition toy_event : photon_event :=
  make_event 9 1000 4 5 3 (mk_task 42 "sh") (Some [x01; x02]) 2.

Lemma toy_event_wf : packed_wf toy_event.
Proof. vm_compute. repeat split; done. Qed.

Lemma encrypt_decrypt_roundtrip_witness :
  wp (out ← photon_encrypt_event toy_encrypt toy_event (mk_photon_encrypted_msg 0 0 [] 0 [] []);
      back ← photon_decrypt_event toy_decrypt out.2;
      mret (out, back)) (fun r e' s' =>
    r.1.1 = 0%Z /\ r.2 = (0%Z, Some toy_event) /\
    enc_sequence_num r.1.2 = sequence_num toy_event /\
    env_live e' = env_live toy_env /\ crypto_inv toy_hmac s') toy_env (ch_crypto (chan keyed)).
Proof.
  apply (encrypt_decrypt_roundtrip toy_hmac toy_encrypt toy_decrypt toy_event _ toy_env
    (ch_crypto (chan keyed)));
    [apply toy_encrypt_length|apply toy_encrypt_correct|apply keyed_crypto|apply keyed_key
    |apply toy_event_wf|apply toy_no_fail].
Defined.

Lemma crypt_refused_witness :
  exists r, (r = (- EINVAL)%Z \/ r = (- ENOKEY)%Z) /\
    photon_encrypt_event toy_encrypt toy_event (mk_photon_encrypted_msg 0 0 [] 0 [] [])
      toy_env (ch_crypto (chan loaded)) =
      Ret ((r, mk_photon_encrypted_msg 0 0 [] 0 [] []), toy_env, ch_crypto (chan loaded)) /\
    photon_decrypt_event toy_decrypt (mk_photon_encrypted_msg 0 0 [] 0 [] [])
      toy_env (ch_crypto (chan loaded)) = Ret ((r, None), toy_env, ch_crypto (chan loaded)).
Proof.
  apply (crypt_refused toy_encrypt toy_decrypt toy_event _ toy_env (ch_crypto (chan loaded))).
  right. apply loaded_spec.
Defined.

(** ** Rotation *)
Section rotation.
Context (hmac_sha256 : list byte -> list byte -> list byte).
Context (aead_encrypt : list byte -> list byte -> list byte -> list byte).

(** C30. A rotation meeting no failing kernel call installs the HKDF key of
    the next rotation number and then logs the rotation event; with nothing
    waiting and room in the ring, the frame that announces the rotation is
    sealed under the new key and carries the new rotation number. *)
Theorem rotate_key_announced_under_new_key e m :
  (forall k m, length (hmac_sha256 k m) = 32%nat) ->
  (forall k n p, length (aead_encrypt k n p) = (length p + PHOTON_TAG_SIZE)%nat) ->
  manager_inv hmac_sha256 m -> g_key_set (ch_crypto (chan m)) = true -> no_fail e ->
  drained m -> ring_buf_full (g_ring (ch_cdev (chan m))) = false ->
  wp (photon_rotate_key hmac_sha256 aead_encrypt) (fun r e' m' =>
    let rot := u64 (g_rotation_counter (ch_crypto (chan m)) + 1) in
    let key := session_key hmac_sha256 (g_master_key (ch_crypto (chan m))) rot in
    r = 0%Z /\ manager_inv hmac_sha256 m' /\
    g_rotation_counter (ch_crypto (chan m')) = rot /\
    g_session_key (ch_crypto (chan m')) = key /\
    exists nonce ev, length nonce = PHOTON_IV_SIZE /\ event_type ev = 101%Z /\
      ch_frames (chan m') = ch_frames (chan m) ++ [event_frame aead_encrypt key nonce rot ev]) e m.
Proof.
  intros Hlen Halen Hinv Hk Hnf Hdr Hroom. cbv zeta.
  eapply wp_mono; [by apply rotate_spec|].
  intros r e' m' (-> & Hi' & _ & c & up & ts & (_ & Hkc & Hmc & Hrc & Hsc & _) & Hsub).
  destruct Hsub as (_ & _ & _ & _ & evs & n & k & Hevs & Hd & Hk0 & _).
  specialize (Hk0 Hnf). subst k. simpl in Hd.
  change (pending (set_sequence _ _)) with (pending m) in Hevs.
  rewrite (pending_drained m Hdr), Permutation_app_comm in Hevs. simpl in Hevs.
  apply Permutation_singleton_r in Hevs as ->.
  destruct (deliver_one _ _ _ _ _ Hd Hkc) as (nonce & Hn & Hcr & Hfr).
  split; [done|]. split; [done|]. rewrite Hcr. split; [by rewrite <- Hrc|].
  split; [done|]. exists nonce, (rotation_event e up ts (g_rotation_counter c) m).
  split; [done|]. split; [done|]. simpl in Hfr. rewrite Hfr by done. by rewrite Hsc, Hrc.
Qed.

(** C39. If the derivation of the next key succeeds and [crypto_aead_setkey]
    then fails, [photon_rotate_key] deadlocks: its restore path derives a key
    while it still holds [crypto_mutex]. *)
Theorem rotate_key_self_deadlock k e e1 r rs m :
  manager_inv hmac_sha256 m -> g_key_set (ch_crypto (chan m)) = true ->
  photon_derive_session_key hmac_sha256 (u64 (g_rotation_counter (ch_crypto (chan m)) + 1)) e
    (set_rotation (u64 (g_rotation_counter (ch_crypto (chan m)) + 1)) (ch_crypto (chan m))) =
    Ret (inr k, e1,
      set_rotation (u64 (g_rotation_counter (ch_crypto (chan m)) + 1)) (ch_crypto (chan m))) ->
  env_rets e1 = r :: rs -> r <> 0%Z ->
  photon_rotate_key hmac_sha256 aead_encrypt e m = Deadlock.
Proof. apply rotate_setkey_deadlock. Qed.
End rotation.

Lemma rotate_key_announced_under_new_key_witness :
  wp (photon_rotate_key toy_hmac toy_encrypt) (fun r e' m' =>
    let rot := u64 (g_rotation_counter (ch_crypto (chan keyed)) + 1) in
    let key := session_key toy_hmac (g_master_key (ch_crypto (chan keyed))) rot in
    r = 0%Z /\ manager_inv toy_hmac m' /\
    g_rotation_counter (ch_crypto (chan m')) = rot /\
    g_session_key (ch_crypto (chan m')) = key /\
    exists nonce ev, length nonce = PHOTON_IV_SIZE /\ event_type ev = 101%Z /\
      ch_frames (chan m') = ch_frames (chan keyed) ++ [event_frame toy_encrypt key nonce rot ev])
    toy_env keyed.
Proof.
  apply (rotate_key_announced_under_new_key toy_hmac toy_encrypt toy_env keyed);
    [apply toy_hmac_length|apply toy_encrypt_length|apply keyed_spec|apply keyed_key
    |apply toy_no_fail|apply keyed_drained|vm_compute; reflexivity].
Defined.

(** Thirteen calls of the derivation succeed, the setkey after them fails. *)
Definition failing_setkey_env : env :=
  mk_env (replicate 13 0%Z ++ [(- ENOMEM)%Z]) [] [] 0 [] (mk_task 7 "insmod").
Definition failing_setkey_env' : env := set_rets [(- ENOMEM)%Z] failing_setkey_env.
Definition keyed_next_rotation : Z := u64 (g_rotation_counter (ch_crypto (chan keyed)) + 1).

Lemma derive_before_failing_setkey :
  photon_derive_session_key toy_hmac keyed_next_rotation failing_setkey_env
    (set_rotation keyed_next_rotation (ch_crypto (chan keyed))) =
  Ret (inr (session_key toy_hmac (g_master_key (ch_crypto (chan keyed))) keyed_next_rotation),
    failing_setkey_env', set_rotation keyed_next_rotation (ch_crypto (chan keyed))).
Proof. vm_compute. reflexivity. Qed.

Lemma rotate_key_self_deadlock_witness :
  photon_rotate_key toy_hmac toy_encrypt failing_setkey_env keyed = Deadlock.
Proof.
  eapply (rotate_key_self_deadlock toy_hmac toy_encrypt _ failing_setkey_env failing_setkey_env'
    (- ENOMEM)%Z [] keyed);
    [apply keyed_spec|apply keyed_key|exact derive_before_failing_setkey|reflexivity|done].
Defined.

(** ** The rings *)
Section rings.
(** C16. Any sequence of pushes and pops on a well-formed frame ring gives the
    results of a FIFO of at most [capacity - 1] frames that answers -ENOSPC
    and counts a drop when full: no frame is lost, repeated or reordered. *)
Theorem frame_ring_refines_fifo ops e (rb : photon_ring_buf) :
  ring_inv rb -> Forall (op_ok (Q := photon_ring_buf)) ops ->
  exists rb', impl_run ops e rb =
      Ret ((spec_run (Z.to_nat (rb_capacity rb - 1)) ops (ring_frames rb, rb_dropped rb)).1, e, rb') /\
    ring_inv rb' /\
    (ring_frames rb', rb_dropped rb') =
      (spec_run (Z.to_nat (rb_capacity rb - 1)) ops (ring_frames rb, rb_dropped rb)).2.
Proof. intros Hinv Hops. exact (impl_run_refines ops e rb Hinv Hops). Qed.

(** The same for the per-CPU event buffers, whose every operation takes
    and releases the buffer's spinlock. *)
Theorem event_buffer_refines_fifo ops e (b : event_buffer) :
  buffer_inv b -> Forall (op_ok (Q := event_buffer)) ops ->
  exists b', impl_run ops e b =
      Ret ((spec_run (Z.to_nat (capacity b - 1)) ops (buffer_view b, dropped b)).1, e, b') /\
    buffer_inv b' /\
    (buffer_view b', dropped b') =
      (spec_run (Z.to_nat (capacity b - 1)) ops (buffer_view b, dropped b)).2.
Proof. intros Hinv Hops. exact (impl_run_refines ops e b Hinv Hops). Qed.
End rings.

Lemma loaded_ring : ring_inv (g_ring (ch_cdev (chan loaded))).
Proof. apply loaded_spec. Qed.

Lemma frame_ring_refines_fifo_witness :
  exists rb', impl_run [Enq [x01; x02]; Enq [x03]; Deq; Deq; Deq] toy_env (g_ring (ch_cdev (chan loaded))) =
      Ret ([REnq 0%Z; REnq 0%Z; RDeq (Some [x01; x02]); RDeq (Some [x03]); RDeq None], toy_env, rb') /\
    ring_inv rb' /\ (ring_frames rb', rb_dropped rb') = ([], 0%Z).
Proof.
  apply (frame_ring_refines_fifo [Enq [x01; x02]; Enq [x03]; Deq; Deq; Deq] toy_env
    (g_ring (ch_cdev (chan loaded)))); [apply loaded_ring|].
  repeat (apply Forall_cons; [|]); simpl; rewrite ?Forall_nil; repeat split; try done; vm_compute; lia.
Defined.

Definition loaded_buffer : event_buffer := from_option id buffer_initial (hd_error (event_buffers loaded)).

Lemma loaded_buffer_inv : buffer_inv loaded_buffer.
Proof.
  destruct loaded_spec as ((Hne & Hb & _) & _). unfold loaded_buffer.
  destruct (event_buffers loaded) as [|b bs]; [done|]. by apply Forall_cons_iff in Hb as [? _].
Qed.

Lemma event_buffer_refines_fifo_witness :
  exists b', impl_run [Deq; Enq toy_event; Deq] toy_env loaded_buffer =
      Ret ([RDeq None; REnq 0%Z; RDeq (Some toy_event)], toy_env, b') /\
    buffer_inv b' /\ (buffer_view b', dropped b') = ([], 0%Z).
Proof.
  apply (event_buffer_refines_fifo [Deq; Enq toy_event; Deq] toy_env loaded_buffer);
    [apply loaded_buffer_inv|].
  repeat (apply Forall_cons; [|]); simpl; rewrite ?Forall_nil; repeat split; try done;
    apply toy_event_wf.
Defined.

(** ** Logging *)
Section logging.
Context (hmac_sha256 : list byte -> list byte -> list byte).
Context (aead_encrypt : list byte -> list byte -> list byte -> list byte).

(** C2. [photon_log_event] terminates, answers 0 for every payload that fits
    (-ENOSPC never comes out: a full buffer is flushed and retried), uses the
    next sequence number, hands the new event and everything that waited to
    the channel exactly once and leaves no event waiting; only a failing
    kernel call makes a hand-over count as failed. *)
Theorem log_event_delivers_once et di sv data dl e m :
  (forall k n p, length (aead_encrypt k n p) = (length p + PHOTON_TAG_SIZE)%nat) ->
  manager_inv hmac_sha256 m -> log_data_ok data dl ->
  (u16 dl <= Z.of_nat PHOTON_MAX_EVENT_DATA)%Z ->
  wp (photon_log_event aead_encrypt et di sv data dl) (fun r e' m' =>
    r = 0%Z /\ manager_inv hmac_sha256 m' /\ pending m' = [] /\
    g_sequence_counter m' = u64 (g_sequence_counter m + 1) /\
    exists ts evs n k,
      evs ≡ₚ pending m ++ [make_event (u64 (g_sequence_counter m + 1)) ts (u32 et) (u32 di)
                             (u8 sv) (current e) data (u16 dl)] /\
      deliver aead_encrypt evs (chan m) n k (chan m') /\ (n + k = length evs)%nat /\
      total_sent (g_stats m') = u64 (total_sent (g_stats m) + Z.of_nat n) /\
      send_failures (g_stats m') = u64 (send_failures (g_stats m) + Z.of_nat k) /\
      (no_fail e -> k = 0%nat)) e m.
Proof.
  intros Halen Hinv Hd Hdl. eapply wp_mono; [by eapply log_event_spec|].
  intros r e' m' (Hi & _ & -> & _ & ts & _ & Hdr & Hq & _ & _ & evs & n & k & Hevs & Hdel & Hf & Hs & Hsf).
  split_and!; [done|done|by apply pending_drained|done|].
  exists ts, evs, n, k. split_and!; try done. by eapply deliver_count.
Qed.

(** A payload longer than 256 bytes is refused with -EINVAL before a
    sequence number is used or anything is sent. *)
Theorem log_event_oversize et di sv data dl e m :
  (256 < u16 dl)%Z ->
  photon_log_event aead_encrypt et di sv data dl e m = Ret ((- EINVAL)%Z, e, m).
Proof. apply log_event_too_large. Qed.

(** Until a key is set nothing reaches the frame ring: events logged
    before the key exchange are dequeued, counted as sent and gone. *)
Theorem log_before_key_is_lost et di sv data dl e m :
  (forall k n p, length (aead_encrypt k n p) = (length p + PHOTON_TAG_SIZE)%nat) ->
  manager_inv hmac_sha256 m -> log_data_ok data dl ->
  (u16 dl <= Z.of_nat PHOTON_MAX_EVENT_DATA)%Z ->
  g_key_set (ch_crypto (chan m)) = false -> drained m ->
  wp (photon_log_event aead_encrypt et di sv data dl) (fun r e' m' =>
    r = 0%Z /\ chan m' = chan m /\ pending m' = [] /\
    total_sent (g_stats m') = u64 (total_sent (g_stats m) + 1) /\
    total_dropped (g_stats m') = total_dropped (g_stats m)) e m.
Proof.
  intros Halen Hinv Hd Hdl Hk Hdr. eapply wp_mono; [by eapply log_event_spec|].
  intros r e' m' (Hi & _ & -> & _ & ts & _ & Hdr' & _ & _ & Htd & evs & n & k & Hevs & Hdel & _ & Hs & _).
  apply Permutation_length in Hevs. rewrite length_app in Hevs.
  change (pending (set_sequence _ _)) with (pending m) in Hevs.
  rewrite (pending_drained m Hdr) in Hevs. simpl in Hevs.
  destruct (deliver_unkeyed _ _ _ _ _ _ Hdel Hk) as (Hc & Hn & _).
  rewrite Hn, Hevs in Hs.
  split_and!; [done|done|by apply pending_drained|done|by apply Htd].
Qed.

(** C3. From the log to the reader: with a key, an empty frame ring and no
    failing kernel call, logging an event and reading the device with a
    buffer of at least 356 bytes yields exactly one frame, the length-prefixed
    message that seals that event under the session key. *)
Theorem log_then_read et di sv data dl count e m :
  (forall k n p, length (aead_encrypt k n p) = (length p + PHOTON_TAG_SIZE)%nat) ->
  manager_inv hmac_sha256 m -> log_data_ok data dl ->
  (u16 dl <= Z.of_nat PHOTON_MAX_EVENT_DATA)%Z -> (356 <= count < 2 ^ 32)%Z ->
  g_key_set (ch_crypto (chan m)) = true -> drained m -> ch_frames (chan m) = [] ->
  g_shutting_down (ch_cdev (chan m)) = false -> no_fail e ->
  wp (photon_log_event aead_encrypt et di sv data dl ;;
      on_channel (on_cdev (photon_cdev_read count))) (fun r e' m' =>
    ch_frames (chan m') = [] /\ pending m' = [] /\ r.1 = 356%Z /\
    exists ts nonce, length nonce = PHOTON_IV_SIZE /\
      r.2 = event_frame aead_encrypt (g_session_key (ch_crypto (chan m))) nonce
        (g_rotation_counter (ch_crypto (chan m)))
        (make_event (u64 (g_sequence_counter m + 1)) ts (u32 et) (u32 di) (u8 sv)
           (current e) data (u16 dl))) e m.
Proof.
  intros Halen Hinv Hd Hdl Hcount Hk Hdr Hempty Hsd Hnf. apply wp_bind.
  eapply wp_mono; [by eapply log_event_spec|].
  intros r e1 m1 (Hi & He1 & -> & _ & ts & Hts & Hdr1 & _ & _ & _ & evs & n & k & Hevs & Hdel & Hf & _).
  specialize (Hf Hnf). subst k.
  change (pending (set_sequence _ _)) with (pending m) in Hevs.
  rewrite (pending_drained m Hdr), Permutation_app_comm in Hevs. simpl in Hevs.
  apply Permutation_singleton_r in Hevs as ->. simpl in Hdel.
  destruct (deliver_one _ _ _ _ _ Hdel Hk) as (nonce & Hn & _ & Hfr).
  set (ev := make_event _ _ _ _ _ _ _ _) in *.
  set (f := event_frame _ _ _ _ ev) in *.
  assert (Hwf : packed_wf ev).
  { apply make_event_wf; [apply u64_stat|done|apply u16_range]. }
  assert (Hfl : length f = 356%nat) by (by apply length_event_frame).
  pose proof Hinv as (_ & _ & _ & _ & (_ & Hring)).
  specialize (Hfr (ring_frames_room _ Hring Hempty)). rewrite Hempty in Hfr.
  pose proof Hi as (_ & _ & _ & _ & (_ & Hring1)).
  destruct (deliver_status _ _ _ _ _ _ Hdel) as (Hsd1 & _).
  apply wp_zoom, wp_zoom.
  eapply wp_mono; [apply (read_spec f [] count); try done; [congruence|lia]|].
  intros r e2 d2 (Hri & Hrf & He2 & _ & [Hr|[_ Hf]]).
  - rewrite Hfl, (wrap_small 32) in Hr by lia. change (Z.of_nat 356) with 356%Z in Hr.
    rewrite Z.min_l in Hr by lia. subst r. split_and!; try done.
    { by apply pending_drained. }
    exists ts, nonce. split; [done|]. cbn [snd]. rewrite firstn_all2; [done|]. rewrite Hfl. done.
  - exfalso. apply Hf. by apply He1.
Qed.
End logging.

Lemma log_event_delivers_once_witness :
  wp (photon_log_event toy_encrypt 4 5 3 (Some [x01; x02]) 2) (fun r e' m' =>
    r = 0%Z /\ manager_inv toy_hmac m' /\ pending m' = [] /\
    g_sequence_counter m' = u64 (g_sequence_counter keyed + 1) /\
    exists ts evs n k,
      evs ≡ₚ pending keyed ++ [make_event (u64 (g_sequence_counter keyed + 1)) ts (u32 4) (u32 5)
                             (u8 3) (current toy_env) (Some [x01; x02]) (u16 2)] /\
      deliver toy_encrypt evs (chan keyed) n k (chan m') /\ (n + k = length evs)%nat /\
      total_sent (g_stats m') = u64 (total_sent (g_stats keyed) + Z.of_nat n) /\
      send_failures (g_stats m') = u64 (send_failures (g_stats keyed) + Z.of_nat k) /\
      (no_fail toy_env -> k = 0%nat)) toy_env keyed.
Proof.
  apply (log_event_delivers_once toy_hmac toy_encrypt 4 5 3 (Some [x01; x02]) 2 toy_env keyed);
    [apply toy_encrypt_length|apply keyed_spec|vm_compute; lia|vm_compute; discriminate].
Defined.

Lemma log_event_oversize_witness :
  photon_log_event toy_encrypt 4 5 3 None 257 toy_env keyed = Ret ((- EINVAL)%Z, toy_env, keyed).
Proof. apply (log_event_oversize toy_encrypt 4 5 3 None 257 toy_env keyed). reflexivity. Defined.

Lemma log_before_key_is_lost_witness :
  wp (photon_log_event toy_encrypt 4 5 3 None 0) (fun r e' m' =>
    r = 0%Z /\ chan m' = chan loaded /\ pending m' = [] /\
    total_sent (g_stats m') = u64 (total_sent (g_stats loaded) + 1) /\
    total_dropped (g_stats m') = total_dropped (g_stats loaded)) toy_env loaded.
Proof.
  apply (log_before_key_is_lost toy_hmac toy_encrypt 4 5 3 None 0 toy_env loaded);
    [apply toy_encrypt_length|apply loaded_spec|done|vm_compute; discriminate
    |apply loaded_spec|apply loaded_spec].
Defined.

(** The keyed module after its reader took the first heartbeat. *)
Definition listening : manager := after (on_channel (on_cdev (photon_cdev_read 4096))) keyed.

Lemma keyed_open : g_shutting_down (ch_cdev (chan keyed)) = false.
Proof. vm_compute. reflexivity. Qed.

Lemma keyed_frames : exists f, ch_frames (chan keyed) = [f].
Proof. eexists. vm_compute. reflexivity. Qed.

Lemma read_one_spec f e m :
  manager_inv toy_hmac m -> drained m -> g_shutting_down (ch_cdev (chan m)) = false ->
  ch_frames (chan m) = [f] ->
  wp (on_channel (on_cdev (photon_cdev_read 4096))) (fun _ _ m' =>
    manager_inv toy_hmac m' /\ drained m' /\ ch_frames (chan m') = []) e m.
Proof.
  intros Hi Hd Hs Hf. apply wp_zoom, wp_zoom.
  eapply wp_mono; [apply (read_spec f [] 4096); [apply Hi|exact Hs|exact Hf|lia]|].
  intros r e' d (Hri & Hrf & _). destruct Hi as (? & ? & ? & ? & ? & ?).
  split; [|split; [exact Hd|exact Hrf]]. by unfold manager_inv, channel_inv; split_and!.
Qed.

Lemma listening_spec : manager_inv toy_hmac listening /\ drained listening /\
  ch_frames (chan listening) = [].
Proof.
  destruct keyed_frames as [f Hf]. pattern listening. unfold listening. apply after_spec.
  exact (read_one_spec f toy_env keyed keyed_spec keyed_drained keyed_open Hf).
Qed.

Lemma log_then_read_witness :
  wp (photon_log_event toy_encrypt 4 5 3 None 0 ;;
      on_channel (on_cdev (photon_cdev_read 4096))) (fun r e' m' =>
    ch_frames (chan m') = [] /\ pending m' = [] /\ r.1 = 356%Z /\
    exists ts nonce, length nonce = PHOTON_IV_SIZE /\
      r.2 = event_frame toy_encrypt (g_session_key (ch_crypto (chan listening))) nonce
        (g_rotation_counter (ch_crypto (chan listening)))
        (make_event (u64 (g_sequence_counter listening + 1)) ts (u32 4) (u32 5) (u8 3)
           (current toy_env) None (u16 0))) toy_env listening.
Proof.
  apply (log_then_read toy_hmac toy_encrypt 4 5 3 None 0 4096 toy_env listening);
    [apply toy_encrypt_length|apply listening_spec|done|vm_compute; discriminate
    |lia|vm_compute; reflexivity|apply listening_spec|apply listening_spec
    |vm_compute; reflexivity|apply toy_no_fail].
Defined.

(** ** Set-up, tear-down and the device *)
Section life.
Context (hmac_sha256 : list byte -> list byte -> list byte).
Context (aead_encrypt : list byte -> list byte -> list byte -> list byte).

(** [event_manager_init] is all or nothing: it leaves one empty buffer per
    CPU, the transform, the ring and four registrations and a consistent
    manager without a key; or it returns the failing call's code with nothing
    allocated and every buffer absent, whichever call failed. *)
Theorem event_manager_init_all_or_nothing mem e m :
  fresh m ->
  wp (event_manager_init mem) (fun r e' m' =>
    (r = 0%Z /\ env_live e' = (env_live e + Z.of_nat (length (event_buffers m)) + 6)%Z /\
       manager_inv hmac_sha256 m' /\ pending m' = [] /\ ch_frames (chan m') = [] /\
       g_key_set (ch_crypto (chan m')) = false) \/
    (r <> 0%Z /\ env_live e' = env_live e /\ ~ no_fail e /\
       Forall (fun b => events b = None) (event_buffers m'))) e m.
Proof.
  intros Hf. eapply wp_mono; [by apply (event_manager_init_spec hmac_sha256)|].
  intros r e' m' (_ & H0 & H1). destruct (decide (r = 0%Z)) as [Hr|Hr].
  - left. destruct (H0 Hr) as (He & ? & Hd & ? & ? & _). split_and!; try done; [env_solve|].
    by apply pending_drained.
  - right. destruct (H1 Hr) as (He & ? & ?). split_and!; try done. env_solve.
Qed.

(** [event_manager_exit] releases exactly what set-up acquired, raises the
    shutdown flag the readers wait on, and wipes the master and the session
    key if one was set. *)
Theorem event_manager_exit_releases_all e m :
  (forall k n p, length (aead_encrypt k n p) = (length p + PHOTON_TAG_SIZE)%nat) ->
  manager_inv hmac_sha256 m -> is_Some (g_tfm (ch_crypto (chan m))) ->
  wp (event_manager_exit aead_encrypt) (fun _ e' m' =>
    env_live e' = (env_live e - (Z.of_nat (length (event_buffers m)) + 6))%Z /\
    Forall (fun b => events b = None) (event_buffers m') /\
    g_shutting_down (ch_cdev (chan m')) = true /\
    g_key_set (ch_crypto (chan m')) = false /\
    (g_key_set (ch_crypto (chan m)) = true ->
       g_master_key (ch_crypto (chan m')) = zeros PHOTON_KEY_SIZE /\
       g_session_key (ch_crypto (chan m')) = zeros PHOTON_KEY_SIZE)) e m.
Proof.
  intros Halen Hinv Ht. eapply wp_mono; [by eapply event_manager_exit_spec|].
  intros [] e' m' (He & ? & ? & _ & ? & ?). split_and!; try done. env_solve.
Qed.

(** The ioctl accepts one key, once, from CAP_SYS_ADMIN: other callers get
    -EPERM, a second key -EEXIST, other commands -ENOTTY, all without effect. *)
Theorem ioctl_refusals cap cmd user e m :
  cap = false \/ cmd <> PHOTON_IOC_SET_KEY \/ g_key_set (ch_crypto (chan m)) = true ->
  photon_cdev_ioctl hmac_sha256 aead_encrypt cap cmd user e m =
    Ret (if negb cap then (- EPERM)%Z else
         if Z.eqb cmd PHOTON_IOC_SET_KEY then (- EEXIST)%Z else (- ENOTTY)%Z, e, m).
Proof. apply ioctl_refused. Qed.

(** What the accepted ioctl does when nothing fails and the ring has room. *)
Lemma ioctl_heartbeat user e m :
  (forall k m, length (hmac_sha256 k m) = 32%nat) ->
  (forall k n p, length (aead_encrypt k n p) = (length p + PHOTON_TAG_SIZE)%nat) ->
  manager_inv hmac_sha256 m -> is_Some (g_tfm (ch_crypto (chan m))) ->
  g_key_set (ch_crypto (chan m)) = false -> drained m -> no_fail e ->
  ring_buf_full (g_ring (ch_cdev (chan m))) = false ->
  wp (photon_cdev_ioctl hmac_sha256 aead_encrypt true PHOTON_IOC_SET_KEY user) (fun r e' m' =>
    let key := session_key hmac_sha256 (fit PHOTON_KEY_SIZE user) 0 in
    r = 0%Z /\ manager_inv hmac_sha256 m' /\ no_fail e' /\
    same_status (ch_cdev (chan m)) (ch_cdev (chan m')) /\
    g_key_set (ch_crypto (chan m')) = true /\
    g_session_key (ch_crypto (chan m')) = key /\
    exists nonce ev, length nonce = PHOTON_IV_SIZE /\ event_type ev = 100%Z /\ packed_wf ev /\
      ch_frames (chan m') = ch_frames (chan m) ++ [event_frame aead_encrypt key nonce 0 ev]) e m.
Proof.
  intros Hlen Halen Hinv Ht Hk Hdr Hnf Hroom. cbv zeta.
  eapply wp_mono; [by apply ioctl_set_key_spec|].
  intros r e' m' (Hi & He & H1 & H0).
  destruct (decide (r = 0%Z)) as [Hr|Hr]; [|by destruct (H1 Hr)].
  destruct (H0 Hr) as (c & up & ts & Hts & (_ & _ & _ & _ & Hko) & Hkc & Hrc & Hmc & Hsub).
  destruct (Hko Hkc) as [Hsc _]. rewrite Hmc, Hrc in Hsc.
  destruct Hsub as (_ & _ & _ & _ & evs & n & k & Hevs & Hd & Hk0 & _).
  specialize (Hk0 Hnf). subst k. change (pending (set_sequence _ _)) with (pending m) in Hevs.
  rewrite (pending_drained m Hdr), Permutation_app_comm in Hevs. simpl in Hevs.
  apply Permutation_singleton_r in Hevs as ->.
  destruct (deliver_one _ _ _ _ _ Hd Hkc) as (nonce & Hn & Hcr & Hfr).
  specialize (Hfr Hroom). simpl in Hcr, Hfr. rewrite Hsc, Hrc in Hfr.
  split; [done|]. split; [done|]. split; [by apply He|].
  split; [exact (deliver_status _ _ _ _ _ _ Hd)|]. rewrite Hcr. split; [done|]. split; [done|].
  eexists nonce, _. split; [done|]. split; [|split; [|exact Hfr]]; [done|].
  by apply (make_event_wf _ _ 100 0 0); [apply u64_stat|done|].
Qed.

(** The accepted ioctl installs the user's 32 bytes with the rotation-0
    session key and, the buffers being empty and the ring having room, puts
    one heartbeat frame under that key into the ring; on an error there is no
    key and no event was logged. *)
Theorem ioctl_installs_key_and_heartbeat user e m :
  (forall k m, length (hmac_sha256 k m) = 32%nat) ->
  (forall k n p, length (aead_encrypt k n p) = (length p + PHOTON_TAG_SIZE)%nat) ->
  manager_inv hmac_sha256 m -> is_Some (g_tfm (ch_crypto (chan m))) ->
  g_key_set (ch_crypto (chan m)) = false -> drained m -> no_fail e ->
  ring_buf_full (g_ring (ch_cdev (chan m))) = false ->
  wp (photon_cdev_ioctl hmac_sha256 aead_encrypt true PHOTON_IOC_SET_KEY user) (fun r e' m' =>
    let key := session_key hmac_sha256 (fit PHOTON_KEY_SIZE user) 0 in
    r = 0%Z /\ manager_inv hmac_sha256 m' /\ g_key_set (ch_crypto (chan m')) = true /\
    g_session_key (ch_crypto (chan m')) = key /\
    exists nonce ev, length nonce = PHOTON_IV_SIZE /\ event_type ev = 100%Z /\
      ch_frames (chan m') = ch_frames (chan m) ++ [event_frame aead_encrypt key nonce 0 ev]) e m.
Proof.
  intros. eapply wp_mono; [by apply ioctl_heartbeat|].
  intros r e' m' (Hr & Hi & _ & _ & Hk & Hs & nonce & ev & Hn & Ht & _ & Hf).
  split_and!; [done..|]. by exists nonce, ev.
Qed.
End life.

Section reader.
(** A read takes the oldest frame off the ring and delivers as many of
    its bytes as the caller has room for; what does not fit is gone, the
    staging buffer is wiped, and only the copy to the user can fail. *)
Theorem read_delivers_oldest_frame f fs count e st :
  ring_inv (g_ring st) -> g_shutting_down st = false ->
  ring_frames (g_ring st) = f :: fs -> (4 <= count < 2 ^ 32)%Z -> no_fail e ->
  wp (photon_cdev_read count) (fun r e' st' =>
    r = (Z.min (Z.of_nat (length f)) count, take (Z.to_nat count) f) /\
    ring_inv (g_ring st') /\ ring_frames (g_ring st') = fs /\
    g_read_staging st' = zeros PHOTON_FRAME_SLOT_SIZE) e st.
Proof.
  intros Hinv Hsd Hfr Hc Hnf. eapply wp_mono; [apply (read_spec f fs count); try done; lia|].
  intros r e' st' (? & ? & _ & ? & [Hr|[_ []]]); [|done]. split_and!; try done.
  rewrite (wrap_small 32) in Hr by lia. rewrite Hr. f_equal.
  destruct (Z.min_spec (Z.of_nat (length f)) count) as [[? ->]|[? ->]]; [|done].
  by rewrite !take_ge by lia.
Qed.

(** A read with less room than the length prefix consumes a frame and
    delivers nothing: -EINVAL, and the frame is lost. *)
Theorem short_read_loses_frame f fs count e st :
  ring_inv (g_ring st) -> g_shutting_down st = false ->
  ring_frames (g_ring st) = f :: fs -> (count < 4)%Z ->
  wp (photon_cdev_read count) (fun r e' st' =>
    r = ((- EINVAL)%Z, []) /\ ring_frames (g_ring st') = fs) e st.
Proof. apply read_short. Qed.

(** A read of an empty ring while nothing else runs: it ends for a signal,
    with -EINTR and nothing consumed, or with -EIO when the module shuts down,
    or sleeps ([WaitQueue] has the wake-up by a new frame). *)
Theorem read_blocks_until_data_or_shutdown count e st :
  ring_inv (g_ring st) -> ring_frames (g_ring st) = [] ->
  photon_cdev_read count e st =
    if g_shutting_down st then Ret (((- EIO)%Z, []), e, st)
    else match env_rets e with
         | [] => Deadlock
         | r :: rs => if Z.eqb r 0 then Deadlock else Ret (((- EINTR)%Z, []), set_rets rs e, st)
         end.
Proof.
  intros (sl & Hs & Hok & _) Hfr. destruct (g_shutting_down st) eqn:Hsd.
  { by apply read_shutdown. }
  assert (Hemp : ring_buf_empty (g_ring st) = true).
  { unfold ring_buf_empty. rewrite (ring_empty_iff sl) by done.
    unfold ring_frames in Hfr. rewrite Hs in Hfr. by apply fmap_nil_inv in Hfr. }
  unfold photon_cdev_read. unfold mbind at 1, M_bind at 1.
  rewrite wait_readable_sleeps by done. destruct (env_rets e) as [|r rs]; [done|].
  destruct (Z.eqb_spec r 0) as [|Hr]; [done|]. by rewrite (proj2 (Z.eqb_neq r 0) Hr).
Qed.

(** At most one process has the device open: between a successful open
    and the release every other open gets -EBUSY, and afterwards one
    succeeds again. *)
Theorem open_is_exclusive e st :
  g_open_mutex st = false -> g_is_open st = false ->
  (a ← photon_cdev_open true; b ← photon_cdev_open true;
   c ← photon_cdev_release; d ← photon_cdev_open true; mret (a, b, c, d)) e st =
  Ret ((0%Z, (- EBUSY)%Z, 0%Z, 0%Z), e, set_is_open true st).
Proof.
  intros Hm Ho. unfold mbind, M_bind. rewrite open_exclusive, Ho by done.
  rewrite open_exclusive by done. cbn [g_is_open set_is_open].
  rewrite release_spec by done. by rewrite open_exclusive by done.
Qed.
End reader.

Lemma event_manager_init_all_or_nothing_witness :
  wp (event_manager_init toy_mem) (fun r e' m' =>
    (r = 0%Z /\
       env_live e' = (env_live toy_env + Z.of_nat (length (event_buffers (manager_initial 2))) + 6)%Z /\
       manager_inv toy_hmac m' /\ pending m' = [] /\ ch_frames (chan m') = [] /\
       g_key_set (ch_crypto (chan m')) = false) \/
    (r <> 0%Z /\ env_live e' = env_live toy_env /\ ~ no_fail toy_env /\
       Forall (fun b => events b = None) (event_buffers m'))) toy_env (manager_initial 2).
Proof.
  apply (event_manager_init_all_or_nothing toy_hmac toy_mem toy_env (manager_initial 2)).
  apply fresh_initial. lia.
Defined.

Lemma keyed_tfm : is_Some (g_tfm (ch_crypto (chan keyed))).
Proof. destruct keyed_crypto as (_ & _ & _ & _ & Hk). by destruct (Hk keyed_key) as [_ ->]. Qed.

Lemma event_manager_exit_releases_all_witness :
  wp (event_manager_exit toy_encrypt) (fun _ e' m' =>
    env_live e' = (env_live toy_env - (Z.of_nat (length (event_buffers keyed)) + 6))%Z /\
    Forall (fun b => events b = None) (event_buffers m') /\
    g_shutting_down (ch_cdev (chan m')) = true /\
    g_key_set (ch_crypto (chan m')) = false /\
    (g_key_set (ch_crypto (chan keyed)) = true ->
       g_master_key (ch_crypto (chan m')) = zeros PHOTON_KEY_SIZE /\
       g_session_key (ch_crypto (chan m')) = zeros PHOTON_KEY_SIZE)) toy_env keyed.
Proof.
  apply (event_manager_exit_releases_all toy_hmac toy_encrypt toy_env keyed);
    [apply toy_encrypt_length|apply keyed_spec|apply keyed_tfm].
Defined.

Lemma ioctl_refusals_witness :
  photon_cdev_ioctl toy_hmac toy_encrypt true PHOTON_IOC_SET_KEY toy_key toy_env keyed =
    Ret ((- EEXIST)%Z, toy_env, keyed).
Proof.
  apply (ioctl_refusals toy_hmac toy_encrypt true PHOTON_IOC_SET_KEY toy_key toy_env keyed).
  right. right. apply keyed_key.
Defined.

Lemma ioctl_installs_key_and_heartbeat_witness :
  wp (photon_cdev_ioctl toy_hmac toy_encrypt true PHOTON_IOC_SET_KEY toy_key) (fun r e' m' =>
    let key := session_key toy_hmac (fit PHOTON_KEY_SIZE toy_key) 0 in
    r = 0%Z /\ manager_inv toy_hmac m' /\ g_key_set (ch_crypto (chan m')) = true /\
    g_session_key (ch_crypto (chan m')) = key /\
    exists nonce ev, length nonce = PHOTON_IV_SIZE /\ event_type ev = 100%Z /\
      ch_frames (chan m') = ch_frames (chan loaded) ++ [event_frame toy_encrypt key nonce 0 ev])
    toy_env loaded.
Proof.
  destruct loaded_spec as (Hi & Hd & Hf & Ht & Hk).
  apply (ioctl_installs_key_and_heartbeat toy_hmac toy_encrypt toy_key toy_env loaded);
    [apply toy_hmac_length|apply toy_encrypt_length|exact Hi|exact Ht|exact Hk|exact Hd
    |apply toy_no_fail|vm_compute; reflexivity].
Defined.

(** A device with room for three frames, two of them waiting. *)
Definition holding (f g : list byte) : cdev_state :=
  after (r ← on_ring (ring_buf_init 4);
         a ← on_ring (ring_buf_push f (Z.of_nat (length f)));
         on_ring (ring_buf_push g (Z.of_nat (length g)))) cdev_initial.
Definition two_frames : cdev_state := holding [x01; x02; x03; x04; x05; x06] [x07].

Lemma holding_inv f g : frame_ok f -> frame_ok g -> ring_inv (g_ring (holding f g)).
Proof.
  intros Hf Hg. pattern (holding f g). unfold holding. apply after_spec.
  apply wp_bind, wp_zoom. apply wp_ring_init; [done|intros e1 rb1 He1 Hi1 Hfr1 _ _ _|].
  2: intros r e1 _ []; apply toy_no_fail.
  apply wp_bind, wp_zoom.
  destruct (ring_push_spec f e1 rb1 Hi1 Hf) as (rb2 & Hp2 & Hi2 & _); [by apply ring_frames_room|].
  eapply wp_eq; [exact Hp2|]. apply wp_zoom.
  destruct (ring_buf_full rb2) eqn:Hfull.
  - eapply wp_eq; [apply (ring_push_full g _); [by apply ring_inv_capacity|exact Hfull]|].
    destruct Hi2 as (sl & ? & ? & ? & ?). by exists sl.
  - destruct (ring_push_spec g e1 rb2 Hi2 Hg) as (rb3 & Hp3 & Hi3 & _); [exact Hfull|].
    eapply wp_eq; [exact Hp3|]. exact Hi3.
Qed.

Lemma two_frames_spec : ring_inv (g_ring two_frames) /\
  ring_frames (g_ring two_frames) = [[x01; x02; x03; x04; x05; x06]; [x07]] /\
  g_shutting_down two_frames = false.
Proof.
  assert (Hfr : ring_frames (g_ring two_frames) = [[x01; x02; x03; x04; x05; x06]; [x07]])
    by (vm_compute; reflexivity).
  split; [|split; [exact Hfr|vm_compute; reflexivity]].
  apply holding_inv; (split; [done|vm_compute; lia]).
Qed.

Lemma read_delivers_oldest_frame_witness :
  wp (photon_cdev_read 5) (fun r e' st' =>
    r = (5%Z, [x01; x02; x03; x04; x05]) /\
    ring_inv (g_ring st') /\ ring_frames (g_ring st') = [[x07]] /\
    g_read_staging st' = zeros PHOTON_FRAME_SLOT_SIZE) toy_env two_frames.
Proof.
  apply (read_delivers_oldest_frame [x01; x02; x03; x04; x05; x06] [[x07]] 5 toy_env two_frames);
    [apply two_frames_spec|apply two_frames_spec|apply two_frames_spec|lia|apply toy_no_fail].
Defined.

Lemma short_read_loses_frame_witness :
  wp (photon_cdev_read 3) (fun r e' st' =>
    r = ((- EINVAL)%Z, []) /\ ring_frames (g_ring st') = [[x07]]) toy_env two_frames.
Proof.
  apply (short_read_loses_frame [x01; x02; x03; x04; x05; x06] [[x07]] 3 toy_env two_frames);
    [apply two_frames_spec|apply two_frames_spec|apply two_frames_spec|lia].
Defined.

Lemma read_blocks_until_data_or_shutdown_witness :
  photon_cdev_read 4096 toy_env (ch_cdev (chan loaded)) = Deadlock.
Proof.
  apply (read_blocks_until_data_or_shutdown 4096 toy_env (ch_cdev (chan loaded)));
    [apply loaded_ring|apply loaded_spec].
Defined.

Lemma open_is_exclusive_witness :
  (a ← photon_cdev_open true; b ← photon_cdev_open true;
   c ← photon_cdev_release; d ← photon_cdev_open true; mret (a, b, c, d)) toy_env cdev_initial =
  Ret ((0%Z, (- EBUSY)%Z, 0%Z, 0%Z), toy_env, set_is_open true cdev_initial).
Proof. apply (open_is_exclusive toy_env cdev_initial); reflexivity. Defined.
