(* ===== verification/Rotation.v ===== *)
(** * A send during a key rotation
    [photon_send_encrypted_event] reads the rotation number without a lock
    and then seals the event; [photon_rotate_key] raises the number, derives
    the next session key and only then installs it.  Here each is a thread
    that another can interrupt at these points: [send_turn] and [rotate_turn]
    are the pieces, made of the operations of [Cdev] and [Device], that
    [send_alone_eq] and [rotate_alone_eq] put together again.  [race] lets one
    sender and one rotation take their turns in any order.  An encryption is
    one turn: [crypto_aead_encrypt] against [crypto_aead_setkey] is the kernel's
    business. *)
From Stdlib Require Import ZArith Lia.
From Stdlib Require Import Strings.Byte Strings.String.
From stdpp Require Import base numbers list option.
From S2P Require Import Prelude Kernel Events Ring Crypto Cdev EventManager Device.

Inductive sender :=
  | ToLabel
  | ToSeal (rotation : Z)
  | Sent (ret : Z).

(** [Rotated]: an error code, or the new rotation number. *)
Inductive rotator :=
  | ToBump
  | ToDerive (new_rotation : Z)
  | ToInstall (new_rotation : Z) (new_session_key : list byte)
  | Rotated (res : Z + Z).

Record race := mk_race { sending : sender; rotating : rotator; between : channel }.

Section turns.
Context (hmac_sha256 : list byte -> list byte -> list byte).
Context (aead_encrypt : list byte -> list byte -> list byte -> list byte).

Definition send_turn (event : photon_event) (s : sender) : M channel sender :=
  match s with
  | ToLabel =>
      ch ← get;
      mret (if negb (photon_has_key (ch_crypto ch)) then Sent 0
            else ToSeal (photon_get_rotation_number (ch_crypto ch)))
  | ToSeal rotation => ret ← send_labelled aead_encrypt rotation event; mret (Sent ret)
  | Sent ret => mret (Sent ret)
  end.

Definition rotate_turn (r : rotator) : M channel rotator :=
  match r with
  | ToBump =>
      ch ← get;
      if negb (g_key_set (ch_crypto ch)) then mret (Rotated (inl (- ENOKEY)%Z)) else
      on_crypto (bump_rotation 1) ;;
      ch ← get;
      mret (ToDerive (g_rotation_counter (ch_crypto ch)))
  | ToDerive n =>
      res ← on_crypto (photon_derive_session_key hmac_sha256 n);
      match res with
      | inl err => on_crypto (bump_rotation (-1)) ;; mret (Rotated (inl err))
      | inr k => mret (ToInstall n k)
      end
  | ToInstall n k =>
      ret ← on_crypto (install_session_key hmac_sha256 k);
      mret (Rotated (if negb (Z.eqb ret 0) then inl ret else inr n))
  | Rotated res => mret (Rotated res)
  end.

(** Either of them, uninterrupted. *)
Definition send_alone (event : photon_event) : M channel sender :=
  s ← send_turn event ToLabel; send_turn event s.
Definition rotate_alone : M channel rotator :=
  r ← rotate_turn ToBump; r ← rotate_turn r; rotate_turn r.

(** Who moves, with no failing kernel call. *)
Inductive race_step (event : photon_event) : race -> race -> Prop :=
  | race_send e e' s s' r ch ch' :
      no_fail e -> send_turn event s e ch = Ret (s', e', ch') ->
      race_step event (mk_race s r ch) (mk_race s' r ch')
  | race_rotate e e' s r r' ch ch' :
      no_fail e -> rotate_turn r e ch = Ret (r', e', ch') ->
      race_step event (mk_race s r ch) (mk_race s r' ch').

Inductive race_from (event : photon_event) (ch0 : channel) : race -> Prop :=
  | race_start : race_from event ch0 (mk_race ToLabel ToBump ch0)
  | race_next x y : race_from event ch0 x -> race_step event x y -> race_from event ch0 y.

Lemma send_alone_eq event e ch :
  send_alone event e ch =
  (ret ← photon_send_encrypted_event aead_encrypt event; mret (Sent ret)) e ch.
Proof.
  unfold send_alone, photon_send_encrypted_event, send_turn, mbind, M_bind, get.
  by destruct (negb (photon_has_key (ch_crypto ch))).
Qed.

(** [photon_rotate_key] is its turns and the announcement. *)
Lemma rotate_alone_eq e m :
  photon_rotate_key hmac_sha256 aead_encrypt e m =
  (r ← on_channel rotate_alone;
   match r with
   | Rotated (inr n) =>
       up ← ktime_get;
       photon_log_event aead_encrypt (event_type_code PHOTON_EVENT_SYSTEM_KEY_ROTATION) 0
         PHOTON_SEV_INFO (Some (pack (mk_system_data up 0 0 n))) (Z.of_nat (sizeof system_data)) ;;
       mret 0%Z
   | Rotated (inl err) => mret err
   | _ => fault
   end) e m.
Proof.
  unfold photon_rotate_key, rotate_alone, rotate_turn, on_keys, on_channel, on_crypto, zoom, bump_rotation.
  unfold mbind, M_bind, get, modify, mret, M_ret. destruct m as [b q st [c d]].
  cbn [chan ch_crypto ch_cdev set_chan set_crypto event_buffers g_sequence_counter g_stats].
  destruct (g_key_set c); [|done]. cbn [negb].
  cbn [chan ch_crypto ch_cdev set_chan set_crypto event_buffers g_sequence_counter g_stats].
  destruct (photon_derive_session_key _ _ _ _) as [[[[err|k] e1] c1]| |]; [done| |done|done].
  cbn [chan ch_crypto ch_cdev set_chan set_crypto event_buffers g_sequence_counter g_stats].
  destruct (install_session_key _ _ _ _) as [[[ret e2] c2]| |]; [|done|done].
  by destruct (negb (ret =? 0)%Z).
Qed.
End turns.

Section race_facts.
Context (hmac_sha256 : list byte -> list byte -> list byte).
Context (hmac_length : forall k m, length (hmac_sha256 k m) = 32%nat).
Context (aead_encrypt : list byte -> list byte -> list byte -> list byte).
Context (aead_length : forall k n p,
  length (aead_encrypt k n p) = (length p + PHOTON_TAG_SIZE)%nat).
Context (event : photon_event) (Hwf : packed_wf event).
Context (ch0 : channel) (Hinv0 : channel_inv hmac_sha256 ch0)
  (Hkey0 : g_key_set (ch_crypto ch0) = true).
Abbreviation r0 := (g_rotation_counter (ch_crypto ch0)).
Abbreviation r1 := (u64 (r0 + 1)).
Abbreviation key := (session_key hmac_sha256 (g_master_key (ch_crypto ch0))).

(** The number and the key in force at each point of the rotation. *)
Definition numbered (r : rotator) : Z := match r with ToBump => r0 | _ => r1 end.
Definition keyed_as (r : rotator) : Z := match r with Rotated _ => r1 | _ => r0 end.

Definition rotator_ok (r : rotator) (ch : channel) : Prop :=
  let c := ch_crypto ch in
  can_seal c /\ crypto_mutex c = false /\ stat_range (g_encryptions c) /\
  g_master_key c = g_master_key (ch_crypto ch0) /\
  g_session_key c = key (keyed_as r) /\ g_rotation_counter c = numbered r /\
  match r with
  | ToBump => True
  | ToDerive n => n = r1
  | ToInstall n k => n = r1 /\ k = key r1
  | Rotated res => res = inr r1
  end.

(** What the sender has done so far: [a] is the number it has read, [k] the
    rotation of the key it has sealed under. *)
Definition sender_ok (a k : Z) (s : sender) (d : cdev_state) : Prop :=
  match s with
  | ToLabel => d = ch_cdev ch0
  | ToSeal rot => d = ch_cdev ch0 /\ rot = a
  | Sent ret => ret = 0%Z /\ exists nonce, length nonce = PHOTON_IV_SIZE /\
      accepts (event_frame aead_encrypt (key k) nonce a event) ch0 (set_cdev d ch0)
  end.

Definition race_ok (a k : Z) (x : race) : Prop :=
  rotator_ok (rotating x) (between x) /\ ring_inv (g_ring (ch_cdev (between x))) /\
  sender_ok a k (sending x) (ch_cdev (between x)).

(** Where a turn leads. *)
Definition sender_next (s : sender) (r : rotator) : sender :=
  match s with ToLabel => ToSeal (numbered r) | _ => Sent 0 end.
Definition label_next (a : Z) (s : sender) (r : rotator) : Z :=
  match s with ToLabel => numbered r | _ => a end.
Definition key_next (k : Z) (s : sender) (r : rotator) : Z :=
  match s with ToSeal _ => keyed_as r | _ => k end.
Definition rotator_next (r : rotator) : rotator :=
  match r with
  | ToBump => ToDerive r1
  | ToDerive _ => ToInstall r1 (key r1)
  | _ => Rotated (inr r1)
  end.

Lemma send_turn_spec a k s r e ch :
  race_ok a k (mk_race s r ch) -> no_fail e ->
  wp (send_turn aead_encrypt event s) (fun s' e' ch' =>
    no_fail e' /\ s' = sender_next s r /\ race_ok (label_next a s r) (key_next k s r) (mk_race s' r ch')) e ch.
Proof using aead_length Hwf.
  intros ((Hc & Hm & He & Hmk & Hsk & Hn & Hr) & Hring & Hs) Hnf. cbn [rotating between sending] in *.
  destruct s as [|rot|ret]; cbn [send_turn].
  - wp_steps. unfold photon_has_key. pose proof Hc as (? & Hset & ?). rewrite Hset. cbn in Hs |- *.
    unfold photon_get_rotation_number. rewrite Hn. split_and!; done.
  - destruct Hs as [Hd ->]. wp_step. eapply wp_mono; [by apply send_labelled_spec|].
    intros ret e' ch' (Hr' & (_ & He' & _) & _ & H0 & H1). wp_step.
    destruct (decide (ret = 0%Z)) as [->|Hz]; [|by destruct (H1 Hz) as [_ []]].
    destruct (H0 eq_refl) as (Hb & nonce & Hlen & Hacc). split; [by apply He'|]. split; [done|].
    unfold race_ok, rotator_ok. cbn [rotating between sending]. rewrite Hb. split_and!; try done.
    + apply u64_stat.
    + split; [done|]. exists nonce. split; [done|]. cbn [key_next label_next]. rewrite <- Hsk.
      unfold accepts, ch_frames in *. by rewrite Hd in Hacc.
  - wp_step. pose proof Hs as [-> _]. by split_and!.
Qed.

Lemma rotate_turn_spec a k s r e ch :
  race_ok a k (mk_race s r ch) -> no_fail e ->
  wp (rotate_turn hmac_sha256 r) (fun r' e' ch' =>
    no_fail e' /\ r' = rotator_next r /\ race_ok a k (mk_race s r' ch')) e ch.
Proof using hmac_length.
  intros ((Hc & Hm & He & Hmk & Hsk & Hn & Hr) & Hring & Hs) Hnf. cbn [rotating between sending] in *.
  destruct r as [|n|n q|res]; cbn [rotate_turn]; destruct Hc as (Hl & Hset & Ht).
  all: unfold race_ok, rotator_ok; cbn [rotating between sending numbered keyed_as rotator_next] in *.
  - wp_steps. cbn [g_rotation_counter ch_crypto set_crypto set_rotation]. rewrite Hn. split_and!; done.
  - wp_step. apply wp_zoom. eapply wp_mono; [by apply derive_session_key_spec|].
    intros res e' c' (-> & (_ & He' & _) & Hres). destruct res as [err|q]; [by destruct Hres|]. wp_step.
    unfold can_seal. rewrite Hres, Hr. cbn [ch_crypto ch_cdev set_crypto]. rewrite Hmk.
    split_and!; try done. by apply He'.
  - destruct Hr as [-> ->]. wp_step. apply wp_zoom.
    eapply wp_mono; [by eapply install_session_key_spec|].
    intros ret e' c' (-> & (_ & He' & _) & ->). wp_step. split_and!; try done. by apply He'.
  - wp_step. rewrite Hr in *. by split_and!.
Qed.

Lemma race_start_ok a k : race_ok a k (mk_race ToLabel ToBump ch0).
Proof using Hinv0 Hkey0.
  destruct Hinv0 as [Hc Hr]. pose proof Hc as (Hm & Hl & Hn & He & Hko). destruct (Hko Hkey0) as [Hs Ht].
  split_and!; done.
Qed.

Lemma race_from_ok x :
  race_from hmac_sha256 aead_encrypt event ch0 x ->
  exists a k, race_ok a k x /\ (a = r0 \/ a = numbered (rotating x)) /\
    (k = r0 \/ k = keyed_as (rotating x)).
Proof using hmac_length aead_length Hwf Hinv0 Hkey0.
  induction 1 as [|x y _ (a & k & IH & Ha & Hk) Hstep].
  { exists r0, r0. split; [apply race_start_ok|]. split; by left. }
  destruct Hstep as [e e' s s' r ch ch' Hnf Hrun|e e' s r r' ch ch' Hnf Hrun]; cbn [rotating] in *.
  - destruct (run_wp _ _ _ _ _ _ _ Hrun (send_turn_spec a k s r e ch IH Hnf)) as (_ & _ & Hok).
    exists (label_next a s r), (key_next k s r). split; [exact Hok|]. destruct s; cbn; tauto.
  - destruct (run_wp _ _ _ _ _ _ _ Hrun (rotate_turn_spec a k s r e ch IH Hnf)) as (_ & -> & Hok).
    exists a, k. split; [exact Hok|]. destruct r; cbn in *; tauto.
Qed.

(** Both can always be run to their end. *)
Definition calm : env := mk_env [] [] [] 0 [] (mk_task 0 EmptyString).

Lemma race_send_turn a k s r ch :
  let x := mk_race s r ch in
  race_from hmac_sha256 aead_encrypt event ch0 x -> race_ok a k x ->
  exists ch', let y := mk_race (sender_next s r) r ch' in
    race_from hmac_sha256 aead_encrypt event ch0 y /\ race_ok (label_next a s r) (key_next k s r) y.
Proof using aead_length Hwf.
  intros x Hx Hok. assert (Hnf : no_fail calm) by apply Forall_nil_2.
  destruct (wp_run _ _ _ _ (send_turn_spec a k s r calm ch Hok Hnf)) as (s' & e' & ch' & Hrun & _ & -> & Hok').
  exists ch'. split; [|exact Hok']. eapply race_next; [exact Hx|]. by eapply race_send.
Qed.

Lemma race_rotate_turn a k s r ch :
  let x := mk_race s r ch in
  race_from hmac_sha256 aead_encrypt event ch0 x -> race_ok a k x ->
  exists ch', let y := mk_race s (rotator_next r) ch' in
    race_from hmac_sha256 aead_encrypt event ch0 y /\ race_ok a k y.
Proof using hmac_length.
  intros x Hx Hok. assert (Hnf : no_fail calm) by apply Forall_nil_2.
  destruct (wp_run _ _ _ _ (rotate_turn_spec a k s r calm ch Hok Hnf)) as (r' & e' & ch' & Hrun & _ & -> & Hok').
  exists ch'. split; [|exact Hok']. eapply race_next; [exact Hx|]. by eapply race_rotate.
Qed.

Lemma race_completes : exists ch,
  race_from hmac_sha256 aead_encrypt event ch0 (mk_race (Sent 0) (Rotated (inr r1)) ch).
Proof using hmac_length aead_length Hwf Hinv0 Hkey0.
  pose proof (race_start hmac_sha256 aead_encrypt event ch0) as H0.
  destruct (race_send_turn r0 r0 _ _ _ H0 (race_start_ok r0 r0)) as (ch1 & H1 & K1).
  destruct (race_rotate_turn _ _ _ _ _ H1 K1) as (ch2 & H2 & K2).
  destruct (race_rotate_turn _ _ _ _ _ H2 K2) as (ch3 & H3 & K3).
  destruct (race_rotate_turn _ _ _ _ _ H3 K3) as (ch4 & H4 & K4).
  destruct (race_send_turn _ _ _ _ _ H4 K4) as (ch5 & H5 & K5). by exists ch5.
Qed.

(** C21. Whatever the interleaving of a send with a rotation that meets no failing kernel call: once both are done the send has returned 0, the keys are those of the next rotation and consistent again, and exactly one frame was handed to the ring, labelled with the old or the new rotation number and sealed under the session key of the old or the new rotation. *)
Theorem send_during_rotation x ret res :
  race_from hmac_sha256 aead_encrypt event ch0 x ->
  sending x = Sent ret -> rotating x = Rotated res ->
  ret = 0%Z /\ res = inr r1 /\ channel_inv hmac_sha256 (between x) /\
  g_rotation_counter (ch_crypto (between x)) = r1 /\
  g_session_key (ch_crypto (between x)) = key r1 /\
  exists a k nonce, length nonce = PHOTON_IV_SIZE /\ (a = r0 \/ a = r1) /\ (k = r0 \/ k = r1) /\
    accepts (event_frame aead_encrypt (key k) nonce a event) ch0 (between x).
Proof using hmac_length aead_length Hwf Hinv0 Hkey0.
  intros Hx Hs Hr. destruct (race_from_ok x Hx) as (a & k & Hok & Ha & Hk).
  destruct Hok as (((Hl & Hset & Ht) & Hm & He & Hmk & Hsk & Hn & Hres) & Hring & Hsend).
  rewrite Hs in Hsend. rewrite Hr in *. cbn in *. destruct Hsend as (-> & nonce & Hlen & Hacc).
  subst res. split_and!; try done.
  - unfold channel_inv, crypto_inv, keys_ok. rewrite Hn, Hsk, Hmk. split_and!; try done; [apply u64_stat..|apply He|apply He|].
    intros _. split; [done|]. by rewrite Ht, Hsk.
  - by exists a, k, nonce.
Qed.

(** The send begins before the rotation and seals after it; the send takes
    place between the new number and the new key. *)
Definition label_rotate_seal : M channel (sender * rotator) :=
  s ← send_turn aead_encrypt event ToLabel;
  r ← rotate_alone hmac_sha256;
  s ← send_turn aead_encrypt event s;
  mret (s, r).
Definition bump_send_install : M channel (sender * rotator) :=
  r ← rotate_turn hmac_sha256 ToBump;
  s ← send_alone aead_encrypt event;
  r ← rotate_turn hmac_sha256 r;
  r ← rotate_turn hmac_sha256 r;
  mret (s, r).

Ltac race_turn :=
  lazymatch goal with
  | |- wp (_ ≫= _) _ _ _ => apply wp_bind
  | |- wp (mret _) _ _ _ => apply wp_ret
  | H : race_ok ?a ?k (mk_race ?s ?r ?ch), Hnf : no_fail ?e |- wp ?m _ ?e ?ch =>
      lazymatch m with
      | send_turn _ _ _ =>
          eapply wp_mono; [exact (send_turn_spec a k s r e ch H Hnf)|]
      | rotate_turn _ _ =>
          eapply wp_mono; [exact (rotate_turn_spec a k s r e ch H Hnf)|]
      end;
      clear H Hnf; intros ? ? ? (Hnf & -> & H);
      cbn [sender_next rotator_next label_next key_next numbered keyed_as] in H |- *
  end.

(** C22. A frame can carry the number of one rotation and be sealed under the key of another, in both directions: when the rotation number is read before a rotation and the event is sealed after it, the frame is labelled old and sealed under the new key; when the event is sent between the increment of the counter and the installation of the key, it is labelled new and sealed under the old key. *)
Theorem rotation_mislabels_frames e :
  no_fail e ->
  wp label_rotate_seal (fun x _ ch => x = (Sent 0, Rotated (inr r1)) /\
    exists nonce, accepts (event_frame aead_encrypt (key r1) nonce r0 event) ch0 ch) e ch0 /\
  wp bump_send_install (fun x _ ch => x = (Sent 0, Rotated (inr r1)) /\
    exists nonce, accepts (event_frame aead_encrypt (key r0) nonce r1 event) ch0 ch) e ch0.
Proof using hmac_length aead_length Hwf Hinv0 Hkey0.
  intros Hnf. pose proof (race_start_ok r0 r0) as H0.
  split; unfold label_rotate_seal, bump_send_install, rotate_alone, send_alone.
  - repeat race_turn. split; [done|]. destruct H0 as (_ & _ & _ & nonce & _ & Hacc). by exists nonce.
  - repeat race_turn. split; [done|]. destruct H0 as (_ & _ & _ & nonce & _ & Hacc). by exists nonce.
Qed.
End race_facts.
