(* ===== verification/LogSession.v ===== *)
(** * Sequences of logged events
    What a detector's calls of [photon_log_event] amount to over time: the
    types of the events handed to the channel, and the sequence numbers by
    which the server can tell that none is missing. *)
From Stdlib Require Import ZArith Lia.
From Stdlib Require Import Strings.Byte Strings.String.
From stdpp Require Import base numbers list option.
From S2P Require Import Prelude Kernel Events Ring Crypto Cdev EventManager.

(** The arguments of a call. *)
Record log_call := mk_log_call {
  lc_type : Z; lc_detector : Z; lc_severity : Z; lc_data : option (list byte); lc_len : Z;
}.
Definition call_ok (c : log_call) : Prop :=
  log_data_ok (lc_data c) (lc_len c) /\ (u16 (lc_len c) <= Z.of_nat PHOTON_MAX_EVENT_DATA)%Z.

(** An event as the packed struct: each field in the range of its C type, its
    image as long as [sizeof], and the image determines it. *)
Definition event_typed (ev : photon_event) : Prop :=
  packed_wf ev /\ length (pack ev) = 306%nat /\
  forall rest, unpack (pack ev ++ rest) = Some (ev, rest).

Lemma wf_typed ev : packed_wf ev -> event_typed ev.
Proof.
  intros Hwf. split_and!; [done|exact (length_pack ev Hwf)|]. intros rest. by apply unpack_pack.
Qed.

Section sessions.
Context (hmac_sha256 : list byte -> list byte -> list byte).
Context (aead_encrypt : list byte -> list byte -> list byte -> list byte).
Context (aead_length : forall k n p,
  length (aead_encrypt k n p) = (length p + PHOTON_TAG_SIZE)%nat).
Abbreviation minv := (manager_inv hmac_sha256).

Definition log (c : log_call) : M manager Z :=
  photon_log_event aead_encrypt (lc_type c) (lc_detector c) (lc_severity c) (lc_data c) (lc_len c).
Fixpoint log_all (cs : list log_call) : M manager unit :=
  match cs with
  | [] => mret tt
  | c :: cs => log c ;; log_all cs
  end.

Lemma pending_wf m : minv m -> Forall packed_wf (pending m).
Proof.
  intros (_ & Hb & _). unfold pending. induction (event_buffers m) as [|b bs IH]; [constructor|].
  apply Forall_cons_iff in Hb as [(_ & Hw & _) Hb]. rewrite fmap_cons. cbn [concat].
  apply Forall_app_2; auto.
Qed.

(** C26. Every event that photon_log_event hands to the channel, the new one and those that waited, is well typed: each field fits its C type, the packed image is exactly 306 bytes, and parsing the image gives the event back; and the buffers hold well-typed events only. *)
Theorem logged_events_well_typed c e m :
  minv m -> call_ok c ->
  wp (log c) (fun r e' m' =>
    r = 0%Z /\ Forall packed_wf (pending m') /\
    exists evs n k, deliver aead_encrypt evs (chan m) n k (chan m') /\
      (length evs = S (length (pending m)))%nat /\ Forall event_typed evs) e m.
Proof using aead_length.
  intros Hinv [Hd Hl]. eapply wp_mono; [by eapply log_event_spec|].
  intros r e' m' (Hi & _ & -> & _ & ts & Hts & _ & _ & _ & _ & evs & n & k & Hevs & Hdel & _).
  split; [done|]. split; [by apply pending_wf|]. exists evs, n, k. split; [done|].
  change (pending (set_sequence _ m)) with (pending m) in Hevs. split.
  - apply Permutation_length in Hevs. rewrite Hevs, length_app. simpl. lia.
  - rewrite Hevs. apply Forall_app_2.
    + eapply List.Forall_impl; [apply wf_typed|by apply pending_wf].
    + apply Forall_singleton, wf_typed, make_event_wf; [apply u64_stat|done|apply u16_range].
Qed.

Lemma log_all_spec cs e m :
  minv m -> drained m -> Forall call_ok cs ->
  wp (log_all cs) (fun _ e' m' =>
    minv m' /\ drained m' /\ env_rel 0 e e' /\
    g_sequence_counter m' = u64 (g_sequence_counter m + Z.of_nat (length cs)) /\
    exists evs n k, deliver aead_encrypt evs (chan m) n k (chan m') /\
      (no_fail e -> k = 0%nat) /\ length evs = length cs /\
      forall i ev, evs !! i = Some ev ->
        sequence_num ev = u64 (g_sequence_counter m + 1 + Z.of_nat i)) e m.
Proof using aead_length.
  revert e m. induction cs as [|c cs IH]; intros e m Hinv Hdr Hcs; cbn [log_all].
  { wp_steps. pose proof Hinv as (_ & _ & Hs & _). rewrite Z.add_0_r. split_and!; try done.
    - apply env_rel_refl.
    - symmetry. apply wrap_small. exact Hs.
    - exists [], 0%nat, 0%nat. split_and!; try done. constructor. }
  apply Forall_cons_iff in Hcs as [[Hd Hl] Hcs]. wp_step.
  eapply wp_mono; [by eapply log_event_spec|].
  intros r e1 m1 (Hi1 & He1 & _ & _ & ts & Hts & Hdr1 & Hq1 & _ & _ & evs & n & k & Hevs & Hdel & Hk & _).
  change (pending (set_sequence _ m)) with (pending m) in Hevs.
  rewrite (pending_drained m Hdr), Permutation_app_comm in Hevs. simpl in Hevs.
  apply Permutation_singleton_r in Hevs as ->.
  eapply wp_mono; [by apply IH|].
  intros [] e2 m2 (Hi2 & Hdr2 & He2 & Hq2 & evs2 & n2 & k2 & Hdel2 & Hk2 & Hlen2 & Hseq2).
  cbn [g_sequence_counter set_sequence] in Hq1. split_and!; try done; [env_solve| |].
  { rewrite Hq2, Hq1. unfold u64, wrap. rewrite Zplus_mod_idemp_l. f_equal. simpl. lia. }
  eexists (_ :: evs2)%list, (n + n2)%nat, (k + k2)%nat. split; [exact (deliver_app _ [_] _ _ _ _ _ _ _ _ Hdel Hdel2)|].
  split; [|split].
  - intros Hnf. rewrite Hk, Hk2; [done|by apply He1|done].
  - simpl. by rewrite Hlen2.
  - intros [|i] ev; cbn.
    + intros [= <-]. cbn. f_equal. lia.
    + intros Hlk. rewrite (Hseq2 _ _ Hlk), Hq1. unfold u64, wrap.
      rewrite <- Z.add_assoc, Zplus_mod_idemp_l. f_equal. lia.
Qed.

(** C27. The events of any number of calls of photon_log_event, one after another, reach the channel in the order of the calls, one per call, numbered consecutively modulo 2^64 from the counter on; with no failing kernel call none is counted as failed, and two of them carry the same number only after 2^64 events. *)
Theorem sequence_numbers_gapless cs e m :
  minv m -> drained m -> Forall call_ok cs ->
  wp (log_all cs) (fun _ e' m' =>
    exists evs n k, deliver aead_encrypt evs (chan m) n k (chan m') /\
      (no_fail e -> k = 0%nat) /\ length evs = length cs /\
      (forall i ev, evs !! i = Some ev ->
        sequence_num ev = u64 (g_sequence_counter m + 1 + Z.of_nat i)) /\
      (forall i j ev ev', evs !! i = Some ev -> evs !! j = Some ev' ->
        (Z.abs (Z.of_nat i - Z.of_nat j) < 2 ^ 64)%Z -> sequence_num ev = sequence_num ev' -> i = j)) e m.
Proof using aead_length.
  intros Hinv Hdr Hcs. eapply wp_mono; [by apply log_all_spec|].
  intros [] e' m' (_ & _ & _ & _ & evs & n & k & Hdel & Hk & Hlen & Hseq).
  exists evs, n, k. split_and!; try done.
  intros i j ev ev' Hi Hj Hd. rewrite (Hseq _ _ Hi), (Hseq _ _ Hj). unfold u64, wrap. intros E.
  pose proof (Z.div_mod (g_sequence_counter m + 1 + Z.of_nat i) (2 ^ 64) ltac:(lia)) as Ei.
  pose proof (Z.div_mod (g_sequence_counter m + 1 + Z.of_nat j) (2 ^ 64) ltac:(lia)) as Ej.
  rewrite E in Ei. nia.
Qed.
End sessions.
