(* ===== verification/Interleaving.v ===== *)
(** * Interleavings on the device
    The channel as a transition system: senders, the reader, openers and the
    key ioctl take their turns in any order.  Each operation is one step: the
    ring is only touched under its spinlock and the opener's flag under a
    mutex; a send cut into smaller steps is in [Rotation], a read in
    [ReadRace].  [reachable] closes the state the
    module starts from under these steps; its invariant is proved by rule
    induction. *)
From Stdlib Require Import ZArith Lia.
From Stdlib Require Import Strings.Byte Strings.String.
From stdpp Require Import base numbers list option.
From S2P Require Import Prelude Kernel Events Ring Crypto Cdev.

Inductive device_op :=
  | OpSend (event : photon_event)
  | OpRead (count : Z)
  | OpOpen (cap_sys_admin : bool)
  | OpRelease
  | OpSetKey (key : list byte).

Section device.
Context (hmac_sha256 : list byte -> list byte -> list byte).
Context (aead_encrypt : list byte -> list byte -> list byte -> list byte).

(** The operation an [op] stands for, its result left aside. *)
Definition run_op (op : device_op) : M channel unit :=
  match op with
  | OpSend ev => photon_send_encrypted_event aead_encrypt ev ;; mret tt
  | OpRead count => on_cdev (photon_cdev_read count) ;; mret tt
  | OpOpen cap => on_cdev (photon_cdev_open cap) ;; mret tt
  | OpRelease => on_cdev photon_cdev_release ;; mret tt
  | OpSetKey key => on_crypto (photon_set_encryption_key hmac_sha256 (Some key)) ;; mret tt
  end.

(** The events the module sends are those of [photon_log_event]. *)
Definition op_allowed (op : device_op) : Prop :=
  match op with OpSend ev => packed_wf ev | _ => True end.

Definition channel_start : M channel Z :=
  r ← on_crypto crypto_layer_init;
  if negb (Z.eqb r 0) then mret r else on_cdev cdev_channel_init.

(** States the operations lead to, whatever the kernel calls in them return. *)
Inductive reachable : channel -> Prop :=
  | reach_start e e' ch :
      channel_start e (mk_channel crypto_initial cdev_initial) = Ret (0%Z, e', ch) -> reachable ch
  | reach_step op e e' ch ch' :
      reachable ch -> op_allowed op -> run_op op e ch = Ret (tt, e', ch') -> reachable ch'.

Context (hmac_length : forall k m, length (hmac_sha256 k m) = 32%nat).
Context (aead_length : forall k n p,
  length (aead_encrypt k n p) = (length p + PHOTON_TAG_SIZE)%nat).

(** A frame as it is read: the length of its body, and the body. *)
Definition frame_exact (f : list byte) : Prop :=
  length f = PHOTON_FRAME_SLOT_SIZE /\ le_decode (take 4 f) = Z.of_nat PHOTON_FRAME_BODY_MAX.

Lemma event_frame_exact key nonce rot ev :
  packed_wf ev -> length nonce = PHOTON_IV_SIZE ->
  frame_exact (event_frame aead_encrypt key nonce rot ev).
Proof using aead_length.
  intros Hwf Hn. split; [by apply (length_event_frame aead_encrypt aead_length)|].
  unfold event_frame. rewrite (take_app_length' (le_encode 4 _)) by (by rewrite length_le_encode).
  by rewrite le_decode_encode.
Qed.

(** What every reachable state satisfies. *)
Record device_inv (ch : channel) : Prop := {
  inv_crypto : crypto_inv hmac_sha256 (ch_crypto ch);
  inv_tfm : is_Some (g_tfm (ch_crypto ch));
  inv_ring : ring_inv (g_ring (ch_cdev ch));
  inv_capacity : rb_capacity (g_ring (ch_cdev ch)) = PHOTON_RING_BUF_FRAMES;
  inv_dropped : (0 <= rb_dropped (g_ring (ch_cdev ch)) < 2 ^ 32)%Z;
  inv_frames : Forall frame_exact (ch_frames ch);
  inv_mutex : g_open_mutex (ch_cdev ch) = false;
}.

(** A read leaves the ring alone or takes its first frame. *)
Lemma read_ring count e st r e' st' :
  ring_inv (g_ring st) -> photon_cdev_read count e st = Ret (r, e', st') ->
  g_open_mutex st' = g_open_mutex st /\
  (g_ring st' = g_ring st \/
   exists f, ring_frames (g_ring st) = f :: ring_frames (g_ring st') /\ ring_inv (g_ring st') /\
     rb_dropped (g_ring st') = rb_dropped (g_ring st) /\
     rb_capacity (g_ring st') = rb_capacity (g_ring st)).
Proof.
  intros Hinv. unfold photon_cdev_read, mbind at 1, M_bind at 1.
  destruct (ring_buf_empty (g_ring st)) eqn:Hemp; [destruct (g_shutting_down st) eqn:Hsd|].
  - rewrite wait_readable_now by (by right). unfold mbind, M_bind, get. cbn -[Z.of_nat PHOTON_FRAME_SLOT_SIZE]. rewrite Hsd.
    intros [= <- <- <-]. by split; [|left].
  - rewrite wait_readable_sleeps by done. destruct (env_rets e) as [|c cs]; [done|].
    destruct (Z.eqb_spec c 0) as [->|Hc]; [done|]. rewrite (proj2 (Z.eqb_neq c 0)) by done.
    intros [= <- <- <-]. by split; [|left].
  - rewrite wait_readable_now by (by left). unfold mbind, M_bind, get. cbn -[Z.of_nat PHOTON_FRAME_SLOT_SIZE on_ring ring_buf_pop_locked].
    destruct (g_shutting_down st); [intros [= <- <- <-]; by split; [|left]|].
    destruct (ring_frames (g_ring st)) as [|f fs] eqn:Hfr.
    { destruct Hinv as (sl & Hs & Hok & _). unfold ring_frames in Hfr. rewrite Hs in Hfr.
      apply fmap_nil_inv, (ring_empty_iff sl) in Hfr; [|done]. unfold ring_buf_empty in Hemp. congruence. }
    destruct (ring_pop_spec f fs e _ Hinv Hfr) as (rb' & Hp & Hinv' & Hfr' & Hd & Hc).
    unfold on_ring, zoom. rewrite Hp. unfold modify, kcall, mret, M_ret. cbn -[Z.of_nat PHOTON_FRAME_SLOT_SIZE].
    assert (Hgoal : forall s, g_ring s = rb' -> g_open_mutex s = g_open_mutex st ->
      g_open_mutex s = g_open_mutex st /\
      (g_ring s = g_ring st \/ exists f0, f :: fs = f0 :: ring_frames (g_ring s) /\ ring_inv (g_ring s) /\
        rb_dropped (g_ring s) = rb_dropped (g_ring st) /\ rb_capacity (g_ring s) = rb_capacity (g_ring st))).
    { intros s -> ->. split; [done|]. right. exists f. by rewrite Hfr'. }
    repeat match goal with |- context [if ?b then _ else _] => destruct b end;
      try (destruct (env_rets e)); repeat match goal with |- context [if ?b then _ else _] => destruct b end;
      intros [= <- <- <-]; by apply Hgoal.
Qed.

Lemma run_then {S A} (m : M S A) e s e' s' :
  (m ;; mret tt) e s = Ret (tt, e', s') -> exists a, m e s = Ret (a, e', s').
Proof.
  unfold mbind, M_bind. destruct (m e s) as [[[a e1] s1]| |]; [|done|done].
  intros [= <- <-]. by exists a.
Qed.

Lemma on_cdev_run {A} (m : M cdev_state A) e ch a e' ch' :
  on_cdev m e ch = Ret (a, e', ch') ->
  exists st, m e (ch_cdev ch) = Ret (a, e', st) /\ ch' = set_cdev st ch.
Proof.
  unfold on_cdev, zoom. destruct (m e (ch_cdev ch)) as [[[a1 e1] s1]| |]; [|done|done].
  intros [= <- <- <-]. by exists s1.
Qed.

Lemma step_inv op e e' ch ch' :
  device_inv ch -> op_allowed op -> run_op op e ch = Ret (tt, e', ch') -> device_inv ch'.
Proof using hmac_length aead_length.
  intros [Hc Ht Hr Hcap Hd Hf Hm] Hop Hrun.
  destruct op as [ev|count|cap| |key]; cbn [run_op] in Hrun; apply run_then in Hrun as (a & Hrun).
  - destruct (g_key_set (ch_crypto ch)) eqn:Hk.
    2:{ rewrite send_no_key in Hrun by done. injection Hrun as <- <- <-. by split. }
    pose proof (run_wp _ _ _ _ _ _ _ Hrun (send_spec hmac_sha256 aead_encrypt aead_length ev e ch
      (conj Hc Hr) Hk Hop)) as ([Hc' Hr'] & _ & (_ & Hm' & _) & H0 & H1).
    destruct (decide (a = 0%Z)) as [Ha|Ha]; [|by destruct (H1 Ha) as [-> _]].
    destruct (H0 Ha) as (Hcr & nonce & Hn & Hcap' & Hacc). split; try done.
    + by rewrite Hcr.
    + by rewrite Hcap'.
    + destruct (ring_buf_full _); destruct Hacc as [_ ->]; [apply wrap_range; lia|done].
    + destruct (ring_buf_full _); destruct Hacc as [-> _]; [done|].
      apply Forall_app_2; [done|]. constructor; [|done]. by apply event_frame_exact.
    + by rewrite Hm'.
  - apply on_cdev_run in Hrun as (st & Hrun & ->).
    destruct (read_ring _ _ _ _ _ _ Hr Hrun) as [Hm' [Hsame|(f & Hfr & Hr' & Hd' & Hc')]]; split; cbn; try done;
      unfold ch_frames in *; cbn in *; rewrite ?Hsame, ?Hm', ?Hd', ?Hc'; try done.
    rewrite Hfr in Hf. by apply Forall_cons_iff in Hf as [_ Hf].
  - apply on_cdev_run in Hrun as (st & Hrun & ->). destruct cap.
    + rewrite open_exclusive in Hrun by done.
      destruct (g_is_open (ch_cdev ch)); injection Hrun as <- <- <-; by split.
    + injection Hrun as <- <- <-. by split.
  - apply on_cdev_run in Hrun as (st & Hrun & ->). rewrite release_spec in Hrun by done.
    injection Hrun as <- <- <-. by split.
  - unfold on_crypto, zoom in Hrun. destruct Ht as [t Ht].
    destruct (photon_set_encryption_key hmac_sha256 (Some key) e (ch_crypto ch)) as [[[r e1] c1]| |] eqn:E;
      [|done|done].
    pose proof (run_wp _ _ _ _ _ _ _ E (set_encryption_key_spec hmac_sha256 hmac_length key t e _ Hc Ht))
      as (Hc' & _ & Ht' & _).
    injection Hrun as <- <- <-. by split.
Qed.

Lemma start_inv e e' ch :
  channel_start e (mk_channel crypto_initial cdev_initial) = Ret (0%Z, e', ch) ->
  device_inv ch /\ ch_frames ch = [] /\ rb_dropped (g_ring (ch_cdev ch)) = 0%Z.
Proof.
  intros Hrun. assert (Hwp : wp channel_start (fun r _ ch => r = 0%Z ->
      device_inv ch /\ ch_frames ch = [] /\ rb_dropped (g_ring (ch_cdev ch)) = 0%Z) e
    (mk_channel crypto_initial cdev_initial)).
  { unfold channel_start, on_crypto, on_cdev. do 2 wp_step.
    eapply wp_mono; [apply crypto_layer_init_spec|]. intros r e1 c (H0 & H1). wp_steps; [done|].
    destruct (H0 ltac:(done)) as [_ ->].
    eapply wp_mono; [apply cdev_channel_init_spec|]. intros r2 e2 st (H2 & _) Hr2.
    destruct (H2 Hr2) as (_ & Hri & Hrf & Hcap & _ & Hm & Hd).
    split; [split; cbn; try done; [by rewrite Hd|]|by split]. unfold ch_frames. cbn. by rewrite Hrf. }
  by apply (run_wp _ _ _ _ _ _ _ Hrun Hwp).
Qed.

Lemma reachable_inv ch : reachable ch -> device_inv ch.
Proof using hmac_length aead_length.
  induction 1 as [e e' ch H|op e e' ch ch' _ IH Hop H]; [by eapply (start_inv _ _ _ H)|by eapply step_inv].
Qed.

(** C14. In every state the device can reach by any interleaving of sends, reads of any size, opens, releases and key installations, with any kernel call failing: the ring's indices stay inside its 256 slots, at most 255 frames wait, each of them exactly 356 bytes of which the first four say how many follow, the drop counter is a u32, and neither the open mutex nor the crypto locks are left held. *)
Theorem device_stays_in_bounds ch :
  reachable ch ->
  (0 <= rb_head (g_ring (ch_cdev ch)) < 256)%Z /\ (0 <= rb_tail (g_ring (ch_cdev ch)) < 256)%Z /\
  (length (ch_frames ch) <= 255)%nat /\
  Forall (fun f => length f = 356%nat /\ le_decode (take 4 f) = 352%Z) (ch_frames ch) /\
  (0 <= rb_dropped (g_ring (ch_cdev ch)) < 2 ^ 32)%Z /\
  g_open_mutex (ch_cdev ch) = false /\
  crypto_mutex (ch_crypto ch) = false /\ crypto_enc_lock (ch_crypto ch) = false.
Proof using hmac_length aead_length.
  intros [(Hmx & Hl & _) Ht Hr Hcap Hd Hf Hm]%reachable_inv.
  pose proof (bq_bound (Q := photon_ring_buf) _ Hr) as Hb. cbn in Hb. rewrite Hcap in Hb.
  destruct Hr as (sl & _ & (_ & _ & Hh & Htl) & _). rewrite Hcap in Hh, Htl.
  unfold PHOTON_RING_BUF_FRAMES in *. split_and!; first [done|lia|exact Hb|exact Hf].
Qed.
End device.
