(* ===== verification/DeviceHistory.v ===== *)
(** * What comes out of the device
    The device as a channel between those who send events and those who read
    frames: [session] records, over the operations of [Interleaving] one at a
    time in any order and with any kernel call failing, the events sent while
    a key was set, the sends that failed, and every read that took a frame out
    of the ring, with the size of its buffer, what it returned and whether a
    call of it could fail.  [delivers] says what such a read makes of its
    frame: the whole frame, the start of it, or an error and nothing.  Reads
    that overlap are in [ReadRace]. *)
From Stdlib Require Import ZArith Lia.
From Stdlib Require Import Strings.Byte Strings.String.
From stdpp Require Import base numbers list option.
From S2P Require Import Prelude Kernel Events Ring Crypto Cdev EventManager Interleaving.

(** A read that consumed a frame: the size of the caller's buffer, whether
    all the kernel calls of it succeed, the code returned and the bytes. *)
Record read_record := mk_read_record {
  rd_count : Z;
  rd_calls_ok : bool;
  rd_ret : Z;
  rd_bytes : list byte;
}.

Record tally := mk_tally {
  sent : list photon_event;
  failed_sends : nat;
  reads : list read_record;
}.
Definition nothing_yet : tally := mk_tally [] 0 [].

Section history.
Context (hmac_sha256 : list byte -> list byte -> list byte).
Context (aead_encrypt : list byte -> list byte -> list byte -> list byte).
Abbreviation send := (photon_send_encrypted_event aead_encrypt).

(** A send counts if a key is set; [r] is what it returned. *)
Definition count_send (keyed : bool) (ev : photon_event) (r : Z) (t : tally) : tally :=
  if keyed then mk_tally (sent t ++ [ev]) (if Z.eqb r 0 then failed_sends t else S (failed_sends t)) (reads t)
  else t.
(** A read that returns for a signal or at the shutdown took no frame; every
    other one did. *)
Definition count_read (count : Z) (e : env) (r : Z * list byte) (t : tally) : tally :=
  if Z.eqb r.1 (- EINTR) || Z.eqb r.1 (- EIO) then t
  else mk_tally (sent t) (failed_sends t)
         (reads t ++ [mk_read_record count (forallb (Z.eqb 0) (env_rets e)) r.1 r.2]).

(** What a read makes of the frame it took: as much of it as the buffer
    holds; nothing if the buffer has no room for the length prefix; nothing
    if the copy to the caller fails. *)
Definition delivers (rd : read_record) (f : list byte) : Prop :=
  if (rd_count rd <? 4)%Z then rd_ret rd = (- EINVAL)%Z /\ rd_bytes rd = []
  else
    (rd_ret rd = Z.min (Z.of_nat (length f)) (u32 (rd_count rd)) /\
     rd_bytes rd = take (Z.to_nat (u32 (rd_count rd))) f) \/
    (rd_ret rd = (- EFAULT)%Z /\ rd_bytes rd = [] /\ rd_calls_ok rd = false).

Definition passive (op : device_op) : bool :=
  match op with OpOpen _ | OpRelease | OpSetKey _ => true | _ => false end.

Inductive session : tally -> channel -> Prop :=
  | session_start e e' ch :
      channel_start e (mk_channel crypto_initial cdev_initial) = Ret (0%Z, e', ch) ->
      session nothing_yet ch
  | session_send t ev e r e' ch ch' :
      session t ch -> packed_wf ev -> send ev e ch = Ret (r, e', ch') ->
      session (count_send (g_key_set (ch_crypto ch)) ev r t) ch'
  | session_read t count e r e' ch ch' :
      session t ch -> on_cdev (photon_cdev_read count) e ch = Ret (r, e', ch') ->
      session (count_read count e r t) ch'
  | session_other t op e e' ch ch' :
      session t ch -> passive op = true ->
      run_op hmac_sha256 aead_encrypt op e ch = Ret (tt, e', ch') -> session t ch'.

Context (hmac_length : forall k m, length (hmac_sha256 k m) = 32%nat).
Context (aead_length : forall k n p,
  length (aead_encrypt k n p) = (length p + PHOTON_TAG_SIZE)%nat).
Abbreviation device_inv := (device_inv hmac_sha256).

(** [f] is [ev] sealed under some key, labelled with some rotation. *)
Definition carries (f : list byte) (ev : photon_event) : Prop :=
  exists key nonce rot, length nonce = PHOTON_IV_SIZE /\ f = event_frame aead_encrypt key nonce rot ev.

Definition history_ok (t : tally) (ch : channel) : Prop :=
  exists taken accepted, accepted `sublist_of` sent t /\
    Forall2 delivers (reads t) taken /\
    Forall2 carries (taken ++ ch_frames ch) accepted /\
    (failed_sends t + length accepted <= length (sent t))%nat /\
    rb_dropped (g_ring (ch_cdev ch)) =
      u32 (Z.of_nat (length (sent t)) - Z.of_nat (failed_sends t) - Z.of_nat (length accepted)).

Lemma send_history ev e r e' ch ch' t :
  device_inv ch -> packed_wf ev -> send ev e ch = Ret (r, e', ch') -> history_ok t ch ->
  history_ok (count_send (g_key_set (ch_crypto ch)) ev r t) ch'.
Proof using aead_length.
  intros Hi Hev Hrun (taken & acc & Hsub & Hrd & Hc & Hle & Hd). destruct Hi as [Hcr _ Hr _ Hdr _ _].
  destruct (g_key_set (ch_crypto ch)) eqn:Hk; cbn [count_send].
  2:{ rewrite send_no_key in Hrun by done. injection Hrun as <- <- <-. by exists taken, acc. }
  pose proof (run_wp _ _ _ _ _ _ _ Hrun (send_spec hmac_sha256 aead_encrypt aead_length ev e ch
    (conj Hcr Hr) Hk Hev)) as (_ & _ & _ & H0 & H1).
  destruct (Z.eqb_spec r 0) as [Hz|Hz].
  - destruct (H0 Hz) as (_ & nonce & Hn & _ & Hacc). destruct (ring_buf_full _).
    + destruct Hacc as [Hf Hdr']. exists taken, acc. cbn [sent failed_sends reads].
      rewrite Hf, Hdr', Hd, length_app. cbn [length]. split_and!; [|done|done|lia|].
      * by apply sublist_inserts_r.
      * unfold u32, wrap. rewrite Zplus_mod_idemp_l. f_equal. lia.
    + destruct Hacc as [Hf Hdr']. exists taken, (acc ++ [ev]). cbn [sent failed_sends reads].
      rewrite Hf, Hdr', Hd, !length_app. cbn [length]. split_and!; [|done|rewrite app_assoc|lia|f_equal; lia].
      * by apply sublist_app.
      * apply Forall2_app; [done|]. constructor; [|constructor]. by eexists _, nonce, _.
  - destruct (H1 Hz) as [-> _]. exists taken, acc. cbn [sent failed_sends reads]. rewrite length_app.
    cbn [length]. split_and!; [by apply sublist_inserts_r|done|done|lia|]. rewrite Hd. f_equal. lia.
Qed.

(** On an empty ring only a signal makes a read return. *)
Lemma read_nothing count e st r e' st' :
  ring_inv (g_ring st) -> g_shutting_down st = false -> ring_frames (g_ring st) = [] ->
  photon_cdev_read count e st = Ret (r, e', st') -> r = ((- EINTR)%Z, []) /\ st' = st.
Proof.
  intros (sl & Hs & Hok & _) Hsd Hfr. unfold ring_frames in Hfr. rewrite Hs in Hfr.
  apply fmap_nil_inv, (ring_empty_iff sl) in Hfr; [|done].
  unfold photon_cdev_read, mbind at 1, M_bind at 1. rewrite wait_readable_sleeps by done.
  destruct (env_rets e) as [|c cs]; [done|]. destruct (Z.eqb_spec c 0) as [->|Hc]; [done|].
  rewrite (proj2 (Z.eqb_neq c 0)) by done. by intros [= <- <- <-].
Qed.

Lemma calls_ok_no_fail e : forallb (Z.eqb 0) (env_rets e) = true -> no_fail e.
Proof.
  unfold no_fail. induction (env_rets e) as [|r rs IH]; [done|]. cbn.
  intros [E H]%andb_prop. constructor; [by destruct r|by apply IH].
Qed.

(** A read that finds a frame takes it and delivers what it can. *)
Lemma read_delivers f fs count e st r e' st' :
  ring_inv (g_ring st) -> g_shutting_down st = false -> ring_frames (g_ring st) = f :: fs ->
  photon_cdev_read count e st = Ret (r, e', st') ->
  ring_frames (g_ring st') = fs /\ Z.eqb r.1 (- EINTR) || Z.eqb r.1 (- EIO) = false /\
  delivers (mk_read_record count (forallb (Z.eqb 0) (env_rets e)) r.1 r.2) f.
Proof.
  intros Hr Hsd Hfr Hrun. unfold delivers. cbn [rd_count rd_ret rd_bytes rd_calls_ok].
  destruct (Z.ltb_spec count 4) as [Hc|Hc].
  - by destruct (run_wp _ _ _ _ _ _ _ Hrun (read_short f fs count e st Hr Hsd Hfr Hc)) as [-> ?].
  - pose proof (wrap_range 32 count) as Hu. fold (u32 count) in Hu.
    destruct (run_wp _ _ _ _ _ _ _ Hrun (read_spec f fs count e st Hr Hsd Hfr Hc))
      as (_ & ? & _ & _ & [-> | [-> Hf]]); cbn [fst snd]; (split; [done|]).
    + split; [apply orb_false_iff; split; apply Z.eqb_neq; unfold EINTR, EIO; lia|]. left. split; [done|].
      destruct (Z.min_spec (Z.of_nat (length f)) (u32 count)) as [[? ->]|[? ->]]; [|done].
      rewrite !take_ge; [done|lia|lia].
    + split; [done|]. right. split_and!; try done. apply not_true_is_false.
      by intros ?%calls_ok_no_fail.
Qed.

Lemma read_history count e r e' ch ch' t :
  device_inv ch -> on_cdev (photon_cdev_read count) e ch = Ret (r, e', ch') -> history_ok t ch ->
  history_ok (count_read count e r t) ch'.
Proof.
  intros Hi (st & Hrun & ->)%on_cdev_run (taken & acc & Hsub & Hrd & Hc & Hle & Hd).
  destruct Hi as [_ _ Hr _ _ _ _]. unfold ch_frames in *.
  destruct (g_shutting_down (ch_cdev ch)) eqn:Hsd.
  { rewrite read_shutdown in Hrun by done. injection Hrun as <- <- <-. by exists taken, acc. }
  destruct (ring_frames (g_ring (ch_cdev ch))) as [|f fs] eqn:Hframes.
  { destruct (read_nothing _ _ _ _ _ _ Hr Hsd Hframes Hrun) as [-> ->]. exists taken, acc.
    unfold ch_frames. cbn [ch_cdev set_cdev]. by rewrite Hframes. }
  destruct (read_delivers _ _ _ _ _ _ _ _ Hr Hsd Hframes Hrun) as (Hfs & Hret & Hdel).
  assert (rb_dropped (g_ring st) = rb_dropped (g_ring (ch_cdev ch))) as Hd'.
  { destruct (read_ring _ _ _ _ _ _ Hr Hrun) as [_ [->|(f' & _ & _ & -> & _)]]; done. }
  unfold count_read. rewrite Hret. exists (taken ++ [f]), acc.
  unfold ch_frames. cbn [sent failed_sends reads ch_cdev set_cdev]. rewrite Hfs, Hd', <- app_assoc.
  split_and!; try done. by apply Forall2_app; [|constructor].
Qed.

Lemma passive_history op e e' ch ch' t :
  device_inv ch -> passive op = true ->
  run_op hmac_sha256 aead_encrypt op e ch = Ret (tt, e', ch') -> history_ok t ch -> history_ok t ch'.
Proof using hmac_length.
  intros [Hc [tfm Ht] _ _ _ _ Hm] Hop Hrun (taken & acc & Hh). exists taken, acc.
  assert (g_ring (ch_cdev ch') = g_ring (ch_cdev ch)) as Hring.
  { destruct op as [| |cap| |key]; try done; cbn [run_op] in Hrun; apply run_then in Hrun as (a & Hrun).
    - apply on_cdev_run in Hrun as (st & Hrun & ->). destruct cap.
      + rewrite open_exclusive in Hrun by done.
        by destruct (g_is_open (ch_cdev ch)); injection Hrun as <- <- <-.
      + by injection Hrun as <- <- <-.
    - apply on_cdev_run in Hrun as (st & Hrun & ->). rewrite release_spec in Hrun by done.
      by injection Hrun as <- <- <-.
    - unfold on_crypto, zoom in Hrun.
      destruct (photon_set_encryption_key _ _ _ _) as [[[r e1] c1]| |]; by inversion Hrun. }
  unfold ch_frames in *. by rewrite Hring.
Qed.

Lemma session_ok t ch : session t ch -> reachable hmac_sha256 aead_encrypt ch /\ history_ok t ch.
Proof using hmac_length aead_length.
  induction 1 as [e e' ch Hs|t ev e r e' ch ch' _ [Hre Hh] Hev Hrun|t count e r e' ch ch' _ [Hre Hh] Hrun
    |t op e e' ch ch' _ [Hre Hh] Hop Hrun];
    try pose proof (reachable_inv hmac_sha256 aead_encrypt hmac_length aead_length ch Hre) as Hi.
  - split; [by eapply reach_start|]. exists [], [].
    destruct (start_inv hmac_sha256 _ _ _ Hs) as (_ & -> & ->). by split_and!.
  - split; [|by eapply send_history]. eapply (reach_step _ _ (OpSend ev)); [exact Hre|exact Hev|].
    cbn [run_op]. unfold mbind, M_bind. by rewrite Hrun.
  - split; [|by eapply read_history]. eapply (reach_step _ _ (OpRead count)); [exact Hre|done|].
    cbn [run_op]. unfold mbind, M_bind. by rewrite Hrun.
  - split; [|by eapply passive_history]. eapply reach_step; [exact Hre| |exact Hrun]. by destruct op.
Qed.

(** C15. Sends, reads with a buffer of any size, opens, releases and key installations, one at a time in any order and with any kernel call failing: the frames the reads took, followed by those that wait in the ring, carry a subsequence of the events sent under a key, in the order they were sent, each frame holding one of them sealed whole - nothing is reordered, repeated or made up.  Each read that took a frame returned as much of it as its buffer holds, the rest of the frame being gone; or -EINVAL and nothing, if it had no room for the four bytes of the length; or -EFAULT and nothing, only if a kernel call failed.  The reads that took no frame are those ended by a signal or the shutdown.  Of the events sent under a key and not refused for a failed kernel call, those that are in no frame are counted in the ring's drop counter modulo 2^32. *)
Theorem device_is_fifo t ch :
  session t ch ->
  exists taken accepted, accepted `sublist_of` sent t /\
    Forall2 carries (taken ++ ch_frames ch) accepted /\
    Forall2 delivers (reads t) taken /\
    rb_dropped (g_ring (ch_cdev ch)) =
      u32 (Z.of_nat (length (sent t)) - Z.of_nat (failed_sends t) - Z.of_nat (length accepted)).
Proof using hmac_length aead_length.
  intros [_ (taken & acc & Hsub & Hrd & Hc & _ & Hd)]%session_ok. by exists taken, acc.
Qed.
End history.
