(* ===== verification/ReadRace.v ===== *)
(** * Two reads at the same time
    [photon_cdev_open] lets one file at a time be open, but the threads of its
    owner can read from it together.  [photon_cdev_read] waits, takes a frame
    under the ring's lock into the one static buffer [g_read_staging], and
    copies from there with no lock held: [read_turn] are these three pieces,
    which [read_alone_eq] puts together again. *)
From Stdlib Require Import ZArith Lia.
From Stdlib Require Import Strings.Byte Strings.String.
From stdpp Require Import base numbers list option.
From S2P Require Import Prelude Kernel Events Ring Crypto Cdev.

Inductive reader :=
  | ToWait
  | ToPop
  | ToCopy (frame_len : Z)
  | Read (ret : Z) (out : list byte).

Definition read_turn (count : Z) (r : reader) : M cdev_state reader :=
  match r with
  | ToWait =>
      ret ← wait_readable;
      if negb (Z.eqb ret 0) then mret (Read (- EINTR) []) else
      st ← get;
      mret (if g_shutting_down st then Read (- EIO) [] else ToPop)
  | ToPop =>
      popped ← on_ring (ring_buf_pop_locked (Z.of_nat PHOTON_FRAME_SLOT_SIZE));
      modify (fun st => set_staging (overwrite popped.2 (g_read_staging st)) st) ;;
      mret (if Z.eqb popped.1 0 then Read 0 [] else
            if (count <? 4)%Z then Read (- EINVAL) [] else
            ToCopy (Z.min popped.1 (u32 count)))
  | ToCopy frame_len =>
      r ← kcall;                                        (* copy_to_user *)
      st ← get;
      let out := take (Z.to_nat frame_len) (g_read_staging st) in
      modify (set_staging (zeros PHOTON_FRAME_SLOT_SIZE)) ;;
      mret (if negb (Z.eqb r 0) then Read (- EFAULT) [] else Read frame_len out)
  | Read ret out => mret (Read ret out)
  end.

Definition read_alone (count : Z) : M cdev_state reader :=
  r ← read_turn count ToWait; r ← read_turn count r; read_turn count r.

Lemma read_alone_eq count e st :
  read_alone count e st = (r ← photon_cdev_read count; mret (Read r.1 r.2)) e st.
Proof.
  unfold read_alone, photon_cdev_read, read_turn, mbind, M_bind, get, modify, mret, M_ret.
  destruct (wait_readable e st) as [[[ret e1] st1]| |]; [|done|done].
  destruct (negb (ret =? 0)%Z); [done|]. destruct (g_shutting_down st1); [done|].
  destruct (on_ring _ _ _) as [[[[n f] e2] st2]| |]; [|done|done]. cbn [fst snd].
  destruct (n =? 0)%Z; [done|]. destruct (count <? 4)%Z; [done|].
  destruct (kcall _ _) as [[[r e3] st3]| |]; [|done|done].
  by destruct (negb (r =? 0)%Z).
Qed.

Section facts.
Context (count : Z) (enough : (Z.of_nat PHOTON_FRAME_SLOT_SIZE <= count < 2 ^ 32)%Z).
Definition whole (f : list byte) : Prop := length f = PHOTON_FRAME_SLOT_SIZE.

Lemma slot_positive : (4 < Z.of_nat PHOTON_FRAME_SLOT_SIZE)%Z.
Proof. done. Qed.

Lemma wait_turn f fs e st :
  ring_inv (g_ring st) -> ring_frames (g_ring st) = f :: fs -> g_shutting_down st = false ->
  read_turn count ToWait e st = Ret (ToPop, e, st).
Proof.
  intros Hr Hf Hsd. destruct (ring_frames_nonempty _ _ _ Hr Hf) as [_ Hne].
  cbn [read_turn]. unfold mbind, M_bind. rewrite wait_readable_now by (by left). cbn. by rewrite Hsd.
Qed.

Lemma pop_turn f fs e st :
  ring_inv (g_ring st) -> ring_frames (g_ring st) = f :: fs -> whole f ->
  wp (read_turn count ToPop) (fun r e' st' =>
    r = ToCopy (Z.of_nat PHOTON_FRAME_SLOT_SIZE) /\ e' = e /\
    g_read_staging st' = overwrite f (g_read_staging st) /\
    ring_inv (g_ring st') /\ ring_frames (g_ring st') = fs /\
    g_shutting_down st' = g_shutting_down st) e st.
Proof using enough.
  intros Hr Hf Hw. destruct (ring_pop_spec f fs e _ Hr Hf) as (rb' & Hp & Hr' & Hf' & _ & _).
  pose proof slot_positive. cbn [read_turn]. wp_steps. eapply wp_eq; [exact Hp|]. wp_steps.
  cbn [fst snd]. rewrite Hw. rewrite (proj2 (Z.eqb_neq _ _)), (proj2 (Z.ltb_ge _ _)) by lia.
  unfold u32. rewrite wrap_small, Z.min_l by lia. split_and!; done.
Qed.

Lemma pop_turn_empty e st :
  ring_inv (g_ring st) -> ring_frames (g_ring st) = [] ->
  wp (read_turn count ToPop) (fun r e' st' => r = Read 0 [] /\ e' = e /\
    g_read_staging st' = g_read_staging st /\ g_ring st' = g_ring st) e st.
Proof.
  intros Hr Hf. cbn [read_turn]. wp_steps. eapply wp_eq; [exact (ring_pop_empty _ e _ Hr Hf)|]. by wp_steps.
Qed.

Lemma copy_turn n e st :
  no_fail e ->
  wp (read_turn count (ToCopy n)) (fun r e' st' =>
    r = Read n (take (Z.to_nat n) (g_read_staging st)) /\ no_fail e' /\
    g_read_staging st' = zeros PHOTON_FRAME_SLOT_SIZE /\ g_ring st' = g_ring st /\
    g_shutting_down st' = g_shutting_down st) e st.
Proof.
  intros Hnf. cbn [read_turn]. wp_steps. rewrite H0 by done. cbn [Z.eqb negb].
  split_and!; try done. by apply H.
Qed.

(** A reader takes its frame, another one reads from beginning to end, and
    the first one copies. *)
Definition read_inside_read : M cdev_state (reader * reader) :=
  a ← read_turn count ToWait;
  a ← read_turn count a;
  b ← read_alone count;
  a ← read_turn count a;
  mret (a, b).
(** Both find the ring nonempty before one of them takes the frame. *)
Definition both_wake : M cdev_state (reader * reader) :=
  a ← read_turn count ToWait;
  b ← read_turn count ToWait;
  a ← read_turn count a;
  b ← read_turn count b;
  a ← read_turn count a;
  mret (a, b).

(** One read after the other, for comparison. *)
Definition read_twice : M cdev_state (reader * reader) :=
  a ← read_alone count; b ← read_alone count; mret (a, b).

(** The staging buffer starts with the frame that was taken into it. *)
Lemma staged f dst : whole f -> take (Z.to_nat (Z.of_nat PHOTON_FRAME_SLOT_SIZE)) (overwrite f dst) = f.
Proof. intros Hw. unfold whole in Hw. rewrite Nat2Z.id, <- Hw. apply take_overwrite. Qed.

Lemma read_alone_turns f fs e st :
  ring_inv (g_ring st) -> ring_frames (g_ring st) = f :: fs -> whole f ->
  g_shutting_down st = false -> no_fail e ->
  wp (read_alone count) (fun r e' st' =>
    r = Read (Z.of_nat PHOTON_FRAME_SLOT_SIZE) f /\ no_fail e' /\
    g_read_staging st' = zeros PHOTON_FRAME_SLOT_SIZE /\ ring_inv (g_ring st') /\
    ring_frames (g_ring st') = fs /\ g_shutting_down st' = false) e st.
Proof using enough.
  intros Hr Hf Hw Hsd Hnf. unfold read_alone.
  apply wp_bind. eapply wp_eq; [by eapply wait_turn|].
  apply wp_bind. eapply wp_mono; [by eapply pop_turn|].
  intros r e1 st1 (-> & -> & Hst & Hr1 & Hf1 & Hsd1). cbv beta.
  eapply wp_mono; [by apply copy_turn|]. intros r e2 st2 (-> & Hnf2 & Hz & Hring & Hsd2).
  rewrite Hst, staged, Hring, Hsd2, Hsd1 by done. by split_and!.
Qed.

(** C23. Two whole frames wait and two threads of the opener read with a buffer
    large enough.  One after the other they get one frame each.  When the
    second reads while the first is between taking its frame and copying it,
    the staging buffer both share is overwritten and wiped under the first:
    the first read succeeds with nothing but zeros, and its frame is gone
    from the ring without having been delivered. *)
Theorem overlapping_reads f1 f2 fs e st :
  ring_inv (g_ring st) -> ring_frames (g_ring st) = f1 :: f2 :: fs -> whole f1 -> whole f2 ->
  g_shutting_down st = false -> no_fail e ->
  let n := Z.of_nat PHOTON_FRAME_SLOT_SIZE in
  wp read_twice (fun x _ st' => x = (Read n f1, Read n f2) /\ ring_frames (g_ring st') = fs) e st /\
  wp read_inside_read (fun x _ st' =>
    x = (Read n (zeros PHOTON_FRAME_SLOT_SIZE), Read n f2) /\ ring_frames (g_ring st') = fs) e st.
Proof using enough.
  intros Hr Hf Hw1 Hw2 Hsd Hnf n. split.
  - apply wp_bind. eapply wp_mono; [by eapply read_alone_turns|].
    intros a e1 st1 (-> & Hnf1 & _ & Hr1 & Hf1 & Hsd1). cbv beta.
    apply wp_bind. eapply wp_mono; [by eapply read_alone_turns|].
    intros b e2 st2 (-> & _ & _ & _ & Hf2 & _). cbv beta. by apply wp_ret.
  - apply wp_bind. eapply wp_eq; [by eapply wait_turn|].
    apply wp_bind. eapply wp_mono; [by eapply pop_turn|].
    intros r e1 st1 (-> & -> & _ & Hr1 & Hf1 & Hsd1). cbv beta. rewrite Hsd in Hsd1.
    apply wp_bind. eapply wp_mono; [by eapply read_alone_turns|].
    intros b e2 st2 (-> & Hnf2 & Hz & Hr2 & Hf2 & Hsd2). cbv beta.
    apply wp_bind. eapply wp_mono; [by apply copy_turn|].
    intros a e3 st3 (-> & _ & _ & Hring & _). cbv beta. apply wp_ret.
    rewrite Hring, Hz. split; [|done]. unfold n. rewrite Nat2Z.id.
    by rewrite take_ge by (by rewrite length_zeros).
Qed.

(** Two readers that both found the one frame there: the one that comes
    second leaves with 0, the end of file the code says cannot happen. *)
Lemma second_reader_empty f e st :
  ring_inv (g_ring st) -> ring_frames (g_ring st) = [f] -> whole f ->
  g_shutting_down st = false -> no_fail e ->
  wp both_wake (fun x _ st' =>
    x = (Read (Z.of_nat PHOTON_FRAME_SLOT_SIZE) f, Read 0 [])) e st.
Proof using enough.
  intros Hr Hf Hw Hsd Hnf.
  apply wp_bind. eapply wp_eq; [by eapply wait_turn|].
  apply wp_bind. eapply wp_eq; [by eapply wait_turn|].
  apply wp_bind. eapply wp_mono; [by eapply pop_turn|].
  intros a e1 st1 (-> & -> & Hst & Hr1 & Hf1 & _). cbv beta.
  apply wp_bind. eapply wp_mono; [by apply pop_turn_empty|].
  intros b e2 st2 (-> & -> & Hst2 & Hring). cbv beta.
  apply wp_bind. eapply wp_mono; [by apply copy_turn|].
  intros a e3 st3 (-> & _). cbv beta. apply wp_ret. by rewrite Hst2, Hst, staged.
Qed.
End facts.
