(* ===== verification/WaitQueue.v ===== *)
(** * Readers that wait
    [wait_event_interruptible] of [photon_cdev_read] and [wake_up_interruptible]
    of the senders and of [cdev_channel_exit], over several readers at once:
    [wait_turn] cuts a read where another task can come in between - the first
    test of the condition, the entry into the queue [g_read_wq], the test after
    it, the sleep, the test of [g_shutting_down], and the pieces of
    [ReadRace.read_turn] behind it.  A wake-up is the count
    [g_read_wq_wakeups]: a reader that went to sleep at count [seen] can run
    again when the count has moved on, or for a signal; before that it has no
    turn.  The steps of the system are the turns of the readers and the
    operations on the device, the tear-down included, in any order. *)
From Stdlib Require Import ZArith Lia.
From Stdlib Require Import Strings.Byte Strings.String.
From stdpp Require Import base numbers list option.
From S2P Require Import Prelude Kernel Events Ring Crypto Cdev Interleaving ReadRace.

(** The condition of the wait. *)
Definition readable (st : cdev_state) : bool :=
  negb (ring_buf_empty (g_ring st)) || g_shutting_down st.

Inductive phase :=
  | Calling
  | Preparing
  | Queued (seen : Z) (signal : bool)
  | Asleep (seen : Z)
  | Woken
  | Past (r : reader).

(** A turn of a reader that sleeps and has no wake-up since is no turn: it
    ends in [Deadlock]. *)
Definition wait_turn (count : Z) (p : phase) : M cdev_state phase :=
  match p with
  | Calling => st ← get; mret (if readable st then Woken else Preparing)
  | Preparing =>
      signal ← kcall;                                 (* signal_pending *)
      st ← get;
      mret (Queued (g_read_wq_wakeups st) (negb (Z.eqb signal 0)))
  | Queued seen signal =>
      st ← get;
      mret (if readable st then Woken
            else if signal then Past (Read (- EINTR) []) else Asleep seen)
  | Asleep seen =>
      signal ← kcall;
      st ← get;
      if negb (Z.eqb signal 0) || negb (Z.eqb (g_read_wq_wakeups st) seen)
      then mret (Queued (g_read_wq_wakeups st) (negb (Z.eqb signal 0)))
      else deadlock
  | Woken =>
      st ← get;
      mret (Past (if g_shutting_down st then Read (- EIO) [] else ToPop))
  | Past r => r' ← read_turn count r; mret (Past r')
  end.

Definition waiting (p : phase) : bool := match p with Past _ => false | _ => true end.

(** One reader alone does what [Cdev.wait_readable] says: it is through at
    once, or a signal ends its wait, or it sleeps. *)
Lemma turns_alone count e st :
  if readable st
  then wait_turn count Calling e st = Ret (Woken, e, st) /\ wait_readable e st = Ret (0%Z, e, st)
  else (p ← wait_turn count Calling; p ← wait_turn count p; wait_turn count p) e st =
    match wait_readable e st with
    | Ret (_, e', st') => Ret (Past (Read (- EINTR) []), e', st')
    | _ => Ret (Asleep (g_read_wq_wakeups st), set_rets (tail (env_rets e)) e, st)
    end.
Proof.
  unfold wait_readable, wait_turn, readable, mbind, M_bind, get, mret, M_ret, kcall, deadlock.
  destruct (negb (ring_buf_empty (g_ring st)) || g_shutting_down st) eqn:Hc; [done|].
  destruct (env_rets e) as [|r rs] eqn:Hr; cbn.
  - rewrite Hc. by destruct e; cbn in *; subst.
  - rewrite Hc. by destruct (Z.eqb r 0).
Qed.

Record system := mk_system {
  device : channel;
  readers : list (Z * phase);
}.

(** Who takes a step: the device, or reader [i] in environment [e]. *)
Inductive action := Device | Turn (i : nat) (e : env).

Section waiting.
Context (hmac_sha256 : list byte -> list byte -> list byte).
Context (aead_encrypt : list byte -> list byte -> list byte -> list byte).

Definition is_read (op : device_op) : bool := match op with OpRead _ => true | _ => false end.

(** Sends, opens, releases and key installations, the tear-down, a new call of
    [read] with room for [count] bytes, and a reader's turn. *)
Inductive step : action -> system -> system -> Prop :=
  | step_op op e e' ch ch' rs :
      is_read op = false -> op_allowed op -> run_op hmac_sha256 aead_encrypt op e ch = Ret (tt, e', ch') ->
      step Device (mk_system ch rs) (mk_system ch' rs)
  | step_exit e e' ch ch' rs :
      on_cdev cdev_channel_exit e ch = Ret (tt, e', ch') ->
      step Device (mk_system ch rs) (mk_system ch' rs)
  | step_read ch rs count :
      step Device (mk_system ch rs) (mk_system ch (rs ++ [(count, Calling)]))
  | step_turn ch rs i count p e p' e' st' :
      rs !! i = Some (count, p) -> wait_turn count p e (ch_cdev ch) = Ret (p', e', st') ->
      step (Turn i e) (mk_system ch rs) (mk_system (set_cdev st' ch) (<[i := (count, p')]> rs)).

Inductive steps : list action -> system -> system -> Prop :=
  | steps_refl s : steps [] s s
  | steps_cons a acts s1 s2 s3 : step a s1 s2 -> steps acts s2 s3 -> steps (a :: acts) s1 s3.

Inductive reached : system -> Prop :=
  | reached_start e e' ch :
      channel_start e (mk_channel crypto_initial cdev_initial) = Ret (0%Z, e', ch) ->
      reached (mk_system ch [])
  | reached_step a s s' : reached s -> step a s s' -> reached s'.

(** The turns of reader [i] in a run; that no other reader has one; that a
    kernel call of reader [i] fails. *)
Definition turn_of (i : nat) (a : action) : bool :=
  match a with Turn j _ => (i =? j)%nat | Device => false end.
Definition turns (i : nat) (acts : list action) : nat := length (List.filter (turn_of i) acts).
Definition only (i : nat) (a : action) : Prop := match a with Turn j _ => j = i | Device => True end.
Definition failing (i : nat) (a : action) : Prop :=
  match a with Turn j e => j = i /\ ~ no_fail e | Device => False end.

(** What no step undoes: the shutdown stays announced, wake-ups are counted
    up, and what was not readable becomes readable only with a wake-up. *)
Definition heeds (st st' : cdev_state) : Prop :=
  (g_shutting_down st = true -> g_shutting_down st' = true) /\
  (g_read_wq_wakeups st <= g_read_wq_wakeups st')%Z /\
  (g_read_wq_wakeups st' = g_read_wq_wakeups st -> readable st' = true -> readable st = true).

Lemma heeds_refl st : heeds st st.
Proof. by split_and!. Qed.
Lemma heeds_same st st' :
  g_shutting_down st' = g_shutting_down st -> g_read_wq_wakeups st' = g_read_wq_wakeups st ->
  ring_buf_empty (g_ring st') = ring_buf_empty (g_ring st) -> heeds st st'.
Proof. unfold heeds, readable. intros -> -> ->. split_and!; [done|lia|done]. Qed.
Hint Resolve heeds_refl : core.

Lemma push_same f n e rb r e' rb' :
  ring_buf_push f n e rb = Ret (r, e', rb') ->
  (r = (- ENOSPC)%Z /\ ring_buf_empty rb' = ring_buf_empty rb) \/ r = 0%Z.
Proof.
  unfold ring_buf_push, mbind, M_bind, get, fault, put, mret, M_ret.
  destruct (Z.eqb _ 0); [done|]. destruct (ring_buf_full rb); [intros [= <- <- <-]; by left|].
  destruct (slots rb) as [sl|]; [|done]. destruct (sl !! _); [|done]. destruct (decide _); [done|].
  intros [= <- <- <-]. by right.
Qed.

(** A send that puts a frame into the ring counts a wake-up; any other leaves
    the readers' condition as it was. *)
Lemma send_labelled_heeds rot ev e ch r e' ch' :
  send_labelled aead_encrypt rot ev e ch = Ret (r, e', ch') -> heeds (ch_cdev ch) (ch_cdev ch').
Proof.
  unfold send_labelled, on_crypto, on_cdev, on_ring, zoom, mbind, M_bind, modify, mret, M_ret, fault. cbn beta iota zeta.
  destruct (photon_encrypt_event _ _ _ _ _) as [[[[r1 m] e1] c1]| |]; [|done|done]. cbn [fst snd].
  destruct (negb (r1 =? 0)%Z); [by intros [= <- <- <-]|].
  destruct (decide _); [done|]. destruct (_ <? _)%Z; [by intros [= <- <- <-]|]. cbn [set_crypto ch_cdev].
  destruct (ring_buf_push _ _ _ _) as [[[r2 e2] rb]| |] eqn:Hp; [|done|done].
  destruct (push_same _ _ _ _ _ _ _ Hp) as [[-> He]| ->]; cbn; intros [= <- <- <-].
  - by apply heeds_same.
  - split_and!; cbn; [done|lia|lia].
Qed.

Lemma send_heeds ev e ch r e' ch' :
  photon_send_encrypted_event aead_encrypt ev e ch = Ret (r, e', ch') -> heeds (ch_cdev ch) (ch_cdev ch').
Proof.
  unfold photon_send_encrypted_event, mbind at 1, M_bind at 1, get.
  destruct (negb _); [by intros [= <- <- <-]|]. apply send_labelled_heeds.
Qed.

Lemma open_ring cap e st r e' st' :
  photon_cdev_open cap e st = Ret (r, e', st') ->
  g_ring st' = g_ring st /\ g_shutting_down st' = g_shutting_down st /\
  g_read_wq_wakeups st' = g_read_wq_wakeups st /\ g_read_staging st' = g_read_staging st.
Proof.
  unfold photon_cdev_open, lock_open, unlock_open, mutex_lock, mutex_unlock, mbind, M_bind, get, modify, mret, M_ret, deadlock.
  destruct cap; cbn; [|by intros [= <- <- <-]]. destruct (g_open_mutex st); [done|]. cbn.
  by destruct (g_is_open st); intros [= <- <- <-].
Qed.
Lemma release_ring e st r e' st' :
  photon_cdev_release e st = Ret (r, e', st') ->
  g_ring st' = g_ring st /\ g_shutting_down st' = g_shutting_down st /\
  g_read_wq_wakeups st' = g_read_wq_wakeups st /\ g_read_staging st' = g_read_staging st.
Proof.
  unfold photon_cdev_release, lock_open, unlock_open, mutex_lock, mutex_unlock, mbind, M_bind, get, modify, mret, M_ret, deadlock.
  destruct (g_open_mutex st); [done|]. cbn. by intros [= <- <- <-].
Qed.

(** An operation that is neither a send nor a read leaves the ring alone. *)
Lemma passive_ring op e ch e' ch' :
  is_read op = false -> (forall ev, op <> OpSend ev) ->
  run_op hmac_sha256 aead_encrypt op e ch = Ret (tt, e', ch') ->
  g_ring (ch_cdev ch') = g_ring (ch_cdev ch) /\
  g_shutting_down (ch_cdev ch') = g_shutting_down (ch_cdev ch) /\
  g_read_wq_wakeups (ch_cdev ch') = g_read_wq_wakeups (ch_cdev ch) /\
  g_read_staging (ch_cdev ch') = g_read_staging (ch_cdev ch).
Proof.
  intros Hop Hns Hrun.
  destruct op as [ev|count|cap| |key]; [by destruct (Hns ev)|done|..]; cbn [run_op] in Hrun;
    apply run_then in Hrun as (a & Hrun).
  - apply on_cdev_run in Hrun as (st & Hrun & ->). by apply open_ring in Hrun.
  - apply on_cdev_run in Hrun as (st & Hrun & ->). by apply release_ring in Hrun.
  - unfold on_crypto, zoom in Hrun.
    destruct (photon_set_encryption_key _ _ _ _) as [[[r e1] c1]| |]; [|done|done].
    by injection Hrun as <- <- <-.
Qed.

Lemma op_heeds op e ch e' ch' :
  is_read op = false -> run_op hmac_sha256 aead_encrypt op e ch = Ret (tt, e', ch') ->
  heeds (ch_cdev ch) (ch_cdev ch').
Proof.
  intros Hop Hrun. destruct op as [ev|count|cap| |key]; [|done|..].
  - cbn [run_op] in Hrun. apply run_then in Hrun as (a & Hrun). by eapply send_heeds.
  - destruct (passive_ring _ _ _ _ _ Hop ltac:(done) Hrun) as (Hr & Hs & Hw & _).
    apply heeds_same; [done|done|by rewrite Hr].
  - destruct (passive_ring _ _ _ _ _ Hop ltac:(done) Hrun) as (Hr & Hs & Hw & _).
    apply heeds_same; [done|done|by rewrite Hr].
  - destruct (passive_ring _ _ _ _ _ Hop ltac:(done) Hrun) as (Hr & Hs & Hw & _).
    apply heeds_same; [done|done|by rewrite Hr].
Qed.

Lemma exit_heeds e ch e' ch' :
  on_cdev cdev_channel_exit e ch = Ret (tt, e', ch') ->
  heeds (ch_cdev ch) (ch_cdev ch') /\ g_shutting_down (ch_cdev ch') = true.
Proof.
  intros (st & Hrun & ->)%on_cdev_run.
  unfold cdev_channel_exit, on_ring, zoom, mbind, M_bind, modify, kfree, ring_buf_free, get, put, mret, M_ret in Hrun.
  cbn in Hrun. unfold mbind, M_bind in Hrun. cbn in Hrun.
  destruct (slots (g_ring (ch_cdev ch))); injection Hrun as _ <-; split; try done; split_and!; cbn; [done|lia|lia|done|lia|lia].
Qed.

(** ** Turns *)

(** A sleeping reader has slept since a moment when there was nothing to read;
    [reader_ok] is what the count of wake-ups says of it now. *)
Definition reader_ok (st : cdev_state) (p : phase) : Prop :=
  match p with
  | Queued seen _ => (seen <= g_read_wq_wakeups st)%Z
  | Asleep seen =>
      (seen <= g_read_wq_wakeups st)%Z /\ (g_read_wq_wakeups st = seen -> readable st = false)
  | Past ToWait => False
  | _ => True
  end.

Lemma reader_ok_heeds st st' p : heeds st st' -> reader_ok st p -> reader_ok st' p.
Proof.
  intros (_ & Hw & Hr). destruct p as [| |seen sig|seen| |r]; cbn; [done|done|lia| |done|done].
  intros [Hs Hn]. split; [lia|]. intros E. destruct (readable st') eqn:Hst; [|done].
  by rewrite (Hn ltac:(lia)) in Hr; specialize (Hr ltac:(lia) eq_refl).
Qed.

(** The turns a waiting reader needs while there is something to read. *)
Definition wait_rank (p : phase) : nat :=
  match p with Preparing | Asleep _ => 3 | Calling | Queued _ _ => 2 | Woken => 1 | Past _ => 0 end.

Lemma wait_rank_waiting p : waiting p = true -> (1 <= wait_rank p <= 3)%nat.
Proof. destruct p; cbn; lia || done. Qed.

Lemma turn_waiting count p e st p' e' st' :
  waiting p = true -> reader_ok st p -> wait_turn count p e st = Ret (p', e', st') ->
  st' = st /\ reader_ok st p' /\
  (readable st = true -> S (wait_rank p') = wait_rank p /\
     (waiting p' = true \/ p' = Past (if g_shutting_down st then Read (- EIO) [] else ToPop))).
Proof.
  unfold wait_turn, mbind, M_bind, get, kcall, mret, M_ret, deadlock. intros Hp Hok.
  destruct p as [| |seen sig|seen| |r]; cbn in Hok.
  - destruct (readable st); intros [= <- <- <-]; split_and!; try done. intros _. by split; [|left].
  - destruct (env_rets e); intros [= <- <- <-]; cbn; (split_and!; [done|lia|by auto]).
  - destruct (readable st) eqn:Hr; [intros [= <- <- <-]; split_and!; try done; intros _; by split; [|left]|].
    destruct sig; intros [= <- <- <-]; by split_and!.
  - destruct (env_rets e); cbn; match goal with |- context [if ?b then _ else _] => destruct b end; try done; intros [= <- <- <-]; cbn;
      (split_and!; [done|lia|by auto]).
  - intros [= <- <- <-]. split_and!; [done|by destruct (g_shutting_down st)|]. intros _. by split; [|right].
  - done.
Qed.

(** A waiting reader can take a turn whenever there is something to read. *)
Lemma turn_runnable count p e st :
  waiting p = true -> reader_ok st p -> readable st = true ->
  exists p' e' st', wait_turn count p e st = Ret (p', e', st').
Proof.
  unfold wait_turn, mbind, M_bind, get, kcall, mret, M_ret. intros Hp Hok Hr.
  destruct p as [| |seen sig|seen| |r]; cbn in Hok; try (by eauto).
  - destruct (env_rets e); by eauto.
  - destruct Hok as [Hs Hn].
    assert (Z.eqb (g_read_wq_wakeups st) seen = false) as E.
    { apply Z.eqb_neq. intros E. by rewrite (Hn E) in Hr. }
    destruct (env_rets e); cbn -[orb Z.eqb]; rewrite E, orb_true_r; by eauto.
Qed.

Lemma pop_nothing n e rb x e' rb' :
  ring_buf_pop_locked n e rb = Ret (x, e', rb') -> ring_buf_empty rb = true -> rb' = rb.
Proof.
  unfold ring_buf_pop_locked, mbind, M_bind, get. intros Hp He. cbn -[Z.min] in Hp. rewrite He in Hp. by injection Hp as <- <- <-.
Qed.

(** The turn that takes a frame, the turn that copies it, and none after. *)
Lemma pop_turn_run count e st p' e' st' :
  wait_turn count (Past ToPop) e st = Ret (p', e', st') ->
  exists x rb, ring_buf_pop_locked (Z.of_nat PHOTON_FRAME_SLOT_SIZE) e (g_ring st) = Ret (x, e', rb) /\
    st' = set_staging (overwrite x.2 (g_read_staging st)) (set_ring rb st) /\
    p' = Past (if Z.eqb x.1 0 then Read 0 [] else if (count <? 4)%Z then Read (- EINVAL) []
               else ToCopy (Z.min x.1 (u32 count))).
Proof.
  unfold wait_turn, read_turn, on_ring, zoom, mbind, M_bind, modify, mret, M_ret.
  destruct (ring_buf_pop_locked _ _ _) as [[[x e1] rb]| |]; [|done|done].
  intros [= <- <- <-]. by exists x, rb.
Qed.

Lemma copy_turn_run count n e st p' e' st' :
  wait_turn count (Past (ToCopy n)) e st = Ret (p', e', st') ->
  st' = set_staging (zeros PHOTON_FRAME_SLOT_SIZE) st /\
  (p' = Past (Read n (take (Z.to_nat n) (g_read_staging st))) \/
   p' = Past (Read (- EFAULT) []) /\ ~ no_fail e).
Proof.
  unfold wait_turn, read_turn, no_fail, kcall, get, mbind, M_bind, modify, mret, M_ret.
  destruct (env_rets e) as [|r rs]; [intros [= <- <- <-]; split; [done|by left]|].
  destruct (Z.eqb_spec r 0) as [->|Hr]; intros [= <- <- <-]; (split; [done|]); [by left|].
  right. split; [done|]. by intros [? _]%Forall_cons_iff.
Qed.

Lemma turn_heeds count p e st p' e' st' :
  reader_ok st p -> wait_turn count p e st = Ret (p', e', st') ->
  heeds st st' /\ g_shutting_down st' = g_shutting_down st /\ reader_ok st' p'.
Proof.
  intros Hok Hrun. destruct (waiting p) eqn:Hp.
  { by destruct (turn_waiting _ _ _ _ _ _ _ Hp Hok Hrun) as (-> & ? & _). }
  destruct p as [| | | | |r]; try done. destruct r as [| |n|ret out]; [done|..].
  - apply pop_turn_run in Hrun as (x & rb & Hpop & -> & ->). split_and!; cbn; try done.
    + split_and!; cbn; [done|lia|]. intros _. unfold readable. cbn. destruct (ring_buf_empty (g_ring st)) eqn:He; [|done].
      by rewrite (pop_nothing _ _ _ _ _ _ Hpop He), He.
    + by destruct (Z.eqb x.1 0), (count <? 4)%Z.
  - apply copy_turn_run in Hrun as [-> [-> | [-> _]]]; (split; [by apply heeds_same|done]).
  - injection Hrun as <- <- <-. by split.
Qed.

(** ** Runs *)
Context (hmac_length : forall k m, length (hmac_sha256 k m) = 32%nat).
Context (aead_length : forall k n p,
  length (aead_encrypt k n p) = (length p + PHOTON_TAG_SIZE)%nat).
Abbreviation device_inv := (device_inv hmac_sha256).
Abbreviation shutting s := (g_shutting_down (ch_cdev (device s))).

Lemma turn_device count p e ch p' e' st' :
  device_inv ch -> reader_ok (ch_cdev ch) p -> wait_turn count p e (ch_cdev ch) = Ret (p', e', st') ->
  device_inv (set_cdev st' ch).
Proof.
  intros Hi Hok Hrun. destruct (waiting p) eqn:Hp.
  { destruct (turn_waiting _ _ _ _ _ _ _ Hp Hok Hrun) as (-> & _). by destruct ch. }
  destruct Hi as [Hc Ht Hr Hcap Hd Hf Hm].
  destruct p as [| | | | |r]; try done. destruct r as [| |n|ret out]; [done|..].
  - apply pop_turn_run in Hrun as (x & rb & Hpop & -> & _). unfold ch_frames in *.
    destruct (ring_frames (g_ring (ch_cdev ch))) as [|f fs] eqn:Hfr.
    + rewrite ring_pop_empty in Hpop by done. injection Hpop as <- _ <-.
      split; cbn; try done. unfold ch_frames. cbn. by rewrite Hfr.
    + destruct (ring_pop_spec f fs e _ Hr Hfr) as (rb' & E & Hr' & Hfr' & Hd' & Hc').
      rewrite E in Hpop. injection Hpop as <- _ <-. apply Forall_cons_iff in Hf as [_ Hf].
      split; cbn; try done; unfold ch_frames; cbn; by rewrite ?Hc', ?Hd', ?Hfr'.
  - apply copy_turn_run in Hrun as [-> _]. by split.
  - injection Hrun as _ _ <-. by destruct ch.
Qed.

(** What every reached state satisfies. *)
Definition system_inv (s : system) : Prop :=
  (shutting s = false -> device_inv (device s)) /\
  Forall (fun r => reader_ok (ch_cdev (device s)) r.2) (readers s).

Lemma step_heeds a s s' :
  system_inv s -> step a s s' -> heeds (ch_cdev (device s)) (ch_cdev (device s')).
Proof.
  intros [_ Hrs]. destruct 1 as [op e e' ch ch' rs Hop _ Hrun|e e' ch ch' rs Hrun|ch rs count
    |ch rs i count p e p' e' st' Hi Hrun]; cbn.
  - by eapply op_heeds.
  - by eapply exit_heeds.
  - done.
  - by eapply turn_heeds; [apply (Forall_lookup_1 _ _ _ _ Hrs Hi)|].
Qed.

Lemma step_system a s s' : system_inv s -> step a s s' -> system_inv s'.
Proof using hmac_length aead_length.
  intros Hinv Hstep. pose proof (step_heeds _ _ _ Hinv Hstep) as Hh. destruct Hinv as [Hd Hrs].
  assert (Hothers : Forall (fun r => reader_ok (ch_cdev (device s')) r.2) (readers s)).
  { eapply Forall_impl; [|exact Hrs]. intros r. by apply reader_ok_heeds. }
  destruct Hstep as [op e e' ch ch' rs Hop Hal Hrun|e e' ch ch' rs Hrun|ch rs count
    |ch rs i count p e p' e' st' Hi Hrun]; cbn in *; split; cbn; try done.
  - intros Hsd. eapply (step_inv _ _ hmac_length aead_length op); [apply Hd|done|done].
    apply not_true_is_false. intros E. apply Hh in E. congruence.
  - destruct (exit_heeds _ _ _ _ Hrun) as [_ Hsd]. congruence.
  - apply Forall_app_2; [done|]. by repeat constructor.
  - intros Hsd. eapply turn_device; [apply Hd|apply (Forall_lookup_1 _ _ _ _ Hrs Hi)|done].
    by rewrite <- Hsd, (proj1 (proj2 (turn_heeds _ _ _ _ _ _ _ (Forall_lookup_1 _ _ _ _ Hrs Hi) Hrun))).
  - apply Forall_insert; [done|].
    by apply (turn_heeds _ _ _ _ _ _ _ (Forall_lookup_1 _ _ _ _ Hrs Hi) Hrun).
Qed.

Lemma reached_system s : reached s -> system_inv s.
Proof using hmac_length aead_length.
  induction 1 as [e e' ch Hs|a s s' _ IH Hstep]; [|by eapply step_system].
  split; [|by constructor]. intros _. by destruct (start_inv hmac_sha256 _ _ _ Hs).
Qed.

(** A step leaves alone the readers it is not a turn of. *)
Lemma step_other a s s' i r :
  step a s s' -> turn_of i a = false -> readers s !! i = Some r -> readers s' !! i = Some r.
Proof.
  destruct 1 as [| |ch rs count|ch rs j count p e p' e' st' Hj Hrun]; cbn; intros Ht Hi; try done.
  - by apply lookup_app_l_Some.
  - apply Nat.eqb_neq in Ht. by rewrite list_lookup_insert_ne.
Qed.

Lemma step_own a s s' i count p :
  step a s s' -> turn_of i a = true -> readers s !! i = Some (count, p) ->
  exists e p' e' st', a = Turn i e /\ wait_turn count p e (ch_cdev (device s)) = Ret (p', e', st') /\
    device s' = set_cdev st' (device s) /\ readers s' !! i = Some (count, p').
Proof.
  destruct 1 as [| |ch rs count0|ch rs j count0 p0 e p' e' st' Hj Hrun]; cbn; intros Ht Hi; try done.
  apply Nat.eqb_eq in Ht as <-. rewrite Hi in Hj. injection Hj as <- <-.
  exists e, p', e', st'. split_and!; try done. by eapply list_lookup_insert_eq, lookup_lt_Some.
Qed.

Lemma turns_cons i a acts :
  turns i (a :: acts) = ((if turn_of i a then 1 else 0) + turns i acts)%nat.
Proof. unfold turns. cbn. by destruct (turn_of i a). Qed.

(** ** The shutdown reaches every reader that waits *)
Definition leaving (p : phase) : Prop := waiting p = true \/ p = Past (Read (- EIO) []).

Lemma leaving_runs acts s s' i count p :
  system_inv s -> shutting s = true -> steps acts s s' -> readers s !! i = Some (count, p) -> leaving p ->
  (wait_rank p <= turns i acts)%nat -> readers s' !! i = Some (count, Past (Read (- EIO) [])).
Proof using hmac_length aead_length.
  intros Hinv Hsd Hsteps. revert p Hinv Hsd.
  induction Hsteps as [s|a acts s1 s2 s3 Hstep _ IH]; intros p Hinv Hsd Hi Hp Hn.
  - destruct Hp as [Hp| ->]; [|done]. pose proof (wait_rank_waiting p Hp). unfold turns in Hn. cbn in Hn. lia.
  - assert (shutting s2 = true) as Hsd2 by (by apply (step_heeds _ _ _ Hinv Hstep)).
    pose proof (step_system _ _ _ Hinv Hstep) as Hinv2. rewrite turns_cons in Hn.
    destruct (turn_of i a) eqn:Ht.
    2:{ eapply IH; try done. by eapply step_other. }
    destruct (step_own _ _ _ _ _ _ Hstep Ht Hi) as (e & p' & e' & st' & -> & Hrun & _ & Hi').
    destruct Hp as [Hp| ->].
    2:{ injection Hrun as <- _ _. eapply IH; [done|done|done|by right|cbn; lia]. }
    destruct (turn_waiting _ _ _ _ _ _ _ Hp (Forall_lookup_1 _ _ _ _ (proj2 Hinv) Hi) Hrun) as (_ & _ & Hr).
    destruct Hr as [Hk Hp']; [unfold readable; by rewrite Hsd, orb_true_r|]. rewrite Hsd in Hp'.
    eapply IH; [done|done|done|destruct Hp'; [by left|by right]|cbn in Hn; lia].
Qed.

(** ** A frame that waits reaches the reader *)

(** Where a reader stands that is to get frame [f]; [bad]: a copy may have
    failed. *)
Definition serving (bad : Prop) (count : Z) (f : list byte) (p : phase) (ch : channel) : Prop :=
  let n := Z.min (Z.of_nat (length f)) (u32 count) in
  match p with
  | Past ToWait => False
  | Past (ToCopy k) => k = n /\ take (Z.to_nat n) (g_read_staging (ch_cdev ch)) = take (Z.to_nat n) f
  | Past (Read ret out) => (ret = n /\ out = take (Z.to_nat n) f) \/ (ret = (- EFAULT)%Z /\ out = [] /\ bad)
  | _ => exists fs, ch_frames ch = f :: fs
  end.
Definition serve_rank (p : phase) : nat :=
  match p with Past ToPop => 2 | Past (ToCopy _) => 1 | Past _ => 0 | p => 2 + wait_rank p end.

(** What the device does by itself only adds frames. *)
Lemma op_frames op e ch e' ch' :
  device_inv ch -> is_read op = false -> op_allowed op ->
  run_op hmac_sha256 aead_encrypt op e ch = Ret (tt, e', ch') ->
  (exists more, ch_frames ch' = ch_frames ch ++ more) /\
  g_read_staging (ch_cdev ch') = g_read_staging (ch_cdev ch).
Proof using aead_length.
  intros [Hc _ Hr _ _ _ _] Hop Hal Hrun.
  destruct op as [ev|count|cap| |key]; [|done|..].
  2-4: destruct (passive_ring _ _ _ _ _ Hop ltac:(done) Hrun) as (E & _ & _ & ->); unfold ch_frames; rewrite E;
    split; [exists []; by rewrite app_nil_r|done].
  cbn [run_op] in Hrun. apply run_then in Hrun as (r & Hrun).
  destruct (g_key_set (ch_crypto ch)) eqn:Hk.
  2:{ rewrite send_no_key in Hrun by done. injection Hrun as <- <- <-. split; [exists []; by rewrite app_nil_r|done]. }
  pose proof (run_wp _ _ _ _ _ _ _ Hrun (send_spec hmac_sha256 aead_encrypt aead_length ev e ch
    (conj Hc Hr) Hk Hal)) as (_ & _ & (_ & _ & _ & Hst) & H0 & H1).
  destruct (decide (r = 0%Z)) as [Hz|Hz].
  - destruct (H0 Hz) as (_ & nonce & _ & _ & Hacc). destruct (ring_buf_full _); destruct Hacc as [-> _];
      (split; [|done]); [exists []; by rewrite app_nil_r|by eexists].
  - destruct (H1 Hz) as [-> _]. split; [exists []; by rewrite app_nil_r|done].
Qed.

Lemma serving_more bad count f p ch ch' :
  (exists more, ch_frames ch' = ch_frames ch ++ more) ->
  g_read_staging (ch_cdev ch') = g_read_staging (ch_cdev ch) ->
  serving bad count f p ch -> serving bad count f p ch'.
Proof.
  intros [more Hm] Hs. destruct p as [| | | | |r]; cbn; rewrite ?Hm, ?Hs;
    try (intros [fs ->]; by exists (fs ++ more)).
  destruct r as [| | |]; rewrite ?Hm, ?Hs; try done. intros [fs ->]; by exists (fs ++ more).
Qed.

(** Each turn brings the reader on. *)
Lemma turn_serves (bad : Prop) count f p e ch p' e' st' :
  device_inv ch -> g_shutting_down (ch_cdev ch) = false -> reader_ok (ch_cdev ch) p -> (4 <= count)%Z ->
  serving bad count f p ch -> (~ no_fail e -> bad) ->
  wait_turn count p e (ch_cdev ch) = Ret (p', e', st') ->
  serving bad count f p' (set_cdev st' ch) /\ (serve_rank p' <= pred (serve_rank p))%nat.
Proof.
  intros Hinv Hsd Hok Hc Hs Hbad Hrun. pose proof (inv_ring _ _ Hinv) as Hr.
  destruct (waiting p) eqn:Hp.
  - assert (exists fs, ch_frames ch = f :: fs) as [fs Hfr] by (by destruct p).
    destruct (ring_frames_nonempty _ _ _ Hr Hfr) as [_ Hne].
    destruct (turn_waiting _ _ _ _ _ _ _ Hp Hok Hrun) as (-> & _ & Hrd).
    destruct Hrd as [Hk Hp']; [unfold readable; by rewrite Hne|]. rewrite Hsd in Hp'.
    destruct ch as [c d]. cbn in *.
    assert (serve_rank p = 2 + wait_rank p)%nat as -> by (by destruct p).
    destruct Hp' as [Hp'| ->]; [|split; [by exists fs|cbn in *; lia]].
    assert (serve_rank p' = 2 + wait_rank p')%nat as -> by (by destruct p').
    split; [|lia]. by destruct p'; try (by exists fs).
  - destruct p as [| | | | |r]; try done. destruct r as [| |n|ret out]; [done|..].
    + destruct Hs as [fs Hfr]. apply pop_turn_run in Hrun as (x & rb & Hpop & -> & ->).
      destruct (ring_pop_spec f fs e _ Hr Hfr) as (rb' & E & _). rewrite E in Hpop. injection Hpop as <- _ <-.
      destruct (ring_frames_nonempty _ _ _ Hr Hfr) as [Hf _]. cbn [fst snd].
      rewrite (proj2 (Z.eqb_neq _ _)), (proj2 (Z.ltb_ge _ _)) by (first [by destruct f|lia]).
      split; [|done]. split; [done|]. cbn [set_cdev set_staging ch_cdev g_read_staging].
      apply take_take_overwrite. lia.
    + destruct Hs as [-> Hst]. apply copy_turn_run in Hrun as [-> [-> |[-> Hf]]]; (split; [|done]).
      * left. by rewrite Hst.
      * right. by split_and!; [..|apply Hbad].
    + injection Hrun as <- _ <-. by destruct ch.
Qed.

Lemma serving_runs (bad : Prop) acts s s' i count f p :
  system_inv s -> steps acts s s' -> shutting s' = false -> Forall (only i) acts ->
  (Exists (failing i) acts -> bad) -> readers s !! i = Some (count, p) -> (4 <= count)%Z ->
  serving bad count f p (device s) -> (serve_rank p <= turns i acts)%nat ->
  exists ret out, readers s' !! i = Some (count, Past (Read ret out)) /\
    serving bad count f (Past (Read ret out)) (device s').
Proof using hmac_length aead_length.
  intros Hinv Hsteps Hend. revert p Hinv.
  induction Hsteps as [s|a acts s1 s2 s3 Hstep Hsteps IH]; intros p Hinv Ho Hbad Hi Hc Hs Hn.
  - unfold turns in Hn. cbn in Hn. destruct p as [| | | | |[| | |ret out]]; cbn in Hn; try lia; [done|].
    by exists ret, out.
  - pose proof (step_system _ _ _ Hinv Hstep) as Hinv2. rewrite turns_cons in Hn.
    apply Forall_cons_iff in Ho as [Ha Ho].
    assert (shutting s2 = false) as Hsd2.
    { clear IH Hstep Ho Hbad Hn. induction Hsteps as [|b acts s2 s2' s3 Hb Hrest IH]; [done|].
      pose proof (step_system _ _ _ Hinv2 Hb) as Hinv3. specialize (IH Hend Hinv3).
      apply not_true_is_false. intros E. apply (step_heeds _ _ _ Hinv2 Hb) in E. congruence. }
    assert (shutting s1 = false) as Hsd1.
    { apply not_true_is_false. intros E. apply (step_heeds _ _ _ Hinv Hstep) in E. congruence. }
    specialize (IH Hend).
    destruct (turn_of i a) eqn:Ht.
    + destruct (step_own _ _ _ _ _ _ Hstep Ht Hi) as (e & p' & e' & st' & -> & Hrun & Hdev & Hi').
      destruct (turn_serves bad count f p e (device s1) p' e' st') as [Hs' Hk]; try done.
      * by apply Hinv.
      * by apply (Forall_lookup_1 _ _ _ _ (proj2 Hinv) Hi).
      * intros Hf. apply Hbad. by apply Exists_cons_hd.
      * rewrite <- Hdev in Hs'. eapply IH; try done; [|lia]. intros Hx. apply Hbad. by apply Exists_cons_tl.
    + eapply IH; try done; [..|by eapply step_other|]; [intros Hx; apply Hbad; by apply Exists_cons_tl|].
      destruct Hstep as [op e e' ch ch' rs Hop Hal Hrun|e e' ch ch' rs Hrun|ch rs count0
        |ch rs j count0 p0 e p' e' st' Hj Hrun]; cbn in *; try done.
      * destruct (op_frames op e ch e' ch' (proj1 Hinv Hsd1) Hop Hal Hrun) as [Hm Hst].
        by eapply serving_more.
      * destruct (exit_heeds _ _ _ _ Hrun) as [_ Hx]. congruence.
      * apply Nat.eqb_neq in Ht. congruence.
Qed.

(** A turn can be taken: by a waiting reader when there is something to read,
    by one past the wait while the module stays. *)
Lemma step_enabled s i count p e :
  system_inv s -> readers s !! i = Some (count, p) ->
  (if waiting p then readable (ch_cdev (device s)) else negb (shutting s)) = true ->
  exists s', step (Turn i e) s s'.
Proof.
  intros [Hd Hrs] Hi He. pose proof (Forall_lookup_1 _ _ _ _ Hrs Hi) as Hok. cbn in Hok.
  assert (exists p' e' st', wait_turn count p e (ch_cdev (device s)) = Ret (p', e', st')) as (p' & e' & st' & Hrun).
  2:{ destruct s as [ch rs]. eexists. by eapply step_turn. }
  destruct (waiting p) eqn:Hp; [by apply turn_runnable|].
  apply negb_true_iff, Hd in He. apply inv_ring in He.
  destruct p as [| | | | |r]; try done. destruct r as [| |n|ret out]; [done|..].
  - unfold wait_turn, read_turn, on_ring, zoom, mbind, M_bind, modify, mret, M_ret.
    destruct (ring_frames (g_ring (ch_cdev (device s)))) as [|f fs] eqn:Hfr.
    + rewrite ring_pop_empty by done. by eauto.
    + destruct (ring_pop_spec f fs e _ He Hfr) as (rb' & -> & _). by eauto.
  - unfold wait_turn, read_turn, kcall, get, mbind, M_bind, modify, mret, M_ret. destruct (env_rets e); by eauto.
  - by eexists _, _, _.
Qed.

End waiting.
