(* ===== verification/Smp.v ===== *)
(** * Concurrent logging
    Any number of threads inside [photon_log_event] at once, on any CPUs.  A
    thread is a program counter [pc]; what it does between two points where
    another thread can get in the way - the atomic counters, the region of
    [enqueue_event] under the buffer's spinlock, the region of
    [flush_event_buffer] under it, the hand-over of one event with the lock
    released - is one step, [advance], made of the operations of
    [EventManager].  [smp_step] lets any thread move next.  A system carries
    three histories: the events made, handed to the channel and refused. *)
From Stdlib Require Import ZArith Lia.
From Stdlib Require Import Strings.Byte Strings.String.
From stdpp Require Import base numbers list option.
From S2P Require Import Prelude Kernel Events Ring Crypto Cdev EventManager LogSession.

(** [Flushing todo next]: about to take the lock of the first buffer of
    [todo] in the loop of [flush_all_buffers]; afterwards [next] is enqueued
    again, or the call returns 0. *)
Inductive pc :=
  | Calling (c : log_call)
  | Enqueueing (event : photon_event) (retry : bool)
  | Flushing (todo : list nat) (next : option photon_event)
  | Sending (event : photon_event) (todo : list nat) (next : option photon_event)
  | Returned (ret : Z).

Definition returned (p : pc) : bool := match p with Returned _ => true | _ => false end.

Record system := mk_system {
  threads : list pc;
  shared : manager;
  made : list photon_event;
  handed : list photon_event;
  refused : list photon_event;
}.

Section smp.
Context (aead_encrypt : list byte -> list byte -> list byte -> list byte).

(** [photon_log_event] up to its call of [enqueue_event]: an error code, or
    the event. *)
Definition log_prepare (c : log_call) : M manager (Z + photon_event) :=
  let data_len := u16 (lc_len c) in
  if (Z.of_nat PHOTON_MAX_EVENT_DATA <? data_len)%Z then mret (inl (- EINVAL)%Z) else
  modify (fun s => set_sequence (u64 (g_sequence_counter s + 1)) s) ;;
  s ← get;
  ts ← ktime_get;
  t ← get_current;
  (match lc_data c with
   | Some d => if decide (length d < Z.to_nat data_len)%nat then fault else mret tt
   | None => mret tt
   end) ;;
  count inc_events ;;
  mret (inr (make_event (g_sequence_counter s) ts (u32 (lc_type c)) (u32 (lc_detector c))
               (u8 (lc_severity c)) t (lc_data c) data_len)).

(** One turn of the loop of [flush_event_buffer] under the lock. *)
Definition take_locked (cpu : nat) : M manager (option photon_event) :=
  on_buffer cpu (spin_lock ;; o ← take_event; spin_unlock ;; mret o).
(** The rest of the turn, with the lock released. *)
Definition hand_over (event : photon_event) : M manager unit :=
  ret ← on_channel (photon_send_encrypted_event aead_encrypt event);
  if negb (Z.eqb ret 0) then count inc_failures else count inc_sent.

Definition flush_from_first (next : option photon_event) : M manager pc :=
  s ← get; mret (Flushing (seq 0 (length (event_buffers s))) next).

(** What a thread does until the next point where another can intervene. *)
Definition advance (p : pc) : M manager pc :=
  match p with
  | Calling c =>
      r ← log_prepare c;
      mret (match r with inl err => Returned err | inr event => Enqueueing event false end)
  | Enqueueing event retry =>
      ret ← enqueue_event event;
      if Z.eqb ret 0 then flush_from_first None
      else if (retry : bool) then mret (Returned ret)
      else flush_from_first (Some event)
  | Flushing [] (Some event) => mret (Enqueueing event true)
  | Flushing [] None => mret (Returned 0)
  | Flushing (cpu :: todo) next =>
      o ← take_locked cpu;
      mret (match o with
            | None => Flushing todo next
            | Some event => Sending event (cpu :: todo) next
            end)
  | Sending event todo next => hand_over event ;; mret (Flushing todo next)
  | Returned ret => mret (Returned ret)
  end.

(** A thread that nobody interrupts. *)
Inductive runs : pc -> env -> manager -> pc -> env -> manager -> Prop :=
  | runs_refl p e m : runs p e m p e m
  | runs_advance p e m p1 e1 m1 p2 e2 m2 :
      returned p = false -> advance p e m = Ret (p1, e1, m1) -> runs p1 e1 m1 p2 e2 m2 ->
      runs p e m p2 e2 m2.

(** ** The system *)
Definition made_by (p p' : pc) : list photon_event :=
  match p, p' with Calling _, Enqueueing event _ => [event] | _, _ => [] end.
Definition handed_by (p : pc) : list photon_event :=
  match p with Sending event _ _ => [event] | _ => [] end.
Definition refused_by (p p' : pc) : list photon_event :=
  match p, p' with Enqueueing event _, Returned _ => [event] | _, _ => [] end.

(** Thread [i] moves, in whatever environment: what the clock, the allocator
    and the random numbers give it, and the CPU it is on. *)
Inductive smp_step (i : nat) (e : env) : system -> system -> Prop :=
  | smp_advance ts m mk hd rf p p' e' m' :
      ts !! i = Some p -> returned p = false -> advance p e m = Ret (p', e', m') ->
      smp_step i e (mk_system ts m mk hd rf)
        (mk_system (<[i := p']> ts) m' (mk ++ made_by p p') (hd ++ handed_by p)
           (rf ++ refused_by p p')).

(** [n] steps of any threads lead from one system to the other. *)
Inductive smp_steps : nat -> system -> system -> Prop :=
  | smp_refl s : smp_steps 0 s s
  | smp_more n i e s1 s2 s3 :
      smp_steps n s1 s2 -> smp_step i e s2 s3 -> smp_steps (S n) s1 s3.

(** The system's steps as a function of who moves and where. *)
Definition step_of (i : nat) (e : env) (s : system) : option system :=
  match threads s !! i with
  | Some p =>
      if returned p then None else
      match advance p e (shared s) with
      | Ret (p', _, m') =>
          Some (mk_system (<[i := p']> (threads s)) m' (made s ++ made_by p p')
            (handed s ++ handed_by p) (refused s ++ refused_by p p'))
      | _ => None
      end
  | None => None
  end.
Fixpoint schedule (turns : list (nat * env)) (s : system) : option system :=
  match turns with
  | [] => Some s
  | (i, e) :: turns => step_of i e s ≫= schedule turns
  end.

(** One thread for each call, on a given reporting path. *)
Definition smp_start (cs : list log_call) (m : manager) : system :=
  mk_system (Calling <$> cs) m [] [] [].
End smp.

(** ** What a step keeps *)
(** The events a thread holds, and the buffers it has yet to flush. *)
Definition in_flight (p : pc) : list photon_event :=
  match p with
  | Enqueueing event _ => [event]
  | Flushing _ next => option_list next
  | Sending event _ next => event :: option_list next
  | _ => []
  end.
Definition todo (p : pc) : list nat :=
  match p with Flushing todo _ | Sending _ todo _ => todo | _ => [] end.

(** A thread's share of the work on a machine of [n] CPUs. *)
Definition work (n : nat) (p : pc) : nat :=
  let flush todo next := (length todo + match next with Some _ => n + 5 | None => 1 end)%nat in
  match p with
  | Calling _ => 2 * n + 7
  | Enqueueing _ false => 2 * n + 6
  | Enqueueing _ true => n + 4
  | Flushing todo next => flush todo next
  | Sending _ todo next => S (flush todo next)
  | Returned _ => 0
  end.

Definition pc_ok (n : nat) (p : pc) : Prop :=
  Forall packed_wf (in_flight p) /\ Forall (fun c => (c < n)%nat) (todo p) /\
  match p with
  | Calling c => call_ok c
  | Returned ret => ret = 0%Z \/ ret = (- ENOSPC)%Z
  | _ => True
  end.

Definition begun (p : pc) : nat := match p with Calling _ => 0 | _ => 1 end.
Definition failed (p : pc) : nat :=
  match p with Returned ret => if Z.eqb ret 0 then 0 else 1 | _ => 0 end.

Section facts.
Context (hmac_sha256 : list byte -> list byte -> list byte).
Context (aead_encrypt : list byte -> list byte -> list byte -> list byte).
Context (aead_length : forall k n p,
  length (aead_encrypt k n p) = (length p + PHOTON_TAG_SIZE)%nat).
Abbreviation minv := (manager_inv hmac_sha256).
Abbreviation ncpu m := (length (event_buffers m)).

Lemma pending_take (bufs : list event_buffer) (i : nat) b b' ev :
  bufs !! i = Some b -> buffer_view b = ev :: buffer_view b' ->
  concat (buffer_view <$> bufs) ≡ₚ ev :: concat (buffer_view <$> <[i := b']> bufs).
Proof.
  intros Hi Hv. revert i Hi. induction bufs as [|b0 bufs IH]; intros [|i] Hi; try done.
  - injection Hi as ->. simpl. by rewrite Hv.
  - simpl. rewrite (IH i Hi). by rewrite Permutation_middle.
Qed.

Lemma take_locked_eq cpu b b' o e m :
  event_buffers m !! cpu = Some b -> lock b = false -> lock b' = false ->
  take_event e (set_lock true b) = Ret (o, e, set_lock true b') ->
  take_locked cpu e m = Ret (o, e, put_buffer cpu b' m).
Proof.
  intros Hb Hl Hl' Ht. unfold take_locked, on_buffer. rewrite Hb. unfold zoom.
  unfold spin_lock, mutex_lock, mbind, M_bind, get, modify. rewrite Hl, Ht. cbn.
  by rewrite set_lock_restore.
Qed.

Lemma take_locked_spec cpu b e m :
  minv m -> event_buffers m !! cpu = Some b ->
  exists b', take_locked cpu e m = Ret (hd_error (buffer_view b), e, put_buffer cpu b' m) /\
    buffer_inv b' /\ buffer_view b' = drop 1 (buffer_view b).
Proof.
  intros (_ & Hbufs & _) Hb. pose proof (Forall_lookup_1 _ _ _ _ Hbufs Hb) as Hinv.
  pose proof Hinv as (Hl & _). destruct (buffer_view b) as [|ev evs] eqn:Hv.
  - exists b. split; [|done]. eapply take_locked_eq; try done. by apply (take_event_nil true).
  - destruct (take_event_cons true ev evs e b Hinv Hv) as (b' & Hd & Hi & Hv' & _). exists b'.
    split; [|done]. eapply take_locked_eq; try done. apply Hi.
Qed.

(** One step of a thread: no event appears or disappears, the counters follow,
    a buffer that holds events is still to be flushed by somebody, and less
    work is left. *)
Record moved (p : pc) (m : manager) (p' : pc) (m' : manager) : Prop := {
  mv_inv : minv m';
  mv_cpus : ncpu m' = ncpu m;
  mv_pc : pc_ok (ncpu m) p';
  mv_events : handed_by p ++ refused_by p p' ++ in_flight p' ++ pending m' ≡ₚ
              made_by p p' ++ in_flight p ++ pending m;
  mv_chan : exists n k, deliver aead_encrypt (handed_by p) (chan m) n k (chan m') /\
    total_sent (g_stats m') = u64 (total_sent (g_stats m) + Z.of_nat n) /\
    send_failures (g_stats m') = u64 (send_failures (g_stats m) + Z.of_nat k);
  mv_seq : g_sequence_counter m' =
             u64 (g_sequence_counter m + Z.of_nat (length (made_by p p')));
  mv_num : Forall (fun ev => sequence_num ev = g_sequence_counter m') (made_by p p');
  mv_total : total_events (g_stats m') =
               u64 (total_events (g_stats m) + Z.of_nat (length (made_by p p')));
  mv_cover c : view_at m' c <> [] -> c ∈ todo p' \/ (view_at m c <> [] /\ c ∉ todo p);
  mv_work : (work (ncpu m) p' + 2 * length (pending m') < work (ncpu m) p + 2 * length (pending m))%nat;
  mv_begun : (length (made_by p p') + begun p = begun p')%nat;
  mv_failed : length (refused_by p p') = failed p';
}.

Lemma stats_small m : minv m ->
  u64 (g_sequence_counter m + 0) = g_sequence_counter m /\
  u64 (total_events (g_stats m) + 0) = total_events (g_stats m) /\
  u64 (total_sent (g_stats m) + 0) = total_sent (g_stats m) /\
  u64 (send_failures (g_stats m) + 0) = send_failures (g_stats m).
Proof. intros (_ & _ & ? & (? & ? & ? & ?) & _). rewrite !Z.add_0_r. by rewrite !u64_small. Qed.

(** The channel and the counters as they were. *)
Lemma chan_still m m' :
  minv m -> chan m' = chan m -> total_sent (g_stats m') = total_sent (g_stats m) ->
  send_failures (g_stats m') = send_failures (g_stats m) ->
  exists n k, deliver aead_encrypt [] (chan m) n k (chan m') /\
    total_sent (g_stats m') = u64 (total_sent (g_stats m) + Z.of_nat n) /\
    send_failures (g_stats m') = u64 (send_failures (g_stats m) + Z.of_nat k).
Proof.
  intros Hi -> -> ->. destruct (stats_small m Hi) as (_ & _ & Hs & Hf). exists 0%nat, 0%nat.
  split_and!; [apply deliver_nil|done|done].
Qed.

Lemma view_at_views m m' :
  buffer_view <$> event_buffers m' = buffer_view <$> event_buffers m ->
  forall c, view_at m' c = view_at m c.
Proof.
  intros H c. apply (f_equal (fun l => l !! c)) in H. rewrite !list_lookup_fmap in H.
  unfold view_at. destruct (event_buffers m' !! c), (event_buffers m !! c); naive_solver.
Qed.

(** When the buffers and what is left to flush stay as they were. *)
Lemma cover_same p p' m m' :
  buffer_view <$> event_buffers m' = buffer_view <$> event_buffers m -> todo p' = todo p ->
  forall c, view_at m' c <> [] -> c ∈ todo p' \/ (view_at m c <> [] /\ c ∉ todo p).
Proof.
  intros Hv -> c Hc. rewrite (view_at_views _ _ Hv) in Hc.
  destruct (decide (c ∈ todo p)); [by left|by right].
Qed.

Lemma moved_flushed next m :
  minv m -> pc_ok (ncpu m) (Flushing [] next) ->
  moved (Flushing [] next) m
    (match next with Some ev => Enqueueing ev true | None => Returned 0 end) m.
Proof.
  intros Hi (Hw & _). destruct (stats_small m Hi) as (Hq & Ht & _). destruct next as [ev|];
    split; cbn [made_by handed_by refused_by in_flight todo option_list length app]; try done;
    try (by apply chan_still); try (cbn; lia);
    try (by apply (cover_same (Flushing [] None) (Returned 0))).
  split_and!; [done|done|by left].
Qed.

Lemma advance_take cpu rest next e m :
  minv m -> pc_ok (ncpu m) (Flushing (cpu :: rest) next) ->
  wp (advance aead_encrypt (Flushing (cpu :: rest) next))
    (fun p' _ m' => moved (Flushing (cpu :: rest) next) m p' m') e m.
Proof.
  intros Hi (Hw & Ht & _). pose proof Hi as (Hne & Hbufs & Hq & Hst & Hch).
  apply Forall_cons_iff in Ht as [Hc Hr]. destruct (lookup_lt_is_Some_2 _ _ Hc) as [b Hb].
  destruct (take_locked_spec cpu b e m Hi Hb) as (b' & Hrun & Hi' & Hv').
  cbn [advance]. apply wp_bind. eapply wp_eq; [exact Hrun|]. apply wp_ret.
  assert (Him : minv (put_buffer cpu b' m)).
  { unfold manager_inv, put_buffer. cbn. split_and!; try done; [by apply insert_not_nil|by apply Forall_insert]. }
  destruct (stats_small m Hi) as (Hq0 & Ht0 & _).
  pose proof (Forall_lookup_1 _ _ _ _ Hbufs Hb) as (_ & Hwf & _).
  assert (Hother : forall c, c <> cpu -> view_at (put_buffer cpu b' m) c = view_at m c).
  { intros c Hne'. unfold view_at, put_buffer. cbn. by rewrite list_lookup_insert_ne. }
  assert (Hcpu : view_at (put_buffer cpu b' m) cpu = drop 1 (buffer_view b)).
  { unfold view_at, put_buffer. cbn. by rewrite list_lookup_insert_eq. }
  assert (Hvb : view_at m cpu = buffer_view b) by (unfold view_at; by rewrite Hb).
  destruct (buffer_view b) as [|ev evs] eqn:Hv; cbn [hd_error].
  - assert (Hp : pending (put_buffer cpu b' m) = pending m).
    { unfold pending, put_buffer. cbn. rewrite (pending_insert_same _ _ b b' Hb); [done|].
      by rewrite Hv', Hv. }
    split; cbn [made_by handed_by refused_by in_flight todo length app]; rewrite ?Hp; try done.
    + by apply length_insert.
    + by apply chan_still.
    + intros c Hcv. destruct (decide (c = cpu)) as [->|Hne'].
      * exfalso. by rewrite Hcpu in Hcv.
      * rewrite Hother in Hcv by done.
        destruct (decide (c ∈ rest)) as [|Hnin]; [by left|right]. split; [done|].
        by apply not_elem_of_cons.
    + cbn. lia.
  - assert (Hp : pending m ≡ₚ ev :: pending (put_buffer cpu b' m)).
    { unfold pending, put_buffer. cbn. apply (pending_take _ _ b); [done|]. by rewrite Hv', Hv. }
    apply Forall_cons_iff in Hwf as [Hev _].
    split; cbn [made_by handed_by refused_by in_flight todo length app]; try done.
    + by apply length_insert.
    + split_and!; cbn [in_flight todo]; by constructor.
    + rewrite Hp. by rewrite Permutation_middle.
    + by apply chan_still.
    + intros c Hcv. destruct (decide (c = cpu)) as [->|Hne']; [left; apply elem_of_cons; by left|].
      rewrite Hother in Hcv by done. destruct (decide (c ∈ cpu :: rest)); [by left|by right].
    + rewrite Hp. cbn. lia.
Qed.

Lemma view_at_lt m c : view_at m c <> [] -> (c < ncpu m)%nat.
Proof. unfold view_at. destruct (event_buffers m !! c) eqn:E; [|done]. by intros _; apply lookup_lt_Some in E. Qed.


Lemma advance_call c e m :
  minv m -> call_ok c ->
  wp (advance aead_encrypt (Calling c)) (fun p' _ m' => moved (Calling c) m p' m') e m.
Proof.
  intros Hi [Hd Hl]. pose proof Hi as (Hne & Hbufs & Hq & Hst & Hch).
  cbn [advance]. wp_step. unfold log_prepare. cbv zeta. rewrite (proj2 (Z.ltb_ge _ _)) by done.
  wp_steps. eapply (wp_eq _ _ _ _ tt).
  { destruct (lc_data c) as [d|] eqn:E; [|reflexivity]. unfold log_data_ok in Hd.
    rewrite decide_False by lia. reflexivity. }
  wp_steps. destruct (inc_ok _ Hst) as (_ & _ & Hst' & _).
  split; cbn [made_by handed_by refused_by in_flight todo option_list length app]; try done.
  - unfold manager_inv. cbn. split_and!; auto using u64_stat.
  - split_and!; [|by constructor|done]. apply Forall_singleton, make_event_wf;
      [apply u64_stat|done|apply u16_range].
  - by apply chan_still.
  - by apply Forall_singleton.
  - by apply (cover_same (Calling c) (Returned 0) m).
  - unfold work, pending. cbn [event_buffers set_stats set_sequence]. lia.
Qed.

Lemma advance_enqueue ev retry e m :
  minv m -> pc_ok (ncpu m) (Enqueueing ev retry) ->
  wp (advance aead_encrypt (Enqueueing ev retry))
    (fun p' _ m' => moved (Enqueueing ev retry) m p' m') e m.
Proof.
  intros Hi (Hw & _). cbn in Hw. apply Forall_cons_iff in Hw as [Hev _]. destruct (stats_small m Hi) as (Hq & Ht & _).
  cbn [advance]. wp_step. eapply wp_mono; [by apply (enqueue_event_spec hmac_sha256)|].
  intros r e1 m1 (Hi1 & _ & Hc1 & Hl1 & Hq1 & [(-> & Hp1 & Hs1)|(-> & Hp1 & Hs1 & _)]);
    destruct retry; cbn beta iota zeta;
    unfold flush_from_first; wp_steps.
  all: assert (Hall : Forall (fun c => (c < ncpu m)%nat) (seq 0 (ncpu m1)))
    by (rewrite Hl1; apply Forall_seq; intros; lia).
  all: try pose proof (views_pending _ _ Hp1) as Hpe.
  all: split; cbn [made_by handed_by refused_by in_flight todo option_list length app]; rewrite ?Hq1; try done;
    try (by apply chan_still; rewrite ?Hs1); try (by rewrite Hs1);
    try (intros c Hc; left; apply elem_of_seq; apply view_at_lt in Hc; lia);
    try (cbn [work]; rewrite ?length_seq, ?Hp1, ?Hpe, ?length_app; cbn [length]; lia).
  1,2: by rewrite Permutation_app_comm in Hp1.
  - split_and!; [by constructor|by constructor|by right].
  - by rewrite Hpe.
  - by apply (cover_same (Enqueueing ev true) (Returned 0)).
  - split_and!; [by apply Forall_singleton|done|done].
  - by rewrite Hpe.
Qed.

Lemma advance_send ev rest next e m :
  minv m -> pc_ok (ncpu m) (Sending ev rest next) ->
  wp (advance aead_encrypt (Sending ev rest next))
    (fun p' _ m' => moved (Sending ev rest next) m p' m') e m.
Proof using aead_length.
  intros Hi (Hw & Ht & _). cbn [in_flight] in Hw. apply Forall_cons_iff in Hw as [Hev Hw].
  pose proof Hi as (Hne & Hbufs & Hq & Hst & Hch). destruct (stats_small m Hi) as (Hq0 & Ht0 & Hs0 & Hf0).
  cbn [advance]. wp_step. unfold hand_over. wp_step. apply wp_zoom.
  eapply wp_mono; [by apply (send_deliver hmac_sha256 aead_encrypt aead_length)|].
  intros r e1 ch1 (Hch1 & _ & Hd1 & Hr1 & _). destruct (inc_ok _ Hst) as (? & ? & _). wp_steps.
  all: split; cbn [made_by handed_by refused_by in_flight todo option_list length app]; try done;
    try (unfold manager_inv; by split_and!); try (cbn [work]; unfold pending; cbn; lia);
    try (by apply (cover_same (Sending ev rest next) (Flushing rest next) m)).
  - exists 0%nat, 1%nat. rewrite (Hr1 Heqb) in *. split_and!; [|symmetry; exact Hs0|done].
    eapply deliver_lost; [exact Heqb|exact Hd1|apply deliver_nil].
  - exists 1%nat, 0%nat. split_and!; [|done|symmetry; exact Hf0]. subst r.
    eapply deliver_sent; [exact Hd1|apply deliver_nil].
Qed.

(** A thread that has not returned can move in every environment, and its
    step is as above. *)
Lemma advance_spec p e m :
  minv m -> pc_ok (ncpu m) p -> returned p = false ->
  wp (advance aead_encrypt p) (fun p' _ m' => moved p m p' m') e m.
Proof using aead_length.
  intros Hi Hok Hr. destruct p as [c|ev retry|[|cpu rest] next|ev rest next|ret]; [..|done].
  - apply advance_call; [done|apply Hok].
  - by apply advance_enqueue.
  - pose proof (moved_flushed next m Hi Hok) as H. by destruct next.
  - by apply advance_take.
  - by apply advance_send.
Qed.

(** ** The system as a whole *)
Section threads.
Context {A : Type} (l : list A) (i : nat) (a a' : A) (Hi : l !! i = Some a).

Lemma sum_insert (f : A -> nat) :
  (sum_list (f <$> <[i := a']> l) + f a = sum_list (f <$> l) + f a')%nat.
Proof using Hi.
  rewrite <- (take_drop_middle l i a Hi) at 2. rewrite insert_take_drop by by eapply lookup_lt_Some.
  rewrite !fmap_app, !fmap_cons. induction (f <$> take i l); simpl; lia.
Qed.

Lemma concat_insert {B} (f : A -> list B) :
  concat (f <$> <[i := a']> l) ++ f a ≡ₚ concat (f <$> l) ++ f a'.
Proof using Hi.
  rewrite <- (take_drop_middle l i a Hi) at 2. rewrite insert_take_drop by by eapply lookup_lt_Some.
  rewrite !fmap_app, !fmap_cons, !concat_app. cbn [concat]. solve_Permutation.
Qed.
End threads.

(** What every system holds that [cs] threads on [m0] lead to. *)
Record system_inv (m0 : manager) (cs : nat) (s : system) : Prop := {
  si_inv : minv (shared s);
  si_cpus : ncpu (shared s) = ncpu m0;
  si_threads : length (threads s) = cs;
  si_pcs : Forall (pc_ok (ncpu m0)) (threads s);
  si_events : handed s ++ refused s ++ concat (in_flight <$> threads s) ++ pending (shared s) ≡ₚ made s;
  si_chan : exists n k, deliver aead_encrypt (handed s) (chan m0) n k (chan (shared s)) /\
    total_sent (g_stats (shared s)) = u64 (total_sent (g_stats m0) + Z.of_nat n) /\
    send_failures (g_stats (shared s)) = u64 (send_failures (g_stats m0) + Z.of_nat k);
  si_made : length (made s) = sum_list (begun <$> threads s);
  si_counter : g_sequence_counter (shared s) =
    u64 (g_sequence_counter m0 + Z.of_nat (length (made s)));
  si_numbers j ev : made s !! j = Some ev ->
    sequence_num ev = u64 (g_sequence_counter m0 + 1 + Z.of_nat j);
  si_total : total_events (g_stats (shared s)) =
    u64 (total_events (g_stats m0) + Z.of_nat (length (made s)));
  si_refused : length (refused s) = sum_list (failed <$> threads s);
  si_cover c : view_at (shared s) c <> [] -> exists i p, threads s !! i = Some p /\ c ∈ todo p;
}.

Definition work_left (s : system) : nat :=
  sum_list (work (ncpu (shared s)) <$> threads s) + 2 * length (pending (shared s)).

Lemma u64_add a b : u64 (u64 a + b) = u64 (a + b).
Proof. unfold u64, wrap. by rewrite Zplus_mod_idemp_l. Qed.

Lemma system_inv_start cs m :
  minv m -> drained m -> Forall call_ok cs -> system_inv m (length cs) (smp_start cs m).
Proof.
  intros Hi Hd Hcs. destruct (stats_small m Hi) as (Hq & Ht & _).
  assert (Hz : forall f : pc -> nat, (forall c, f (Calling c) = 0%nat) ->
    sum_list (f <$> (Calling <$> cs)) = 0%nat).
  { intros f Hf. clear Hcs. induction cs; simpl; rewrite ?Hf; auto. }
  assert (He : concat (in_flight <$> (Calling <$> cs)) = []) by (clear; by induction cs).
  split; cbn [smp_start threads shared made handed refused length app]; try done.
  - by apply length_fmap.
  - apply Forall_fmap. eapply List.Forall_impl; [|exact Hcs]. intros c Hc. by split_and!.
  - rewrite He, (pending_drained m Hd). done.
  - by apply chan_still.
  - by rewrite Hz.
  - by rewrite Hz.
  - intros c Hc. exfalso. apply Hc. unfold view_at.
    destruct (event_buffers m !! c) as [b|] eqn:E; [|done]. exact (Forall_lookup_1 _ _ _ _ Hd E).
Qed.

Lemma step_moved i e m0 n s s' :
  system_inv m0 n s -> smp_step aead_encrypt i e s s' ->
  exists p p', threads s !! i = Some p /\ returned p = false /\ threads s' = <[i := p']> (threads s) /\
    made s' = made s ++ made_by p p' /\ handed s' = handed s ++ handed_by p /\
    refused s' = refused s ++ refused_by p p' /\ moved p (shared s) p' (shared s').
Proof using aead_length.
  intros Hs Hst. destruct Hst as [ts m mk hd rf p p' e' m' Hp Hr Ha]. exists p, p'.
  split_and!; try done. destruct Hs as [Hi Hn _ Hpcs]. cbn in *.
  apply (run_wp _ (fun p' _ m' => moved p m p' m') _ _ _ _ _ Ha), advance_spec; [done| |done].
  rewrite Hn. by eapply Forall_lookup_1.
Qed.

Lemma events_step (h r x y pd pd' mk hb rb mb f f' : list photon_event) :
  h ++ r ++ y ++ pd ≡ₚ mk -> hb ++ rb ++ f' ++ pd' ≡ₚ mb ++ f ++ pd -> x ++ f ≡ₚ y ++ f' ->
  (h ++ hb) ++ (r ++ rb) ++ x ++ pd' ≡ₚ mk ++ mb.
Proof.
  intros Hm Hs Hx. apply (Permutation_app_inv_r f).
  trans (h ++ r ++ hb ++ rb ++ pd' ++ (x ++ f)); [solve_Permutation|]. rewrite Hx.
  trans (h ++ r ++ y ++ (hb ++ rb ++ f' ++ pd')); [solve_Permutation|]. rewrite Hs, <- Hm.
  solve_Permutation.
Qed.

Lemma system_inv_step i e m0 n s s' :
  system_inv m0 n s -> smp_step aead_encrypt i e s s' -> system_inv m0 n s'.
Proof using aead_length.
  intros Hs Hst. destruct (step_moved _ _ _ _ _ _ Hs Hst) as (p & p' & Hp & Hr & Ht & Hm & Hh & Hrf & Hmv).
  destruct Hs, Hmv. rewrite si_cpus0 in *.
  pose proof (sum_insert _ _ _ p' Hp begun) as Hs1. pose proof (sum_insert _ _ _ p' Hp failed) as Hs2.
  pose proof (concat_insert _ _ _ p' Hp in_flight) as Hc.
  split; rewrite ?Ht, ?Hm, ?Hh, ?Hrf; try done.
  - by rewrite length_insert.
  - by apply Forall_insert.
  - by eapply events_step.
  - destruct si_chan0 as (n1 & k1 & Hd1 & Hs1' & Hf1), mv_chan0 as (n2 & k2 & Hd2 & Hs2' & Hf2).
    exists (n1 + n2)%nat, (k1 + k2)%nat. rewrite Hs2', Hf2, Hs1', Hf1, !u64_add, !Nat2Z.inj_add, !Z.add_assoc.
    split_and!; [by eapply deliver_app|done|done].
  - rewrite length_app, si_made0. lia.
  - by rewrite mv_seq0, si_counter0, u64_add, length_app, Nat2Z.inj_add, Z.add_assoc.
  - intros j ev [Hj|[Hl Hj]]%lookup_app_Some; [by apply si_numbers0|].
    rewrite (Forall_lookup_1 _ _ _ _ mv_num0 Hj), mv_seq0, si_counter0, u64_add.
    assert (length (made_by p p') = 1%nat /\ j = length (made s)) as [-> ->].
    { destruct p, p'; cbn in *; try done. destruct (j - length (made s))%nat eqn:E; [lia|done]. }
    f_equal. lia.
  - by rewrite mv_total0, si_total0, u64_add, length_app, Nat2Z.inj_add, Z.add_assoc.
  - rewrite length_app. assert (failed p = 0%nat) by (by destruct p). lia.
  - intros c Hcv. pose proof (lookup_lt_Some _ _ _ Hp) as Hlt.
    destruct (mv_cover0 c Hcv) as [Hin|[Hcv0 Hnin]].
    + exists i, p'. by rewrite list_lookup_insert_eq.
    + destruct (si_cover0 c Hcv0) as (j & q & Hq & Hin). exists j, q.
      rewrite list_lookup_insert_ne; [done|]. intros ->. naive_solver.
Qed.

Lemma work_step i e m0 n s s' :
  system_inv m0 n s -> smp_step aead_encrypt i e s s' -> (work_left s' < work_left s)%nat.
Proof using aead_length.
  intros Hs Hst. destruct (step_moved _ _ _ _ _ _ Hs Hst) as (p & p' & Hp & Hr & Ht & _ & _ & _ & Hmv).
  pose proof (sum_insert _ _ _ p' Hp (work (ncpu (shared s)))) as Hw.
  destruct Hmv. unfold work_left. rewrite Ht, mv_cpus0. lia.
Qed.

Lemma system_inv_steps n cs m s :
  minv m -> drained m -> Forall call_ok cs ->
  smp_steps aead_encrypt n (smp_start cs m) s ->
  system_inv m (length cs) s /\ (n + work_left s <= length cs * (2 * ncpu m + 7))%nat.
Proof using aead_length.
  intros Hi Hd Hcs. remember (smp_start cs m) as s0 eqn:E. induction 1 as [s|n i e s1 s2 s3 Hss IH Hst]; subst.
  - split; [by apply system_inv_start|]. unfold work_left. cbn [smp_start threads shared].
    rewrite (pending_drained m Hd). cbn [length]. clear Hcs. induction cs; cbn in *; lia.
  - destruct (IH eq_refl) as [Hs2 Hw]. split; [by eapply system_inv_step|].
    pose proof (work_step _ _ _ _ _ _ Hs2 Hst). lia.
Qed.

(** *** When every thread has returned *)
Definition all_returned (ts : list pc) : Prop := Forall (fun p => returned p = true) ts.

Lemma all_returned_none ts : all_returned ts -> concat (in_flight <$> ts) = [].
Proof. induction 1 as [|p l Hp _ IH]; [done|]. cbn. rewrite IH. by destruct p. Qed.

Lemma all_returned_begun ts : all_returned ts -> sum_list (begun <$> ts) = length ts.
Proof. induction 1 as [|p l Hp _ IH]; [done|]. cbn. rewrite IH. by destruct p. Qed.

Lemma all_returned_codes n ts :
  all_returned ts -> Forall (pc_ok n) ts ->
  Forall (fun p => p = Returned 0 \/ p = Returned (- ENOSPC)%Z) ts.
Proof.
  unfold all_returned. rewrite !Forall_forall. intros Hret Hok p Hp.
  specialize (Hret p Hp). specialize (Hok p Hp).
  destruct p; try done. destruct Hok as (_ & _ & [->| ->]); [by left|by right].
Qed.

Lemma all_returned_drained ts m :
  all_returned ts ->
  (forall c, view_at m c <> [] -> exists i p, ts !! i = Some p /\ c ∈ todo p) -> drained m.
Proof.
  intros Hret Hc. apply Forall_lookup. intros c b Hb.
  destruct (buffer_view b) as [|ev evs] eqn:Hv; [done|exfalso].
  destruct (Hc c) as (i & p & Hp & Hin); [unfold view_at; rewrite Hb; simpl; by rewrite Hv|].
  pose proof (Forall_lookup_1 _ _ _ _ Hret Hp). destruct p; try done. by apply not_elem_of_nil in Hin.
Qed.

(** However far the threads have got, they can all be run to their end. *)
Lemma smp_completes n cs m s :
  minv m -> drained m -> Forall call_ok cs ->
  smp_steps aead_encrypt n (smp_start cs m) s ->
  exists n' s', smp_steps aead_encrypt n' (smp_start cs m) s' /\ all_returned (threads s').
Proof using aead_length.
  intros Hi Hd Hcs. remember (work_left s) as w eqn:E. revert n s E.
  induction (lt_wf w) as [w _ IH]. intros n s -> Hst.
  destruct (system_inv_steps _ _ _ _ Hi Hd Hcs Hst) as [Hs _].
  destruct (decide (all_returned (threads s))) as [|Hnot]; [by exists n, s|].
  apply not_Forall_Exists in Hnot; [|intros p; exact _].
  apply list.Exists_exists in Hnot as (p & [i Hp]%list_elem_of_lookup_1 & Hr). apply not_true_is_false in Hr.
  pose proof Hs as [Hi' Hn _ Hpcs _ _ _ _ _ _ _ _]. rewrite <- Hn in Hpcs.
  pose (e := mk_env [] [] [] 0 [] (mk_task 0 EmptyString)).
  destruct (wp_run _ _ _ _ (advance_spec p e (shared s) Hi' (Forall_lookup_1 _ _ _ _ Hpcs Hp) Hr))
    as (p' & e' & m' & Ha & _).
  assert (Hstep : exists s', smp_step aead_encrypt i e s s').
  { destruct s. eexists. by eapply smp_advance. }
  destruct Hstep as [s' Hstep]. eapply (IH (work_left s')); [by eapply work_step|done|].
  eapply smp_more; [exact Hst|exact Hstep].
Qed.

(** ** One thread alone *)
Abbreviation runs := (runs aead_encrypt).

Lemma runs_trans p1 e1 m1 p2 e2 m2 p3 e3 m3 :
  runs p1 e1 m1 p2 e2 m2 -> runs p2 e2 m2 p3 e3 m3 -> runs p1 e1 m1 p3 e3 m3.
Proof. induction 1; [done|]. intros H3. eapply runs_advance; [done|done|auto]. Qed.

Lemma runs_one p e m p' e' m' :
  returned p = false -> advance aead_encrypt p e m = Ret (p', e', m') -> runs p e m p' e' m'.
Proof. intros Hr Ha. eapply runs_advance; [done|exact Ha|apply runs_refl]. Qed.

(** [hand_over] as it stands in the loop of [flush_event_buffer]. *)
Lemma hand_over_runs ev e m :
  minv m -> packed_wf ev ->
  exists r e' ch, photon_send_encrypted_event aead_encrypt ev e (chan m) = Ret (r, e', ch) /\
    let m' := set_stats (if negb (Z.eqb r 0) then inc_failures (g_stats m) else inc_sent (g_stats m))
                (set_chan ch m) in
    hand_over aead_encrypt ev e m = Ret (tt, e', m') /\ minv m'.
Proof using aead_length.
  intros (Hne & Hbufs & Hq & Hst & Hch) Hev.
  destruct (wp_run _ _ _ _ (send_deliver hmac_sha256 aead_encrypt aead_length ev e _ Hch Hev))
    as (r & e' & ch & Hrun & Hch' & _).
  exists r, e', ch. split; [exact Hrun|]. cbv zeta. destruct (inc_ok _ Hst) as (? & ? & _). split.
  - unfold hand_over, mbind, M_bind, on_channel, zoom. rewrite Hrun. by destruct (negb _).
  - unfold manager_inv. destruct (negb _); by split_and!.
Qed.

(** Up to the lock, which the loop holds, [m'] is where a thread gets that
    flushes the buffer of [cpu]. *)
Definition flush_runs cpu rest next e m (e' : env) (m' : manager) : Prop :=
  exists b' mu, m' = put_buffer cpu (set_lock true b') mu /\
    event_buffers mu !! cpu = Some b' /\ minv mu /\ ncpu mu = ncpu m /\
    runs (Flushing (cpu :: rest) next) e m (Flushing rest next) e' mu.

Lemma flush_loop_runs fuel cpu b rest next e m :
  minv m -> event_buffers m !! cpu = Some b -> (length (buffer_view b) <= fuel)%nat ->
  wp (flush_loop aead_encrypt fuel cpu) (fun _ => flush_runs cpu rest next e m)
    e (put_buffer cpu (set_lock true b) m).
Proof using aead_length.
  revert b e m. induction fuel as [|fuel IH]; intros b e m Hi Hb Hlen;
    pose proof (lookup_lt_Some _ _ _ Hb) as Hlt; pose proof Hi as (Hne & Hbufs & Hq & Hst & Hch);
    pose proof (Forall_lookup_1 _ _ _ _ Hbufs Hb) as Hbi; pose proof Hbi as (Hl & Hwf & _);
    destruct (buffer_view b) as [|ev evs] eqn:Hv; simpl in Hlen; try lia.
  1,2: cbn [flush_loop]; wp_step; (eapply wp_on_buffer; [by apply put_buffer_lookup|]);
    (eapply wp_eq; [by apply (take_event_nil true)|]); wp_steps; exists b, m;
    rewrite put_buffer_put; split_and!; try done; apply runs_one; [done|]; cbn [advance];
    unfold mbind at 1, M_bind at 1;
    rewrite (take_locked_eq cpu b b None) by (done || by apply (take_event_nil true));
    cbn; unfold put_buffer; rewrite list_insert_id by done; by destruct m.
  cbn [flush_loop]. wp_step. eapply wp_on_buffer; [by apply put_buffer_lookup|].
  destruct (take_event_cons true ev evs e b Hbi Hv) as (b1 & Ht & Hi1 & <- & _ & Hc1).
  eapply wp_eq; [exact Ht|]. cbn beta iota.
  wp_step. eapply wp_on_buffer; [rewrite put_buffer_put; by apply put_buffer_lookup|]. apply wp_mutex_unlock.
  cbn beta. rewrite !put_buffer_put, set_lock_restore by apply Hi1.
  apply Forall_cons_iff in Hwf as [Hev _].
  assert (Hm1 : minv (put_buffer cpu b1 m)).
  { unfold manager_inv, put_buffer. cbn. split_and!; try done; [by apply insert_not_nil|by apply Forall_insert]. }
  destruct (hand_over_runs ev e _ Hm1 Hev) as (r & e1 & ch & Hrun & Hho & Hm2). cbv zeta in Hho, Hm2.
  set (m2 := set_stats _ _) in *. wp_step. apply wp_zoom. eapply wp_eq; [exact Hrun|].
  assert (Hb2 : event_buffers m2 !! cpu = Some b1) by (by apply put_buffer_lookup).
  assert (Hgoal : wp (on_buffer cpu spin_lock ;; flush_loop aead_encrypt fuel cpu) (fun _ => flush_runs cpu rest next e m) e1 m2).
  { wp_step. eapply wp_on_buffer; [exact Hb2|]. apply wp_mutex_lock; [apply Hi1|].
    eapply wp_mono; [apply (IH b1); [exact Hm2|exact Hb2|lia]|].
    intros _ e' m' (b' & mu & -> & Hbm & Him & Hn & Hr). exists b', mu. split_and!; try done.
    { rewrite Hn. apply length_insert. }
    apply (runs_advance _ _ _ _ (Sending ev (cpu :: rest) next) e (put_buffer cpu b1 m)); [done| |].
    2: eapply runs_advance; [done| |exact Hr].
    - cbn [advance]. unfold mbind at 1, M_bind at 1.
      rewrite (take_locked_eq cpu b b1 (Some ev)); try done; apply Hi1.
    - cbn [advance]. unfold mbind at 1, M_bind at 1. rewrite Hho. reflexivity. }
  cbn beta. subst m2. wp_step. destruct (negb (r =? 0)%Z); wp_step; exact Hgoal.
Qed.

Lemma flush_event_buffer_runs cpu rest next e m :
  minv m -> (cpu < ncpu m)%nat ->
  wp (flush_event_buffer aead_encrypt cpu) (fun _ e' m' =>
    minv m' /\ ncpu m' = ncpu m /\
    runs (Flushing (cpu :: rest) next) e m (Flushing rest next) e' m') e m.
Proof using aead_length.
  intros Hi Hlt. pose proof Hi as (_ & Hbufs & _). destruct (lookup_lt_is_Some_2 _ _ Hlt) as [b Hb].
  pose proof (Forall_lookup_1 _ _ _ _ Hbufs Hb) as Hinv.
  pose proof (bq_bound b Hinv) as Hbound. simpl in Hbound.
  unfold flush_event_buffer. wp_step. eapply wp_on_buffer; [exact Hb|].
  apply wp_mutex_lock; [apply Hinv|]. cbn beta.
  wp_step. eapply wp_on_buffer; [by apply put_buffer_lookup|]. wp_step. cbn beta.
  rewrite put_buffer_put. wp_step. eapply wp_mono.
  { apply (flush_loop_runs _ cpu b rest next); [done|done|]. simpl. lia. }
  intros _ e' m' (b' & mu & -> & Hbm & Him & Hn & Hr).
  eapply wp_on_buffer; [apply put_buffer_lookup; by apply lookup_lt_Some in Hbm|].
  apply wp_mutex_unlock. rewrite put_buffer_put, set_lock_restore.
  2: { pose proof Him as (_ & Hf & _). by apply (Forall_lookup_1 _ _ _ _ Hf Hbm). }
  unfold put_buffer. rewrite list_insert_id by done. by destruct mu.
Qed.

Lemma flush_each_runs cpus next e m :
  minv m -> Forall (fun c => (c < ncpu m)%nat) cpus ->
  wp (for_each cpus (flush_event_buffer aead_encrypt)) (fun _ e' m' =>
    minv m' /\ ncpu m' = ncpu m /\
    runs (Flushing cpus next) e m (Flushing [] next) e' m') e m.
Proof using aead_length.
  revert e m. induction cpus as [|cpu cpus IH]; intros e m Hi Hf; cbn [for_each].
  { wp_step. split_and!; [done|done|apply runs_refl]. }
  apply Forall_cons_iff in Hf as [Hc Hf]. wp_step.
  eapply wp_mono; [by apply (flush_event_buffer_runs _ cpus next)|].
  intros _ e1 m1 (Hi1 & Hn1 & Hr1). cbn beta. eapply wp_mono; [apply IH; [done|by rewrite Hn1]|].
  intros _ e2 m2 (Hi2 & Hn2 & Hr2). split_and!; [done|congruence|by eapply runs_trans].
Qed.

Lemma flush_all_runs next e m :
  minv m ->
  wp (flush_all_buffers aead_encrypt) (fun _ e' m' =>
    minv m' /\ runs (Flushing (seq 0 (ncpu m)) next) e m (Flushing [] next) e' m') e m.
Proof using aead_length.
  intros Hi. unfold flush_all_buffers, for_each_possible_cpu. wp_steps.
  eapply wp_mono; [apply (flush_each_runs _ next); [done|apply Forall_seq; lia]|].
  by intros _ e' m' (? & _ & ?).
Qed.

(** The enqueueing step, in a run. *)
Lemma enqueue_runs ev retry e m r e' m' :
  enqueue_event ev e m = Ret (r, e', m') ->
  runs (Enqueueing ev retry) e m
    (if Z.eqb r 0 then Flushing (seq 0 (ncpu m')) None
     else if (retry : bool) then Returned r else Flushing (seq 0 (ncpu m')) (Some ev)) e' m'.
Proof.
  intros H. apply runs_one; [done|]. cbn [advance]. unfold mbind at 1, M_bind at 1. rewrite H.
  by destruct (r =? 0)%Z, retry.
Qed.

Lemma submit_runs ev e m :
  minv m -> packed_wf ev ->
  wp (submit_event aead_encrypt ev) (fun r e' m' =>
    runs (Enqueueing ev false) e (set_stats (inc_events (g_stats m)) m) (Returned r) e' m') e m.
Proof using aead_length.
  intros Hi Hev. pose proof (manager_inv_count _ m Hi) as Hi0. unfold submit_event. wp_steps.
  set (m0 := set_stats _ _) in *.
  assert (Hend : forall p e1 m1, minv m1 -> runs (Enqueueing ev false) e m0 p e1 m1 ->
    p = Flushing (seq 0 (ncpu m1)) None ->
    wp (flush_all_buffers aead_encrypt) (fun _ e' m' =>
      runs (Enqueueing ev false) e m0 (Returned 0) e' m') e1 m1).
  { intros p e1 m1 Hi1 Hr ->. eapply wp_mono; [by apply (flush_all_runs None)|].
    intros _ e2 m2 (_ & Hr2). eapply runs_trans; [exact Hr|].
    eapply runs_trans; [exact Hr2|]. by apply runs_one. }
  destruct (wp_run _ _ _ _ (enqueue_event_spec hmac_sha256 ev e m0 Hi0 Hev))
    as (r & e1 & m1 & Hrun & Hi1 & _). eapply wp_eq; [exact Hrun|].
  pose proof (enqueue_runs _ false _ _ _ _ _ Hrun) as Hr1.
  destruct (Z.eqb_spec r 0) as [->|Hr]; wp_steps; [exact (Hend _ _ _ Hi1 Hr1 eq_refl)|].
  eapply wp_mono; [by apply (flush_all_runs (Some ev))|]. intros _ e2 m2 (Hi2 & Hr2). cbn beta.
  destruct (wp_run _ _ _ _ (enqueue_event_spec hmac_sha256 ev e2 m2 Hi2 Hev))
    as (r' & e3 & m3 & Hrun3 & Hi3 & _). eapply wp_eq; [exact Hrun3|].
  pose proof (enqueue_runs _ true _ _ _ _ _ Hrun3) as Hr3.
  assert (Hr03 : runs (Enqueueing ev false) e m0 (Enqueueing ev true) e2 m2).
  { eapply runs_trans; [exact Hr1|]. eapply runs_trans; [exact Hr2|]. by apply runs_one. }
  pose proof (runs_trans _ _ _ _ _ _ _ _ _ Hr03 Hr3) as Hrr.
  destruct (Z.eqb_spec r' 0) as [->|Hr']; wp_steps; [exact (Hend _ _ _ Hi3 Hrr eq_refl)|exact Hrr].
Qed.

Lemma smp_steps_trans n1 n2 s1 s2 s3 :
  smp_steps aead_encrypt n1 s1 s2 -> smp_steps aead_encrypt n2 s2 s3 ->
  smp_steps aead_encrypt (n2 + n1) s1 s3.
Proof. intros H1. induction 1; [done|]. simpl. eapply smp_more; eauto. Qed.

Lemma step_of_step i e s s' :
  step_of aead_encrypt i e s = Some s' -> smp_step aead_encrypt i e s s'.
Proof.
  destruct s as [ts m mk hd rf]. unfold step_of. cbn [threads shared made handed refused].
  destruct (ts !! i) as [p|] eqn:Hp; [|done]. destruct (returned p) eqn:Hr; [done|].
  destruct (advance aead_encrypt p e m) as [[[p' e'] m']| |] eqn:Ha; [|done|done].
  intros [= <-]. by eapply smp_advance.
Qed.

Lemma schedule_steps turns s s' :
  schedule aead_encrypt turns s = Some s' -> smp_steps aead_encrypt (length turns) s s'.
Proof.
  revert s. induction turns as [|[i e] turns IH]; intros s; cbn [schedule length].
  { intros [= <-]. apply smp_refl. }
  destruct (step_of aead_encrypt i e s) as [s1|] eqn:E; [|done]. intros H.
  rewrite <- Nat.add_1_r. eapply smp_steps_trans; [|by apply IH].
  eapply (smp_more _ _ i e); [apply smp_refl|by apply step_of_step].
Qed.

(** A run is a run of the system with that thread only. *)
Lemma runs_system p e m p' e' m' mk hd rf :
  runs p e m p' e' m' ->
  exists n s, smp_steps aead_encrypt n (mk_system [p] m mk hd rf) s /\
    threads s = [p'] /\ shared s = m'.
Proof.
  intros H. revert mk hd rf. induction H as [p e m|p e m p1 e1 m1 p2 e2 m2 Hr Ha _ IH]; intros mk hd rf.
  { eexists 0%nat, _. split; [apply smp_refl|done]. }
  destruct (IH (mk ++ made_by p p1) (hd ++ handed_by p) (rf ++ refused_by p p1)) as (n & s & Hs & ? & ?).
  exists (n + 1)%nat, s. split; [|done]. eapply smp_steps_trans; [|exact Hs].
  eapply (smp_more _ _ 0); [apply smp_refl|].
  exact (smp_advance aead_encrypt 0 e [p] m mk hd rf p p1 e1 m1 eq_refl Hr Ha).
Qed.

Lemma log_runs c e m :
  minv m -> log_data_ok (lc_data c) (lc_len c) ->
  wp (log aead_encrypt c) (fun r e' m' => runs (Calling c) e m (Returned r) e' m') e m.
Proof using aead_length.
  intros Hi Hd. unfold log, photon_log_event. cbv zeta.
  destruct (Z.ltb_spec (Z.of_nat PHOTON_MAX_EVENT_DATA) (u16 (lc_len c))) as [Hl|Hl].
  { wp_step. apply runs_one; [done|]. cbn [advance]. unfold log_prepare. cbv zeta.
    by rewrite (proj2 (Z.ltb_lt _ _) Hl). }
  assert (Hcopy : forall e (m : manager), (match lc_data c with
    | Some d => if decide (length d < Z.to_nat (u16 (lc_len c)))%nat then fault else mret tt
    | None => mret tt end) e m = Ret (tt, e, m)).
  { intros e0 m0. destruct (lc_data c) as [d|] eqn:E; [|done]. unfold log_data_ok in Hd.
    rewrite decide_False by lia. done. }
  set (m1 := set_sequence (u64 (g_sequence_counter m + 1)) m).
  assert (exists t e1, ktime_get e m1 = Ret (t, e1, m1) /\ stat_range t) as (t & e1 & Ht & Hr).
  { unfold ktime_get. destruct (env_time e) as [|t ts]; [by exists 0%Z, e|].
    exists (u64 t), (set_time ts e). split; [done|apply u64_stat]. }
  do 4 (wp_step; cbn beta). wp_step. eapply wp_eq; [exact Ht|]. cbn beta.
  wp_steps. eapply wp_eq; [apply Hcopy|]. cbn beta. set (ev := make_event _ _ _ _ _ _ _ _).
  eapply wp_mono; [apply submit_runs|].
  - destruct Hi as (? & ? & ? & ? & ?). unfold manager_inv. simpl. split_and!; auto using u64_stat.
  - apply make_event_wf; [apply u64_stat|done|apply u16_range].
  - intros r e2 m2 Hrun. eapply runs_advance; [done| |exact Hrun]. cbn [advance]. unfold log_prepare.
    cbv zeta. rewrite (proj2 (Z.ltb_ge _ _)) by done. unfold mbind, M_bind, modify, get, count. fold m1.
    rewrite Ht. cbn [get_current]. by rewrite Hcopy.
Qed.

(** ** The properties *)
(** C4. Threads that call photon_log_event at the same time lose nothing: wherever they stand, every event made is in exactly one place - handed to the channel, refused, held by a thread or in a buffer - and the events made are numbered consecutively modulo 2^64 in the order of the atomic increments. Once all have returned, no event waits in a buffer, each call has made one event, the events refused are as many as the calls that returned -ENOSPC, all others were handed to the channel exactly once, and total_sent, send_failures and total_events count them. *)
Theorem concurrent_logging_exact cs n m s :
  minv m -> drained m -> Forall call_ok cs ->
  smp_steps aead_encrypt n (smp_start cs m) s ->
  handed s ++ refused s ++ concat (in_flight <$> threads s) ++ pending (shared s) ≡ₚ made s /\
  (forall j ev, made s !! j = Some ev ->
     sequence_num ev = u64 (g_sequence_counter m + 1 + Z.of_nat j)) /\
  (all_returned (threads s) ->
   drained (shared s) /\ handed s ++ refused s ≡ₚ made s /\
   length (made s) = length cs /\
   Forall (fun p => p = Returned 0 \/ p = Returned (- ENOSPC)) (threads s) /\
   length (refused s) = sum_list (failed <$> threads s) /\
   exists sent lost, deliver aead_encrypt (handed s) (chan m) sent lost (chan (shared s)) /\
     total_sent (g_stats (shared s)) = u64 (total_sent (g_stats m) + Z.of_nat sent) /\
     send_failures (g_stats (shared s)) = u64 (send_failures (g_stats m) + Z.of_nat lost) /\
     total_events (g_stats (shared s)) = u64 (total_events (g_stats m) + Z.of_nat (length cs))).
Proof using aead_length.
  intros Hi Hd Hcs Hst. destruct (system_inv_steps _ _ _ _ Hi Hd Hcs Hst) as [[] _].
  split_and!; [done|done|]. intros Hret.
  assert (Hdr : drained (shared s)) by (by eapply all_returned_drained).
  destruct si_chan0 as (sent & lost & Hdel & Hs & Hf).
  assert (Hlen : length (made s) = length cs) by (rewrite si_made0, <- si_threads0; by apply all_returned_begun).
  split_and!; try done.
  - rewrite <- si_events0, (pending_drained _ Hdr), (all_returned_none _ Hret). by rewrite !app_nil_r.
  - by eapply all_returned_codes.
  - exists sent, lost. by rewrite si_total0, Hlen.
Qed.

(** C18. Concurrent calls of photon_log_event end: at any point a thread that has not returned can make its next step, whatever the environment - no deadlock, no fault - and all steps together are at most 2 * CPUs + 7 per call, whoever moves when. *)
Theorem concurrent_logging_terminates cs n m s :
  minv m -> drained m -> Forall call_ok cs ->
  smp_steps aead_encrypt n (smp_start cs m) s ->
  (n <= length cs * (2 * length (event_buffers m) + 7))%nat /\
  forall i p e, threads s !! i = Some p -> returned p = false ->
    exists s', smp_step aead_encrypt i e s s'.
Proof using aead_length.
  intros Hi Hd Hcs Hst. destruct (system_inv_steps _ _ _ _ Hi Hd Hcs Hst) as [Hs Hw].
  split; [lia|]. intros i p e Hp Hr. destruct Hs as [Hi' Hn _ Hpcs]. rewrite <- Hn in Hpcs.
  destruct (wp_run _ _ _ _ (advance_spec p e (shared s) Hi' (Forall_lookup_1 _ _ _ _ Hpcs Hp) Hr))
    as (p' & e' & m' & Ha & _).
  destruct s as [ts sh mk hd rf]. eexists. by eapply smp_advance.
Qed.

(** The two renderings of photon_log_event agree: the sequential operation is a run of one thread of the concurrent system, with the same result and the same state of buffers, counters, channel and environment, although flush_event_buffer holds the lock across the turns of its loop and take_locked takes it anew. *)
Theorem sequential_is_one_thread c e m :
  minv m -> log_data_ok (lc_data c) (lc_len c) ->
  wp (log aead_encrypt c) (fun r e' m' =>
    runs (Calling c) e m (Returned r) e' m' /\
    exists n s, smp_steps aead_encrypt n (smp_start [c] m) s /\
      threads s = [Returned r] /\ shared s = m') e m.
Proof using aead_length.
  intros Hi Hd. eapply wp_mono; [by apply log_runs|]. intros r e' m' Hr. split; [exact Hr|].
  exact (runs_system _ _ _ _ _ _ [] [] [] Hr).
Qed.
End facts.
