(* ===== verification/Arch.v ===== *)
(** * Register access
    [include/photon_ring_arch.h]: the two argument-extraction macros, as
    functions of the architecture the module is compiled for, and the shims
    [pr_get_arg] and [pr_get_ret] of [modules/hook_file_access.c].
    [regs_get_kernel_argument] is the kernel's: a parameter. *)
From Stdlib Require Import ZArith Lia.
From stdpp Require Import base numbers list option.
From S2P Require Import Prelude.

Inductive arch := X86_64 | ARM64 | OTHER_ARCH.

#[export] Instance arch_eq_dec : EqDecision arch.
Proof. solve_decision. Defined.

(** [struct pt_regs]: the named registers of x86_64 and [regs[]] of ARM64. *)
Record pt_regs := mk_pt_regs {
  di : Z; si : Z; dx : Z; cx : Z; r8 : Z; r9 : Z; ax : Z;
  regs : list Z;
}.

(** What [ftrace_get_regs] gives for a [struct ftrace_regs]. *)
Record ftrace_regs := mk_ftrace_regs { ftrace_get_regs : option pt_regs }.

(** The [switch] of the x86_64 variants. *)
Definition x86_argument (r : pt_regs) (n : nat) : Z :=
  match n with
  | 0 => di r
  | 1 => si r
  | 2 => dx r
  | 3 => cx r
  | 4 => r8 r
  | 5 => r9 r
  | _ => 0%Z
  end%nat.

Definition arm64_argument (r : pt_regs) (n : nat) : Z :=
  if decide (n < 8)%nat then default 0%Z (regs r !! n) else 0%Z.

(** Kernels from 5.0 on have [regs_get_kernel_argument]. *)
Definition PHOTON_RING_KPROBE_GET_ARG (regs_get_kernel_argument : pt_regs -> nat -> Z)
    (modern : bool) (a : arch) (r : pt_regs) (n : nat) : Z :=
  if modern then regs_get_kernel_argument r n else
  match a with
  | X86_64 => x86_argument r n
  | ARM64 => arm64_argument r n
  | OTHER_ARCH => 0
  end.

Definition PHOTON_RING_GET_ARG (a : arch) (f : ftrace_regs) (n : nat) : Z :=
  match a with
  | X86_64 => match ftrace_get_regs f with Some r => x86_argument r n | None => 0 end
  | ARM64 => match ftrace_get_regs f with Some r => arm64_argument r n | None => 0 end
  | OTHER_ARCH => 0
  end.

Definition pr_get_arg (a : arch) (r : pt_regs) (n : nat) : Z :=
  match a with
  | X86_64 => x86_argument r n
  | ARM64 => arm64_argument r n
  | OTHER_ARCH => 0
  end.

Definition pr_get_ret (a : arch) (r : pt_regs) : Z :=
  match a with
  | X86_64 => ax r
  | ARM64 => default 0%Z (regs r !! 0%nat)
  | OTHER_ARCH => 0
  end.

(** The registers at the entry of a function called with [args]: the System V
    and AAPCS64 conventions pass the first six and eight of them there. *)
Definition entry_regs (a : arch) (args : list Z) : pt_regs :=
  let arg n := default 0%Z (args !! n) in
  match a with
  | ARM64 => mk_pt_regs 0 0 0 0 0 0 0 (arg <$> seq 0 8)
  | _ => mk_pt_regs (arg 0) (arg 1) (arg 2) (arg 3) (arg 4) (arg 5) 0 []
  end%nat.

(** How many arguments the macros reach. *)
Definition reg_args (a : arch) : nat :=
  match a with X86_64 => 6 | ARM64 => 8 | OTHER_ARCH => 0 end%nat.

Lemma pr_get_arg_entry a args n :
  (n < reg_args a)%nat -> pr_get_arg a (entry_regs a args) n = default 0%Z (args !! n).
Proof.
  intros Hn. destruct a; simpl in Hn; [| |lia].
  - unfold pr_get_arg, entry_regs. by do 6 (destruct n as [|n]; [done|]); lia.
  - unfold pr_get_arg, arm64_argument, entry_regs. rewrite decide_True by done.
    cbn [regs]. rewrite list_lookup_fmap, lookup_seq_lt by done. done.
Qed.

Lemma get_arg_entry a args n :
  (n < reg_args a)%nat ->
  PHOTON_RING_GET_ARG a (mk_ftrace_regs (Some (entry_regs a args))) n = default 0%Z (args !! n).
Proof. intros Hn. rewrite <- (pr_get_arg_entry a) by done. by destruct a. Qed.

#[export] Hint Rewrite get_arg_entry pr_get_arg_entry using (simpl; lia) : photon.
