(* ===== verification/Watchlists.v ===== *)
(** * The symbol watchlist
    [include/watchlists.h]: the table of watched kernel symbols and
    [photon_is_watchlisted].  A NULL name is [None]. *)
From Stdlib Require Import Strings.String.
From stdpp Require Import base list strings option.
From S2P Require Import Prelude CString.
Open Scope string_scope.

Definition photon_watchlist : list string := [
  "tainted_mask"; "sys_call_table"; "ia32_sys_call_table"; "_stext"; "entry_SYSCALL_64";
  "filldir64"; "filldir"; "iterate_dir";
  "tcp4_seq_show"; "tcp6_seq_show"; "udp4_seq_show"; "udp6_seq_show"; "tpacket_rcv"; "icmp_rcv";
  "commit_creds"; "prepare_kernel_cred"; "cap_capable";
  "proc_pid_readdir"; "proc_pid_lookup";
  "sys_kill"; "do_send_sig_info";
  "module_alloc"; "set_memory_x"; "ftrace_ops_list"; "kthread_create_on_node"; "find_module";
  "__x64_sys_statx"; "__x64_sys_stat"; "__x64_sys_lstat"; "__x64_sys_newstat";
  "__x64_sys_newlstat"; "__x64_sys_getpriority"; "__x64_sys_newfstatat";
  "__ia32_sys_statx"; "__ia32_sys_stat"; "__ia32_sys_lstat"; "__ia32_sys_newstat";
  "__ia32_sys_newlstat"; "__ia32_sys_getpriority"; "__ia32_sys_newfstatat"].

(** The loop over a table of names with [strcmp]. *)
Fixpoint strcmp_any (name : string) (table : list string) : bool :=
  match table with
  | [] => false
  | entry :: table => if strcmp_eq entry name then true else strcmp_any name table
  end.

Definition photon_is_watchlisted (name : option string) : bool :=
  match name with
  | None => false
  | Some EmptyString => false
  | Some name => strcmp_any name photon_watchlist
  end.

Lemma strcmp_any_spec name table : strcmp_any name table = true <-> name ∈ table.
Proof.
  induction table as [|entry table IH]; simpl.
  - split; [done|by intros ?%not_elem_of_nil].
  - rewrite elem_of_cons. destruct (strcmp_eq entry name) eqn:E.
    + apply strcmp_eq_true in E. subst. tauto.
    + rewrite IH. split; [by right|intros [->|?]; [|done]].
      by rewrite (proj2 (strcmp_eq_true entry entry) eq_refl) in E.
Qed.

Lemma watchlisted_spec name :
  photon_is_watchlisted name = true <-> exists s, name = Some s /\ s ∈ photon_watchlist.
Proof.
  unfold photon_is_watchlisted. destruct name as [[|c s]|].
  - split; [done|]. intros (s & [= <-] & Hin). apply strcmp_any_spec in Hin. done.
  - rewrite strcmp_any_spec. split; [by eauto|]. by intros (s' & [= <-] & Hin).
  - split; [done|]. by intros (s & ? & _).
Qed.
