(* ===== verification/Hooks.v ===== *)
(** * Probes, the console and the interface of a detector
    The world the detectors act on: the reporting path, the set of probes that
    are registered with the kernel (named after the static [ftrace_ops],
    [kprobe], [kretprobe] or [delayed_work] they belong to), the ftrace filter
    entries, and the alerts printed.  [Detector] is what main.c needs of a
    detector and [DetectorLaws] what it relies on: a failing [init] leaves no
    probe behind, and [exit] removes exactly the detector's probes.  Progress
    messages of [printk] are not modelled; the lines that are a detection are. *)
From Stdlib Require Import ZArith Lia.
From Stdlib Require Import Strings.Byte Strings.Ascii Strings.String.
From stdpp Require Import base numbers list strings option gmap sets.
From S2P Require Import Prelude CString Kernel Events Crypto Cdev EventManager Arch Watchlists.

Inductive loglevel := KERN_ALERT | KERN_ERR | KERN_WARNING | KERN_INFO | KERN_DEBUG.

#[export] Instance loglevel_eq_dec : EqDecision loglevel.
Proof. solve_decision. Defined.

(** An argument of [printk]. *)
Inductive parg := AStr (s : string) | ANum (z : Z).
Record line := mk_line { level : loglevel; text : string; line_args : list parg }.

Record world := mk_world {
  w_manager : manager;
  w_probes : gset string;
  w_filters : gset (string * Z);
  w_console : list line;
}.

Definition set_manager m w := mk_world m (w_probes w) (w_filters w) (w_console w).
Definition set_probes p w := mk_world (w_manager w) p (w_filters w) (w_console w).
Definition set_filters f w := mk_world (w_manager w) (w_probes w) f (w_console w).
Definition set_console c w := mk_world (w_manager w) (w_probes w) (w_filters w) c.

Definition printk (l : loglevel) (text : string) (args : list parg) : M world unit :=
  modify (fun w => set_console (w_console w ++ [mk_line l text args]) w).

(** [register_ftrace_function], [register_kretprobe]: 0 and the probe is live,
    or an error and it is not. *)
Definition register_probe (name : string) : M world Z :=
  r ← kcall;
  (if Z.eqb r 0 then modify (fun w => set_probes ({[name]} ∪ w_probes w) w) else mret tt) ;;
  mret r.

(** Unregistering a probe that is not registered has no effect. *)
Definition unregister_probe (name : string) : M world unit :=
  modify (fun w => set_probes (w_probes w ∖ {[name]}) w).

(** [ftrace_set_filter_ip (ops, ip, remove, 0)] *)
Definition ftrace_set_filter_ip (ops : string) (ip : Z) (remove : bool) : M world Z :=
  r ← kcall;
  (if Z.eqb r 0 then
     modify (fun w => set_filters
       (if remove then w_filters w ∖ {[(ops, ip)]} else {[(ops, ip)]} ∪ w_filters w) w)
   else mret tt) ;;
  mret r.

(** [register_kprobe] of a [kp] with a symbol name: the code and [kp->addr]
    afterwards.  A symbol the kernel does not know is refused; on success the
    address is the symbol's, and on another failure it may have been set
    already or not. *)
Definition register_kprobe (symbol_addr : string -> Z) (name symbol : string)
    : M world (Z * Z) :=
  if Z.eqb (symbol_addr symbol) 0 then mret ((- ENOENT)%Z, 0%Z) else
  r ← register_probe name;
  if Z.eqb r 0 then mret (0%Z, symbol_addr symbol) else
  late ← kcall;
  mret (r, if Z.eqb late 0 then 0%Z else symbol_addr symbol).

(** Report an event; the detectors ignore the result. *)
Definition report (aead_encrypt : list byte -> list byte -> list byte -> list byte)
    (ty : photon_event_type) (detector severity : Z) (payload : list byte) : M world unit :=
  zoom w_manager set_manager
    (photon_log_event aead_encrypt (event_type_code ty) detector severity (Some payload)
       (Z.of_nat (length payload))) ;;
  mret tt.

(** ** What the handlers read of the kernel
    Facts about the running kernel that a handler consults: the architecture,
    the symbol table and the memory behind the pointers it follows ([None]: the
    address cannot be read, the access faults). *)
Record kprobe := mk_kprobe {
  kp_symbol_name : option string;
  kp_addr : Z;
  kp_pre_handler : Z;
}.
Record kretprobe := mk_kretprobe {
  rp_kp : kprobe;
  rp_handler : Z;
  rp_entry_handler : Z;
  rp_maxactive : Z;
}.

Record kernel := mk_kernel {
  k_arch : arch;
  k_modern : bool;
  regs_get_kernel_argument : pt_regs -> nat -> Z;
  within_module : Z -> bool;
  sprint_symbol_no_offset : Z -> string;
  symbol_addr : string -> Z;
  string_at : Z -> option string;
  pointer_at : Z -> option Z;
  kprobe_at : Z -> option kprobe;
  kretprobe_at : Z -> option kretprobe;
  ftrace_ops_func_at : Z -> option Z;
  cred_uid_at : Z -> option Z;
  current_cred : Z;
  stack_trace_save : nat -> nat -> list Z;
  stack_trace_snprint : list Z -> string;
  KSYM_NAME_LEN : nat;
}.

Definition get_arg (k : kernel) (f : ftrace_regs) (n : nat) : Z :=
  PHOTON_RING_GET_ARG (k_arch k) f n.
Definition kprobe_get_arg (k : kernel) (r : pt_regs) (n : nat) : Z :=
  PHOTON_RING_KPROBE_GET_ARG (regs_get_kernel_argument k) (k_modern k) (k_arch k) r n.

(** A read through a pointer. *)
Definition deref {S A} (x : option A) : M S A :=
  match x with Some a => mret a | None => fault end.

(** The two characters [sprint_symbol_no_offset] starts with when the address
    belongs to no symbol: the test [sym[0] == '0' && sym[1] == 'x']. *)
Definition starts_with_0x (sym : string) : bool :=
  match sym with
  | String a (String b _) => Ascii.eqb a "0" && Ascii.eqb b "x"
  | _ => false
  end.

(** ** The interface of a detector
    [D] is the detector's static variables; [linked s d] says that they agree
    with [s] being its registered probes. *)

(** What an operation that only (un)registers probes of [names] leaves alone. *)
Definition only_probes (names : gset string) (w w' : world) : Prop :=
  w_manager w' = w_manager w /\ w_probes w' ∖ names = w_probes w ∖ names.

Class DetectorLaws {D : Type} (init : M (D * world) Z) (exit : M (D * world) unit)
    (probes : gset string) (linked : gset string -> D -> Prop) := {
  init_law (e : env) (d : D) (w : world) :
    w_probes w ∩ probes = ∅ -> linked ∅ d ->
    wp init (fun r e' s' =>
      env_rel 0 e e' /\ only_probes probes w s'.2 /\
      linked (w_probes s'.2 ∩ probes) s'.1 /\
      (r = 0%Z -> w_probes s'.2 ∩ probes <> ∅) /\
      (r <> 0%Z -> w_probes s'.2 ∩ probes = ∅)) e (d, w);
  exit_law (e : env) (d : D) (w : world) :
    linked (w_probes w ∩ probes) d ->
    wp exit (fun _ e' s' =>
      env_rel 0 e e' /\ w_manager s'.2 = w_manager w /\
      w_probes s'.2 = w_probes w ∖ probes /\ linked ∅ s'.1) e (d, w);
}.

(** Run an operation on the world or on the statics alone. *)
Definition in_world {D A} (m : M world A) : M (D * world) A :=
  zoom snd (fun (w : world) (s : D * world) => (s.1, w)) m.
Definition in_statics {D A} (m : M D A) : M (D * world) A :=
  zoom fst (fun (d : D) (s : D * world) => (d, s.2)) m.

(** ** Rules *)
Section rules.
Lemma wp_printk (Q : unit -> env -> world -> Prop) l t a e w :
  Q tt e (set_console (w_console w ++ [mk_line l t a]) w) -> wp (printk l t a) Q e w.
Proof. done. Qed.

Lemma wp_register_probe (Q : Z -> env -> world -> Prop) name e w :
  (forall e', env_rel 0 e e' -> Q 0%Z e' (set_probes ({[name]} ∪ w_probes w) w)) ->
  (forall r e', env_rel 0 e e' -> r <> 0%Z -> ~ no_fail e -> Q r e' w) ->
  wp (register_probe name) Q e w.
Proof.
  intros H0 H1. unfold register_probe. wp_steps.
  - subst. by apply H0.
  - apply H1; [done|done|tauto].
Qed.

Lemma wp_unregister_probe (Q : unit -> env -> world -> Prop) name e w :
  Q tt e (set_probes (w_probes w ∖ {[name]}) w) -> wp (unregister_probe name) Q e w.
Proof. done. Qed.

Lemma wp_set_filter_ip (Q : Z -> env -> world -> Prop) (ops : string) (ip : Z) (remove : bool) e w :
  (forall e' : env, env_rel 0 e e' -> Q 0%Z e' (set_filters
     (if remove then w_filters w ∖ {[(ops, ip)]} else {[(ops, ip)]} ∪ w_filters w) w)) ->
  (forall r e', env_rel 0 e e' -> r <> 0%Z -> ~ no_fail e -> Q r e' w) ->
  wp (ftrace_set_filter_ip ops ip remove) Q e w.
Proof.
  intros H0 H1. unfold ftrace_set_filter_ip. wp_steps.
  - subst. by apply H0.
  - apply H1; [done|done|tauto].
Qed.

Lemma wp_register_kprobe (Q : Z * Z -> env -> world -> Prop) addr name symbol e w :
  (forall e', env_rel 0 e e' -> addr symbol <> 0%Z ->
     Q (0%Z, addr symbol) e' (set_probes ({[name]} ∪ w_probes w) w)) ->
  (forall r a e', env_rel 0 e e' -> r <> 0%Z -> (no_fail e -> addr symbol = 0%Z /\ r = (- ENOENT)%Z) ->
     Q (r, a) e' w) ->
  wp (register_kprobe addr name symbol) Q e w.
Proof.
  intros H0 H1. unfold register_kprobe. wp_step.
  { wp_steps. by apply H1; [apply env_rel_refl|done|]. }
  wp_step. apply wp_register_probe.
  - intros e' He. wp_steps. by apply H0.
  - intros r e' He Hr Hf. cbn beta.
    wp_steps; apply H1; try done; try env_solve; by intros ?%Hf.
Qed.

(** ** Reporting an event *)
Context (hmac_sha256 : list byte -> list byte -> list byte).
Context (aead_encrypt : list byte -> list byte -> list byte -> list byte).
Context (aead_length : forall k n p,
  length (aead_encrypt k n p) = (length p + PHOTON_TAG_SIZE)%nat).

(** The world after one event was logged: its payload is the packed image of
    a struct, its envelope carries the next sequence number and the current
    task, and it is handed to the channel; the probes, the filters and the
    console are as before. *)
Definition reported (e : env) (ty : photon_event_type) (detector severity : Z)
    (payload : list byte) (w w' : world) : Prop :=
  manager_inv hmac_sha256 (w_manager w') /\
  w' = set_manager (w_manager w') w /\
  exists ts, stat_range ts /\
    let seq := u64 (g_sequence_counter (w_manager w) + 1) in
    submitted aead_encrypt e
      (make_event seq ts (event_type_code ty) detector severity (current e) (Some payload)
         (Z.of_nat (length payload)))
      (set_sequence seq (w_manager w)) (w_manager w').

Lemma reported_weaken e e' ty d sv p w w' :
  env_rel 0 e e' -> reported e' ty d sv p w w' -> reported e ty d sv p w w'.
Proof.
  intros He (Hi & Hw & ts & Hts & Hs). split_and!; [done..|]. exists ts. split; [done|].
  cbv zeta in *. destruct He as (Hl & Hf & Hc). rewrite <- Hc.
  by eapply submitted_weaken.
Qed.

Lemma report_spec ty d sv payload e w :
  manager_inv hmac_sha256 (w_manager w) ->
  (length payload <= PHOTON_MAX_EVENT_DATA)%nat ->
  (0 <= d < 2 ^ 32)%Z -> (0 <= sv < 2 ^ 8)%Z ->
  wp (report aead_encrypt ty d sv payload) (fun _ e' w' =>
    env_rel 0 e e' /\ reported e ty d sv payload w w') e w.
Proof.
  intros Hinv Hp Hd Hsv. unfold PHOTON_MAX_EVENT_DATA in Hp.
  assert (Hu : u16 (Z.of_nat (length payload)) = Z.of_nat (length payload)).
  { apply wrap_small. lia. }
  unfold report. wp_steps.
  eapply wp_mono; [eapply log_event_spec; [done|done| |]|].
  - unfold log_data_ok. rewrite Hu. lia.
  - rewrite Hu. unfold PHOTON_MAX_EVENT_DATA. lia.
  - intros r e' m' (Hi & He & _ & _ & ts & Hts & Hs). wp_steps. split; [done|].
    split_and!; [done|by destruct w|]. exists ts. split; [done|]. cbv zeta.
    rewrite Hu in Hs. unfold u32, u8 in Hs. rewrite !(wrap_small 32), (wrap_small 8) in Hs
      by (first [done | by destruct ty]). exact Hs.
Qed.

(** An alert: a line on the console and an event. *)
Record alert := mk_alert {
  a_line : line;
  a_type : photon_event_type;
  a_detector : Z;
  a_severity : Z;
  a_payload : list byte;
}.
Definition alert_ok (a : alert) : Prop :=
  (length (a_payload a) <= PHOTON_MAX_EVENT_DATA)%nat /\
  (0 <= a_detector a < 2 ^ 32)%Z /\ (0 <= a_severity a < 2 ^ 8)%Z.

Definition alerted (e : env) (a : alert) (w w' : world) : Prop :=
  reported e (a_type a) (a_detector a) (a_severity a) (a_payload a)
    (set_console (w_console w ++ [a_line a]) w) w'.

(** The alerts of a list, in its order, and nothing else. *)
Inductive alerts (e : env) : list alert -> world -> world -> Prop :=
  | alerts_nil w : alerts e [] w w
  | alerts_cons a l w w1 w2 :
      alerted e a w w1 -> alerts e l w1 w2 -> alerts e (a :: l) w w2.

Lemma alerts_app e l1 l2 w w1 w2 :
  alerts e l1 w w1 -> alerts e l2 w1 w2 -> alerts e (l1 ++ l2) w w2.
Proof. induction 1; [done|]. intros. econstructor; eauto. Qed.

Lemma alerts_weaken e e' l w w' : env_rel 0 e e' -> alerts e' l w w' -> alerts e l w w'.
Proof.
  intros He. induction 1; [constructor|]. econstructor; [|done].
  by eapply reported_weaken.
Qed.

(** Alerts touch neither the probes nor the filters. *)
Lemma alerts_frame e l w w' :
  alerts e l w w' -> manager_inv hmac_sha256 (w_manager w) ->
  manager_inv hmac_sha256 (w_manager w') /\ w_probes w' = w_probes w /\
  w_filters w' = w_filters w /\ w_console w' = (w_console w ++ (a_line <$> l))%list.
Proof.
  induction 1 as [|a l w w1 w2 (Hi & Hw & _) _ IH]; intros Hm.
  - by rewrite app_nil_r.
  - destruct (IH Hi) as (? & -> & -> & ->). rewrite Hw. simpl.
    split_and!; [done..|]. by rewrite <- app_assoc.
Qed.

Lemma alert_spec a e w :
  manager_inv hmac_sha256 (w_manager w) -> alert_ok a ->
  wp (printk (level (a_line a)) (text (a_line a)) (line_args (a_line a)) ;;
      report aead_encrypt (a_type a) (a_detector a) (a_severity a) (a_payload a))
    (fun _ e' w' => env_rel 0 e e' /\ alerts e [a] w w') e w.
Proof.
  intros Hi (Hp & Hd & Hs). apply wp_bind, wp_printk.
  eapply wp_mono; [by apply report_spec|]. intros [] e' w' (He & Hr).
  split; [done|]. econstructor; [|constructor].
  unfold alerted. by destruct (a_line a).
Qed.
End rules.

(** How a function was entered: its arguments are in the registers. *)
Definition called (k : kernel) (args : list Z) : ftrace_regs :=
  mk_ftrace_regs (Some (entry_regs (k_arch k) args)).

Lemma get_arg_called k args n :
  (n < reg_args (k_arch k))%nat -> get_arg k (called k args) n = default 0%Z (args !! n).
Proof. apply get_arg_entry. Qed.

Lemma watchlisted_eq name :
  photon_is_watchlisted (Some name) = bool_decide (name ∈ photon_watchlist).
Proof.
  apply eq_bool_prop_intro. rewrite !Is_true_true, bool_decide_eq_true, watchlisted_spec.
  naive_solver.
Qed.

Ltac wp_extra ::=
  lazymatch goal with
  | |- wp (in_world _) _ _ _ => apply wp_zoom
  | |- wp (in_statics _) _ _ _ => apply wp_zoom
  | |- wp (printk _ _ _) _ _ _ => apply wp_printk
  | |- wp (unregister_probe _) _ _ _ => apply wp_unregister_probe
  | |- wp (register_probe _) _ _ _ =>
      apply wp_register_probe; [intros ? ?|intros ? ? ? ? ?]
  | |- wp (ftrace_set_filter_ip _ _ _) _ _ _ =>
      apply wp_set_filter_ip; [intros ? ?|intros ? ? ? ? ?]
  | |- wp (register_kprobe _ _ _) _ _ _ =>
      apply wp_register_kprobe; [intros ? ? ?|intros ? ? ? ? ? ?]
  end.

(** ** Probe sets
    What adding or removing a probe of [names] does inside and outside of
    [names]; with these, the goals of the laws become closed. *)
Section probe_sets.
Context (names : gset string).

Lemma add_outside c (X : gset string) : c ∈ names -> ({[c]} ∪ X) ∖ names = X ∖ names.
Proof. set_solver. Qed.
Lemma add_inside c (X : gset string) : c ∈ names -> ({[c]} ∪ X) ∩ names = {[c]} ∪ (X ∩ names).
Proof. set_solver. Qed.
Lemma del_outside c (X : gset string) : c ∈ names -> (X ∖ {[c]}) ∖ names = X ∖ names.
Proof. set_solver. Qed.
Lemma del_inside c (X : gset string) : (X ∖ {[c]}) ∩ names = (X ∩ names) ∖ {[c]}.
Proof. set_solver. Qed.
End probe_sets.

Ltac closed :=
  lazymatch goal with
  | |- context [w_probes] => fail
  | |- context [env_rel] => fail
  | |- _ => solve [apply (bool_decide_unpack _); vm_compute; reflexivity]
  end.
Ltac probe_sets :=
  repeat first
    [ rewrite add_outside by closed | rewrite add_inside by closed
    | rewrite del_outside by closed | rewrite del_inside ];
  first
    [ done
    | try match goal with H : w_probes _ ∩ _ = ∅ |- _ => rewrite ?H end;
      first
        [ closed
        | lazymatch goal with |- _ ∈ _ -> _ => idtac end;
          let Hin := fresh "Hin" in intros Hin;
          first [done | congruence | exfalso; revert Hin; closed] ]
    | set_solver ].

(** Probe sets: close the goals of the laws. *)
Ltac probes :=
  cbn [fst snd set_probes set_filters set_console set_manager w_probes w_manager w_filters w_console] in *;
  unfold only_probes in *;
  cbn [fst snd set_probes set_filters set_console set_manager w_probes w_manager w_filters w_console] in *;
  intros; split_and?; try done;
  try (lazymatch goal with
       | |- env_rel _ _ _ => env_solve
       | |- _ = 0%Z -> _ => intros; first [done | probe_sets]
       | |- _ <> 0%Z -> _ => intros; first [done | probe_sets]
       | |- _ => first [congruence | probe_sets]
       end).

(** ** Installing an ftrace hook
    The sequence the detectors share: filter entry, registration, and on a
    failure of the latter the filter entry is taken back. *)
Definition ftrace_install (ops : string) (addr : Z) : M world Z :=
  ret ← ftrace_set_filter_ip ops addr false;
  if negb (Z.eqb ret 0) then mret ret else
  ret ← register_probe ops;
  if negb (Z.eqb ret 0) then (ftrace_set_filter_ip ops addr true ;; mret ret) else
  mret 0%Z.

(** The removal they share: the probe goes, and the filter entry named is the
    one of address 0. *)
Definition ftrace_remove (ops : string) : M world unit :=
  unregister_probe ops ;;
  ftrace_set_filter_ip ops 0 true ;;
  mret tt.

Lemma wp_ftrace_install (Q : Z -> env -> world -> Prop) ops addr e w :
  (forall e' f, env_rel 0 e e' ->
     Q 0%Z e' (set_filters f (set_probes ({[ops]} ∪ w_probes w) w))) ->
  (forall r e' f, env_rel 0 e e' -> r <> 0%Z -> ~ no_fail e -> Q r e' (set_filters f w)) ->
  wp (ftrace_install ops addr) Q e w.
Proof.
  intros H0 H1. unfold ftrace_install. wp_steps.
  - apply (H0 _ ({[(ops, addr)]} ∪ w_filters w)). env_solve.
  - apply H1; [env_solve|done|env_solve].
  - apply H1; [env_solve|done|env_solve].
  - pose proof (H1 r e' (w_filters w)) as H1'. destruct w. apply H1'; done.
Qed.

Lemma wp_ftrace_remove (Q : unit -> env -> world -> Prop) ops e w :
  (forall e' f, env_rel 0 e e' ->
     Q tt e' (set_filters f (set_probes (w_probes w ∖ {[ops]}) w))) ->
  wp (ftrace_remove ops) Q e w.
Proof.
  intros HQ. unfold ftrace_remove. wp_steps; [by apply HQ|].
  pose proof (HQ e' (w_filters w)) as HQ'. destruct w. by apply HQ'.
Qed.

Ltac wp_extra ::=
  lazymatch goal with
  | |- wp (in_world _) _ _ _ => apply wp_zoom
  | |- wp (in_statics _) _ _ _ => apply wp_zoom
  | |- wp (printk _ _ _) _ _ _ => apply wp_printk
  | |- wp (unregister_probe _) _ _ _ => apply wp_unregister_probe
  | |- wp (register_probe _) _ _ _ =>
      apply wp_register_probe; [intros ? ?|intros ? ? ? ? ?]
  | |- wp (ftrace_set_filter_ip _ _ _) _ _ _ =>
      apply wp_set_filter_ip; [intros ? ?|intros ? ? ? ? ?]
  | |- wp (ftrace_install _ _) _ _ _ =>
      apply wp_ftrace_install; [intros ? ? ?|intros ? ? ? ? ? ?]
  | |- wp (ftrace_remove _) _ _ _ => apply wp_ftrace_remove; intros ? ? ?
  | |- wp (deref (Some _)) _ _ _ => apply wp_ret
  | |- wp (register_kprobe _ _ _) _ _ _ =>
      apply wp_register_kprobe; [intros ? ? ?|intros ? ? ? ? ? ?]
  end.

Ltac solve_alert_ok :=
  unfold alert_ok, PHOTON_MAX_EVENT_DATA; cbn -[le_encode char_field snprintf_field zeros];
  unfold snprintf_field in *; autorewrite with photon; split_and!; first [lia | done | by vm_compute].

(** Goals of the form "exactly this alert". *)
Ltac by_alert :=
  lazymatch goal with
  | |- wp _ (fun _ _ _ => _ /\ alerts ?h ?enc _ [?a] _ _) _ _ =>
      apply (alert_spec h enc ltac:(assumption) a); [assumption|solve_alert_ok]
  end.

(** Goals of the form "no alert". *)
Ltac no_alert :=
  wp_steps; split; [first [apply env_rel_refl | env_solve] | constructor].

(** [regs_get_kernel_argument] does what the macro's own switch does. *)
Definition kernel_argument_ok (k : kernel) : Prop :=
  forall args n, (n < 6)%nat ->
    regs_get_kernel_argument k (entry_regs (k_arch k) args) n = default 0%Z (args !! n).

Lemma kprobe_get_arg_entry k args n :
  k_arch k <> OTHER_ARCH -> kernel_argument_ok k -> (n < 6)%nat ->
  kprobe_get_arg k (entry_regs (k_arch k) args) n = default 0%Z (args !! n).
Proof.
  intros Ha Hk Hn. unfold kprobe_get_arg, PHOTON_RING_KPROBE_GET_ARG.
  destruct (k_modern k); [by apply Hk|].
  rewrite <- (pr_get_arg_entry (k_arch k)); [by destruct (k_arch k)|].
  destruct (k_arch k); simpl; [lia..|done].
Qed.
