(* ===== verification/ProbeDetectors.v ===== *)
(** * The kprobe, kretprobe and kallsyms detectors
    [modules/kprobe_detector.c], [modules/kretprobe_detector.c] and
    [modules/kallsyms_detector.c]: three ftrace hooks that report a probe being
    registered, or a symbol being looked up, from outside the module. *)
From Stdlib Require Import ZArith Lia.
From Stdlib Require Import Strings.Byte Strings.Ascii Strings.String.
From stdpp Require Import base numbers list strings option gmap sets.
From S2P Require Import Prelude CString Kernel Events Crypto Cdev EventManager Arch Watchlists.
From S2P Require Import Hooks.
Open Scope string_scope.

(** The character of a double quote, for the format strings that hold one. *)
Definition quote : string := String (ascii_of_nat 34) EmptyString.

Section handlers.
Context (k : kernel).
Context (aead_encrypt : list byte -> list byte -> list byte -> list byte).
Abbreviation report := (report aead_encrypt).

(** ** kprobe_detector.c *)
Definition hook_kprobe_register (parent_ip : Z) (fregs : ftrace_regs) : M world unit :=
  if within_module k parent_ip then mret tt else
  let p := get_arg k fregs 0 in
  if Z.eqb p 0 then mret tt else
  kp ← deref (kprobe_at k p);
  match kp_symbol_name kp with
  | None => mret tt
  | Some name =>
      let payload flags := mk_probe_hook_data (char_field 64 name) (kp_addr kp) 0 0 0 1 flags in
      if photon_is_watchlisted (Some name) then
        printk KERN_ALERT
          "[PHOTON RING] kprobe registered on watchlisted symbol: %s (addr=0x%lx)"
          [AStr name; ANum (kp_addr kp)] ;;
        report PHOTON_EVENT_PROBE_KPROBE (detector_id_code PHOTON_DETECTOR_KPROBE)
          PHOTON_SEV_CRITICAL (pack (payload PROBE_FLAG_WATCHLISTED))
      else
        printk KERN_WARNING "[PHOTON RING] kprobe registered: %s (addr=0x%lx)"
          [AStr name; ANum (kp_addr kp)] ;;
        report PHOTON_EVENT_PROBE_KPROBE (detector_id_code PHOTON_DETECTOR_KPROBE)
          PHOTON_SEV_SUSPICIOUS (pack (payload 0%Z))
  end.

(** ** kretprobe_detector.c *)
Definition KRETPROBE_MAXACTIVE_THRESHOLD : Z := 512.

Definition handler_is_anonymous (addr : Z) : bool :=
  if Z.eqb addr 0 then false else starts_with_0x (sprint_symbol_no_offset k addr).

Definition build_and_emit (symbol : option string)
    (target handler entry maxact batch flgs : Z) : M world unit :=
  let field := match symbol with Some s => char_field 64 s | None => zeros 64 end in
  let payload := mk_probe_hook_data field target handler entry maxact batch flgs in
  let sev := if negb (Z.eqb (Z.land flgs (Z.lor PROBE_FLAG_ANON_HANDLER PROBE_FLAG_WATCHLISTED)) 0)
             then PHOTON_SEV_CRITICAL else PHOTON_SEV_SUSPICIOUS in
  printk (if Z.eqb sev PHOTON_SEV_CRITICAL then KERN_ALERT else KERN_WARNING)
    "[PHOTON RING] kretprobe registration: symbol='%s' target=0x%lx handler=0x%lx entry=0x%lx maxactive=%d batch=%d flags=0x%x"
    [AStr (match field_string field with EmptyString => "<unknown>" | s => s end);
     ANum target; ANum handler; ANum entry; ANum maxact; ANum batch; ANum flgs] ;;
  report PHOTON_EVENT_PROBE_KRETPROBE (detector_id_code PHOTON_DETECTOR_KRETPROBE) sev
    (pack payload).

(** [if (c) flags |= f;] *)
Definition flag_if (c : bool) (f : Z) (flgs : Z) : Z := if c then Z.lor flgs f else flgs.

(** The flags the hook computes for a kretprobe. *)
Definition kretprobe_flags (rp : kretprobe) : Z :=
  let flgs := flag_if (photon_is_watchlisted (kp_symbol_name (rp_kp rp))) PROBE_FLAG_WATCHLISTED 0 in
  let flgs := flag_if (handler_is_anonymous (rp_handler rp)) PROBE_FLAG_ANON_HANDLER flgs in
  let flgs := flag_if (negb (Z.eqb (rp_entry_handler rp) 0) && handler_is_anonymous (rp_entry_handler rp))
                PROBE_FLAG_ANON_HANDLER flgs in
  flag_if (KRETPROBE_MAXACTIVE_THRESHOLD <? rp_maxactive rp)%Z PROBE_FLAG_HIGH_ACTIVE flgs.

Definition hook_register_kretprobe (parent_ip : Z) (fregs : ftrace_regs) : M world unit :=
  let p := get_arg k fregs 0 in
  if Z.eqb p 0 then mret tt else
  if within_module k parent_ip then mret tt else
  rp ← deref (kretprobe_at k p);
  let flgs := kretprobe_flags rp in
  if Z.eqb flgs 0 then mret tt else
  build_and_emit (kp_symbol_name (rp_kp rp)) (kp_addr (rp_kp rp)) (rp_handler rp)
    (rp_entry_handler rp) (rp_maxactive rp) 1 flgs.

(** The flags of one element of a batch. *)
Definition kprobe_flags (kp : kprobe) : Z :=
  let flgs := flag_if (photon_is_watchlisted (kp_symbol_name kp)) PROBE_FLAG_WATCHLISTED PROBE_FLAG_BATCH in
  flag_if (handler_is_anonymous (kp_pre_handler kp)) PROBE_FLAG_ANON_HANDLER flgs.

(** One turn of the loop of [hook_register_kprobes]; [slot] is [kps[i]]. *)
Definition register_kprobes_step (num_ul : Z) (slot : Z) : M world unit :=
  if Z.eqb slot 0 then mret tt else
  kp ← deref (kprobe_at k slot);
  let flgs := kprobe_flags kp in
  if Z.eqb (Z.land flgs (Z.lnot PROBE_FLAG_BATCH)) 0 then mret tt else
  build_and_emit (kp_symbol_name kp) (kp_addr kp) (kp_pre_handler kp) 0 0 (s32 num_ul) flgs.

Definition hook_register_kprobes (parent_ip : Z) (fregs : ftrace_regs) : M world unit :=
  let kps := get_arg k fregs 0 in
  let num_ul := get_arg k fregs 1 in
  if Z.eqb kps 0 || Z.eqb num_ul 0 then mret tt else
  if within_module k parent_ip then mret tt else
  let num := Z.min num_ul 64 in
  for_each (seq 0 (Z.to_nat num)) (fun i =>
    slot ← deref (pointer_at k (kps + 8 * Z.of_nat i));
    register_kprobes_step num_ul slot).

(** ** kallsyms_detector.c *)
Definition hook_kallsyms_lookup (parent_ip : Z) (fregs : ftrace_regs) : M world unit :=
  if within_module k parent_ip then mret tt else
  let p := get_arg k fregs 0 in
  if Z.eqb p 0 then mret tt else
  symname ← deref (string_at k p);
  if negb (photon_is_watchlisted (Some symname)) then mret tt else
  t ← get_current;
  printk KERN_ALERT
    ("[PHOTON RING] SUSPICIOUS kallsyms_lookup_name(" +:+ quote +:+ "%s" +:+ quote +:+
     ") from outside known module — caller_ip=0x%lx comm=%s pid=%d")
    [AStr symname; ANum parent_ip; AStr (comm t); ANum (pid t)] ;;
  let text := symname +:+ "  (" +:+ comm t +:+ "/" +:+ print_int (pid t) +:+ ")" in
  report PHOTON_EVENT_PROBE_KALLSYMS (detector_id_code PHOTON_DETECTOR_KPROBE)
    PHOTON_SEV_CRITICAL
    (pack (mk_probe_hook_data (snprintf_field 64 text) parent_ip 0 0 0 1 PROBE_FLAG_WATCHLISTED)).

(** ** Set-up and tear-down *)
Record kprobe_detector := mk_kprobe_detector { g_kallsyms_addr : Z }.
Definition set_kallsyms_addr (a : Z) : M kprobe_detector unit := put (mk_kprobe_detector a).

Definition kprobe_detector_init : M (kprobe_detector * world) Z :=
  '(ret, addr) ← in_world (register_kprobe (symbol_addr k)
                   "kprobe_detector.bootstrap_kp" "kallsyms_lookup_name");
  if negb (Z.eqb ret 0) then mret ret else
  in_statics (set_kallsyms_addr addr) ;;
  in_world (unregister_probe "kprobe_detector.bootstrap_kp") ;;
  ret ← in_world (ftrace_install "kprobe_detector.ops" (symbol_addr k "register_kprobe"));
  if negb (Z.eqb ret 0) then (in_statics (set_kallsyms_addr 0%Z) ;; mret ret) else
  mret 0%Z.

Definition kprobe_detector_exit : M (kprobe_detector * world) unit :=
  in_world (ftrace_remove "kprobe_detector.ops") ;;
  in_statics (set_kallsyms_addr 0%Z).

Definition kprobe_detector_get_kallsyms_addr (d : kprobe_detector) : Z := g_kallsyms_addr d.

Definition kretprobe_detector_init : M (unit * world) Z :=
  ret ← in_world (ftrace_install "ops_kretprobe" (symbol_addr k "register_kretprobe"));
  if negb (Z.eqb ret 0) then mret ret else
  ret ← in_world (ftrace_install "ops_kprobes_batch" (symbol_addr k "register_kprobes"));
  if negb (Z.eqb ret 0) then
    in_world (unregister_probe "ops_kretprobe" ;;
              ftrace_set_filter_ip "ops_kretprobe" (symbol_addr k "register_kretprobe") true) ;;
    mret ret
  else mret 0%Z.

Definition kretprobe_detector_exit : M (unit * world) unit :=
  in_world (ftrace_remove "ops_kprobes_batch") ;;
  in_world (ftrace_remove "ops_kretprobe").

(** [kallsyms_addr] is what [kprobe_detector_get_kallsyms_addr ()] returns. *)
Definition kallsyms_detector_init (kallsyms_addr : Z) : M (unit * world) Z :=
  if Z.eqb kallsyms_addr 0 then mret (- ENOENT)%Z else
  in_world (ftrace_install "kallsyms_ops" kallsyms_addr).

Definition kallsyms_detector_exit : M (unit * world) unit :=
  in_world (ftrace_remove "kallsyms_ops").
End handlers.

(** ** The detector laws *)
Section laws.
Context (k : kernel).

#[export] Instance kprobe_detector_laws :
  DetectorLaws (kprobe_detector_init k) kprobe_detector_exit
    {["kprobe_detector.ops"; "kprobe_detector.bootstrap_kp"]}
    (fun s _ => "kprobe_detector.bootstrap_kp" ∉ s).
Proof.
  split; intros e d w H.
  - intros Hl. unfold kprobe_detector_init, set_kallsyms_addr. wp_steps; probes.
  - unfold kprobe_detector_exit, set_kallsyms_addr. wp_steps; probes.
Qed.

#[export] Instance kretprobe_detector_laws :
  DetectorLaws (kretprobe_detector_init k) kretprobe_detector_exit
    {["ops_kretprobe"; "ops_kprobes_batch"]} (fun _ _ => True).
Proof.
  split; intros e d w H.
  - intros Hl. unfold kretprobe_detector_init. wp_steps; probes.
  - unfold kretprobe_detector_exit. wp_steps; probes.
Qed.

#[export] Instance kallsyms_detector_laws (addr : Z) :
  DetectorLaws (kallsyms_detector_init addr) kallsyms_detector_exit
    {["kallsyms_ops"]} (fun _ _ => True).
Proof.
  split; intros e d w H.
  - intros Hl. unfold kallsyms_detector_init. wp_steps; probes.
  - unfold kallsyms_detector_exit. wp_steps; probes.
Qed.
End laws.

(** ** What the hooks report *)
Section policy.
Context (k : kernel).
Context (hmac_sha256 : list byte -> list byte -> list byte).
Context (aead_encrypt : list byte -> list byte -> list byte -> list byte).
Context (aead_length : forall k n p,
  length (aead_encrypt k n p) = (length p + PHOTON_TAG_SIZE)%nat).
Context (known_arch : k_arch k <> OTHER_ARCH).
Abbreviation alerts := (alerts hmac_sha256 aead_encrypt).

(** A kprobe planted from outside the module by symbol name: critical on a
    watched symbol, suspicious on any other. *)
Definition kprobe_policy (outside : bool) (kp : kprobe) : list alert :=
  match kp_symbol_name kp with
  | Some name =>
      if outside then
        let watched := bool_decide (name ∈ photon_watchlist) in
        [mk_alert
           (mk_line (if watched then KERN_ALERT else KERN_WARNING)
              (if watched
               then "[PHOTON RING] kprobe registered on watchlisted symbol: %s (addr=0x%lx)"
               else "[PHOTON RING] kprobe registered: %s (addr=0x%lx)")
              [AStr name; ANum (kp_addr kp)])
           PHOTON_EVENT_PROBE_KPROBE 1 (if watched then PHOTON_SEV_CRITICAL else PHOTON_SEV_SUSPICIOUS)
           (pack (mk_probe_hook_data (char_field 64 name) (kp_addr kp) 0 0 0 1
                    (if watched then PROBE_FLAG_WATCHLISTED else 0%Z)))]
      else []
  | None => []
  end.

Lemma reg_args_pos n : (n < 6)%nat -> (n < reg_args (k_arch k))%nat.
Proof using known_arch. destruct (k_arch k); simpl; [lia..|done]. Qed.

(** The hook on register_kprobe follows its policy: a registration by symbol name from outside the module is reported, critical exactly when the symbol is on the watchlist; a registration by the module itself or one that gives only an address is not. *)
Theorem kprobe_hook_policy p args kp parent_ip e w :
  args !! 0%nat = Some p -> p <> 0%Z -> kprobe_at k p = Some kp ->
  manager_inv hmac_sha256 (w_manager w) ->
  wp (hook_kprobe_register k aead_encrypt parent_ip (called k args)) (fun _ e' w' =>
    env_rel 0 e e' /\
    alerts e (kprobe_policy (negb (within_module k parent_ip)) kp) w w') e w.
Proof using known_arch aead_length.
  intros Hp Hp0 Hkp Hi. unfold hook_kprobe_register, kprobe_policy.
  rewrite get_arg_called, Hp by (apply reg_args_pos; lia). simpl default. rewrite Hkp.
  destruct (within_module k parent_ip); cbn [negb].
  { destruct (kp_symbol_name kp); no_alert. }
  wp_steps.
  destruct (kp_symbol_name kp) as [name|]; [|no_alert].
  rewrite watchlisted_eq. destruct (bool_decide _); by_alert.
Qed.

(** What [build_and_emit] reports for given flags. *)
Definition kretprobe_alert (symbol : option string)
    (target handler entry maxact batch flgs : Z) : alert :=
  let critical := negb (Z.eqb (Z.land flgs 3) 0) in
  let field := match symbol with Some s => char_field 64 s | None => zeros 64 end in
  mk_alert
    (mk_line (if critical then KERN_ALERT else KERN_WARNING)
       "[PHOTON RING] kretprobe registration: symbol='%s' target=0x%lx handler=0x%lx entry=0x%lx maxactive=%d batch=%d flags=0x%x"
       [AStr (match field_string field with EmptyString => "<unknown>" | s => s end);
        ANum target; ANum handler; ANum entry; ANum maxact; ANum batch; ANum flgs])
    PHOTON_EVENT_PROBE_KRETPROBE 2 (if critical then PHOTON_SEV_CRITICAL else PHOTON_SEV_SUSPICIOUS)
    (pack (mk_probe_hook_data field target handler entry maxact batch flgs)).

Lemma build_and_emit_spec symbol target handler entry maxact batch flgs e w :
  manager_inv hmac_sha256 (w_manager w) ->
  wp (build_and_emit aead_encrypt symbol target handler entry maxact batch flgs)
    (fun _ e' w' => env_rel 0 e e' /\
       alerts e [kretprobe_alert symbol target handler entry maxact batch flgs] w w') e w.
Proof using aead_length.
  intros Hi. unfold build_and_emit, kretprobe_alert.
  change (Z.lor PROBE_FLAG_ANON_HANDLER PROBE_FLAG_WATCHLISTED) with 3%Z.
  destruct (negb (Z.eqb (Z.land flgs 3) 0)); destruct symbol; by_alert.
Qed.

(** A function outside the symbol table. *)
Definition anonymous (addr : Z) : bool :=
  negb (Z.eqb addr 0) && starts_with_0x (sprint_symbol_no_offset k addr).
Definition watched (name : option string) : bool :=
  match name with Some s => bool_decide (s ∈ photon_watchlist) | None => false end.

Lemma anonymous_eq addr : handler_is_anonymous k addr = anonymous addr.
Proof. unfold handler_is_anonymous, anonymous. by destruct (Z.eqb addr 0). Qed.

Lemma watched_eq name : photon_is_watchlisted name = watched name.
Proof. destruct name; [apply watchlisted_eq|done]. Qed.

(** A kretprobe on a watched symbol or with a handler outside the symbol
    table is critical; an unusually large instance count alone is suspicious;
    anything else is not reported. *)
Definition kretprobe_policy (rp : kretprobe) : list alert :=
  let kp := rp_kp rp in
  let w := watched (kp_symbol_name kp) in
  let a := anonymous (rp_handler rp) || anonymous (rp_entry_handler rp) in
  let m := bool_decide (512 < rp_maxactive rp)%Z in
  if w || a || m then
    [kretprobe_alert (kp_symbol_name kp) (kp_addr kp) (rp_handler rp) (rp_entry_handler rp)
       (rp_maxactive rp) 1 (Z.b2z w + 2 * Z.b2z a + 4 * Z.b2z m)]
  else [].

(** C31. The hook on register_kretprobe, called from outside the module: a report exactly when the target is on the watchlist, the return or the entry handler lies outside the symbol table, or maxactive exceeds 512, with the flag bit 1, 2 or 4 for each of these reasons.  The event is CRITICAL, and its line an alert, when the target is watched or a handler anonymous; SUSPICIOUS, and a warning, for a large maxactive alone.  There is one watchlist and one bit for it, and no tier below CRITICAL for a watched name.  A registration by the module's own code is silent. *)
Theorem kretprobe_hook_policy p args rp parent_ip e w :
  args !! 0%nat = Some p -> p <> 0%Z -> kretprobe_at k p = Some rp ->
  manager_inv hmac_sha256 (w_manager w) ->
  wp (hook_register_kretprobe k aead_encrypt parent_ip (called k args)) (fun _ e' w' =>
    env_rel 0 e e' /\
    alerts e (if within_module k parent_ip then [] else kretprobe_policy rp) w w') e w.
Proof using known_arch aead_length.
  intros Hp Hp0 Hrp Hi. unfold hook_register_kretprobe, kretprobe_policy.
  rewrite get_arg_called, Hp by (apply reg_args_pos; lia). simpl default. rewrite Hrp.
  destruct (within_module k parent_ip); [by no_alert|]. do 3 wp_step. cbn beta zeta.
  unfold kretprobe_flags. rewrite !anonymous_eq, watched_eq.
  replace (negb (Z.eqb (rp_entry_handler rp) 0) && anonymous (rp_entry_handler rp))
    with (anonymous (rp_entry_handler rp)) by (unfold anonymous; by destruct (Z.eqb _ _)).
  replace (KRETPROBE_MAXACTIVE_THRESHOLD <? rp_maxactive rp)%Z
    with (bool_decide (512 < rp_maxactive rp)%Z)
    by (unfold KRETPROBE_MAXACTIVE_THRESHOLD; case_bool_decide; lia).
  destruct (watched _), (anonymous (rp_handler rp)), (anonymous (rp_entry_handler rp)),
    (bool_decide _); cbn; first [by apply build_and_emit_spec | no_alert].
Qed.

(** One element of a batch; [n] is the length the caller announced. *)
Definition batch_policy (n : Z) (slot : Z) : list alert :=
  match kprobe_at k slot with
  | Some kp =>
      let w := watched (kp_symbol_name kp) in
      let a := anonymous (kp_pre_handler kp) in
      if w || a then
        [kretprobe_alert (kp_symbol_name kp) (kp_addr kp) (kp_pre_handler kp) 0 0 (s32 n)
           (8 + Z.b2z w + 2 * Z.b2z a)]
      else []
  | None => []
  end.

Lemma register_kprobes_step_spec n slot e w :
  (slot <> 0%Z -> is_Some (kprobe_at k slot)) -> kprobe_at k 0 = None ->
  manager_inv hmac_sha256 (w_manager w) ->
  wp (register_kprobes_step k aead_encrypt n slot) (fun _ e' w' =>
    env_rel 0 e e' /\ alerts e (batch_policy n slot) w w') e w.
Proof using aead_length.
  intros Hs H0 Hi. unfold register_kprobes_step, batch_policy. wp_step.
  { subst slot. rewrite H0. no_alert. }
  destruct (Hs ltac:(done)) as [kp ->]. do 2 wp_step. cbn beta zeta.
  unfold kprobe_flags. rewrite anonymous_eq, watched_eq.
  destruct (watched _), (anonymous _); cbn [orb];
    match goal with |- context [Z.eqb ?a 0] =>
      let b := eval vm_compute in (Z.eqb a 0) in change (Z.eqb a 0) with b
    end; cbn iota; first [by apply build_and_emit_spec | no_alert].
Qed.

Lemma register_kprobes_loop n kps idx e w :
  kprobe_at k 0 = None -> manager_inv hmac_sha256 (w_manager w) ->
  (forall i, i ∈ idx -> exists slot, pointer_at k (kps + 8 * Z.of_nat i) = Some slot /\
     (slot <> 0%Z -> is_Some (kprobe_at k slot))) ->
  wp (for_each idx (fun i =>
        slot ← deref (pointer_at k (kps + 8 * Z.of_nat i));
        register_kprobes_step k aead_encrypt n slot)) (fun _ e' w' =>
    env_rel 0 e e' /\
    alerts e (idx ≫= fun i => from_option (batch_policy n) [] (pointer_at k (kps + 8 * Z.of_nat i)))
      w w') e w.
Proof using aead_length.
  intros H0. revert e w. induction idx as [|i idx IH]; intros e w Hi Hs; cbn [for_each].
  { no_alert. }
  destruct (Hs i) as (slot & Hslot & Hk); [by left|]. rewrite Hslot. wp_steps.
  eapply wp_mono; [by apply register_kprobes_step_spec|]. intros [] e1 w1 (He1 & Ha1).
  eapply wp_mono; [apply IH; [by eapply alerts_frame|]|].
  { intros j Hj. apply Hs. by right. }
  intros [] e2 w2 (He2 & Ha2). split; [env_solve|]. rewrite bind_cons, Hslot.
  eapply alerts_app; [exact Ha1|]. by eapply alerts_weaken.
Qed.

(** The hook on register_kprobes reports, in the order of the array, the suspicious ones among its first 64 elements, each with the announced length; what lies beyond the 64th element is never looked at. *)
Theorem batch_hook_policy kps n args parent_ip e w :
  args !! 0%nat = Some kps -> args !! 1%nat = Some n -> kps <> 0%Z -> (0 < n < 2 ^ 64)%Z ->
  within_module k parent_ip = false -> kprobe_at k 0 = None ->
  manager_inv hmac_sha256 (w_manager w) ->
  (forall i, (i < 64)%nat -> (Z.of_nat i < n)%Z ->
     exists slot, pointer_at k (kps + 8 * Z.of_nat i) = Some slot /\
       (slot <> 0%Z -> is_Some (kprobe_at k slot))) ->
  wp (hook_register_kprobes k aead_encrypt parent_ip (called k args)) (fun _ e' w' =>
    env_rel 0 e e' /\
    alerts e (seq 0 (Z.to_nat (Z.min n 64)) ≫= fun i =>
      from_option (batch_policy n) [] (pointer_at k (kps + 8 * Z.of_nat i))) w w') e w.
Proof using known_arch aead_length.
  intros Hk Hn Hk0 Hn0 Hw H0 Hi Hs. unfold hook_register_kprobes.
  rewrite !get_arg_called, Hk, Hn, Hw by (apply reg_args_pos; lia). simpl default.
  rewrite (proj2 (Z.eqb_neq kps 0)), (proj2 (Z.eqb_neq n 0)) by lia. simpl.
  apply register_kprobes_loop; [done..|].
  intros i [_ Hlt]%elem_of_seq. apply Hs; lia.
Qed.

(** A lookup of a watched symbol from outside the module is reported as critical, with the caller's name and pid appended to the symbol; a lookup of any other symbol is not. *)
Theorem kallsyms_hook_policy p args name parent_ip e w :
  args !! 0%nat = Some p -> p <> 0%Z -> string_at k p = Some name ->
  within_module k parent_ip = false -> manager_inv hmac_sha256 (w_manager w) ->
  wp (hook_kallsyms_lookup k aead_encrypt parent_ip (called k args)) (fun _ e' w' =>
    env_rel 0 e e' /\
    alerts e
      (if bool_decide (name ∈ photon_watchlist) then
         [mk_alert
            (mk_line KERN_ALERT
               ("[PHOTON RING] SUSPICIOUS kallsyms_lookup_name(" +:+ quote +:+ "%s" +:+ quote +:+
                ") from outside known module — caller_ip=0x%lx comm=%s pid=%d")
               [AStr name; ANum parent_ip; AStr (comm (current e)); ANum (pid (current e))])
            PHOTON_EVENT_PROBE_KALLSYMS 1 PHOTON_SEV_CRITICAL
            (pack (mk_probe_hook_data
               (char_field 64 (name +:+ "  (" +:+ comm (current e) +:+ "/" +:+
                               print_int (pid (current e)) +:+ ")"))
               parent_ip 0 0 0 1 PROBE_FLAG_WATCHLISTED))]
       else []) w w') e w.
Proof using known_arch aead_length.
  intros Hp Hp0 Hname Hw Hi. unfold hook_kallsyms_lookup. rewrite Hw.
  rewrite get_arg_called, Hp by (apply reg_args_pos; lia). simpl default. rewrite Hname.
  do 3 wp_step. cbn beta. rewrite watchlisted_eq.
  destruct (bool_decide _); [|by no_alert]. cbn [negb]. wp_step. wp_step.
  by_alert.
Qed.
End policy.
