(* ===== verification/FtraceDirect.v ===== *)
(** * The ftrace_direct detector
    [modules/ftrace_direct_detector.c]: kprobes on ftrace_set_filter,
    ftrace_set_notrace and modify_ftrace_direct.  A pre-handler returns 0 in
    every case, so only its effect is modelled. *)
From Stdlib Require Import ZArith Lia.
From Stdlib Require Import Strings.Byte Strings.Ascii Strings.String.
From stdpp Require Import base numbers list strings option gmap sets.
From S2P Require Import Prelude CString Kernel Events Crypto Cdev EventManager Arch Watchlists.
From S2P Require Import Hooks.
Open Scope string_scope.

Section handlers.
Context (k : kernel).
Context (aead_encrypt : list byte -> list byte -> list byte -> list byte).

Definition addr_is_anonymous (addr : Z) : bool :=
  if Z.eqb addr 0 then false else starts_with_0x (sprint_symbol_no_offset k addr).

(** [sprint_symbol_no_offset] into a zeroed field of 64 bytes.  It writes the
    whole name: a symbol of more than 63 characters runs over the field, into
    the fields behind it and then past the payload; the model faults at the
    first byte outside the field. *)
Definition sprint_field (addr : Z) : M world (list byte) :=
  let sym := sprint_symbol_no_offset k addr in
  if decide (64 <= String.length sym)%nat then fault else mret (char_field 64 sym).

Definition emit_event (hook_src : Z) (target_sym : option string) (target new : Z)
    (pattern : option string) : M world unit :=
  target_field ← (match target_sym with
                  | Some s => mret (char_field 64 s)
                  | None => if Z.eqb target 0 then mret (zeros 64) else sprint_field target
                  end);
  new_field ← (if Z.eqb new 0 then mret (zeros 64) else sprint_field new);
  let pattern_field := match pattern with Some s => char_field 64 s | None => zeros 64 end in
  printk KERN_ALERT
    "[PHOTON RING] ftrace_direct: src=%u target='%s' (0x%lx) new='%s' (0x%lx) pattern='%s'"
    [ANum hook_src; AStr (field_string target_field); ANum target;
     AStr (field_string new_field); ANum new; AStr (field_string pattern_field)] ;;
  report aead_encrypt PHOTON_EVENT_FTRACE_HOOK (detector_id_code PHOTON_DETECTOR_FTRACE)
    PHOTON_SEV_CRITICAL
    (pack (mk_ftrace_hook_data target_field target new_field new pattern_field hook_src)).

Definition handle_set_filter_common (regs : pt_regs) (hook_src : Z) : M world unit :=
  let ops := kprobe_get_arg k regs 0 in
  let buf := kprobe_get_arg k regs 1 in
  if Z.eqb buf 0 then mret tt else
  ops_func ← (if Z.eqb ops 0 then mret 0%Z else deref (ftrace_ops_func_at k ops));
  pattern ← deref (string_at k buf);
  if negb (addr_is_anonymous ops_func) && negb (photon_is_watchlisted (Some pattern)) then mret tt
  else emit_event hook_src None 0 ops_func (Some pattern).

Definition handler_set_filter (regs : pt_regs) : M world unit :=
  handle_set_filter_common regs FTRACE_HOOK_SRC_SET_FILTER.
Definition handler_set_notrace (regs : pt_regs) : M world unit :=
  handle_set_filter_common regs FTRACE_HOOK_SRC_SET_NOTRACE.

Definition handler_modify_direct (regs : pt_regs) : M world unit :=
  let ip := kprobe_get_arg k regs 0 in
  let new := kprobe_get_arg k regs 2 in
  let ip_sym := sprint_symbol_no_offset k ip in
  if negb (addr_is_anonymous new) && negb (photon_is_watchlisted (Some ip_sym)) then mret tt
  else emit_event FTRACE_HOOK_SRC_MODIFY (Some ip_sym) ip new None.

(** ** Set-up and tear-down
    The statics are the [addr] fields of the three kprobes. *)
Record ftrace_direct := mk_ftrace_direct {
  kp_set_filter : Z;
  kp_set_notrace : Z;
  kp_modify_direct : Z;
}.
Definition put_set_filter a d := mk_ftrace_direct a (kp_set_notrace d) (kp_modify_direct d).
Definition put_set_notrace a d := mk_ftrace_direct (kp_set_filter d) a (kp_modify_direct d).
Definition put_modify_direct a d := mk_ftrace_direct (kp_set_filter d) (kp_set_notrace d) a.

(** [memset] clears the address, [register_kprobe] leaves one; 1 is counted
    when it succeeds. *)
Definition probe_target (name symbol : string) (set : Z -> ftrace_direct -> ftrace_direct)
    : M (ftrace_direct * world) Z :=
  in_statics (modify (set 0%Z)) ;;
  '(ret, addr) ← in_world (register_kprobe (symbol_addr k) name symbol);
  in_statics (modify (set addr)) ;;
  mret (if Z.eqb ret 0 then 1%Z else 0%Z).

Definition ftrace_direct_detector_init : M (ftrace_direct * world) Z :=
  n1 ← probe_target "kp_set_filter" "ftrace_set_filter" put_set_filter;
  n2 ← probe_target "kp_set_notrace" "ftrace_set_notrace" put_set_notrace;
  n3 ← probe_target "kp_modify_direct" "modify_ftrace_direct" put_modify_direct;
  if Z.eqb (n1 + n2 + n3) 0 then mret (- ENODEV)%Z else mret 0%Z.

Definition unprobe_target (name : string) (addr : ftrace_direct -> Z)
    : M (ftrace_direct * world) unit :=
  d ← in_statics get;
  if negb (Z.eqb (addr d) 0) then in_world (unregister_probe name) else mret tt.

Definition ftrace_direct_detector_exit : M (ftrace_direct * world) unit :=
  unprobe_target "kp_modify_direct" kp_modify_direct ;;
  unprobe_target "kp_set_notrace" kp_set_notrace ;;
  unprobe_target "kp_set_filter" kp_set_filter.
End handlers.

Section laws.
Context (k : kernel).
Abbreviation names := {["kp_set_filter"; "kp_set_notrace"; "kp_modify_direct"]}.

(** A registered probe has its address recorded: [exit] will find it. *)
Definition direct_linked (s : gset string) (d : ftrace_direct) : Prop :=
  ("kp_set_filter" ∈ s -> kp_set_filter d <> 0%Z) /\
  ("kp_set_notrace" ∈ s -> kp_set_notrace d <> 0%Z) /\
  ("kp_modify_direct" ∈ s -> kp_modify_direct d <> 0%Z).

Lemma probe_target_spec name symbol set e d w :
  wp (probe_target k name symbol set) (fun r e' s' =>
    env_rel 0 e e' /\ w_manager s'.2 = w_manager w /\
    exists addr, s'.1 = set addr (set 0%Z d) /\
    ((r = 1%Z /\ addr <> 0%Z /\ w_probes s'.2 = {[name]} ∪ w_probes w) \/
     (r = 0%Z /\ w_probes s'.2 = w_probes w))) e (d, w).
Proof. unfold probe_target. 
  unfold probe_target. wp_steps;
    (split_and!; [env_solve|done|eexists; split; [done|]]); [by left|].
  right. by rewrite (proj2 (Z.eqb_neq _ _)).
Qed.

Lemma unprobe_target_spec name addr e d w :
  wp (unprobe_target name addr) (fun _ e' s' =>
    env_rel 0 e e' /\ w_manager s'.2 = w_manager w /\ s'.1 = d /\
    ((addr d = 0%Z -> name ∉ w_probes w) -> w_probes s'.2 = w_probes w ∖ {[name]})) e (d, w).
Proof. unfold unprobe_target. wp_steps; intros; probes. Qed.

#[export] Instance ftrace_direct_laws :
  DetectorLaws (ftrace_direct_detector_init k) ftrace_direct_detector_exit names direct_linked.
Proof.
  split; intros e d w H.
  - intros _. unfold ftrace_direct_detector_init, direct_linked.
    wp_step. eapply wp_mono; [apply probe_target_spec|]. intros n1 e1 [d1 w1]; cbn [fst snd]; intros (?&?&a1&->&Hp1).
    wp_step. eapply wp_mono; [apply probe_target_spec|]. intros n2 e2 [d2 w2]; cbn [fst snd]; intros (?&?&a2&->&Hp2).
    wp_step. eapply wp_mono; [apply probe_target_spec|]. intros n3 e3 [d3 w3]; cbn [fst snd]; intros (?&?&a3&->&Hp3).
    cbn [fst snd] in *.
    destruct Hp1 as [(->&?&Hw1)|(->&Hw1)], Hp2 as [(->&?&Hw2)|(->&Hw2)],
      Hp3 as [(->&?&Hw3)|(->&Hw3)]; wp_steps; rewrite Hw1 in Hw2; rewrite Hw2 in Hw3; unfold only_probes;
      cbn [fst snd]; rewrite Hw3; clear Hw1 Hw2 Hw3; probes.
  - destruct H as (H1 & H2 & H3). unfold ftrace_direct_detector_exit.
    wp_step. eapply wp_mono; [apply unprobe_target_spec|]. intros [] e1 [d1 w1]; cbn [fst snd]; intros (?&?&->&Hp1).
    wp_step. eapply wp_mono; [apply unprobe_target_spec|]. intros [] e2 [d2 w2]; cbn [fst snd]; intros (?&?&->&Hp2).
    eapply wp_mono; [apply unprobe_target_spec|]. intros [] e3 [d3 w3]; cbn [fst snd]; intros (?&?&->&Hp3).
    cbn [fst snd] in *. rewrite Hp1 in Hp2 by set_solver. rewrite Hp2 in Hp3 by set_solver.
    rewrite Hp3 by set_solver. unfold direct_linked. probes; congruence.
Qed.
End laws.

(** ** What the handlers report *)
Section policy.
Context (k : kernel).
Context (hmac_sha256 : list byte -> list byte -> list byte).
Context (aead_encrypt : list byte -> list byte -> list byte -> list byte).
Context (aead_length : forall k n p,
  length (aead_encrypt k n p) = (length p + PHOTON_TAG_SIZE)%nat).
Context (known_arch : k_arch k <> OTHER_ARCH) (kernel_argument : kernel_argument_ok k).
Abbreviation alerts := (alerts hmac_sha256 aead_encrypt).

(** A function outside the symbol table. *)
Definition unnamed (addr : Z) : bool :=
  negb (Z.eqb addr 0) && starts_with_0x (sprint_symbol_no_offset k addr).
(** The name of an address as it fits a field; 0 has none. *)
Definition name_field (addr : Z) : list byte :=
  if Z.eqb addr 0 then zeros 64 else char_field 64 (sprint_symbol_no_offset k addr).
(** The names that fit the field the kernel writes them to. *)
Definition name_fits (addr : Z) : Prop :=
  addr <> 0%Z -> (String.length (sprint_symbol_no_offset k addr) < 64)%nat.

Definition direct_alert (src target new : Z) (target_field pattern : list byte) : alert :=
  mk_alert
    (mk_line KERN_ALERT
       "[PHOTON RING] ftrace_direct: src=%u target='%s' (0x%lx) new='%s' (0x%lx) pattern='%s'"
       [ANum src; AStr (field_string target_field); ANum target;
        AStr (field_string (name_field new)); ANum new; AStr (field_string pattern)])
    PHOTON_EVENT_FTRACE_HOOK 5 PHOTON_SEV_CRITICAL
    (pack (mk_ftrace_hook_data target_field target (name_field new) new pattern src)).

Lemma unnamed_eq addr : addr_is_anonymous k addr = unnamed addr.
Proof. unfold addr_is_anonymous, unnamed. by destruct (Z.eqb addr 0). Qed.

Lemma length_name_field addr : length (name_field addr) = 64%nat.
Proof. unfold name_field. destruct (Z.eqb addr 0); by autorewrite with photon. Qed.

(** The field of a name that fits. *)
Lemma wp_sprint_field addr (Q : list byte -> env -> world -> Prop) e w :
  name_fits addr -> Q (name_field addr) e w ->
  wp (if Z.eqb addr 0 then mret (zeros 64) else sprint_field k addr) Q e w.
Proof.
  intros Hf HQ. unfold name_field, sprint_field in *. destruct (Z.eqb_spec addr 0); [done|].
  cbv zeta. by rewrite decide_False by (specialize (Hf n); lia).
Qed.

Lemma direct_alert_ok src target new target_field pattern :
  (length target_field = 64)%nat -> length pattern = 64%nat ->
  alert_ok (direct_alert src target new target_field pattern).
Proof.
  intros Ht Hp. unfold alert_ok, PHOTON_MAX_EVENT_DATA, direct_alert.
  cbn -[le_encode name_field]. rewrite !length_app, length_name_field, Ht, Hp.
  autorewrite with photon. split_and!; first [lia | done].
Qed.

(** A pattern that ftrace matches as a glob: one with a wildcard. *)
Definition is_glob (pattern : string) : bool :=
  existsb (fun c => existsb (Ascii.eqb c) ["*"; "?"; "["]%char) (list_ascii_of_string pattern).

Lemma watchlist_has_no_glob pattern : is_glob pattern = true -> pattern ∉ photon_watchlist.
Proof.
  intros Hg Hin. assert (Forall (fun s => is_glob s = false) photon_watchlist) as Hall.
  { by repeat constructor. }
  rewrite Forall_forall in Hall. by rewrite (Hall _ Hin) in Hg.
Qed.

Lemma set_filter_alerts src args ops buf func pattern e w :
  args !! 0%nat = Some ops -> args !! 1%nat = Some buf -> buf <> 0%Z ->
  string_at k buf = Some pattern ->
  (if decide (ops = 0%Z) then func = 0%Z else ftrace_ops_func_at k ops = Some func) ->
  name_fits func -> manager_inv hmac_sha256 (w_manager w) ->
  wp (handle_set_filter_common k aead_encrypt (entry_regs (k_arch k) args) src) (fun _ e' w' =>
    env_rel 0 e e' /\
    alerts e (if unnamed func || bool_decide (pattern ∈ photon_watchlist)
              then [direct_alert src 0 func (zeros 64) (char_field 64 pattern)] else []) w w') e w.
Proof using known_arch kernel_argument aead_length.
  intros Hops Hbuf Hb0 Hpat Hfunc Hfit Hi. unfold handle_set_filter_common.
  rewrite !kprobe_get_arg_entry, Hops, Hbuf by (done || lia). simpl default.
  rewrite Hpat. wp_step. wp_step.
  eapply (wp_eq _ _ _ _ func).
  { destruct (decide (ops = 0%Z)) as [->|Hne]; [by rewrite Hfunc|].
    by rewrite (proj2 (Z.eqb_neq _ _)), Hfunc. }
  do 2 wp_step. rewrite unnamed_eq, watchlisted_eq, <- negb_orb.
  destruct (unnamed func || _); [|no_alert]. unfold emit_event. simpl negb. cbn iota.
  do 4 wp_step. apply wp_sprint_field; [done|]. cbv zeta.
  apply (alert_spec _ _ aead_length
    (direct_alert src 0 func (zeros 64) (char_field 64 pattern))); [done|].
  apply direct_alert_ok; auto using length_zeros, length_char_field.
Qed.

(** C32. Calls of ftrace_set_filter and ftrace_set_notrace with a pattern, whoever makes them, are reported exactly when the callback of the ops lies outside the symbol table or the pattern is, character for character, a watched symbol; the event holds the first 63 characters of the pattern and the callback's name, which is assumed to fit its 64-byte field (a longer one is another theorem's matter).  A glob is never on the list: however many watched symbols it matches, a call with a glob and a callback that has a name passes unreported. *)
Theorem set_filter_policy src args ops buf func pattern e w :
  args !! 0%nat = Some ops -> args !! 1%nat = Some buf -> buf <> 0%Z ->
  string_at k buf = Some pattern ->
  (if decide (ops = 0%Z) then func = 0%Z else ftrace_ops_func_at k ops = Some func) ->
  name_fits func -> manager_inv hmac_sha256 (w_manager w) ->
  wp (handle_set_filter_common k aead_encrypt (entry_regs (k_arch k) args) src) (fun _ e' w' =>
    env_rel 0 e e' /\
    alerts e (if unnamed func || bool_decide (pattern ∈ photon_watchlist)
              then [direct_alert src 0 func (zeros 64) (char_field 64 pattern)] else []) w w' /\
    (is_glob pattern = true -> unnamed func = false -> alerts e [] w w')) e w.
Proof using known_arch kernel_argument aead_length.
  intros Hops Hbuf Hb0 Hpat Hfunc Hfit Hi.
  eapply wp_mono; [by apply (set_filter_alerts src args ops buf func pattern)|]. intros [] e' w' [He Ha]. split_and!; [done|done|].
  intros Hg Hn. by rewrite Hn, (bool_decide_eq_false_2 _ (watchlist_has_no_glob _ Hg)) in Ha.
Qed.

(** A direct call patched in at a function is reported exactly when the new target lies outside the symbol table or the patched function is watched. *)
Theorem modify_direct_policy args ip new e w :
  args !! 0%nat = Some ip -> args !! 2%nat = Some new -> name_fits new ->
  manager_inv hmac_sha256 (w_manager w) ->
  let sym := sprint_symbol_no_offset k ip in
  wp (handler_modify_direct k aead_encrypt (entry_regs (k_arch k) args)) (fun _ e' w' =>
    env_rel 0 e e' /\
    alerts e (if unnamed new || bool_decide (sym ∈ photon_watchlist)
              then [direct_alert 2 ip new (char_field 64 sym) (zeros 64)] else []) w w') e w.
Proof using known_arch kernel_argument aead_length.
  intros Hip Hnew Hfit Hi sym. unfold handler_modify_direct.
  rewrite !kprobe_get_arg_entry, Hip, Hnew by (done || lia). simpl default. fold sym.
  rewrite unnamed_eq, watchlisted_eq, <- negb_orb.
  destruct (unnamed new || _); [|no_alert]. unfold emit_event. simpl negb. cbn iota.
  do 3 wp_step. apply wp_sprint_field; [done|]. cbv zeta.
  apply (alert_spec _ _ aead_length
    (direct_alert 2 ip new (char_field 64 sym) (zeros 64))); [done|].
  apply direct_alert_ok; auto using length_zeros, length_char_field.
Qed.

(** C40. A reported target whose symbol, with its module suffix, is 64 characters or longer is written past the end of the payload's 64-byte name field. *)
Theorem long_symbol_overflows args ip new e w :
  args !! 0%nat = Some ip -> args !! 2%nat = Some new -> new <> 0%Z ->
  sprint_symbol_no_offset k ip ∈ photon_watchlist ->
  (64 <= String.length (sprint_symbol_no_offset k new))%nat ->
  handler_modify_direct k aead_encrypt (entry_regs (k_arch k) args) e w = Fault.
Proof using known_arch kernel_argument.
  intros Hip Hnew Hn0 Hw Hlong. unfold handler_modify_direct.
  rewrite !kprobe_get_arg_entry, Hip, Hnew by (done || lia). simpl default.
  rewrite watchlisted_eq, bool_decide_true, andb_false_r by done.
  unfold emit_event, mbind, M_bind, mret, M_ret. rewrite (proj2 (Z.eqb_neq _ _)) by done.
  unfold sprint_field. cbv zeta. by rewrite decide_True.
Qed.
End policy.
