(* ===== verification/BecomeRoot.v ===== *)
(** * The become_root detector
    [modules/become_root_detector.c]: a report for every commit_creds that
    turns a nonzero uid into 0 without a known system call on the stack.  The
    stack is rendered to text and parsed back, line by line; the text the
    kernel renders is a parameter, its parsing is modelled character by
    character. *)
From Stdlib Require Import ZArith Lia.
From Stdlib Require Import Strings.Byte Strings.Ascii Strings.String.
From stdpp Require Import base numbers list strings option gmap sets.
From S2P Require Import Prelude CString Kernel Events Crypto Cdev EventManager Arch Watchlists.
From S2P Require Import Hooks.
Open Scope string_scope.

Definition PRIVESC_STACK_DEPTH : nat := 16.
Definition PRIVESC_TRACE_BUF_SIZE : nat := 2048.

Definition legitimate_callers : list string := [
  "security_bprm_committed_creds"; "cap_bprm_set_creds";
  "__sys_setuid"; "__sys_setuid16"; "__sys_setreuid"; "__sys_setreuid16";
  "__sys_setresuid"; "__sys_setresuid16"; "__sys_setgid"; "__sys_setgid16";
  "__sys_setregid"; "__sys_setregid16"; "__sys_setresgid"; "__sys_setresgid16";
  "__sys_setfsuid"; "__sys_setfsuid16"; "__sys_setfsgid"; "__sys_setfsgid16"; "__sys_setns"].

(** ** Parsing the rendered stack *)
Definition newline : ascii := ascii_of_nat 10.
Definition tab : ascii := ascii_of_nat 9.

(** The text before the first [c], and the text after it if there is one. *)
Fixpoint split_at (c : ascii) (s : string) : string * option string :=
  match s with
  | EmptyString => (EmptyString, None)
  | String x s =>
      if Ascii.eqb x c then (EmptyString, Some s)
      else let '(a, b) := split_at c s in (String x a, b)
  end.

Fixpoint skip_blanks (s : string) : string :=
  match s with
  | String x s' => if Ascii.eqb x " " || Ascii.eqb x tab then skip_blanks s' else s
  | EmptyString => EmptyString
  end.

(** The bare symbol of a line: what stands before its first '+'. *)
Definition frame_symbol (ksym_len : nat) (line : string) : option string :=
  match split_at "+" (skip_blanks line) with
  | (EmptyString, _) | (_, None) => None
  | (sym, Some _) => if decide (String.length sym < ksym_len)%nat then Some sym else None
  end.

(** The loop over the lines; each turn consumes a line, so the length of the
    text is fuel enough. *)
Fixpoint scan_lines (ksym_len fuel : nat) (text : string) : bool :=
  match text, fuel with
  | EmptyString, _ | _, O => false
  | _, S fuel =>
      let '(line, rest) := split_at newline text in
      if match frame_symbol ksym_len line with
         | Some sym => strcmp_any sym legitimate_callers
         | None => false
         end
      then true
      else match rest with Some rest => scan_lines ksym_len fuel rest | None => false end
  end.

(** [text] is what [stack_trace_snprint] renders; the buffer cuts it. *)
Definition stack_has_legitimate_caller (ksym_len : nat) (text : string) : bool :=
  let buf := string_take (PRIVESC_TRACE_BUF_SIZE - 1) text in
  scan_lines ksym_len (String.length buf) buf.

(** ** The hook, set-up and tear-down *)
Section handlers.
Context (k : kernel).
Context (aead_encrypt : list byte -> list byte -> list byte -> list byte).

Definition hook_commit_creds (parent_ip : Z) (fregs : ftrace_regs) : M world unit :=
  let new_cred := get_arg k fregs 0 in
  if Z.eqb new_cred 0 then mret tt else
  let old_cred := current_cred k in
  if Z.eqb old_cred 0 then mret tt else
  old ← deref (cred_uid_at k old_cred);
  if Z.eqb old 0 then mret tt else
  new ← deref (cred_uid_at k new_cred);
  if negb (Z.eqb new 0) then mret tt else
  let entries := stack_trace_save k PRIVESC_STACK_DEPTH 1 in
  if stack_has_legitimate_caller (KSYM_NAME_LEN k) (stack_trace_snprint k entries) then mret tt else
  t ← get_current;
  printk KERN_ALERT "[PHOTON RING] SUSPICIOUS *** commit_creds uid escalation to root!" [] ;;
  printk KERN_ALERT "[PHOTON RING]   process=%s pid=%d uid=%u -> 0 parent_ip=0x%lx"
    [AStr (comm t); ANum (pid t); ANum old; ANum parent_ip] ;;
  report aead_encrypt PHOTON_EVENT_PRIVESC_UID (detector_id_code PHOTON_DETECTOR_PRIVESC)
    PHOTON_SEV_CRITICAL (pack (mk_privesc_data old new parent_ip)).

Definition become_root_detector_init : M (unit * world) Z :=
  in_world (ftrace_install "commit_creds_ops" (symbol_addr k "commit_creds")).

Definition become_root_detector_exit : M (unit * world) unit :=
  in_world (ftrace_remove "commit_creds_ops").

#[export] Instance become_root_laws :
  DetectorLaws become_root_detector_init become_root_detector_exit
    {["commit_creds_ops"]} (fun _ _ => True).
Proof.
  split; intros e d w H.
  - intros Hl. unfold become_root_detector_init. wp_steps; probes.
  - unfold become_root_detector_exit. wp_steps; probes.
Qed.
End handlers.

(** ** The parser against the format the kernel renders
    Each frame is one line, [" symbol+0xoff/0xsize [module]"]. *)
Fixpoint char_in (c : ascii) (s : string) : bool :=
  match s with
  | EmptyString => false
  | String x s => Ascii.eqb x c || char_in c s
  end.

Record frame := mk_frame { f_symbol : string; f_tail : string }.
Definition frame_line (f : frame) : string := " " +:+ f_symbol f +:+ "+" +:+ f_tail f.
Definition render (frames : list frame) : string :=
  foldr (fun f t => frame_line f +:+ String newline t) "" frames.

(** Symbols hold no '+', blank, tab or newline, and the rest of a line no
    newline. *)
Definition frame_ok (ksym_len : nat) (f : frame) : Prop :=
  f_symbol f <> "" /\ (String.length (f_symbol f) < ksym_len)%nat /\
  char_in "+" (f_symbol f) = false /\ char_in " " (f_symbol f) = false /\
  char_in tab (f_symbol f) = false /\ char_in newline (f_symbol f) = false /\
  char_in newline (f_tail f) = false.

Lemma split_at_app c a b :
  char_in c a = false -> split_at c (a +:+ String c b) = (a, Some b).
Proof.
  induction a as [|x a IH]; simpl.
  - by rewrite Ascii.eqb_refl.
  - intros [-> H]%orb_false_iff. by rewrite IH.
Qed.

Lemma char_in_app c a b : char_in c (a +:+ b) = char_in c a || char_in c b.
Proof. induction a as [|x a IH]; simpl; [done|]. by rewrite IH, orb_assoc. Qed.

Lemma string_take_all s n : (String.length s <= n)%nat -> string_take n s = s.
Proof.
  revert s. induction n as [|n IH]; intros [|c s] H; simpl in *; try done; [lia|].
  by rewrite IH by lia.
Qed.

(** The symbol of a line, whatever follows the '+'. *)
Lemma frame_symbol_line n f : frame_ok n f -> frame_symbol n (frame_line f) = Some (f_symbol f).
Proof.
  intros (Hne & Hlen & Hp & Hb & Ht & _). unfold frame_symbol, frame_line.
  assert (skip_blanks (" " +:+ f_symbol f +:+ "+" +:+ f_tail f) = f_symbol f +:+ String "+" (f_tail f)) as Hs.
  { change (skip_blanks (f_symbol f +:+ String "+" (f_tail f)) = f_symbol f +:+ String "+" (f_tail f)).
    destruct (f_symbol f) as [|x s]; [done|]. simpl in Hb, Ht |- *.
    apply orb_false_iff in Hb as [-> _]. by apply orb_false_iff in Ht as [-> _]. }
  rewrite Hs, split_at_app by done. destruct (f_symbol f) eqn:E; [done|].
  by rewrite decide_True.
Qed.

Definition legitimate (f : frame) : bool := strcmp_any (f_symbol f) legitimate_callers.

Lemma scan_lines_render n frames fuel :
  Forall (frame_ok n) frames -> (length frames <= fuel)%nat ->
  scan_lines n fuel (render frames) = existsb legitimate frames.
Proof.
  revert fuel. induction frames as [|f frames IH]; intros fuel Hok Hlen; [by destruct fuel|].
  apply Forall_cons_iff in Hok as [Hf Hok]. destruct fuel as [|fuel]; simpl in Hlen; [lia|].
  assert (Hsplit : split_at newline (render (f :: frames)) = (frame_line f, Some (render frames))).
  { simpl render. rewrite split_at_app; [done|].
    destruct Hf as (_ & _ & _ & _ & _ & Hn & Ht). unfold frame_line.
    rewrite !char_in_app, Hn, Ht. done. }
  cbn [scan_lines]. rewrite Hsplit, frame_symbol_line by done. cbn [existsb].
  change (strcmp_any (f_symbol f) legitimate_callers) with (legitimate f).
  rewrite IH by (done || lia). by destruct (legitimate f).
Qed.

Lemma render_length frames : (length frames <= String.length (render frames))%nat.
Proof.
  induction frames as [|f frames IH]; simpl; [lia|].
  rewrite string_length_app. simpl. lia.
Qed.

Lemma stack_scan_spec n frames :
  Forall (frame_ok n) frames -> (String.length (render frames) < 2048)%nat ->
  stack_has_legitimate_caller n (render frames) = true <->
  exists f, f ∈ frames /\ f_symbol f ∈ legitimate_callers.
Proof.
  intros Hok Hlen. unfold stack_has_legitimate_caller, PRIVESC_TRACE_BUF_SIZE.
  rewrite string_take_all by lia.
  rewrite scan_lines_render by (done || apply render_length).
  rewrite existsb_exists. unfold legitimate.
  split; intros (f & Hin & Hf); exists f; (split; [by apply list_elem_of_In|by apply strcmp_any_spec]).
Qed.

(** C29. The stack parser accepts a rendered stack exactly when the bare symbol of some frame equals a listed name: a name that only starts with a listed one is not accepted, and the module a frame belongs to is not looked at.  The text fits the 2048 bytes of the buffer, and each frame is a symbol with its offset, as the comment of the parser gives the format; an address without a symbol is not covered. *)
Theorem stack_parser_exact n frames :
  Forall (frame_ok n) frames -> (String.length (render frames) < 2048)%nat ->
  stack_has_legitimate_caller n (render frames) = true <->
  exists f, f ∈ frames /\ f_symbol f ∈ legitimate_callers.
Proof. apply stack_scan_spec. Qed.

(** ** The decision of the hook *)
Section policy.
Context (k : kernel).
Context (hmac_sha256 : list byte -> list byte -> list byte).
Context (aead_encrypt : list byte -> list byte -> list byte -> list byte).
Context (aead_length : forall k n p,
  length (aead_encrypt k n p) = (length p + PHOTON_TAG_SIZE)%nat).
Context (known_arch : k_arch k <> OTHER_ARCH).

(** The console lines of an escalation. *)
Definition escalation_lines (t : task) (old parent_ip : Z) : list line :=
  [mk_line KERN_ALERT "[PHOTON RING] SUSPICIOUS *** commit_creds uid escalation to root!" [];
   mk_line KERN_ALERT "[PHOTON RING]   process=%s pid=%d uid=%u -> 0 parent_ip=0x%lx"
     [AStr (comm t); ANum (pid t); ANum old; ANum parent_ip]].

(** C28. Every commit_creds that turns a nonzero uid into 0 is reported as critical, with the old uid and the call site, unless a frame of the rendered stack bears a listed symbol; every other call passes in silence.  The rendered stack fits the 2048 bytes of the buffer and each of its frames is a symbol with its offset. *)
Theorem commit_creds_policy new_cred args old new frames parent_ip e w :
  args !! 0%nat = Some new_cred -> new_cred <> 0%Z -> current_cred k <> 0%Z ->
  cred_uid_at k (current_cred k) = Some old -> cred_uid_at k new_cred = Some new ->
  stack_trace_snprint k (stack_trace_save k 16 1) = render frames ->
  Forall (frame_ok (KSYM_NAME_LEN k)) frames -> (String.length (render frames) < 2048)%nat ->
  manager_inv hmac_sha256 (w_manager w) ->
  wp (hook_commit_creds k aead_encrypt parent_ip (called k args)) (fun _ e' w' =>
    env_rel 0 e e' /\
    if bool_decide (old <> 0%Z /\ new = 0%Z /\
                    Forall (fun f => f_symbol f ∉ legitimate_callers) frames)
    then reported hmac_sha256 aead_encrypt e PHOTON_EVENT_PRIVESC_UID 6 PHOTON_SEV_CRITICAL
           (pack (mk_privesc_data old 0 parent_ip))
           (set_console (w_console w ++ escalation_lines (current e) old parent_ip) w) w'
    else w' = w) e w.
Proof using known_arch aead_length.
  intros Hp Hp0 Hc0 Hold Hnew Hst Hok Hlen Hi. unfold hook_commit_creds.
  rewrite get_arg_called, Hp by (destruct (k_arch k); simpl; [lia..|done]).
  simpl default. rewrite Hold, Hnew. unfold PRIVESC_STACK_DEPTH. rewrite Hst.
  rewrite (proj2 (Z.eqb_neq new_cred 0)), (proj2 (Z.eqb_neq (current_cred k) 0)) by done.
  do 2 wp_step. cbn beta. wp_step.
  { wp_step. split; [apply env_rel_refl|]. rewrite bool_decide_false; naive_solver. }
  do 2 wp_step. cbn beta. wp_step.
  { wp_step. split; [apply env_rel_refl|]. rewrite bool_decide_false; naive_solver. }
  pose proof (stack_scan_spec _ _ Hok Hlen) as Hspec.
  destruct (stack_has_legitimate_caller _ _).
  { wp_step. split; [apply env_rel_refl|]. rewrite bool_decide_false; [done|].
    destruct (proj1 Hspec eq_refl) as (f & Hf & Hl). intros (_ & _ & Hall).
    rewrite Forall_forall in Hall. by apply (Hall f). }
  subst new. rewrite bool_decide_true.
  2:{ split_and!; [done|done|]. apply Forall_forall. intros f Hf Hl.
      assert (false = true) by (apply Hspec; eauto). done. }
  do 6 wp_step.
  eapply wp_mono; [apply report_spec; [exact aead_length|done|..]|].
  - unfold PHOTON_MAX_EVENT_DATA. cbn -[le_encode]. autorewrite with photon. lia.
  - done.
  - done.
  - intros [] e' w' (He & Hr). split; [done|]. unfold escalation_lines.
    cbn [set_console w_console w_manager w_probes w_filters] in Hr.
    rewrite <- app_assoc in Hr. exact Hr.
Qed.

(** A caller that owns one frame with a listed symbol, in whatever module, becomes root without a report. *)
Theorem listed_symbol_in_any_module new_cred args old f frames parent_ip e w :
  args !! 0%nat = Some new_cred -> new_cred <> 0%Z -> current_cred k <> 0%Z ->
  cred_uid_at k (current_cred k) = Some old -> cred_uid_at k new_cred = Some 0%Z ->
  stack_trace_snprint k (stack_trace_save k 16 1) = render frames ->
  Forall (frame_ok (KSYM_NAME_LEN k)) frames -> (String.length (render frames) < 2048)%nat ->
  f ∈ frames -> f_symbol f ∈ legitimate_callers ->
  hook_commit_creds k aead_encrypt parent_ip (called k args) e w = Ret (tt, e, w).
Proof using known_arch.
  intros Hp Hp0 Hc0 Hold Hnew Hst Hok Hlen Hin Hl. unfold hook_commit_creds.
  rewrite get_arg_called, Hp by (destruct (k_arch k); simpl; [lia..|done]).
  change (default 0%Z (Some new_cred)) with new_cred. rewrite Hold, Hnew. unfold PRIVESC_STACK_DEPTH. rewrite Hst.
  rewrite (proj2 (stack_scan_spec _ _ Hok Hlen)) by eauto.
  rewrite !(proj2 (Z.eqb_neq _ _)) by done. unfold mbind, M_bind, deref, mret, M_ret.
  by destruct (Z.eqb old 0).
Qed.
End policy.
