(* ===== verification/ResetTainted.v ===== *)
(** * The reset_tainted detector
    [modules/reset_tainted_detector.c]: an ftrace hook on
    kthread_create_on_node, a periodic check that no taint bit was cleared, and
    a periodic scan of the task list.  A [delayed_work] that is scheduled counts
    among the registered probes. *)
From Stdlib Require Import ZArith Lia.
From Stdlib Require Import Strings.Byte Strings.Ascii Strings.String.
From stdpp Require Import base numbers list strings option gmap sets.
From S2P Require Import Prelude CString Kernel Events Crypto Cdev EventManager Arch Watchlists.
From S2P Require Import Hooks.
Open Scope string_scope.

Definition suspicious_names : list string := ["zer0t"].

Record reset_tainted := mk_reset_tainted {
  detector_exiting : bool;
  photon_kallsyms_lookup : Z;
  kthread_hook_active : bool;
  tainted_mask_ptr : Z;
  taint_baseline : Z;
}.
Definition put_exiting b d := mk_reset_tainted b (photon_kallsyms_lookup d)
  (kthread_hook_active d) (tainted_mask_ptr d) (taint_baseline d).
Definition put_lookup a d := mk_reset_tainted (detector_exiting d) a
  (kthread_hook_active d) (tainted_mask_ptr d) (taint_baseline d).
Definition put_active b d := mk_reset_tainted (detector_exiting d) (photon_kallsyms_lookup d)
  b (tainted_mask_ptr d) (taint_baseline d).
Definition put_mask_ptr p d := mk_reset_tainted (detector_exiting d) (photon_kallsyms_lookup d)
  (kthread_hook_active d) p (taint_baseline d).
Definition put_baseline b d := mk_reset_tainted (detector_exiting d) (photon_kallsyms_lookup d)
  (kthread_hook_active d) (tainted_mask_ptr d) b.

Definition schedule_delayed_work (work : string) : M world unit :=
  modify (fun w => set_probes ({[work]} ∪ w_probes w) w).
Definition cancel_delayed_work_sync (work : string) : M world unit := unregister_probe work.

Definition thread_line (namefmt : string) (parent_ip : Z) (t : task) : line :=
  mk_line KERN_ALERT
    "[PHOTON RING] SUSPICIOUS *** kthread '%s' spawned! Caller: %pS, process: '%s' (PID %d). Possible taint-clearing rootkit!"
    [AStr namefmt; ANum parent_ip; AStr (comm t); ANum (pid t)].

Abbreviation names_of_reset_tainted :=
  {["kthread_ops"; "reset_tainted.kp"; "taint_check_work"; "thread_scan_work"]}.

Section handlers.
Context (k : kernel).

Definition resolve_kallsyms_lookup_name : M (reset_tainted * world) Z :=
  '(ret, addr) ← in_world (register_kprobe (symbol_addr k) "reset_tainted.kp" "kallsyms_lookup_name");
  if (ret <? 0)%Z then mret (- ENOENT)%Z else
  in_statics (modify (put_lookup addr)) ;;
  in_world (unregister_probe "reset_tainted.kp") ;;
  mret 0%Z.

(** The first name that matches is reported, then the hook returns. *)
Definition hook_kthread_create (parent_ip : Z) (fregs : ftrace_regs) : M world unit :=
  let p := get_arg k fregs 3 in
  if Z.eqb p 0 then mret tt else
  namefmt ← deref (string_at k p);
  if strcmp_any namefmt suspicious_names then
    t ← get_current;
    let l := thread_line namefmt parent_ip t in
    printk (level l) (text l) (line_args l)
  else mret tt.

Definition setup_kthread_hook : M (reset_tainted * world) Z :=
  ret ← in_world (ftrace_install "kthread_ops" (symbol_addr k "kthread_create_on_node"));
  if negb (Z.eqb ret 0) then mret ret else
  in_statics (modify (put_active true)) ;;
  mret 0%Z.

Definition teardown_kthread_hook : M (reset_tainted * world) unit :=
  d ← in_statics get;
  if negb (kthread_hook_active d) then mret tt else
  in_world (unregister_probe "kthread_ops") ;;
  in_world (ftrace_set_filter_ip "kthread_ops" (symbol_addr k "kthread_create_on_node") true) ;;
  in_statics (modify (put_active false)).

Definition taint_check_fn : M (reset_tainted * world) unit :=
  d ← in_statics get;
  cur ← deref (pointer_at k (tainted_mask_ptr d));
  let cleared := Z.land (taint_baseline d) (Z.lnot cur) in
  (if negb (Z.eqb cleared 0) then
     in_world (printk KERN_ALERT
       "[PHOTON RING] SUSPICIOUS *** tainted_mask cleared! Cleared bits: 0x%lx (was: 0x%lx, now: 0x%lx). Possible rootkit taint erasure (reset_tainted / zer0t)!"
       [ANum cleared; ANum (taint_baseline d); ANum cur]) ;;
     in_statics (modify (put_baseline cur))
   else mret tt) ;;
  if negb (detector_exiting d) then in_world (schedule_delayed_work "taint_check_work")
  else mret tt.

Definition setup_taint_poll : M (reset_tainted * world) unit :=
  d ← in_statics get;
  if Z.eqb (photon_kallsyms_lookup d) 0 then mret tt else
  let addr := symbol_addr k "tainted_mask" in
  if Z.eqb addr 0 then mret tt else
  in_statics (modify (put_mask_ptr addr)) ;;
  baseline ← deref (pointer_at k addr);
  in_statics (modify (put_baseline baseline)) ;;
  in_world (schedule_delayed_work "taint_check_work").

Definition scan_line (t : task) (tgid : Z) : line :=
  mk_line KERN_ALERT
    "[PHOTON RING] SUSPICIOUS *** suspicious task found in kernel task list: '%s' (PID %d, TGID %d). Possible hidden rootkit thread!"
    [AStr (comm t); ANum (pid t); ANum tgid].

(** The inner loop goes on after a match. *)
Fixpoint scan_names (names : list string) (t : task) (tgid : Z) : M world unit :=
  match names with
  | [] => mret tt
  | name :: names =>
      (if strcmp_eq (comm t) name then
         let l := scan_line t tgid in printk (level l) (text l) (line_args l)
       else mret tt) ;;
      scan_names names t tgid
  end.

Fixpoint for_each_process (tasks : list (task * Z)) : M world unit :=
  match tasks with
  | [] => mret tt
  | (t, tgid) :: tasks => scan_names suspicious_names t tgid ;; for_each_process tasks
  end.

(** [tasks] is the kernel's task list, each task with its thread group. *)
Definition thread_scan_fn (tasks : list (task * Z)) : M (reset_tainted * world) unit :=
  in_world (for_each_process tasks) ;;
  d ← in_statics get;
  if negb (detector_exiting d) then in_world (schedule_delayed_work "thread_scan_work")
  else mret tt.

(** Failures of the three vectors are only logged. *)
Definition reset_tainted_detector_init : M (reset_tainted * world) Z :=
  resolve_kallsyms_lookup_name ;;
  setup_kthread_hook ;;
  setup_taint_poll ;;
  in_world (schedule_delayed_work "thread_scan_work") ;;
  mret 0%Z.

Definition reset_tainted_detector_exit : M (reset_tainted * world) unit :=
  in_statics (modify (put_exiting true)) ;;
  teardown_kthread_hook ;;
  in_world (cancel_delayed_work_sync "taint_check_work") ;;
  in_world (cancel_delayed_work_sync "thread_scan_work").

(** A reading of the mask that the kernel allows. *)
Context (mask_readable : symbol_addr k "tainted_mask" <> 0%Z ->
  is_Some (pointer_at k (symbol_addr k "tainted_mask"))).

Lemma resolve_spec e d w :
  "reset_tainted.kp" ∉ w_probes w ->
  wp resolve_kallsyms_lookup_name (fun _ e' s' =>
    env_rel 0 e e' /\ w_manager s'.2 = w_manager w /\ w_probes s'.2 = w_probes w /\
    kthread_hook_active s'.1 = kthread_hook_active d) e (d, w).
Proof.
  intros Hkp. unfold resolve_kallsyms_lookup_name. wp_steps; probes.
Qed.

Lemma setup_kthread_spec e d w :
  wp setup_kthread_hook (fun _ e' s' =>
    env_rel 0 e e' /\ w_manager s'.2 = w_manager w /\
    ((w_probes s'.2 = {["kthread_ops"]} ∪ w_probes w /\ kthread_hook_active s'.1 = true) \/
     (w_probes s'.2 = w_probes w /\ s'.1 = d))) e (d, w).
Proof. unfold setup_kthread_hook. wp_steps; eauto. Qed.

Lemma setup_taint_poll_spec e d w :
  wp setup_taint_poll (fun _ e' s' =>
    e' = e /\ w_manager s'.2 = w_manager w /\
    kthread_hook_active s'.1 = kthread_hook_active d /\
    (w_probes s'.2 = {["taint_check_work"]} ∪ w_probes w \/ w_probes s'.2 = w_probes w))
    e (d, w).
Proof using mask_readable.
  unfold setup_taint_poll, schedule_delayed_work.
  wp_steps; try (destruct (mask_readable ltac:(done)) as [v ->]; wp_steps); eauto.
Qed.

#[export] Instance reset_tainted_laws :
  DetectorLaws reset_tainted_detector_init reset_tainted_detector_exit
    names_of_reset_tainted
    (fun s d => ("kthread_ops" ∈ s -> kthread_hook_active d = true) /\ "reset_tainted.kp" ∉ s).
Proof using mask_readable.
  split; intros e d w H.
  - intros Hl. unfold reset_tainted_detector_init.
    wp_step. eapply wp_mono; [apply resolve_spec; set_solver|].
    intros r1 e1 [d1 w1]; cbn [fst snd]; intros (?&Hm1&Hp1&Ha1).
    wp_step. eapply wp_mono; [apply setup_kthread_spec|].
    intros r2 e2 [d2 w2]; cbn [fst snd]; intros (?&Hm2&Hp2).
    wp_step. eapply wp_mono; [apply setup_taint_poll_spec|].
    intros r3 e3 [d3 w3]; cbn [fst snd]; intros (->&Hm3&Ha3&Hp3).
    unfold schedule_delayed_work. wp_steps.
    rewrite Hm1 in Hm2. rewrite Hm2 in Hm3. rewrite Hp1 in Hp2. clear Hm1 Hm2 Hp1.
    destruct Hp2 as [[Hp2 Ha2]|[Hp2 ->]], Hp3 as [Hp3|Hp3]; cbn [fst snd set_probes w_probes];
      rewrite Hp3, Hp2; probes; congruence.
  - destruct H as [H1 H2]. unfold reset_tainted_detector_exit, teardown_kthread_hook,
      cancel_delayed_work_sync.
    destruct d as [x l [|] p b]; cbn [kthread_hook_active] in H1;
      [|assert ("kthread_ops" ∉ w_probes w ∩ names_of_reset_tainted) by by intros ?%H1];
      wp_steps; probes.
Qed.
End handlers.

(** ** What the monitor notices *)
Definition cleared_line (baseline cur : Z) : line :=
  mk_line KERN_ALERT
    "[PHOTON RING] SUSPICIOUS *** tainted_mask cleared! Cleared bits: 0x%lx (was: 0x%lx, now: 0x%lx). Possible rootkit taint erasure (reset_tainted / zer0t)!"
    [ANum (Z.land baseline (Z.lnot cur)); ANum baseline; ANum cur].

(** Bit [i] is in [baseline] and not in [cur]. *)
Definition lost_bit (baseline cur : Z) (i : Z) : Prop :=
  Z.testbit baseline i = true /\ Z.testbit cur i = false.

Lemma nonzero_bit z : z <> 0%Z -> exists i, (0 <= i)%Z /\ Z.testbit z i = true.
Proof.
  intros Hz. destruct (decide (0 < z)%Z).
  - exists (Z.log2 z). split; [apply Z.log2_nonneg|by apply Z.bit_log2].
  - exists (Z.succ (Z.log2 (Z.pred (- z)))). pose proof (Z.log2_nonneg (Z.pred (- z))).
    split; [lia|]. apply Z.bits_above_log2_neg; lia.
Qed.

Lemma lost_bit_spec baseline cur :
  Z.land baseline (Z.lnot cur) <> 0%Z <-> exists i, (0 <= i)%Z /\ lost_bit baseline cur i.
Proof.
  split.
  - intros (i & Hi & Hb)%nonzero_bit. exists i. split; [done|].
    rewrite Z.land_spec, Z.lnot_spec in Hb by done.
    apply andb_true_iff in Hb as [Hb Hc]. by apply negb_true_iff in Hc.
  - intros (i & Hi & Hb & Hc) H. apply (f_equal (fun z => Z.testbit z i)) in H.
    by rewrite Z.land_spec, Z.lnot_spec, Hb, Hc, Z.bits_0 in H.
Qed.

(** C36. A check of the taint mask prints an alert exactly when a bit of the baseline is gone, moves the baseline to the mask just read only then, and schedules the next check exactly when the module is not being unloaded. *)
Theorem taint_check_exact k cur e d w :
  pointer_at k (tainted_mask_ptr d) = Some cur ->
  exists d' w',
    taint_check_fn k e (d, w) = Ret (tt, e, (d', w')) /\
    ((exists i, (0 <= i)%Z /\ lost_bit (taint_baseline d) cur i) ->
       d' = put_baseline cur d /\
       w_console w' = (w_console w ++ [cleared_line (taint_baseline d) cur])%list) /\
    (~ (exists i, (0 <= i)%Z /\ lost_bit (taint_baseline d) cur i) ->
       d' = d /\ w_console w' = w_console w) /\
    w_manager w' = w_manager w /\
    w_probes w' = (if detector_exiting d then w_probes w else {["taint_check_work"]} ∪ w_probes w).
Proof.
  intros Hcur. pose proof (lost_bit_spec (taint_baseline d) cur) as Hspec.
  unfold taint_check_fn, mbind, M_bind, in_statics, in_world, zoom, get, deref, mret, M_ret.
  cbn [fst snd]. rewrite Hcur. cbv zeta.
  destruct (Z.eqb_spec (Z.land (taint_baseline d) (Z.lnot cur)) 0) as [Hz|Hnz];
    destruct (detector_exiting d) eqn:Hx; cbn -[Z.land Z.lnot union singleton];
    eexists _, _; (split; [reflexivity|]); cbn [w_console w_probes w_manager
      set_console set_probes fst snd];
    split_and!; try done; intros Hl; try (apply Hspec in Hl); try done;
    destruct Hl; by apply Hspec.
Qed.

Fixpoint taint_checks (ks : list kernel) : M (reset_tainted * world) unit :=
  match ks with
  | [] => mret tt
  | k :: ks => taint_check_fn k ;; taint_checks ks
  end.

(** Bits of the taint mask that were not set when the detector was loaded are not watched: through any sequence of checks in which the mask keeps the baseline's bits, whatever other bits come and go, the console stays as it was. *)
Theorem later_taint_unnoticed ks e d w :
  Forall (fun k => exists cur, pointer_at k (tainted_mask_ptr d) = Some cur /\
                    forall i, (0 <= i)%Z -> ~ lost_bit (taint_baseline d) cur i) ks ->
  exists w', taint_checks ks e (d, w) = Ret (tt, e, (d, w')) /\ w_console w' = w_console w.
Proof.
  revert w. induction ks as [|k ks IH]; intros w H; [by exists w|].
  apply Forall_cons_iff in H as [(cur & Hcur & Hkeep) H].
  assert (Hz : Z.land (taint_baseline d) (Z.lnot cur) = 0%Z).
  { destruct (decide (Z.land (taint_baseline d) (Z.lnot cur) = 0%Z)) as [|Hne]; [done|].
    apply lost_bit_spec in Hne as (i & Hi & Hl). by destruct (Hkeep i Hi). }
  cbn [taint_checks]. unfold taint_check_fn, mbind, M_bind, in_statics, in_world, zoom, get,
    deref, mret, M_ret. cbn [fst snd]. rewrite Hcur. cbv zeta. rewrite Hz.
  destruct d as [[|] l a p b]; cbn -[union singleton].
  - apply IH. exact H.
  - destruct (IH (set_probes ({["taint_check_work"]} ∪ w_probes w) w) H) as (w' & Hw & Hc).
    exists w'. by split.
Qed.

Lemma for_each_process_run tasks e w :
  for_each_process tasks e w = Ret (tt, e, set_console
    (w_console w ++ ((fun t => scan_line t.1 t.2) <$>
                     filter (fun t : task * Z => comm t.1 = "zer0t") tasks)) w).
Proof.
  revert w. induction tasks as [|[t tgid] tasks IH]; intros w.
  - cbn. rewrite app_nil_r. by destruct w.
  - cbn [for_each_process]. unfold mbind, M_bind. cbn [scan_names suspicious_names].
    unfold mbind, M_bind, mret, M_ret. rewrite filter_cons. cbn [fst snd].
    destruct (strcmp_eq (comm t) "zer0t") eqn:E.
    + apply strcmp_eq_true in E. rewrite decide_True by done. cbn -[filter scan_line].
      rewrite IH. cbn [set_console w_console w_manager w_probes w_filters].
      by rewrite <- app_assoc.
    + rewrite decide_False; [by rewrite IH|]. intros E'. apply strcmp_eq_true in E'. congruence.
Qed.

(** The scan of the task list prints one alert for every task named zer0t, in list order, and none for any other, and goes on until the module is unloaded. *)
Theorem thread_scan_exact tasks e d w :
  exists w',
    thread_scan_fn tasks e (d, w) = Ret (tt, e, (d, w')) /\
    w_console w' = (w_console w ++ ((fun t => scan_line t.1 t.2) <$>
                      filter (fun t : task * Z => comm t.1 = "zer0t") tasks))%list /\
    w_probes w' = (if detector_exiting d then w_probes w else {["thread_scan_work"]} ∪ w_probes w).
Proof.
  unfold thread_scan_fn, mbind, M_bind, in_world, in_statics, zoom. cbn [snd fst].
  rewrite for_each_process_run. cbn [get fst snd].
  destruct d as [[|] l a p b]; eexists; (split; [reflexivity|]); by split.
Qed.
