(* ===== verification/AuditHooks.v ===== *)
(** * The audit detector
    [modules/hooking_audit_detector.c]: four ftrace hooks on the audit
    subsystem, their counters and the rate-limited statistics line.  The
    memory behind a socket and a socket buffer, the name
    [kallsyms_lookup] leaves in the caller's buffer and the tick rate are
    parameters. *)
From Stdlib Require Import ZArith Lia.
From Stdlib Require Import Strings.Byte Strings.Ascii Strings.String.
From stdpp Require Import base numbers list strings option gmap sets.
From S2P Require Import Prelude CString Kernel Events Crypto Cdev EventManager Arch Watchlists.
From S2P Require Import Hooks.
Open Scope string_scope.

(** [ops_func] holds the names of the [ftrace_ops] whose [func] is set. *)
Record audit := mk_audit {
  ops_func : gset string;
  audit_unicast_calls : Z;
  audit_log_calls : Z;
  last_stats_print : Z;
}.
Definition put_func f d := mk_audit f (audit_unicast_calls d) (audit_log_calls d) (last_stats_print d).
(** [atomic_inc]: a 32-bit counter that wraps. *)
Definition inc_unicast d := mk_audit (ops_func d) (s32 (audit_unicast_calls d + 1))
  (audit_log_calls d) (last_stats_print d).
Definition inc_log d := mk_audit (ops_func d) (audit_unicast_calls d)
  (s32 (audit_log_calls d + 1)) (last_stats_print d).
Definition put_last t d := mk_audit (ops_func d) (audit_unicast_calls d) (audit_log_calls d) t.

(** [struct sk_buff]: its length and the type of the message it starts with. *)
Record sk_buff := mk_sk_buff { skb_len : Z; nlmsg_type : Z }.

Definition NETLINK_AUDIT : Z := 9.
Definition NLMSG_HDRLEN : Z := 16.
Definition AUDIT_FIRST_USER_MSG : Z := 1100.
Definition AUDIT_LAST_USER_MSG : Z := 1199.

Definition unicast_line (ty parent_ip : Z) (t : task) : line :=
  mk_line KERN_ALERT
    "[PHOTON RING][AUDIT] SUSPICIOUS *** NETLINK_AUDIT user message type=%u caller=%pS pid=%d (%s) — possible audit message suppression!"
    [ANum ty; ANum parent_ip; ANum (pid t); AStr (comm t)].
Definition log_start_line (ty parent_ip : Z) (t : task) : line :=
  mk_line KERN_ALERT
    "[PHOTON RING][AUDIT] SUSPICIOUS *** audit_log_start(type=%d) from unresolvable caller 0x%lx pid=%d (%s) — possible log-creation hook!"
    [ANum ty; ANum parent_ip; ANum (pid t); AStr (comm t)].
Definition stats_line (d : audit) : line :=
  mk_line KERN_INFO "[PHOTON RING][AUDIT] stats: netlink_unicast=%d  audit_log_start/end=%d"
    [ANum (audit_unicast_calls d); ANum (audit_log_calls d)].
Definition print_line (l : line) : M (audit * world) unit :=
  in_world (printk (level l) (text l) (line_args l)).

(** The static [ftrace_ops] of a source file, each with the function it hooks,
    and the kprobe of its [resolve_symbol].  taskstats_hook_detector.c is the
    same program with statics of its own. *)
Record audit_unit := mk_audit_unit { audit_hooks : list (string * string); symbol_kp : string }.
Definition hooking_audit_unit : audit_unit := mk_audit_unit [
  ("ops_netlink_unicast", "netlink_unicast"); ("ops_audit_log_start", "audit_log_start");
  ("ops_audit_log_end", "audit_log_end"); ("ops_audit_syscall_entry", "__audit_syscall_entry")]
  "audit.kp".

Section handlers.
Context (k : kernel) (u : audit_unit).
Abbreviation kp := (symbol_kp u).

(** ** Set-up and tear-down *)
Definition resolve_symbol (name : string) : M (audit * world) Z :=
  '(ret, addr) ← in_world (register_kprobe (symbol_addr k) kp name);
  if (ret <? 0)%Z then mret 0%Z else
  in_world (unregister_probe kp) ;;
  mret addr.

(** [ops->func] is set before the calls that can fail. *)
Definition setup_ftrace_hook (ops symbol_name : string) : M (audit * world) Z :=
  addr ← resolve_symbol symbol_name;
  if Z.eqb addr 0 then mret (- ENOENT)%Z else
  in_statics (modify (fun d => put_func ({[ops]} ∪ ops_func d) d)) ;;
  in_world (ftrace_install ops addr).

Definition teardown_ftrace_hook (ops symbol_name : string) : M (audit * world) unit :=
  d ← in_statics get;
  if bool_decide (ops ∉ ops_func d) then mret tt else
  in_world (unregister_probe ops) ;;
  addr ← resolve_symbol symbol_name;
  (if negb (Z.eqb addr 0) then (in_world (ftrace_set_filter_ip ops addr true) ;; mret tt)
   else mret tt) ;;
  in_statics (modify (fun d => put_func (ops_func d ∖ {[ops]}) d)).

(** The hooks are tried in turn; the number installed is counted. *)
Fixpoint setup_hooks (hooks : list (string * string)) : M (audit * world) Z :=
  match hooks with
  | [] => mret 0%Z
  | (ops, symbol) :: hooks =>
      ret ← setup_ftrace_hook ops symbol;
      n ← setup_hooks hooks;
      mret (if Z.eqb ret 0 then 1 + n else n)%Z
  end.

Fixpoint teardown_hooks (hooks : list (string * string)) : M (audit * world) unit :=
  match hooks with
  | [] => mret tt
  | (ops, symbol) :: hooks => teardown_ftrace_hook ops symbol ;; teardown_hooks hooks
  end.

Definition audit_detector_init : M (audit * world) Z :=
  now ← in_statics ktime_get;
  in_statics (modify (put_last now)) ;;
  hooks_installed ← setup_hooks (audit_hooks u);
  if Z.eqb hooks_installed 0 then mret (- ENOENT)%Z else mret 0%Z.

Definition audit_detector_exit : M (audit * world) unit :=
  teardown_hooks (rev (audit_hooks u)) ;;
  d ← in_statics get;
  in_world (printk KERN_INFO
    "[PHOTON RING][AUDIT] final stats: netlink_unicast=%d  audit_log_start/end=%d"
    [ANum (audit_unicast_calls d); ANum (audit_log_calls d)]).

Lemma resolve_symbol_spec name e d w :
  kp ∉ w_probes w ->
  wp (resolve_symbol name) (fun _ e' s' =>
    env_rel 0 e e' /\ w_manager s'.2 = w_manager w /\ w_probes s'.2 = w_probes w /\ s'.1 = d)
    e (d, w).
Proof. intros Hkp. unfold resolve_symbol. wp_steps; probes. Qed.

Lemma setup_hook_spec ops symbol e d w :
  kp ∉ w_probes w ->
  wp (setup_ftrace_hook ops symbol) (fun r e' s' =>
    env_rel 0 e e' /\ w_manager s'.2 = w_manager w /\ ops_func d ⊆ ops_func s'.1 /\
    (r = 0%Z -> w_probes s'.2 = {[ops]} ∪ w_probes w /\ ops ∈ ops_func s'.1) /\
    (r <> 0%Z -> w_probes s'.2 = w_probes w)) e (d, w).
Proof.
  intros Hkp. unfold setup_ftrace_hook. wp_step.
  eapply wp_mono; [by apply resolve_symbol_spec|].
  intros addr e1 [d1 w1]; cbn [fst snd]; intros (He1 & Hm1 & Hp1 & ->).
  wp_steps; cbn [fst snd put_func ops_func set_probes set_filters w_probes w_manager];
    rewrite Hp1; split_and!; try done; try env_solve; set_solver.
Qed.

Lemma setup_hooks_spec hooks e d w :
  kp ∉ w_probes w -> kp ∉ hooks.*1 ->
  wp (setup_hooks hooks) (fun n e' s' =>
    env_rel 0 e e' /\ w_manager s'.2 = w_manager w /\ ops_func d ⊆ ops_func s'.1 /\
    (0 <= n)%Z /\ exists added : gset string, w_probes s'.2 = added ∪ w_probes w /\
      added ⊆ list_to_set hooks.*1 /\ added ⊆ ops_func s'.1 /\ (n = 0%Z <-> added = ∅)) e (d, w).
Proof.
  revert e d w. induction hooks as [|[ops symbol] hooks IH]; intros e d w Hkp Hh; cbn [setup_hooks].
  { wp_steps. split_and!; try done; [apply env_rel_refl|]. exists ∅. set_solver. }
  wp_step. eapply wp_mono; [by apply setup_hook_spec|].
  intros r e1 [d1 w1]; cbn [fst snd]; intros (He1 & Hm1 & Hf1 & H0 & H1).
  assert (Hk1 : kp ∉ w_probes w1).
  { destruct (decide (r = 0%Z)) as [Hr|Hr]; [destruct (H0 Hr) as [-> _]|rewrite (H1 Hr)];
      set_solver. }
  wp_step. eapply wp_mono; [apply IH; [done|set_solver]|].
  intros n e2 [d2 w2]; cbn [fst snd]; intros (He2 & Hm2 & Hf2 & Hn & added & Hp2 & Ha & Hl & Hz).
  wp_step. cbn [fst snd].
  destruct (Z.eqb_spec r 0) as [Hr|Hr]; cbv iota; (split_and!; [env_solve|congruence|set_solver|lia|]).
  - destruct (H0 Hr) as [Hp1 Ho]. exists ({[ops]} ∪ added). rewrite Hp2, Hp1.
    split_and!; [set_solver..|]. split; [intros; exfalso; lia|set_solver].
  - exists added. rewrite Hp2, (H1 Hr). split_and!; [set_solver..|done].
Qed.

Lemma teardown_hook_spec ops symbol e d w :
  kp ∉ w_probes w -> (ops ∈ w_probes w -> ops ∈ ops_func d) ->
  wp (teardown_ftrace_hook ops symbol) (fun _ e' s' =>
    env_rel 0 e e' /\ w_manager s'.2 = w_manager w /\ w_probes s'.2 = w_probes w ∖ {[ops]} /\
    ops_func s'.1 = ops_func d ∖ {[ops]}) e (d, w).
Proof.
  intros Hkp Hl. unfold teardown_ftrace_hook. do 3 wp_step. cbn beta.
  case_bool_decide as Hin.
  { wp_steps. split_and!; [apply env_rel_refl|done|set_solver..]. }
  do 3 wp_step. cbn beta. wp_step. eapply wp_mono; [apply resolve_symbol_spec; set_solver|].
  intros addr e1 [d1 w1]; cbn [fst snd]; intros (He1 & Hm1 & Hp1 & ->).
  wp_steps; cbn [fst snd put_func ops_func set_probes set_filters w_probes w_manager] in *;
    split_and!; try done; env_solve.
Qed.

Lemma teardown_hooks_spec hooks e d w :
  kp ∉ w_probes w -> w_probes w ∩ list_to_set hooks.*1 ⊆ ops_func d ->
  wp (teardown_hooks hooks) (fun _ e' s' =>
    env_rel 0 e e' /\ w_manager s'.2 = w_manager w /\
    w_probes s'.2 = w_probes w ∖ list_to_set hooks.*1) e (d, w).
Proof.
  revert e d w. induction hooks as [|[ops symbol] hooks IH]; intros e d w Hkp Hl; cbn [teardown_hooks].
  { wp_steps. split_and!; [apply env_rel_refl|done|set_solver]. }
  wp_step. eapply wp_mono; [apply teardown_hook_spec; set_solver|].
  intros [] e1 [d1 w1]; cbn [fst snd]; intros (He1 & Hm1 & Hp1 & Hf1).
  eapply wp_mono; [apply IH; rewrite Hp1, ?Hf1; set_solver|].
  intros [] e2 [d2 w2]; cbn [fst snd]; intros (He2 & Hm2 & Hp2).
  split_and!; [env_solve|congruence|]. rewrite Hp2, Hp1. set_solver.
Qed.

Definition audit_names : gset string := list_to_set (audit_hooks u).*1 ∪ {[kp]}.
Definition audit_linked (s : gset string) (d : audit) : Prop := s ⊆ ops_func d /\ kp ∉ s.

Context (kp_apart : kp ∉ (audit_hooks u).*1).

#[export] Instance audit_laws :
  DetectorLaws audit_detector_init audit_detector_exit audit_names audit_linked.
Proof using kp_apart.
  unfold audit_names, audit_linked. split; intros e d w H.
  - intros _. unfold audit_detector_init. wp_steps.
    eapply wp_mono; [apply setup_hooks_spec; [set_solver|done]|].
    intros n e2 [d2 w2]; cbn [fst snd]; intros (He2 & Hm2 & _ & Hn & added & Hp & Ha & Hl & Hz).
    revert H Ha. generalize dependent ((audit_hooks u).*1). intros l Hkp H Ha.
    wp_steps; unfold only_probes; cbn [fst snd]; rewrite Hp;
      (split_and!; [env_solve|done|set_solver..]).
  - destruct H as [H1 H2]. unfold audit_detector_exit. wp_step.
    assert (Hrev : list_to_set (rev (audit_hooks u)).*1 = (list_to_set (audit_hooks u).*1 : gset string)).
    { apply leibniz_equiv. intros x. rewrite !elem_of_list_to_set. by rewrite <- Permutation_rev. }
    revert H1 H2 kp_apart Hrev. generalize ((audit_hooks u).*1). intros l H1 H2 Hkp Hrev.
    eapply wp_mono; [apply teardown_hooks_spec; [set_solver|rewrite Hrev; set_solver]|].
    intros [] e2 [d2 w2]; cbn [fst snd]; intros (He2 & Hm2 & Hp). wp_steps.
    cbn [fst snd set_console w_probes w_manager]. rewrite Hp, Hrev.
    split_and!; [done|done|set_solver..].
Qed.

(** ** The hooks *)
Context (sk_protocol_at : Z -> option Z) (skb_at : Z -> option sk_buff).
Context (kallsyms_lookup : Z -> string) (HZ : Z).

Definition STATS_INTERVAL_HZ : Z := 30 * HZ.

(** [time_before (a, b)]: [(long)(a - b) < 0] *)
Definition time_before (a b : Z) : bool := (swrap 64 (a - b) <? 0)%Z.

Definition print_statistics : M (audit * world) unit :=
  now ← in_statics ktime_get;
  d ← in_statics get;
  if time_before now (u64 (last_stats_print d + STATS_INTERVAL_HZ)) then mret tt else
  in_statics (modify (put_last now)) ;;
  print_line (stats_line d).

Definition hook_netlink_unicast_detector (parent_ip : Z) (fregs : ftrace_regs)
    : M (audit * world) unit :=
  let ssk := get_arg k fregs 0 in
  let skb := get_arg k fregs 1 in
  if Z.eqb ssk 0 || Z.eqb skb 0 then mret tt else
  protocol ← deref (sk_protocol_at ssk);
  if negb (Z.eqb protocol NETLINK_AUDIT) then mret tt else
  in_statics (modify inc_unicast) ;;
  b ← deref (skb_at skb);
  t ← in_statics get_current;
  (if (NLMSG_HDRLEN <=? skb_len b)%Z && (AUDIT_FIRST_USER_MSG <=? nlmsg_type b)%Z
      && (nlmsg_type b <=? AUDIT_LAST_USER_MSG)%Z
   then print_line (unicast_line (nlmsg_type b) parent_ip t) else mret tt) ;;
  print_statistics.

(** [kallsyms_lookup parent_ip] is what the buffer [sym] holds after the call. *)
Definition hook_audit_log_start_detector (parent_ip : Z) (fregs : ftrace_regs)
    : M (audit * world) unit :=
  let ty := s32 (get_arg k fregs 2) in
  in_statics (modify inc_log) ;;
  t ← in_statics get_current;
  if strncmp_eq (kallsyms_lookup parent_ip) "<unknown>" 9
  then print_line (log_start_line ty parent_ip t) else mret tt.

Definition hook_audit_log_end_detector (parent_ip : Z) (fregs : ftrace_regs)
    : M (audit * world) unit :=
  let ab := get_arg k fregs 0 in
  if Z.eqb ab 0 then mret tt else
  in_statics (modify inc_log) ;;
  t ← in_statics get_current;
  in_world (printk KERN_DEBUG "[PHOTON RING][AUDIT] audit_log_end caller=%pS pid=%d (%s)"
    [ANum parent_ip; ANum (pid t); AStr (comm t)]).

Definition NR_EXECVE : Z := 59.
Definition NR_FORK : Z := 57.
Definition NR_CLONE : Z := 56.
Definition NR_INIT_MODULE : Z := 175.
Definition NR_FINIT_MODULE : Z := 313.

Definition hook_audit_syscall_entry_detector (parent_ip : Z) (fregs : ftrace_regs)
    : M (audit * world) unit :=
  let major := s32 (get_arg k fregs 0) in
  if bool_decide (major ∈ [NR_EXECVE; NR_FORK; NR_CLONE; NR_INIT_MODULE; NR_FINIT_MODULE]) then
    t ← in_statics get_current;
    in_world (printk KERN_INFO
      "[PHOTON RING][AUDIT] syscall_entry syscall=%d caller=%pS pid=%d (%s)"
      [ANum major; ANum parent_ip; ANum (pid t); AStr (comm t)])
  else mret tt.
End handlers.

(** ** What the hooks report *)
Section policy.
Context (k : kernel) (known_arch : k_arch k <> OTHER_ARCH).
Context (sk_protocol_at : Z -> option Z) (skb_at : Z -> option sk_buff).
Context (kallsyms_lookup : Z -> string) (HZ : Z).

Lemma arg_of args n : (n < 6)%nat -> get_arg k (called k args) n = default 0%Z (args !! n).
Proof using known_arch.
  intros Hn. apply get_arg_called. destruct (k_arch k); simpl; [lia..|done].
Qed.

Lemma print_statistics_spec e d w :
  wp (print_statistics HZ) (fun _ e' s' =>
    env_rel 0 e e' /\ audit_unicast_calls s'.1 = audit_unicast_calls d /\
    audit_log_calls s'.1 = audit_log_calls d /\
    exists stats, (stats = [] \/ stats = [stats_line s'.1]) /\
      s'.2 = set_console (w_console w ++ stats) w) e (d, w).
Proof.
  unfold print_statistics, print_line. wp_steps; cbn [fst snd];
    (split_and!; [env_solve|done|done|]).
  - exists []. split; [by left|]. rewrite app_nil_r. by destruct w.
  - exists [stats_line d]. split; [by right|done].
Qed.

(** A message sent on an audit netlink socket is counted, and printed as an alert exactly when it holds a whole header and its type is a user message (1100 to 1199); at most a statistics line follows. *)
Theorem netlink_hook_exact ssk skb args b parent_ip e d w :
  args !! 0%nat = Some ssk -> args !! 1%nat = Some skb -> ssk <> 0%Z -> skb <> 0%Z ->
  sk_protocol_at ssk = Some NETLINK_AUDIT -> skb_at skb = Some b ->
  wp (hook_netlink_unicast_detector k sk_protocol_at skb_at HZ parent_ip (called k args))
    (fun _ e' s' =>
       env_rel 0 e e' /\ audit_unicast_calls s'.1 = s32 (audit_unicast_calls d + 1) /\
       audit_log_calls s'.1 = audit_log_calls d /\
       exists stats, (stats = [] \/ stats = [stats_line s'.1]) /\
       s'.2 = set_console
         (w_console w ++
          (if bool_decide (16 <= skb_len b /\ 1100 <= nlmsg_type b <= 1199)%Z
           then [unicast_line (nlmsg_type b) parent_ip (current e)] else []) ++ stats) w) e (d, w).
Proof using known_arch.
  intros Hs Hb Hs0 Hb0 Hp Hskb. unfold hook_netlink_unicast_detector.
  rewrite !arg_of, Hs, Hb by lia. change (default 0%Z (Some ssk)) with ssk.
  change (default 0%Z (Some skb)) with skb.
  rewrite (proj2 (Z.eqb_neq ssk 0)), (proj2 (Z.eqb_neq skb 0)), Hp, Hskb by done.
  cbn [orb]. do 2 wp_step. cbn [negb Z.eqb NETLINK_AUDIT Pos.eqb].
  do 8 wp_step. cbn beta zeta. cbn [fst snd].
  assert (Hc : ((NLMSG_HDRLEN <=? skb_len b)%Z && (AUDIT_FIRST_USER_MSG <=? nlmsg_type b)%Z
                && (nlmsg_type b <=? AUDIT_LAST_USER_MSG)%Z)
               = bool_decide (16 <= skb_len b /\ 1100 <= nlmsg_type b <= 1199)%Z).
  { unfold NLMSG_HDRLEN, AUDIT_FIRST_USER_MSG, AUDIT_LAST_USER_MSG.
    case_bool_decide; lia. }
  wp_step. rewrite Hc. destruct (bool_decide _);
    [unfold print_line; do 2 wp_step|wp_step]; cbn [fst snd];
    (eapply wp_mono; [apply print_statistics_spec|]);
    intros [] e' s' (He & Hu & Hl & stats & Hst & Hw); (split_and!; [done..|]);
    exists stats; (split; [done|]); rewrite Hw; [|done].
  cbn [set_console w_console w_manager w_probes w_filters]. by rewrite <- app_assoc.
Qed.

(** The hook on audit_log_start alerts exactly when the caller's buffer still starts with its initial text <unknown>: a lookup that empties the buffer for an address it cannot resolve, as the kernel's does, silences the alert it was written for. *)
Theorem log_start_hook_exact args ty parent_ip e d w :
  args !! 2%nat = Some ty ->
  hook_audit_log_start_detector k kallsyms_lookup parent_ip (called k args) e (d, w) =
    Ret (tt, e, (inc_log d, set_console
      (w_console w ++ (if String.prefix "<unknown>" (kallsyms_lookup parent_ip)
                       then [log_start_line (s32 ty) parent_ip (current e)] else [])) w)) /\
  (kallsyms_lookup parent_ip = "" ->
   String.prefix "<unknown>" (kallsyms_lookup parent_ip) = false).
Proof using known_arch.
  intros Hty. split; [|by intros ->].
  rewrite <- strncmp_eq_prefix. change (String.length "<unknown>") with 9%nat.
  unfold hook_audit_log_start_detector. rewrite arg_of, Hty by lia.
  change (default 0%Z (Some ty)) with ty. unfold mbind, M_bind. cbv zeta.
  cbn [in_statics zoom modify get_current fst snd].
  destruct (strncmp_eq _ _ _); [done|]. rewrite app_nil_r. by destruct w.
Qed.
End policy.
