(* ===== verification/FilterIp.v ===== *)
(** * The detectors that probe ftrace_set_filter_ip
    [modules/tcp_hiding_detector.c], [modules/icmp_hook_detector.c] and
    [modules/bpf_hook_detector.c].  The first two are the same program over
    different tables of functions and are modelled once, over a record of what
    differs.  The TCP handler also calls [photon_log_event], with four
    arguments, a payload struct and an event type that no header declares:
    these are the fields of [tcp_api], a parameter of that handler. *)
From Stdlib Require Import ZArith Lia.
From Stdlib Require Import Strings.Byte Strings.Ascii Strings.String.
From stdpp Require Import base numbers list strings option gmap sets.
From S2P Require Import Prelude CString Kernel Events Crypto Cdev EventManager Arch Watchlists.
From S2P Require Import Hooks.
Open Scope string_scope.

Definition tcp_hiding_names : list string :=
  ["tcp4_seq_show"; "tcp6_seq_show"; "udp4_seq_show"; "udp6_seq_show"; "tpacket_rcv"].
Definition icmp_hook_names : list string := ["icmp_rcv"].
Definition bpf_watchlist : list string := [
  "bpf_iter_run_prog"; "bpf_ringbuf_output"; "__x64_sys_bpf"; "bpf_check"; "bpf_prog_load";
  "security_bpf"; "security_bpf_map"; "security_bpf_prog"; "bpf_map_get_info_by_fd";
  "bpf_prog_get_info_by_fd"; "bpf_trampoline_link_prog"; "bpf_tracing_prog_attach";
  "perf_event_attach_bpf_prog"].

(** What distinguishes the two programs. *)
Record watcher := mk_watcher {
  target_names : list string;
  kp_name : string;
  kp_lookup : string;
  alert_text : string;
}.
Definition tcp_watcher : watcher := mk_watcher tcp_hiding_names "kp_tcp" "tcp.kp"
  "[PHOTON RING] SUSPICIOUS *** ftrace hook on %s detected! Possible TCP hiding rootkit! (caller: %pS) by process '%s' (PID %d)".
Definition icmp_watcher : watcher := mk_watcher icmp_hook_names "kp_icmp" "icmp.kp"
  "[PHOTON RING] SUSPICIOUS *** ftrace hook on %s detected! Possible ICMP backdoor rootkit! (caller: %pS) by process '%s' (PID %d)".

(** The statics: the resolved addresses and [self_hooking]. *)
Record filter_watch := mk_filter_watch { addrs : list Z; self_hooking : bool }.
Definition put_addrs a d := mk_filter_watch a (self_hooking d).
Definition put_hooking b d := mk_filter_watch (addrs d) b.

(** [struct tcp_hiding_event_data] as tcp_hiding_detector.c fills it. *)
Record tcp_hiding_event_data := mk_tcp_hiding_event_data {
  td_hooked_symbol : list byte;
  td_hooked_addr : Z;
  td_caller_addr : Z;
  td_caller_comm : list byte;
  td_caller_pid : Z;
}.

(** What tcp_hiding_detector.c uses and the repository does not declare. *)
Record tcp_api := mk_tcp_api {
  PHOTON_EVENT_NETWORK_HOOK : Z;
  sizeof_hooked_symbol : nat;
  sizeof_tcp_caller_comm : nat;
  log_tcp_event : Z -> Z -> tcp_hiding_event_data -> M world unit;
}.

(** What the handlers do after the alert for a function that is being hooked,
    its address and the caller: the TCP one logs an event, the ICMP one
    nothing. *)
Definition tcp_report (api : tcp_api) (name : string) (addr caller : Z) : M world unit :=
  t ← get_current;
  log_tcp_event api (PHOTON_EVENT_NETWORK_HOOK api) (detector_id_code PHOTON_DETECTOR_KPROBE)
    (mk_tcp_hiding_event_data (char_field (sizeof_hooked_symbol api) name) addr caller
       (char_field (sizeof_tcp_caller_comm api) (comm t)) (pid t)).
Definition icmp_report (name : string) (addr caller : Z) : M world unit := mret tt.

Section handlers.
Context (k : kernel).
Context (u : watcher).

Definition lookup_name (name : string) : M world Z :=
  '(ret, addr) ← register_kprobe (symbol_addr k) (kp_lookup u) name;
  if (ret <? 0)%Z then mret 0%Z else
  unregister_probe (kp_lookup u) ;;
  mret addr.

(** The loop over the table: the first resolved address that matches. *)
Fixpoint find_target (names : list string) (addrs : list Z) (target_ip : Z) : option string :=
  match names, addrs with
  | name :: names, addr :: addrs =>
      if negb (Z.eqb addr 0) && Z.eqb target_ip addr then Some name
      else find_target names addrs target_ip
  | _, _ => None
  end.

Definition handler_pre (report : string -> Z -> Z -> M world unit) (regs : pt_regs) : M (filter_watch * world) unit :=
  d ← in_statics get;
  if self_hooking d then mret tt else
  let target_ip := kprobe_get_arg k regs 1 in
  let remove := kprobe_get_arg k regs 2 in
  if negb (Z.eqb remove 0) then mret tt else
  match find_target (target_names u) (addrs d) target_ip with
  | None => mret tt
  | Some name =>
      t ← in_statics get_current;
      in_world (printk KERN_ALERT (alert_text u)
        [AStr name; ANum (kprobe_get_arg k regs 0); AStr (comm t); ANum (pid t)]) ;;
      in_world (report name target_ip (kprobe_get_arg k regs 0))
  end.

Fixpoint lookup_names (names : list string) : M world (list Z) :=
  match names with
  | [] => mret []
  | name :: names =>
      addr ← lookup_name name;
      addrs ← lookup_names names;
      mret (addr :: addrs)
  end.

Definition watcher_init : M (filter_watch * world) Z :=
  found ← in_world (lookup_names (target_names u));
  in_statics (modify (put_addrs found)) ;;
  if forallb (Z.eqb 0) found then mret (- ENOENT)%Z else
  in_statics (modify (put_hooking true)) ;;
  '(ret, _) ← in_world (register_kprobe (symbol_addr k) (kp_name u) "ftrace_set_filter_ip");
  in_statics (modify (put_hooking false)) ;;
  if negb (Z.eqb ret 0) then mret ret else mret 0%Z.

Definition watcher_exit : M (filter_watch * world) unit :=
  in_statics (modify (put_hooking true)) ;;
  in_world (unregister_probe (kp_name u)) ;;
  in_statics (modify (put_hooking false)).

(** ** bpf_hook_detector.c *)
Definition bpf_handler_pre (regs : pt_regs) : M (bool * world) unit :=
  hooking ← in_statics get;
  if (hooking : bool) then mret tt else
  let target_ip := kprobe_get_arg k regs 1 in
  let remove := kprobe_get_arg k regs 2 in
  if negb (Z.eqb remove 0) then mret tt else
  let buf := sprint_symbol_no_offset k target_ip in
  t ← in_statics get_current;
  if strcmp_any buf bpf_watchlist then
    in_world (printk KERN_ALERT
      "[PHOTON RING] SUSPICIOUS *** ftrace hook on BPF function: %s (addr %lx) by process '%s' (PID %d)"
      [AStr buf; ANum target_ip; AStr (comm t); ANum (pid t)])
  else
    in_world (printk KERN_INFO
      "[PHOTON RING] ftrace filter registered for: %s (addr %lx) by process '%s' (PID %d)"
      [AStr buf; ANum target_ip; AStr (comm t); ANum (pid t)]).

Definition bpf_hook_detector_init : M (bool * world) Z :=
  in_statics (put true) ;;
  '(ret, _) ← in_world (register_kprobe (symbol_addr k) "bpf.kp" "ftrace_set_filter_ip");
  in_statics (put false) ;;
  if negb (Z.eqb ret 0) then mret ret else mret 0%Z.

Definition bpf_hook_detector_exit : M (bool * world) unit :=
  in_statics (put true) ;;
  in_world (unregister_probe "bpf.kp") ;;
  in_statics (put false).

#[export] Instance bpf_laws :
  DetectorLaws bpf_hook_detector_init bpf_hook_detector_exit {["bpf.kp"]} (fun _ _ => True).
Proof.
  split; intros e d w H.
  - intros Hl. unfold bpf_hook_detector_init. wp_steps; probes.
  - unfold bpf_hook_detector_exit. wp_steps; probes.
Qed.

(** ** Set-up and tear-down *)
Lemma lookup_name_spec name e w :
  kp_lookup u ∉ w_probes w ->
  wp (lookup_name name) (fun v e' w' =>
    env_rel 0 e e' /\ w_manager w' = w_manager w /\ w_probes w' = w_probes w /\
    (no_fail e -> v = symbol_addr k name)) e w.
Proof.
  intros Hkp. unfold lookup_name. wp_steps;
    cbn [set_probes w_probes w_manager]; split_and!; try done; try set_solver;
    intros Hnf;
    repeat match goal with H : no_fail e -> _ |- _ => destruct (H Hnf) as [? ->]; clear H end; done.
Qed.

Lemma lookup_names_spec names e w :
  kp_lookup u ∉ w_probes w ->
  wp (lookup_names names) (fun found e' w' =>
    env_rel 0 e e' /\ w_manager w' = w_manager w /\ w_probes w' = w_probes w /\
    (no_fail e -> found = symbol_addr k <$> names)) e w.
Proof.
  revert e w. induction names as [|name names IH]; intros e w Hkp; cbn [lookup_names].
  { wp_steps. split_and!; try done. apply env_rel_refl. }
  wp_step. eapply wp_mono; [by apply lookup_name_spec|].
  intros v e1 w1 (He1 & Hm1 & Hp1 & Hv). wp_step.
  eapply wp_mono; [apply IH; by rewrite Hp1|].
  intros found e2 w2 (He2 & Hm2 & Hp2 & Hf). wp_steps.
  split_and!; [env_solve|congruence|congruence|].
  intros Hnf. rewrite Hf, Hv; [done|done|]. by apply He1.
Qed.

Context (names_apart : kp_name u <> kp_lookup u).

#[export] Instance watcher_laws :
  DetectorLaws watcher_init watcher_exit {[kp_name u; kp_lookup u]} (fun s _ => kp_lookup u ∉ s).
Proof using names_apart.
  split; intros e d w H.
  - intros _. unfold watcher_init. do 2 wp_step.
    eapply wp_mono; [apply lookup_names_spec; set_solver|].
    intros found e1 w1 (He1 & Hm1 & Hp1 & Hf1).
    wp_steps; unfold only_probes; cbn [fst snd set_probes w_probes w_manager]; rewrite ?Hp1, ?Hm1;
      split_and!; try done; try env_solve; set_solver.
  - unfold watcher_exit. wp_steps.
    cbn [fst snd set_probes w_probes w_manager]. split_and!; [apply env_rel_refl|done|set_solver..].
Qed.

Lemma find_target_spec names ip :
  find_target names (symbol_addr k <$> names) ip =
    (if decide (ip <> 0%Z) then snd <$> list_find (fun name => ip = symbol_addr k name) names
     else None).
Proof.
  induction names as [|name names IH]; [by case_decide|].
  cbn [fmap list_fmap find_target list_find]. rewrite IH.
  destruct (Z.eqb_spec (symbol_addr k name) 0) as [Hz|Hz],
    (Z.eqb_spec ip (symbol_addr k name)) as [He|He]; cbn [negb andb];
    repeat case_decide; try done; try congruence;
    by destruct (list_find _ names) as [[? ?]|].
Qed.

(** The alert, and what the detector does after it. *)
Definition alert report (name : string) (ip ops : Z) : M (filter_watch * world) unit :=
  t ← in_statics get_current;
  in_world (printk KERN_ALERT (alert_text u) [AStr name; ANum ops; AStr (comm t); ANum (pid t)]) ;;
  in_world (report name ip ops).
Definition alert_if report (o : option string) (ip ops : Z) : M (filter_watch * world) unit :=
  match o with Some name => alert report name ip ops | None => mret tt end.

(** The function of the table whose address [ip] is. *)
Definition hooked_function (ip : Z) : option string :=
  snd <$> list_find (fun name => ip = symbol_addr k name) (target_names u).

Lemma handler_run report args ops ip remove e d w :
  k_arch k <> OTHER_ARCH -> kernel_argument_ok k ->
  args !! 0%nat = Some ops -> args !! 1%nat = Some ip -> args !! 2%nat = Some remove ->
  addrs d = symbol_addr k <$> target_names u -> self_hooking d = false ->
  handler_pre report (entry_regs (k_arch k) args) e (d, w) =
    alert_if report (if decide (remove = 0%Z /\ ip <> 0%Z) then hooked_function ip else None)
      ip ops e (d, w).
Proof.
  intros Ha Hk Hops Hip Hrm Had Hsh. unfold handler_pre.
  rewrite !kprobe_get_arg_entry, Hops, Hip, Hrm by (done || lia).
  change (default 0%Z (Some ip)) with ip. change (default 0%Z (Some remove)) with remove.
  change (default 0%Z (Some ops)) with ops.
  unfold mbind at 1, M_bind at 1, in_statics at 1, zoom, get. cbn [fst snd]. rewrite Hsh, Had.
  rewrite find_target_spec. fold (hooked_function ip).
  destruct (Z.eqb_spec remove 0) as [->|Hne]; cbn [negb].
  - repeat case_decide; try tauto; by destruct (hooked_function ip).
  - by rewrite decide_False by tauto.
Qed.

(** Loaded without failures, the program alerts and reports as [handler_run] says. *)
Lemma watcher_run report args ops ip remove e w e0 d0 w0 :
  k_arch k <> OTHER_ARCH -> kernel_argument_ok k -> no_fail e0 -> kp_lookup u ∉ w_probes w0 ->
  args !! 0%nat = Some ops -> args !! 1%nat = Some ip -> args !! 2%nat = Some remove ->
  wp watcher_init (fun r _ s =>
    r = 0%Z ->
    handler_pre report (entry_regs (k_arch k) args) e (s.1, w) =
      alert_if report (if decide (remove = 0%Z /\ ip <> 0%Z) then hooked_function ip else None)
        ip ops e (s.1, w)) e0 (d0, w0).
Proof.
  intros Ha Hk Hnf Hkp Hops Hip Hrm. unfold watcher_init. do 2 wp_step.
  eapply wp_mono; [by apply lookup_names_spec|].
  intros found e1 w1 (He1 & Hm1 & Hp1 & Hf1). specialize (Hf1 Hnf). subst found.
  wp_steps; try done; intros _; cbn [fst snd];
    by apply handler_run.
Qed.

(** A hook installed through ftrace_set_filter_ip is printed as an alert when the symbol of its address is on the BPF list and as information otherwise; nothing is printed for a removal or while the module sets its own probe. *)
Theorem bpf_hook_exact args ip remove e (hooking : bool) w :
  k_arch k <> OTHER_ARCH -> kernel_argument_ok k ->
  args !! 1%nat = Some ip -> args !! 2%nat = Some remove ->
  exists l,
    bpf_handler_pre (entry_regs (k_arch k) args) e (hooking, w) =
      Ret (tt, e, (hooking, if decide (hooking = false /\ remove = 0%Z)
                            then set_console (w_console w ++ [l]) w else w)) /\
    (level l = KERN_ALERT <-> sprint_symbol_no_offset k ip ∈ bpf_watchlist) /\
    line_args l = [AStr (sprint_symbol_no_offset k ip); ANum ip;
                   AStr (comm (current e)); ANum (pid (current e))].
Proof.
  intros Ha Hk Hip Hrm. unfold bpf_handler_pre.
  rewrite !kprobe_get_arg_entry, Hip, Hrm by (done || lia).
  change (default 0%Z (Some ip)) with ip. change (default 0%Z (Some remove)) with remove.
  unfold mbind, M_bind, in_statics, in_world, zoom, get, get_current. cbn [fst snd].
  pose proof (strcmp_any_spec (sprint_symbol_no_offset k ip) bpf_watchlist) as Hw.
  exists (mk_line (if strcmp_any (sprint_symbol_no_offset k ip) bpf_watchlist
                   then KERN_ALERT else KERN_INFO)
    (if strcmp_any (sprint_symbol_no_offset k ip) bpf_watchlist
     then "[PHOTON RING] SUSPICIOUS *** ftrace hook on BPF function: %s (addr %lx) by process '%s' (PID %d)"
     else "[PHOTON RING] ftrace filter registered for: %s (addr %lx) by process '%s' (PID %d)")
    [AStr (sprint_symbol_no_offset k ip); ANum ip; AStr (comm (current e)); ANum (pid (current e))]).
  cbn [level line_args]. rewrite <- Hw.
  split_and!; [|by destruct (strcmp_any _ _)|done].
  destruct hooking; [by rewrite decide_False by naive_solver|].
  destruct (Z.eqb_spec remove 0); cbn [negb];
    [rewrite decide_True by done|by rewrite decide_False by naive_solver].
  by destruct (strcmp_any _ _).
Qed.
End handlers.

(** ** The entry points by their names in the source *)
Definition tcp_handler_pre (k : kernel) (api : tcp_api) := handler_pre k tcp_watcher (tcp_report api).
Definition tcp_hiding_detector_init (k : kernel) := watcher_init k tcp_watcher.
Definition tcp_hiding_detector_exit := watcher_exit tcp_watcher.
Definition icmp_handler_pre (k : kernel) := handler_pre k icmp_watcher icmp_report.
Definition icmp_hook_detector_init (k : kernel) := watcher_init k icmp_watcher.
Definition icmp_hook_detector_exit := watcher_exit icmp_watcher.

(** C37. After a load in which no call failed, each call of ftrace_set_filter_ip (ops, ip, remove, reset).  It installs a hook on one of the five TCP functions the kernel knows: the TCP detector prints its alert, with the function, [ops], the task and its pid, and then hands an event to the event log, with the function's name and address, [ops] where the payload says caller_addr, and the task.  It installs a hook on icmp_rcv: the ICMP detector prints its alert, with the same values, and logs no event.  A removal, a zero address and any other address: nothing.  What both print as the caller and the event calls caller_addr is the first argument of the call, the pointer to the caller's ftrace_ops, and no code address of the caller. *)
Theorem watcher_exact k api args ops ip remove e w e0 d0 w0 :
  k_arch k <> OTHER_ARCH -> kernel_argument_ok k -> no_fail e0 ->
  "tcp.kp" ∉ w_probes w0 -> "icmp.kp" ∉ w_probes w0 ->
  args !! 0%nat = Some ops -> args !! 1%nat = Some ip -> args !! 2%nat = Some remove ->
  let regs := entry_regs (k_arch k) args in
  let caller := current e in
  let installs := bool_decide (remove = 0%Z /\ ip <> 0%Z) in
  let alerted txt name :=
    set_console (w_console w ++
      [mk_line KERN_ALERT txt [AStr name; ANum ops; AStr (comm caller); ANum (pid caller)]]) w in
  wp (tcp_hiding_detector_init k) (fun r _ s => r = 0%Z ->
    tcp_handler_pre k api regs e (s.1, w) =
      match snd <$> list_find (fun name => ip = symbol_addr k name)
        ["tcp4_seq_show"; "tcp6_seq_show"; "udp4_seq_show"; "udp6_seq_show"; "tpacket_rcv"] with
      | Some name =>
          if installs then
            in_world (log_tcp_event api (PHOTON_EVENT_NETWORK_HOOK api) 1
              (mk_tcp_hiding_event_data (char_field (sizeof_hooked_symbol api) name) ip ops
                 (char_field (sizeof_tcp_caller_comm api) (comm caller)) (pid caller))) e
              (s.1, alerted "[PHOTON RING] SUSPICIOUS *** ftrace hook on %s detected! Possible TCP hiding rootkit! (caller: %pS) by process '%s' (PID %d)" name)
          else Ret (tt, e, (s.1, w))
      | None => Ret (tt, e, (s.1, w))
      end) e0 (d0, w0) /\
  wp (icmp_hook_detector_init k) (fun r _ s => r = 0%Z ->
    icmp_handler_pre k regs e (s.1, w) =
      Ret (tt, e, (s.1,
        if installs && bool_decide (ip = symbol_addr k "icmp_rcv")
        then alerted "[PHOTON RING] SUSPICIOUS *** ftrace hook on %s detected! Possible ICMP backdoor rootkit! (caller: %pS) by process '%s' (PID %d)" "icmp_rcv"
        else w))) e0 (d0, w0).
Proof.
  intros Ha Hk Hnf Ht Hi Hops Hip Hrm regs caller installs alerted. split.
  - eapply wp_mono; [by apply (watcher_run k tcp_watcher (tcp_report api) args ops ip remove e w)|].
    intros r e' s H Hr. unfold tcp_handler_pre, regs. rewrite (H Hr). unfold hooked_function, installs.
    change (target_names tcp_watcher) with
      ["tcp4_seq_show"; "tcp6_seq_show"; "udp4_seq_show"; "udp6_seq_show"; "tpacket_rcv"].
    destruct (decide (remove = 0%Z /\ ip <> 0%Z)) as [E|E]; [rewrite bool_decide_true by done|rewrite bool_decide_false by done].
    all: by destruct (snd <$> list_find _ _) as [name|].
  - eapply wp_mono; [by apply (watcher_run k icmp_watcher icmp_report args ops ip remove e w)|].
    intros r e' s H Hr. unfold icmp_handler_pre, regs. rewrite (H Hr). unfold hooked_function, installs.
    cbn [target_names icmp_watcher icmp_hook_names list_find].
    destruct (decide (remove = 0%Z /\ ip <> 0%Z)) as [E|E]; [rewrite (bool_decide_true (remove = 0%Z /\ _)) by done|by rewrite (bool_decide_false (remove = 0%Z /\ _)) by done].
    by destruct (decide (ip = symbol_addr k "icmp_rcv")) as [E'|E']; [rewrite bool_decide_true by done|rewrite bool_decide_false by done].
Qed.
