(* ===== verification/Main.v ===== *)
(** * The module: registry, initialisation and exit
    [main.c].  The registry's entries are modelled as the parts of the module's
    state they own, so that an entry's init and exit run on its own statics and
    the shared world.  [taskstats_detector_init] and [taskstats_detector_exit]
    are declared and registered but defined nowhere in the repository (the file
    named after them defines the audit detector again, see [TaskstatsHooks]),
    so that entry is a parameter with the same laws as the others. *)
From Stdlib Require Import ZArith Lia.
From Stdlib Require Import Strings.Byte Strings.Ascii Strings.String.
From stdpp Require Import base numbers list strings option gmap sets.
From S2P Require Import Prelude CString Kernel Events Ring Crypto Cdev EventManager Arch.
From S2P Require Import Watchlists Hooks ProbeDetectors FtraceDirect BecomeRoot ResetTainted.
From S2P Require Import AuditHooks FilterIp.
Open Scope string_scope.

(** ** A registry over any statics
    [G] holds the statics of all detectors. *)
Section registry.
Context {G : Type}.

Record kstate := mk_kstate {
  k_statics : G;
  k_world : world;
  active_detectors : nat;
}.

(** One entry of [detectors[]].  Its init may read the other statics. *)
Record detector := mk_detector {
  d_name : string;
  d_type : Type;
  d_get : G -> d_type;
  d_put : d_type -> G -> G;
  d_init : G -> M (d_type * world) Z;
  d_exit : M (d_type * world) unit;
  d_names : gset string;
  d_linked : gset string -> d_type -> Prop;
}.

Definition run_part {A} (d : detector) (m : M (d_type d * world) A) : M kstate A :=
  zoom (fun s => (d_get d (k_statics s), k_world s))
       (fun t s => mk_kstate (d_put d t.1 (k_statics s)) t.2 (active_detectors s)) m.
Definition on_manager {A} (m : M manager A) : M kstate A :=
  zoom (fun s => w_manager (k_world s))
       (fun m s => mk_kstate (k_statics s) (set_manager m (k_world s)) (active_detectors s)) m.

Context (aead_encrypt : list byte -> list byte -> list byte -> list byte).
Context (mem : nat -> nat -> photon_event).
Context (detectors : list detector).

(** The loop of [photon_ring_init] over the entries still to start. *)
Fixpoint start_detectors (todo : list detector) : M kstate Z :=
  match todo with
  | [] => mret 0%Z
  | d :: todo =>
      s ← get;
      ret ← run_part d (d_init d (k_statics s));
      if negb (Z.eqb ret 0) then mret ret else
      modify (fun s => mk_kstate (k_statics s) (k_world s) (S (active_detectors s))) ;;
      start_detectors todo
  end.

(** [for (i = n - 1; i >= 0; i--) detectors[i].exit ()] *)
Fixpoint stop_detectors (n : nat) : M kstate unit :=
  match n with
  | O => mret tt
  | S n =>
      match detectors !! n with
      | Some d => run_part d (d_exit d)
      | None => fault
      end ;;
      stop_detectors n
  end.

Definition photon_ring_init : M kstate Z :=
  ret ← on_manager (event_manager_init mem);
  if negb (Z.eqb ret 0) then mret ret else
  ret ← start_detectors detectors;
  if negb (Z.eqb ret 0) then
    s ← get;
    stop_detectors (active_detectors s) ;;
    on_manager (event_manager_exit aead_encrypt) ;;
    mret ret
  else mret 0%Z.

Definition photon_ring_exit : M kstate unit :=
  s ← get;
  stop_detectors (active_detectors s) ;;
  on_manager (event_manager_exit aead_encrypt).
End registry.
Arguments kstate : clear implicits.
Arguments detector : clear implicits.

(** ** What the registry needs of its entries *)
Section correctness.
Context {G : Type}.
Context (detectors : list (detector G)).
Abbreviation kstate := (kstate G).

(** Each entry obeys the detector laws and keeps to its own statics and
    probes. *)
Class Registry := {
  entry_laws d g : d ∈ detectors ->
    DetectorLaws (d_init d g) (d_exit d) (d_names d) (d_linked d);
  entry_get_put d x (g : G) : d ∈ detectors -> d_get d (d_put d x g) = x;
  entries_apart i j d d' : i <> j -> detectors !! i = Some d -> detectors !! j = Some d' ->
    d_names d ## d_names d' /\ forall x (g : G), d_get d' (d_put d x g) = d_get d' g;
}.
Context {reg : Registry}.

Definition probes_of (d : detector G) (s : kstate) : gset string :=
  w_probes (k_world s) ∩ d_names d.
Definition entry_linked (s : kstate) (d : detector G) : Prop :=
  d_linked d (probes_of d s) (d_get d (k_statics s)).
Definition all_names : gset string := ⋃ (d_names <$> detectors).

(** [m] is the reporting path, [p0] the probes of others; entries from [n] on
    have no probe. *)
Record running (m : manager) (p0 : gset string) (n : nat) (s : kstate) : Prop := {
  run_manager : w_manager (k_world s) = m;
  run_others : w_probes (k_world s) ∖ all_names = p0 ∖ all_names;
  run_linked d : d ∈ detectors -> entry_linked s d;
  run_idle i d : detectors !! i = Some d -> (n <= i)%nat -> probes_of d s = ∅;
}.

Lemma names_all d : d ∈ detectors -> d_names d ⊆ all_names.
Proof.
  intros Hd x Hx. apply elem_of_union_list. exists (d_names d). split; [|done].
  by apply list_elem_of_fmap_2.
Qed.

(** An operation of entry [i] leaves the other entries as they were. *)
Lemma other_entry i j d d' (s : kstate) t w :
  i <> j -> detectors !! i = Some d -> detectors !! j = Some d' ->
  w_probes w ∖ d_names d = w_probes (k_world s) ∖ d_names d ->
  let s' := mk_kstate (d_put d t (k_statics s)) w (active_detectors s) in
  probes_of d' s' = probes_of d' s /\ (entry_linked s d' -> entry_linked s' d').
Proof.
  intros Hij Hi Hj Hw s'. destruct (entries_apart _ _ _ _ Hij Hi Hj) as [Hdis Hget].
  assert (Hp : probes_of d' s' = probes_of d' s) by (unfold probes_of; simpl; set_solver).
  split; [done|]. unfold entry_linked. rewrite Hp. simpl. by rewrite Hget.
Qed.

Lemma entry_at i d : detectors !! i = Some d -> d ∈ detectors.
Proof. apply list_elem_of_lookup_2. Qed.

(** What one step of an entry keeps of [running]. *)
Lemma running_step m p0 n n' i d (s : kstate) t w :
  running m p0 n s -> detectors !! i = Some d ->
  w_manager w = w_manager (k_world s) ->
  w_probes w ∖ d_names d = w_probes (k_world s) ∖ d_names d ->
  d_linked d (w_probes w ∩ d_names d) t ->
  ((n' <= i)%nat -> w_probes w ∩ d_names d = ∅) ->
  (forall j, (n' <= j)%nat -> j <> i -> (n <= j)%nat) ->
  forall a, running m p0 n' (mk_kstate (d_put d t (k_statics s)) w a).
Proof.
  intros [Hm Ho Hl Hi] Hd Hwm Hwp Hlink Hidle Hn a. pose proof (entry_at _ _ Hd) as Hin.
  split; simpl.
  - congruence.
  - rewrite <- Ho. pose proof (names_all d Hin). set_solver.
  - intros d' [j Hj]%list_elem_of_lookup. destruct (decide (i = j)) as [<-|Hij].
    + assert (d' = d) as -> by congruence. unfold entry_linked, probes_of. simpl.
      by rewrite entry_get_put.
    + eapply (other_entry i j); try done. by eapply Hl, entry_at.
  - intros j d' Hj Hle. destruct (decide (i = j)) as [<-|Hij].
    + assert (d' = d) as -> by congruence. unfold probes_of. simpl. by apply Hidle.
    + destruct (other_entry i j d d' s t w Hij Hd Hj Hwp) as [Hp _].
      unfold probes_of in *. simpl in *. rewrite Hp. eapply Hi; [done|]. apply Hn; [done|congruence].
Qed.

Lemma start_detectors_spec m p0 todo n e (s : kstate) :
  detectors = (take n detectors ++ todo)%list -> (n + length todo)%nat = length detectors ->
  active_detectors s = n -> running m p0 n s ->
  (forall i d, detectors !! i = Some d -> (i < n)%nat -> probes_of d s <> ∅) ->
  wp (start_detectors todo) (fun r e' s' =>
    env_rel 0 e e' /\ (active_detectors s' <= length detectors)%nat /\
    running m p0 (active_detectors s') s' /\
    (r = 0%Z -> active_detectors s' = length detectors /\
       forall d, d ∈ detectors -> probes_of d s' <> ∅)) e s.
Proof.
  revert n e s. induction todo as [|d todo IH]; intros n e s Hsplit Hlen Hact Hrun Hlive;
    cbn [start_detectors].
  { simpl in Hlen. rewrite Nat.add_0_r in Hlen. wp_steps. rewrite Hact.
    split_and!; [apply env_rel_refl|lia|done|]. intros _. split; [lia|].
    intros d [i Hi]%list_elem_of_lookup. pose proof (lookup_lt_Some _ _ _ Hi).
    eapply Hlive; [done|lia]. }
  assert (Hd : detectors !! n = Some d).
  { rewrite Hsplit, lookup_app_r by (rewrite length_take; simpl in Hlen; lia).
    rewrite length_take, Nat.min_l, Nat.sub_diag by (simpl in Hlen; lia). done. }
  pose proof (entry_at _ _ Hd) as Hin.
  pose proof (entry_laws d (k_statics s) Hin) as Hlaws.
  pose proof (run_idle _ _ _ _ Hrun n d Hd (le_n n)) as Hidle.
  pose proof (run_linked _ _ _ _ Hrun d Hin) as Hlink.
  unfold entry_linked in Hlink. rewrite Hidle in Hlink.
  do 2 wp_step. cbn beta. wp_step. unfold run_part at 1. wp_step.
  eapply wp_mono; [apply (init_law _ _ _ Hidle Hlink)|].
  intros r e1 [t w] (He1 & [Hwm Hwp] & Hl1 & H0 & H1). cbn [fst snd] in *.
  assert (Hstep : forall a, running m p0 (if decide (r = 0%Z) then S n else n)
            (mk_kstate (d_put d t (k_statics s)) w a)).
  { eapply (running_step _ _ n _ n); try done.
    - case_decide; [lia|]. intros _. by apply H1.
    - intros j Hj Hne. case_decide; lia. }
  wp_steps.
  - cbn [active_detectors]. specialize (Hstep (active_detectors s)).
    rewrite decide_False in Hstep by done. rewrite Hact in *. split_and!; try done.
    apply lookup_lt_Some in Hd. lia.
  - specialize (Hstep (S (active_detectors s))). rewrite decide_True in Hstep by done.
    eapply wp_mono; [apply (IH (S n)); simpl in *; try done; try lia|].
    + rewrite Hsplit at 1. rewrite (take_S_r _ _ _ Hd), <- app_assoc. done.
    + intros i d' Hi Hlt. destruct (decide (i = n)) as [->|Hne].
      * assert (d' = d) as -> by congruence. by apply H0.
      * destruct (other_entry n i d d' s t w) as [Hp _]; try done.
        unfold probes_of in *. simpl in *. rewrite Hp. eapply Hlive; [done|lia].
    + intros r2 e2 s2 (He2 & Hrest). split; [env_solve|done].
Qed.

Lemma stop_detectors_spec m p0 n e (s : kstate) :
  (n <= length detectors)%nat -> running m p0 n s ->
  wp (stop_detectors detectors n) (fun _ e' s' =>
    env_rel 0 e e' /\ running m p0 0 s' /\ active_detectors s' = active_detectors s) e s.
Proof.
  revert e s. induction n as [|n IH]; intros e s Hn Hrun; cbn [stop_detectors].
  { wp_steps. split_and!; [apply env_rel_refl|done|done]. }
  destruct (lookup_lt_is_Some_2 detectors n) as [d Hd]; [lia|]. rewrite Hd.
  pose proof (entry_at _ _ Hd) as Hin.
  pose proof (entry_laws d (k_statics s) Hin) as Hlaws.
  wp_step. unfold run_part. wp_step.
  eapply wp_mono; [apply (exit_law _ _ _ (run_linked _ _ _ _ Hrun d Hin))|].
  intros [] e1 [t w] (He1 & Hwm & Hwp & Hl1). cbn [fst snd] in *.
  assert (Hempty : w_probes w ∩ d_names d = ∅) by set_solver.
  eapply wp_mono; [apply IH; [lia|eapply (running_step _ _ (S n) _ n)]|]; try done.
  - set_solver.
  - by rewrite Hempty.
  - intros j Hj Hne. lia.
  - intros [] e2 s2 (He2 & Hr2 & Ha2). split_and!; [env_solve|done|done].
Qed.

(** ** The life of the module *)
Context (hmac_sha256 : list byte -> list byte -> list byte).
Context (aead_encrypt : list byte -> list byte -> list byte -> list byte).
Context (aead_length : forall k n p,
  length (aead_encrypt k n p) = (length p + PHOTON_TAG_SIZE)%nat).
Context (mem : nat -> nat -> photon_event).
Abbreviation minv := (manager_inv hmac_sha256).

(** The module as it is loaded: no probe of its own, no detector counted. *)
Definition unloaded (s : kstate) : Prop :=
  fresh (w_manager (k_world s)) /\ active_detectors s = 0%nat /\
  w_probes (k_world s) ## all_names /\
  forall d, d ∈ detectors -> d_linked d ∅ (d_get d (k_statics s)).

Lemma unloaded_idle s d : unloaded s -> d ∈ detectors -> probes_of d s = ∅.
Proof.
  intros (_ & _ & Hp & _) Hd. pose proof (names_all d Hd). unfold probes_of. set_solver.
Qed.

Lemma running_stopped m p0 s :
  running m p0 0 s -> p0 ## all_names -> w_probes (k_world s) = p0.
Proof.
  intros [_ Ho _ Hi] Hp.
  assert (w_probes (k_world s) ## all_names); [|set_solver].
  intros x Hx (X & HX & HxX)%elem_of_union_list.
  apply list_elem_of_fmap in HX as (d & -> & [i Hd]%list_elem_of_lookup).
  specialize (Hi i d Hd ltac:(lia)). unfold probes_of in Hi. set_solver.
Qed.

Lemma photon_ring_init_spec e (s : kstate) :
  unloaded s ->
  wp (photon_ring_init aead_encrypt mem detectors) (fun r e' s' =>
    let ncpu := Z.of_nat (length (event_buffers (w_manager (k_world s)))) in
    (r = 0%Z -> env_rel (ncpu + 6) e e' /\ minv (w_manager (k_world s')) /\
       is_Some (g_tfm (ch_crypto (chan (w_manager (k_world s'))))) /\
       length (event_buffers (w_manager (k_world s'))) =
         length (event_buffers (w_manager (k_world s))) /\
       active_detectors s' = length detectors /\
       running (w_manager (k_world s')) (w_probes (k_world s)) (length detectors) s' /\
       forall d, d ∈ detectors -> probes_of d s' <> ∅) /\
    (r <> 0%Z -> env_rel 0 e e' /\ w_probes (k_world s') = w_probes (k_world s) /\
       Forall (fun b => events b = None) (event_buffers (w_manager (k_world s'))))) e s.
Proof using aead_length mem reg.
  intros Hun. pose proof Hun as (Hfresh & Hact & Hp & Hlink).
  unfold photon_ring_init, on_manager. do 2 wp_step.
  eapply wp_mono; [by apply (event_manager_init_spec hmac_sha256)|].
  intros r e1 m1 (Hl1 & H0 & H1). wp_steps.
  { destruct (H1 ltac:(done)) as (He1 & _ & Hb). by split. }
  destruct (H0 ltac:(done)) as (He1 & Hi1 & _ & _ & _ & _ & Ht1). clear H0 H1.
  set (s1 := mk_kstate _ _ _).
  eapply wp_mono; [apply (start_detectors_spec m1 (w_probes (k_world s)) detectors 0)|].
  - done.
  - done.
  - done.
  - split; [done|done| |].
    + intros d Hd. unfold entry_linked. unfold s1, probes_of. simpl.
      fold (probes_of d s). rewrite (unloaded_idle s) by done. by apply Hlink.
    + intros i d Hd _. eapply (unloaded_idle s); [done|by eapply entry_at].
  - lia.
  - intros r2 e2 s2 (He2 & Ha2 & Hr2 & H02). pose proof (run_manager _ _ _ _ Hr2) as Hm2.
    wp_steps.
    + eapply wp_mono; [by eapply stop_detectors_spec|]. intros [] e3 s3 (He3 & Hr3 & _).
      wp_steps. rewrite (run_manager _ _ _ _ Hr3).
      eapply wp_mono; [by apply (event_manager_exit_spec hmac_sha256 aead_encrypt)|].
      intros [] e4 m4 (He4 & Hb4 & _). wp_steps. split; [done|]. intros _.
      split_and!; [env_solve| |done]. cbn. by eapply running_stopped.
    + split; [|done]. intros _. destruct (H02 ltac:(done)) as [Hal Hlive].
      rewrite Hm2. split_and!; try done; [env_solve|by rewrite Hal in Hr2].
Qed.

(** Unloading from any state in which the registry's bookkeeping holds. *)
Lemma photon_ring_exit_spec e (s : kstate) p0 :
  running (w_manager (k_world s)) p0 (length detectors) s ->
  active_detectors s = length detectors -> p0 ## all_names ->
  minv (w_manager (k_world s)) -> is_Some (g_tfm (ch_crypto (chan (w_manager (k_world s))))) ->
  wp (photon_ring_exit aead_encrypt detectors) (fun _ e' s' =>
    let m := w_manager (k_world s) in let m' := w_manager (k_world s') in
    env_rel (- (Z.of_nat (length (event_buffers m)) + 6)) e e' /\
    w_probes (k_world s') = p0 /\
    Forall (fun b => events b = None) (event_buffers m') /\
    g_shutting_down (ch_cdev (chan m')) = true /\
    (g_key_set (ch_crypto (chan m)) = true ->
       g_master_key (ch_crypto (chan m')) = zeros PHOTON_KEY_SIZE /\
       g_session_key (ch_crypto (chan m')) = zeros PHOTON_KEY_SIZE)) e s.
Proof using aead_length mem reg.
  intros Hrun Hact Hp Hi Ht. unfold photon_ring_exit, on_manager. wp_steps. rewrite Hact.
  eapply wp_mono; [by eapply stop_detectors_spec|]. intros [] e1 s1 (He1 & Hr1 & _).
  wp_steps. rewrite (run_manager _ _ _ _ Hr1).
  eapply wp_mono; [by apply (event_manager_exit_spec hmac_sha256 aead_encrypt)|].
  intros [] e2 m2 (He2 & Hb2 & Hsd & _ & _ & Hk). cbn.
  split_and!; try done; [env_solve|by eapply running_stopped].
Qed.
End correctness.

(** ** The registry of [main.c] *)
Section photon_ring.
Context {T : Type}.

(** The statics of the nine entries; [T] are those of taskstats. *)
Record statics := mk_statics {
  st_reset_tainted : reset_tainted;
  st_kprobe : kprobe_detector;
  st_taskstats : T;
  st_audit : audit;
  st_tcp : filter_watch;
  st_bpf : bool;
  st_direct : ftrace_direct;
}.

Definition put_st_reset x s := mk_statics x (st_kprobe s) (st_taskstats s) (st_audit s)
  (st_tcp s) (st_bpf s) (st_direct s).
Definition put_st_kprobe x s := mk_statics (st_reset_tainted s) x (st_taskstats s) (st_audit s)
  (st_tcp s) (st_bpf s) (st_direct s).
Definition put_st_taskstats x s := mk_statics (st_reset_tainted s) (st_kprobe s) x (st_audit s)
  (st_tcp s) (st_bpf s) (st_direct s).
Definition put_st_audit x s := mk_statics (st_reset_tainted s) (st_kprobe s) (st_taskstats s) x
  (st_tcp s) (st_bpf s) (st_direct s).
Definition put_st_tcp x s := mk_statics (st_reset_tainted s) (st_kprobe s) (st_taskstats s)
  (st_audit s) x (st_bpf s) (st_direct s).
Definition put_st_bpf x s := mk_statics (st_reset_tainted s) (st_kprobe s) (st_taskstats s)
  (st_audit s) (st_tcp s) x (st_direct s).
Definition put_st_direct x s := mk_statics (st_reset_tainted s) (st_kprobe s) (st_taskstats s)
  (st_audit s) (st_tcp s) (st_bpf s) x.

Context (k : kernel).
Context (taskstats_detector_init : M (T * world) Z) (taskstats_detector_exit : M (T * world) unit).
Context (taskstats_names : gset string) (taskstats_linked : gset string -> T -> Prop).

Definition reset_tainted_entry : detector statics :=
  mk_detector "reset_tainted_detector" reset_tainted st_reset_tainted put_st_reset
    (fun _ => reset_tainted_detector_init k) (reset_tainted_detector_exit k)
    names_of_reset_tainted
    (fun s d => ("kthread_ops" ∈ s -> kthread_hook_active d = true) /\ "reset_tainted.kp" ∉ s).
Definition kprobe_entry : detector statics :=
  mk_detector "kprobe_detector" kprobe_detector st_kprobe put_st_kprobe
    (fun _ => kprobe_detector_init k) kprobe_detector_exit
    {["kprobe_detector.ops"; "kprobe_detector.bootstrap_kp"]}
    (fun s _ => "kprobe_detector.bootstrap_kp" ∉ s).
Definition taskstats_entry : detector statics :=
  mk_detector "taskstats_hook_detector" T st_taskstats put_st_taskstats
    (fun _ => taskstats_detector_init) taskstats_detector_exit taskstats_names taskstats_linked.
Definition audit_entry : detector statics :=
  mk_detector "hooking_audit_detector" audit st_audit put_st_audit
    (fun _ => audit_detector_init k hooking_audit_unit) (audit_detector_exit k hooking_audit_unit)
    (audit_names hooking_audit_unit) (audit_linked hooking_audit_unit).
Definition tcp_entry : detector statics :=
  mk_detector "tcp_hiding_detector" filter_watch st_tcp put_st_tcp
    (fun _ => tcp_hiding_detector_init k) tcp_hiding_detector_exit
    {["kp_tcp"; "tcp.kp"]} (fun s _ => "tcp.kp" ∉ s).
Definition become_root_entry : detector statics :=
  mk_detector "become_root_detector" unit (fun _ => tt) (fun _ s => s)
    (fun _ => become_root_detector_init k) become_root_detector_exit
    {["commit_creds_ops"]} (fun _ _ => True).
Definition bpf_entry : detector statics :=
  mk_detector "bpf_hook_detector" bool st_bpf put_st_bpf
    (fun _ => bpf_hook_detector_init k) bpf_hook_detector_exit {["bpf.kp"]} (fun _ _ => True).
Definition kallsyms_entry : detector statics :=
  mk_detector "kallsyms_detector" unit (fun _ => tt) (fun _ s => s)
    (fun s => kallsyms_detector_init (kprobe_detector_get_kallsyms_addr (st_kprobe s)))
    kallsyms_detector_exit {["kallsyms_ops"]} (fun _ _ => True).
Definition ftrace_direct_entry : detector statics :=
  mk_detector "ftrace_direct_detector" ftrace_direct st_direct put_st_direct
    (fun _ => ftrace_direct_detector_init k) ftrace_direct_detector_exit
    {["kp_set_filter"; "kp_set_notrace"; "kp_modify_direct"]} direct_linked.

(** [detectors[]], in the order of the array. *)
Definition detectors : list (detector statics) :=
  [reset_tainted_entry; kprobe_entry; taskstats_entry; audit_entry; tcp_entry;
   become_root_entry; bpf_entry; kallsyms_entry; ftrace_direct_entry].

Definition own_names : gset string :=
  ⋃ [names_of_reset_tainted; {["kprobe_detector.ops"; "kprobe_detector.bootstrap_kp"]};
     audit_names hooking_audit_unit; {["kp_tcp"; "tcp.kp"]};
     {["commit_creds_ops"]}; {["bpf.kp"]}; {["kallsyms_ops"]};
     {["kp_set_filter"; "kp_set_notrace"; "kp_modify_direct"]}].

Context (taskstats_laws : DetectorLaws taskstats_detector_init taskstats_detector_exit
           taskstats_names taskstats_linked).
Context (taskstats_apart : taskstats_names ## own_names).
Context (mask_readable : symbol_addr k "tainted_mask" <> 0%Z ->
  is_Some (pointer_at k (symbol_addr k "tainted_mask"))).

#[export] Instance detectors_registry : Registry detectors.
Proof using taskstats_laws taskstats_apart mask_readable.
  split.
  - intros d g Hd. unfold detectors in Hd.
    repeat (apply elem_of_cons in Hd as [->|Hd]); [..|by apply elem_of_nil in Hd];
      cbn [d_init d_exit d_names d_linked reset_tainted_entry kprobe_entry taskstats_entry
        audit_entry tcp_entry become_root_entry bpf_entry kallsyms_entry ftrace_direct_entry].
    + by apply reset_tainted_laws.
    + apply kprobe_detector_laws.
    + done.
    + apply audit_laws. closed.
    + by apply watcher_laws.
    + apply become_root_laws.
    + apply bpf_laws.
    + apply kallsyms_detector_laws.
    + apply ftrace_direct_laws.
  - intros d x g Hd. unfold detectors in Hd.
    repeat (apply elem_of_cons in Hd as [->|Hd]; [first [done | by destruct x]|]). by apply elem_of_nil in Hd.
  - intros i j d d' Hij Hi Hj.
    assert (Hown : forall X : gset string, X ⊆ own_names -> taskstats_names ## X /\ X ## taskstats_names).
    { intros X HX. pose proof taskstats_apart as Ha. revert HX Ha.
      generalize own_names. clear. set_solver. }
    destruct i as [|[|[|[|[|[|[|[|[|i]]]]]]]]]; cbn in Hi; [injection Hi as <-..|done];
      (destruct j as [|[|[|[|[|[|[|[|[|j]]]]]]]]]; cbn in Hj; [injection Hj as <-..|done]);
      first
        [ by destruct (Hij eq_refl)
        | split; [|intros; reflexivity];
          cbn [d_names reset_tainted_entry kprobe_entry taskstats_entry audit_entry tcp_entry
            become_root_entry bpf_entry kallsyms_entry ftrace_direct_entry];
          lazymatch goal with
          | |- context [taskstats_names] => apply Hown; closed
          | |- _ => closed
          end ].
Qed.

Context (hmac_sha256 : list byte -> list byte -> list byte).
Context (aead_encrypt : list byte -> list byte -> list byte -> list byte).
Context (aead_length : forall k n p,
  length (aead_encrypt k n p) = (length p + PHOTON_TAG_SIZE)%nat).
Context (mem : nat -> nat -> photon_event).

(** C24. Loading the module succeeds with all nine detectors active, each with at least one live probe, and a reporting path ready to log; or it fails, whichever call of whichever part failed, and leaves no probe, no event buffer and no other kernel object behind. *)
Theorem photon_ring_init_all_or_nothing e s :
  unloaded detectors s ->
  wp (photon_ring_init aead_encrypt mem detectors) (fun r e' s' =>
    (r = 0%Z ->
       env_rel (Z.of_nat (length (event_buffers (w_manager (k_world s)))) + 6) e e' /\
       manager_inv hmac_sha256 (w_manager (k_world s')) /\ active_detectors s' = 9%nat /\
       forall d, d ∈ detectors -> exists p, p ∈ w_probes (k_world s') /\ p ∈ d_names d) /\
    (r <> 0%Z ->
       env_rel 0 e e' /\ w_probes (k_world s') = w_probes (k_world s) /\
       Forall (fun b => events b = None) (event_buffers (w_manager (k_world s'))))) e s.
Proof using taskstats_laws taskstats_apart mask_readable aead_length.
  intros Hs. eapply wp_mono; [by apply (photon_ring_init_spec _ hmac_sha256)|].
  intros r e' s' [H0 H1]. split; [|done]. intros Hr.
  destruct (H0 Hr) as (He & Hi & _ & _ & Ha & _ & Hlive). split_and!; [done..|].
  intros d Hd. specialize (Hlive d Hd). unfold probes_of in Hlive.
  apply set_choose_L in Hlive as [p Hp]. exists p. set_solver.
Qed.

(** C13. Loading the module and, where that succeeded, unloading it leaves no trace among the probes and the kernel objects, whichever kernel calls fail in between. *)
Theorem load_unload_leaves_nothing e s :
  unloaded detectors s ->
  wp (r ← photon_ring_init aead_encrypt mem detectors;
      if Z.eqb r 0 then photon_ring_exit aead_encrypt detectors else mret tt) (fun _ e' s' =>
    env_rel 0 e e' /\ w_probes (k_world s') = w_probes (k_world s) /\
    Forall (fun b => events b = None) (event_buffers (w_manager (k_world s')))) e s.
Proof using taskstats_laws taskstats_apart mask_readable aead_length.
  intros Hs. wp_step. eapply wp_mono; [by apply (photon_ring_init_spec _ (fun _ _ => []))|].
  intros r e1 s1 [H0 H1]. wp_step; [|wp_step; by apply H1].
  destruct (H0 ltac:(done)) as (He & Hi & Ht & Hlen & Ha & Hrun & _). destruct Hs as (_ & _ & Hp & _).
  eapply wp_mono; [by apply (photon_ring_exit_spec _ (fun _ _ => [])) with (p0 := w_probes (k_world s))|].
  intros [] e2 s2 (He2 & Hp2 & Hb2 & _). rewrite Hlen in He2. split_and!; [env_solve|done|done].
Qed.
End photon_ring.

(** The exit of a detector hooked through ftrace takes back the filter entry of address 0 instead of its own: with every kernel call succeeding, the entry of commit_creds is still in the filter of the unloaded detector. *)
Theorem filter_entry_outlives_detector k e d w :
  no_fail e -> symbol_addr k "commit_creds" <> 0%Z ->
  wp (ret ← become_root_detector_init k; become_root_detector_exit) (fun _ e' s' =>
    "commit_creds_ops" ∉ w_probes s'.2 /\
    ("commit_creds_ops", symbol_addr k "commit_creds") ∈ w_filters s'.2) e (d, w).
Proof.
  intros Hf Ha. unfold become_root_detector_init, become_root_detector_exit, ftrace_install,
    ftrace_remove.
  wp_steps; cbn [snd fst set_filters set_probes w_filters w_probes];
    first [exfalso; env_solve | split; set_solver].
Qed.
