(* ===== verification/TaskstatsHooks.v ===== *)
(** * The detector in taskstats_hook_detector.c
    [modules/taskstats_hook_detector.c] is [modules/hooking_audit_detector.c]
    again: the same functions under the same names, in a file whose statics
    are its own.  So its operations are those of [AuditHooks] on another
    [audit_unit].  It does not define the [taskstats_detector_init] that the
    registry names; as that entry, its functions obey the laws of a detector
    and share no hook with the other eight. *)
From Stdlib Require Import ZArith Lia.
From Stdlib Require Import Strings.Byte Strings.Ascii Strings.String.
From stdpp Require Import base numbers list strings option gmap sets.
From S2P Require Import Prelude CString Kernel Events Crypto Cdev EventManager Arch Watchlists.
From S2P Require Import Hooks AuditHooks Main.
Open Scope string_scope.

Module Taskstats.
(** The statics; the objects carry the file's name, since those of the other
    file live beside them. *)
Definition taskstats_unit : audit_unit := mk_audit_unit [
  ("taskstats.ops_netlink_unicast", "netlink_unicast");
  ("taskstats.ops_audit_log_start", "audit_log_start");
  ("taskstats.ops_audit_log_end", "audit_log_end");
  ("taskstats.ops_audit_syscall_entry", "__audit_syscall_entry")] "taskstats.kp".

Definition STATS_INTERVAL_HZ : Z -> Z := AuditHooks.STATS_INTERVAL_HZ.
Definition print_statistics : Z -> M (audit * world) () := AuditHooks.print_statistics.

Section hooks.
Context (k : kernel) (sk_protocol_at : Z -> option Z) (skb_at : Z -> option sk_buff).
Context (kallsyms_lookup : Z -> string) (HZ parent_ip : Z) (fregs : ftrace_regs).

Definition hook_netlink_unicast_detector : M (audit * world) () :=
  AuditHooks.hook_netlink_unicast_detector k sk_protocol_at skb_at HZ parent_ip fregs.
Definition hook_audit_log_start_detector : M (audit * world) () :=
  AuditHooks.hook_audit_log_start_detector k kallsyms_lookup parent_ip fregs.
Definition hook_audit_log_end_detector : M (audit * world) () :=
  AuditHooks.hook_audit_log_end_detector k parent_ip fregs.
Definition hook_audit_syscall_entry_detector : M (audit * world) () :=
  AuditHooks.hook_audit_syscall_entry_detector k parent_ip fregs.
End hooks.

Definition resolve_symbol (k : kernel) (name : string) : M (audit * world) Z :=
  AuditHooks.resolve_symbol k taskstats_unit name.
Definition setup_ftrace_hook (k : kernel) (ops symbol_name : string) : M (audit * world) Z :=
  AuditHooks.setup_ftrace_hook k taskstats_unit ops symbol_name.
Definition teardown_ftrace_hook (k : kernel) (ops symbol_name : string) : M (audit * world) () :=
  AuditHooks.teardown_ftrace_hook k taskstats_unit ops symbol_name.
Definition audit_detector_init (k : kernel) : M (audit * world) Z :=
  AuditHooks.audit_detector_init k taskstats_unit.
Definition audit_detector_exit (k : kernel) : M (audit * world) () :=
  AuditHooks.audit_detector_exit k taskstats_unit.

(** ** As the registry's entry *)
Lemma taskstats_laws k :
  DetectorLaws (audit_detector_init k) (audit_detector_exit k) (audit_names taskstats_unit) (audit_linked taskstats_unit).
Proof. apply AuditHooks.audit_laws. closed. Qed.

Lemma taskstats_apart : audit_names taskstats_unit ## own_names.
Proof. closed. Qed.
End Taskstats.
