(* ===== verification/FileAccess.v ===== *)
(** * The file access detector
    [modules/hook_file_access.c]: a kretprobe on do_filp_open whose entry
    handler records the caller and the open flags and whose return handler
    prints every open of a sensitive path.  [ri->data] is the context passed
    from the entry to the return handler. *)
From Stdlib Require Import ZArith Lia.
From Stdlib Require Import Strings.Byte Strings.Ascii Strings.String.
From stdpp Require Import base numbers list strings option gmap sets.
From S2P Require Import Prelude CString Kernel Events Crypto Cdev EventManager Arch Watchlists.
From S2P Require Import Hooks ProbeDetectors.
Open Scope string_scope.

Definition sensitive_exact : list string := ["/etc/passwd"; "/etc/shadow"; "/etc/sudoers"].
Definition sensitive_prefix : list string := ["/etc/ssh/"; "/home/"; "/root/.ssh/"].

(** The second loop: under /home/ only paths with "/.ssh/" count. *)
Fixpoint match_prefixes (path : string) (prefixes : list string) : bool :=
  match prefixes with
  | [] => false
  | p :: prefixes =>
      if strncmp_eq path p (String.length p) then
        if strcmp_eq p "/home/" then
          if strstr_found path "/.ssh/" then true else match_prefixes path prefixes
        else true
      else match_prefixes path prefixes
  end.

Definition is_sensitive_path (path : string) : bool :=
  if strcmp_any path sensitive_exact then true else match_prefixes path sensitive_prefix.

Definition O_WRONLY : Z := 1.
Definition O_RDWR : Z := 2.
Definition O_CREAT : Z := 64.
Definition O_TRUNC : Z := 512.
Definition O_APPEND : Z := 1024.

Definition is_writeish (flags : Z) : bool :=
  negb (Z.eqb (Z.land flags O_WRONLY) 0) || negb (Z.eqb (Z.land flags O_RDWR) 0) ||
  negb (Z.eqb (Z.land flags O_APPEND) 0) || negb (Z.eqb (Z.land flags O_TRUNC) 0) ||
  negb (Z.eqb (Z.land flags O_CREAT) 0).

Record open_call_ctx := mk_open_call_ctx {
  ts_ns : Z; ctx_pid : Z; ppid : Z; kuid : Z; kgid : Z; ctx_comm : string;
  open_flags : Z; open_mode : Z;
}.

(** What the handlers read of the caller and of a file. *)
Record file := mk_file { f_path : option string; f_flags : Z }.
Record open_view := mk_open_view {
  real_parent : option Z;
  current_uid : Z;
  current_gid : Z;
  open_flags_at : Z -> option (Z * Z);
  file_at : Z -> option file;
}.

(** [IS_ERR]: the last 4095 addresses. *)
Definition IS_ERR (p : Z) : bool := (2 ^ 64 - 4095 <=? p)%Z.

Section handlers.
Context (k : kernel) (v : open_view).

Definition do_filp_open_entry (regs : pt_regs) : M world open_call_ctx :=
  ts ← ktime_get;
  t ← get_current;
  let maybe_open_flags := pr_get_arg (k_arch k) regs 2 in
  let '(fl, mode) :=
    if Z.eqb maybe_open_flags 0 then (0, 0)%Z
    else match open_flags_at v maybe_open_flags with
         | Some (open_flag, mode) => (u64 open_flag, mode)
         | None => (0, 0)%Z
         end in
  mret (mk_open_call_ctx ts (pid t) (default (-1)%Z (real_parent v)) (current_uid v)
          (current_gid v) (comm t) fl mode).

Definition open_line (path : string) (eff_flags : Z) (ctx : open_call_ctx) : line :=
  mk_line KERN_ALERT
    ("[PHOTON RING] FILE_OPEN path=" +:+ quote +:+ "%s" +:+ quote +:+
     " flags=0x%lx mode=0%o pid=%d ppid=%d uid=%u gid=%u comm=" +:+ quote +:+ "%s" +:+ quote +:+
     " ts_ns=%llu %s")
    [AStr path; ANum eff_flags; ANum (open_mode ctx); ANum (ctx_pid ctx); ANum (ppid ctx);
     ANum (kuid ctx); ANum (kgid ctx); AStr (ctx_comm ctx); ANum (ts_ns ctx);
     AStr (if is_writeish eff_flags then "ALERT=WRITE_ATTEMPT" else "ALERT=READ")].

Definition do_filp_open_ret (ctx : open_call_ctx) (regs : pt_regs) : M world unit :=
  let filep := pr_get_ret (k_arch k) regs in
  if Z.eqb filep 0 || IS_ERR filep then mret tt else
  f ← deref (file_at v filep);
  match f_path f with
  | None => mret tt
  | Some resolved =>
      let eff_flags := if negb (Z.eqb (open_flags ctx) 0) then open_flags ctx else f_flags f in
      if is_sensitive_path resolved then
        let l := open_line resolved eff_flags ctx in printk (level l) (text l) (line_args l)
      else mret tt
  end.

Definition file_access_detector_init : M world Z :=
  ret ← register_probe "rp_do_filp_open";
  if (ret <? 0)%Z then mret ret else mret 0%Z.

Definition file_access_detector_exit : M world unit := unregister_probe "rp_do_filp_open".
End handlers.

(** ** What is sensitive *)
(** A path counts as sensitive exactly when it is one of the three account files, lies under /etc/ssh/ or /root/.ssh/, or lies under /home/ and has a /.ssh/ component anywhere in it. *)
Theorem sensitive_path_exact path :
  is_sensitive_path path = true <->
  path ∈ ["/etc/passwd"; "/etc/shadow"; "/etc/sudoers"] \/
  (exists rest, path = "/etc/ssh/" +:+ rest) \/ (exists rest, path = "/root/.ssh/" +:+ rest) \/
  (exists rest, path = "/home/" +:+ rest) /\
    (exists pre post, path = pre +:+ ("/.ssh/" +:+ post)).
Proof.
  unfold is_sensitive_path, match_prefixes, sensitive_prefix.
  rewrite !strncmp_eq_prefix, <- !prefix_spec, <- strstr_found_spec, <- strcmp_any_spec.
  change (strcmp_eq "/etc/ssh/" "/home/") with false.
  change (strcmp_eq "/home/" "/home/") with true.
  change (strcmp_eq "/root/.ssh/" "/home/") with false. unfold sensitive_exact.
  destruct (strcmp_any _ _), (String.prefix "/etc/ssh/" path), (String.prefix "/home/" path),
    (strstr_found path "/.ssh/"), (String.prefix "/root/.ssh/" path); naive_solver.
Qed.

(** The flag word has one of the bits of a write. *)
Lemma writeish_mask flags : is_writeish flags = negb (Z.eqb (Z.land flags 1603) 0).
Proof.
  unfold is_writeish, O_WRONLY, O_RDWR, O_APPEND, O_TRUNC, O_CREAT.
  change 1603%Z with (Z.lor 1 (Z.lor 2 (Z.lor 1024 (Z.lor 512 64)))).
  rewrite !Z.land_lor_distr_r.
  assert (Hor : forall a b, negb (Z.eqb (Z.lor a b) 0) = negb (Z.eqb a 0) || negb (Z.eqb b 0)).
  { intros a b. rewrite <- negb_andb. f_equal. apply eq_true_iff_eq.
    rewrite andb_true_iff, !Z.eqb_eq. apply Z.lor_eq_0_iff. }
  rewrite !Hor. by rewrite <- !orb_assoc.
Qed.

(** What the entry probe records of an open whose flags are at [p]. *)
Lemma do_filp_open_entry_spec k v args p of_flag of_mode e0 w0 :
  k_arch k <> OTHER_ARCH -> args !! 2%nat = Some p -> p <> 0%Z -> open_flags_at v p = Some (of_flag, of_mode) ->
  exists ts e1, do_filp_open_entry k v (entry_regs (k_arch k) args) e0 w0 =
    Ret (mk_open_call_ctx ts (pid (current e0)) (default (-1)%Z (real_parent v)) (current_uid v)
           (current_gid v) (comm (current e0)) (u64 of_flag) of_mode, e1, w0).
Proof.
  intros Ha Hp Hp0 Hof.
  assert (Harg : pr_get_arg (k_arch k) (entry_regs (k_arch k) args) 2 = p).
  { rewrite pr_get_arg_entry, Hp by (destruct (k_arch k); simpl; [lia..|done]). done. }
  unfold do_filp_open_entry, mbind, M_bind, ktime_get, get_current, mret, M_ret.
  rewrite Harg, Hof, (proj2 (Z.eqb_neq _ _)) by done. destruct (env_time e0); eauto.
Qed.

(** What the return probe prints for a file that was opened. *)
Lemma do_filp_open_ret_spec k v ctx rregs filep f path e w :
  pr_get_ret (k_arch k) rregs = filep -> filep <> 0%Z -> IS_ERR filep = false ->
  file_at v filep = Some f -> f_path f = Some path ->
  do_filp_open_ret k v ctx rregs e w =
    Ret (tt, e, if is_sensitive_path path
                then set_console (w_console w ++
                  [open_line path (if decide (open_flags ctx = 0%Z) then f_flags f else open_flags ctx) ctx]) w
                else w).
Proof.
  intros Hret Hf0 Herr Hfile Hpath.
  assert (Hfl : (if negb (Z.eqb (open_flags ctx) 0) then open_flags ctx else f_flags f) =
                (if decide (open_flags ctx = 0%Z) then f_flags f else open_flags ctx)).
  { by destruct (Z.eqb_spec (open_flags ctx) 0); case_decide. }
  unfold do_filp_open_ret. rewrite Hret, Herr, (proj2 (Z.eqb_neq filep 0)), Hfile by done.
  cbn [orb]. unfold mbind, M_bind, deref, mret, M_ret. rewrite Hpath, Hfl. by destruct (is_sensitive_path path).
Qed.

(** An open that succeeds is printed exactly when the resolved path is sensitive, with the caller as recorded at entry, and marked as a write attempt exactly when the recorded open flags, or the file's own flags if none were recorded, ask for writing, appending, truncating or creating. *)
Theorem file_open_policy k v args p of_flag of_mode filep f path e0 e w0 w rregs :
  k_arch k <> OTHER_ARCH -> args !! 2%nat = Some p -> p <> 0%Z ->
  open_flags_at v p = Some (of_flag, of_mode) ->
  pr_get_ret (k_arch k) rregs = filep -> filep <> 0%Z -> IS_ERR filep = false ->
  file_at v filep = Some f -> f_path f = Some path ->
  exists ctx e1,
    do_filp_open_entry k v (entry_regs (k_arch k) args) e0 w0 = Ret (ctx, e1, w0) /\
    ctx_pid ctx = pid (current e0) /\ ctx_comm ctx = comm (current e0) /\
    let flags := if decide (u64 of_flag = 0%Z) then f_flags f else u64 of_flag in
    do_filp_open_ret k v ctx rregs e w =
      Ret (tt, e, if is_sensitive_path path
                  then set_console (w_console w ++ [open_line path flags ctx]) w else w) /\
    last (line_args (open_line path flags ctx)) =
      Some (AStr (if decide (Z.land flags 1603 = 0%Z) then "ALERT=READ" else "ALERT=WRITE_ATTEMPT")).
Proof.
  intros Ha Hp Hp0 Hof Hret Hf0 Herr Hfile Hpath.
  destruct (do_filp_open_entry_spec k v args p of_flag of_mode e0 w0 Ha Hp Hp0 Hof) as (ts & e1 & Hentry).
  eexists _, _. split; [exact Hentry|]. split_and!; [done|done|]. cbv zeta. split.
  - by rewrite (do_filp_open_ret_spec _ _ _ _ _ _ _ _ _ Hret Hf0 Herr Hfile Hpath).
  - cbn [open_line line_args last]. rewrite writeish_mask.
    generalize (if decide (u64 of_flag = 0%Z) then f_flags f else u64 of_flag). intros fl.
    destruct (Z.eqb_spec (Z.land fl 1603) 0) as [E|E]; [by rewrite decide_True|by rewrite decide_False].
Qed.
