(* ===== verification/Hiding.v ===== *)
(** * The detectors of hidden processes and directory entries
    [modules/hiding_stat.c] and [modules/hiding_directory.c]: hooks on the stat
    and getdents families that cross-check what the system call will say
    against the kernel's own tables, and their set-up and tear-down, which
    count how many of their hooks are installed.  hiding_stat.c calls
    [photon_log_event] with four arguments, a payload struct, event types and
    flags that no header declares: these are the fields of [stat_api], a
    parameter of its hooks.  What [__ratelimit] answers is an argument of the
    hooks. *)
From Stdlib Require Import ZArith Lia.
From Stdlib Require Import Strings.Byte Strings.Ascii Strings.String.
From stdpp Require Import base numbers list strings option gmap sets.
From S2P Require Import Prelude CString Kernel Events Crypto Cdev EventManager Arch Watchlists.
From S2P Require Import Hooks ProbeDetectors.
Open Scope string_scope.

Definition MAX_PATH_LEN : nat := 256.

(** ** Parsing /proc paths *)
Definition digit_value (c : ascii) : option Z :=
  let z := (Z.of_nat (nat_of_ascii c) - 48)%Z in
  if decide (0 <= z <= 9)%Z then Some z else None.

(** The leading digits, at most [room] of them. *)
Fixpoint take_digits (room : nat) (s : string) : list Z :=
  match room, s with
  | S room, String c s =>
      match digit_value c with Some z => z :: take_digits room s | None => [] end
  | _, _ => []
  end.

(** [kstrtoint (buf, 10, &pid)] of a string of digits: [None] out of range. *)
Definition digits_value (l : list Z) : Z := foldl (fun acc z => 10 * acc + z)%Z 0%Z l.
Definition kstrtoint (l : list Z) : option Z :=
  let z := digits_value l in if decide (z < 2 ^ 31)%Z then Some z else None.

Definition extract_proc_pid (path : string) : Z :=
  if negb (strncmp_eq path "/proc/" 6) then (-1)%Z else
  match take_digits 15 (String.substring 6 (String.length path - 6) path) with
  | [] => (-1)%Z
  | l => default (-1)%Z (kstrtoint l)
  end.

(** ** Cross-verification *)
(** What the kernel's tables say: [find_vpid] and [pid_task]; [kern_path] with
    the link count and kind of the inode, if the entry has one; a string of the
    caller's memory; the registers a syscall wrapper points to; the path of a
    file descriptor. *)
Record vfs_view := mk_vfs_view {
  pid_task : Z -> bool;
  kern_path : string -> option (option (Z * bool));
  user_string_at : Z -> option string;
  pt_regs_at : Z -> option pt_regs;
  fd_path : Z -> option string;
}.

(** [struct stat_event_data] as hiding_stat.c fills it. *)
Record stat_event_data := mk_stat_event_data {
  sd_syscall_name : list byte;
  sd_path : list byte;
  sd_caller_comm : list byte;
  sd_caller_pid : Z;
  sd_target_pid : Z;
  sd_real_nlink : Z;
  sd_flags : Z;
}.

(** What hiding_stat.c uses and the repository does not declare: the event
    types, the flags, the sizes of the payload's character fields, and a
    [photon_log_event] that takes the type, the detector and the payload. *)
Record stat_api := mk_stat_api {
  PHOTON_EVENT_STAT_PATH_HIDDEN : Z;
  PHOTON_EVENT_STAT_NLINK_AUDIT : Z;
  PHOTON_EVENT_STAT_PID_AUDIT : Z;
  STAT_FLAG_TASK_EXISTS : Z;
  STAT_FLAG_VFS_MISSING : Z;
  STAT_FLAG_IS_DIR : Z;
  sizeof_syscall_name : nat;
  sizeof_path : nat;
  sizeof_caller_comm : nat;
  log_stat_event : Z -> Z -> stat_event_data -> M world unit;
}.

Section handlers.
Context (k : kernel) (v : vfs_view) (api : stat_api).

Definition photon_pid_has_task (nr : Z) : bool := pid_task v nr.
Definition path_exists_in_vfs (path : string) : bool := bool_decide (is_Some (kern_path v path)).
(** The link count and whether the path is a directory. *)
Definition get_real_nlink (path : string) : Z * bool :=
  match kern_path v path with
  | Some (Some (nlink, is_dir)) => (nlink, is_dir)
  | _ => (0%Z, false)
  end.

Definition quoted : string := quote +:+ "%s" +:+ quote.
Definition print_line (l : line) : M world unit := printk (level l) (text l) (line_args l).

Definition hidden_line (syscall path : string) (target : Z) : line :=
  mk_line KERN_ALERT
    ("[PHOTON RING] CRITICAL: %s(" +:+ quoted +:+
     ") - PID %d exists in tasklist but /proc entry missing at VFS level!")
    [AStr syscall; AStr path; ANum target].
Definition stat_line (syscall path : string) (t : task) (target : Z) : line :=
  mk_line KERN_INFO
    ("[PHOTON RING] STAT_AUDIT: %s(" +:+ quoted +:+
     ") by PID %d (%s) - target PID %d verified in tasklist and VFS")
    [AStr syscall; AStr path; ANum (pid t); AStr (comm t); ANum target].
Definition nlink_line (syscall path : string) (t : task) (nlink : Z) : line :=
  mk_line KERN_INFO
    ("[PHOTON RING] NLINK_AUDIT: %s(" +:+ quoted +:+ ") real_nlink=%u by PID %d (%s)")
    [AStr syscall; AStr path; ANum nlink; ANum (pid t); AStr (comm t)].

(** The payload: zeroed, then filled field by field. *)
Definition stat_payload (syscall path : string) (t : task) (target nlink fl : Z) : stat_event_data :=
  mk_stat_event_data (char_field (sizeof_syscall_name api) syscall)
    (char_field (sizeof_path api) path) (char_field (sizeof_caller_comm api) (comm t))
    (pid t) (u32 target) nlink fl.
Definition log_stat (event_type : Z) (d : stat_event_data) : M world unit :=
  log_stat_event api event_type (detector_id_code PHOTON_DETECTOR_STAT) d.

(** [stat_rl] and [nlink_rl] are the answers of the two rate limits. *)
Definition analyze_stat_path (stat_rl nlink_rl : bool) (path syscall : string) : M world unit :=
  t ← get_current;
  let proc_pid := extract_proc_pid path in
  if (0 <? proc_pid)%Z then
    let task_exists := photon_pid_has_task proc_pid in
    let vfs_exists := path_exists_in_vfs path in
    if task_exists && negb vfs_exists then
      print_line (hidden_line syscall path proc_pid) ;;
      log_stat (PHOTON_EVENT_STAT_PATH_HIDDEN api) (stat_payload syscall path t proc_pid 0
        (Z.lor (STAT_FLAG_TASK_EXISTS api) (STAT_FLAG_VFS_MISSING api)))
    else if task_exists && vfs_exists then
      if stat_rl then
        print_line (stat_line syscall path t proc_pid) ;;
        log_stat (PHOTON_EVENT_STAT_PATH_HIDDEN api)
          (stat_payload syscall path t proc_pid 0 (STAT_FLAG_TASK_EXISTS api))
      else mret tt
    else mret tt
  else
    let '(nlink, is_dir) := get_real_nlink path in
    if is_dir && (0 <? nlink)%Z && nlink_rl then
      print_line (nlink_line syscall path t nlink) ;;
      log_stat (PHOTON_EVENT_STAT_NLINK_AUDIT api)
        (stat_payload syscall path t 0 nlink (STAT_FLAG_IS_DIR api))
    else mret tt.

(** The common part of [hook_stat_di] and [hook_stat_si]; [n] is the argument
    that holds the path. *)
Definition hook_stat (n : nat) (syscall : string) (stat_rl nlink_rl : bool)
    (fregs : ftrace_regs) : M world unit :=
  let p := get_arg k fregs 0 in
  if Z.eqb p 0 then mret tt else
  r ← deref (pt_regs_at v p);
  let pathname := kprobe_get_arg k r n in
  if Z.eqb pathname 0 then mret tt else
  match user_string_at v pathname with
  | None | Some EmptyString => mret tt
  | Some s => analyze_stat_path stat_rl nlink_rl (string_take (MAX_PATH_LEN - 1) s) syscall
  end.

Definition hook_stat_di := hook_stat 0 "stat".
Definition hook_stat_si := hook_stat 1 "fstatat".

Definition PRIO_PROCESS : Z := 0.

Definition getpriority_line (t : task) (who : Z) : line :=
  mk_line KERN_INFO
    "[PHOTON RING] GETPRIORITY_AUDIT: getpriority(PRIO_PROCESS, %d) by PID %d (%s) - target PID verified in tasklist"
    [ANum who; ANum (pid t); AStr (comm t)].

Definition hook_getpriority_cb (getprio_rl : bool) (fregs : ftrace_regs) : M world unit :=
  let p := get_arg k fregs 0 in
  if Z.eqb p 0 then mret tt else
  r ← deref (pt_regs_at v p);
  let which := s32 (kprobe_get_arg k r 0) in
  let who := s32 (kprobe_get_arg k r 1) in
  if negb (Z.eqb which PRIO_PROCESS) || (who <=? 0)%Z then mret tt else
  if photon_pid_has_task who && getprio_rl then
    t ← get_current;
    print_line (getpriority_line t who) ;;
    log_stat (PHOTON_EVENT_STAT_PID_AUDIT api)
      (stat_payload "getpriority" "" t who 0 (STAT_FLAG_TASK_EXISTS api))
  else mret tt.

(** ** hiding_directory.c *)
Definition get_fd_path (fd : Z) : option string := fd_path v fd.

Definition analyze_directory (dir_rl : bool) (path syscall : string) : M world unit :=
  t ← get_current;
  if dir_rl then
    printk KERN_INFO ("[PHOTON RING] DIR_AUDIT: %s(" +:+ quoted +:+ ") by PID %d (%s)")
      [AStr syscall; AStr path; ANum (pid t); AStr (comm t)]
  else mret tt.

Definition hook_directory (syscall : string) (dir_rl : bool) (fregs : ftrace_regs) : M world unit :=
  let p := get_arg k fregs 0 in
  if Z.eqb p 0 then mret tt else
  r ← deref (pt_regs_at v p);
  match get_fd_path (s32 (kprobe_get_arg k r 0)) with
  | None => mret tt
  | Some path => analyze_directory dir_rl path syscall
  end.
Definition hook_getdents := hook_directory "getdents".
Definition hook_getdents64 := hook_directory "getdents64".
End handlers.

(** ** Set-up and tear-down
    The statics are the two hook counters. *)

(** [ftrace_set_filter] on each name; 0 if at least one was accepted. *)
Fixpoint setup_ftrace_filter (has_filter : bool) (names : list string) : M world Z :=
  match names with
  | [] => mret (if has_filter then 0 else - ENOENT)%Z
  | _ :: names =>
      ret ← kcall;
      setup_ftrace_filter (if Z.eqb ret 0 then true else has_filter) names
  end.

Definition stat_di_names (a : arch) : list string :=
  match a with
  | X86_64 => ["__x64_sys_newstat"; "__x64_sys_newlstat"; "__x64_sys_stat"; "__x64_sys_lstat"]
  | ARM64 => ["__arm64_sys_newstat"; "__arm64_sys_newlstat"; "__arm64_sys_stat"; "__arm64_sys_lstat"]
  | OTHER_ARCH => []
  end.
Definition stat_si_names (a : arch) : list string :=
  match a with
  | X86_64 => ["__x64_sys_newfstatat"; "__x64_sys_statx"]
  | ARM64 => ["__arm64_sys_newfstatat"; "__arm64_sys_statx"]
  | OTHER_ARCH => []
  end.
Definition getpriority_names (a : arch) : list string :=
  match a with
  | X86_64 => ["__x64_sys_getpriority"]
  | ARM64 => ["__arm64_sys_getpriority"]
  | OTHER_ARCH => []
  end.
Definition getdents_names (a : arch) : list string :=
  match a with
  | X86_64 => ["__x64_sys_getdents"] | ARM64 => ["__arm64_sys_getdents"] | OTHER_ARCH => []
  end.
Definition getdents64_names (a : arch) : list string :=
  match a with
  | X86_64 => ["__x64_sys_getdents64"] | ARM64 => ["__arm64_sys_getdents64"] | OTHER_ARCH => []
  end.

Definition set_count (n : Z) : M (Z * world) unit := in_statics (put n).

(** One group: 0 if it is skipped or its hook is registered and counted. *)
Definition install_group (ops : string) (names : list string) : M (Z * world) Z :=
  ret ← in_world (setup_ftrace_filter false names);
  if Z.eqb ret 0 then
    ret ← in_world (register_probe ops);
    if negb (Z.eqb ret 0) then mret ret else
    n ← in_statics get;
    set_count (n + 1) ;;
    mret 0%Z
  else mret 0%Z.

(** [if (n <= count) unregister_ftrace_function (ops);] *)
Definition unregister_if (n : Z) (ops : string) : M (Z * world) unit :=
  count ← in_statics get;
  if (n <=? count)%Z then in_world (unregister_probe ops) else mret tt.

Definition hiding_stat_cleanup : M (Z * world) unit :=
  unregister_if 2 "stat_si_ops" ;;
  unregister_if 1 "stat_di_ops" ;;
  set_count 0.

Definition hiding_stat_init (a : arch) : M (Z * world) Z :=
  set_count 0 ;;
  ret ← install_group "stat_di_ops" (stat_di_names a);
  if negb (Z.eqb ret 0) then mret ret else
  ret ← install_group "stat_si_ops" (stat_si_names a);
  if negb (Z.eqb ret 0) then (hiding_stat_cleanup ;; mret ret) else
  ret ← install_group "getpriority_ops" (getpriority_names a);
  if negb (Z.eqb ret 0) then (hiding_stat_cleanup ;; mret ret) else
  hooks_installed ← in_statics get;
  if Z.eqb hooks_installed 0 then mret (- ENOENT)%Z else mret 0%Z.

Definition hiding_stat_exit : M (Z * world) unit :=
  unregister_if 3 "getpriority_ops" ;;
  unregister_if 2 "stat_si_ops" ;;
  unregister_if 1 "stat_di_ops" ;;
  set_count 0.

Definition hiding_directory_init (a : arch) : M (Z * world) Z :=
  set_count 0 ;;
  ret ← install_group "getdents_ops" (getdents_names a);
  if negb (Z.eqb ret 0) then mret ret else
  ret ← install_group "getdents64_ops" (getdents64_names a);
  if negb (Z.eqb ret 0) then
    unregister_if 1 "getdents_ops" ;;
    set_count 0 ;;
    mret ret
  else
  dir_hooks_installed ← in_statics get;
  if Z.eqb dir_hooks_installed 0 then mret (- ENOENT)%Z else mret 0%Z.

Definition hiding_directory_exit : M (Z * world) unit :=
  unregister_if 2 "getdents64_ops" ;;
  unregister_if 1 "getdents_ops" ;;
  set_count 0.

(** ** Parsing *)
Definition is_digit (z : Z) : Prop := (0 <= z <= 9)%Z.
(** The characters of a list of digits, followed by [rest]. *)
Definition digits_then (l : list Z) (rest : string) : string :=
  foldr (fun z s => String (ascii_of_nat (Z.to_nat (48 + z))) s) rest l.

Lemma digit_value_ascii z :
  is_digit z -> digit_value (ascii_of_nat (Z.to_nat (48 + z))) = Some z.
Proof.
  intros Hz. unfold digit_value, is_digit in *.
  rewrite nat_ascii_embedding by lia. rewrite Z2Nat.id by lia.
  rewrite decide_True by lia. f_equal. lia.
Qed.

Lemma take_digits_spec l rest room :
  Forall is_digit l -> (length l <= room)%nat ->
  match rest with String c _ => digit_value c = None | EmptyString => True end ->
  take_digits room (digits_then l rest) = l.
Proof.
  revert room. induction l as [|z l IH]; intros room Hl Hlen Hr.
  - destruct room as [|room]; [done|]. destruct rest as [|c rest]; [done|].
    cbn [digits_then foldr take_digits]. by rewrite Hr.
  - apply Forall_cons_iff in Hl as [Hz Hl]. destruct room as [|room]; simpl in Hlen; [lia|].
    cbn [digits_then foldr take_digits]. rewrite digit_value_ascii by done.
    f_equal. apply IH; [done|lia|done].
Qed.

Lemma substring_all (s : string) : String.substring 0 (String.length s) s = s.
Proof. induction s as [|c s IH]; simpl; [done|]. by rewrite IH. Qed.

Lemma extract_digits l rest :
  Forall is_digit l -> (0 < length l <= 15)%nat ->
  match rest with String c _ => digit_value c = None | EmptyString => True end ->
  extract_proc_pid ("/proc/" +:+ digits_then l rest) =
    if decide (digits_value l < 2 ^ 31)%Z then digits_value l else (-1)%Z.
Proof.
  intros Hl Hlen Hr. unfold extract_proc_pid. change 6%nat with (String.length "/proc/") at 1.
  rewrite strncmp_eq_prefix.
  change (String.prefix "/proc/" ("/proc/" +:+ digits_then l rest))
    with (String.prefix "" (digits_then l rest)).
  replace (String.prefix "" (digits_then l rest)) with true by (by destruct (digits_then l rest)).
  cbn [negb].
  replace (String.substring 6 (String.length ("/proc/" +:+ digits_then l rest) - 6)
             ("/proc/" +:+ digits_then l rest)) with (digits_then l rest).
  2:{ change (String.length ("/proc/" +:+ digits_then l rest))
        with (6 + String.length (digits_then l rest))%nat.
      rewrite Nat.add_comm, Nat.add_sub.
      change (digits_then l rest = String.substring 0 (String.length (digits_then l rest)) (digits_then l rest)).
      by rewrite substring_all. }
  rewrite take_digits_spec by (done || lia). destruct l as [|z l]; [simpl in Hlen; lia|].
  unfold kstrtoint. by case_decide.
Qed.

(** Of a path that continues /proc/ with a number of at most fifteen digits, the number is extracted, and -1 if it exceeds an int; of any other path, -1. *)
Theorem proc_pid_parsed path :
  (forall l rest, path = "/proc/" +:+ digits_then l rest -> Forall is_digit l ->
     (0 < length l <= 15)%nat ->
     match rest with String c _ => digit_value c = None | EmptyString => True end ->
     extract_proc_pid path =
       if decide (digits_value l < 2 ^ 31)%Z then digits_value l else (-1)%Z) /\
  ((forall rest, path <> "/proc/" +:+ rest) -> extract_proc_pid path = (-1)%Z).
Proof.
  split; [intros l rest -> ? ? ?; by apply extract_digits|].
  unfold extract_proc_pid. change 6%nat with (String.length "/proc/") at 1.
  rewrite strncmp_eq_prefix.
  intros Hno. destruct (String.prefix "/proc/" path) eqn:E; [|done].
  apply prefix_spec in E as [rest Hrest]. by destruct (Hno rest).
Qed.

(** What the analysis of a path makes of it: nothing, or a line and an event. *)
Definition print_and_log api (o : option (line * Z * stat_event_data)) : M world unit :=
  match o with
  | Some (l, event_type, d) => print_line l ;; log_stat api event_type d
  | None => mret tt
  end.

(** C35. A path /proc/<number><rest>, whose number is an int above 0 of at most fifteen digits.  The pid has a task and the file system does not find the path: the CRITICAL line is printed, and then an event of type STAT_PATH_HIDDEN goes to the event log, with the system call, the path, the caller's name and pid, the number, and the flags TASK_EXISTS and VFS_MISSING.  Both exist: if the rate limit allows it, an audit line, and an event of the same type STAT_PATH_HIDDEN, told apart only by its flags: TASK_EXISTS without VFS_MISSING.  No task has the number: nothing. *)
Theorem hidden_process_policy v api stat_rl nlink_rl l rest syscall e w :
  Forall is_digit l -> (0 < length l <= 15)%nat -> (0 < digits_value l < 2 ^ 31)%Z ->
  match rest with String c _ => digit_value c = None | EmptyString => True end ->
  let path := "/proc/" +:+ digits_then l rest in
  let target := digits_value l in
  let caller := current e in
  let report lvl txt args flags :=
    log_stat_event api (PHOTON_EVENT_STAT_PATH_HIDDEN api) 3
      (mk_stat_event_data (char_field (sizeof_syscall_name api) syscall)
         (char_field (sizeof_path api) path) (char_field (sizeof_caller_comm api) (comm caller))
         (pid caller) target 0 flags)
      e (set_console (w_console w ++ [mk_line lvl txt args]) w) in
  analyze_stat_path v api stat_rl nlink_rl path syscall e w =
    match pid_task v target, kern_path v path with
    | true, None =>
        report KERN_ALERT
          ("[PHOTON RING] CRITICAL: %s(" +:+ quote +:+ "%s" +:+ quote +:+
           ") - PID %d exists in tasklist but /proc entry missing at VFS level!")
          [AStr syscall; AStr path; ANum target]
          (Z.lor (STAT_FLAG_TASK_EXISTS api) (STAT_FLAG_VFS_MISSING api))
    | true, Some _ =>
        if stat_rl then
          report KERN_INFO
            ("[PHOTON RING] STAT_AUDIT: %s(" +:+ quote +:+ "%s" +:+ quote +:+
             ") by PID %d (%s) - target PID %d verified in tasklist and VFS")
            [AStr syscall; AStr path; ANum (pid caller); AStr (comm caller); ANum target]
            (STAT_FLAG_TASK_EXISTS api)
        else Ret (tt, e, w)
    | false, _ => Ret (tt, e, w)
    end.
Proof.
  intros Hl Hlen Hv Hr path target caller report.
  assert (extract_proc_pid path = target) as Hp.
  { unfold path. rewrite (extract_digits l rest Hl Hlen Hr). by rewrite decide_True by lia. }
  unfold analyze_stat_path, mbind at 1, M_bind at 1, get_current. cbv zeta. rewrite Hp.
  rewrite (proj2 (Z.ltb_lt 0 target)) by (unfold target; lia).
  unfold photon_pid_has_task, path_exists_in_vfs, log_stat, stat_payload, report, u32.
  rewrite (wrap_small 32 target) by (unfold target; lia).
  destruct (pid_task v target), (kern_path v path); [by destruct stat_rl|done|done|done].
Qed.

(** Any other path is reported, with its true link count, exactly when it is a directory the file system finds with a positive link count and the rate limit allows it. *)
Theorem directory_links_policy v api stat_rl nlink_rl path syscall e w :
  (extract_proc_pid path <= 0)%Z ->
  analyze_stat_path v api stat_rl nlink_rl path syscall e w =
    print_and_log api
      match kern_path v path with
      | Some (Some (nlink, true)) =>
          if decide (0 < nlink)%Z then
            if nlink_rl then Some (nlink_line syscall path (current e) nlink,
              PHOTON_EVENT_STAT_NLINK_AUDIT api,
              stat_payload api syscall path (current e) 0 nlink (STAT_FLAG_IS_DIR api)) else None
          else None
      | _ => None
      end e w.
Proof.
  intros Hp. unfold analyze_stat_path, mbind at 1, M_bind at 1, get_current. cbv zeta.
  rewrite (proj2 (Z.ltb_ge _ _) Hp). unfold get_real_nlink.
  destruct (kern_path v path) as [[[nlink []]|]|]; cbn; try done.
  destruct (Z.ltb_spec 0 nlink); cbn; case_decide; try lia; [by destruct nlink_rl|done].
Qed.

(** getpriority is reported exactly when it asks about a process, by a positive pid that has a task, and the rate limit allows it. *)
Theorem getpriority_policy k v api getprio_rl fregs regs e w :
  get_arg k fregs 0 <> 0%Z -> pt_regs_at v (get_arg k fregs 0) = Some regs ->
  let which := s32 (kprobe_get_arg k regs 0) in
  let who := s32 (kprobe_get_arg k regs 1) in
  hook_getpriority_cb k v api getprio_rl fregs e w =
    print_and_log api
      (if decide (which = PRIO_PROCESS /\ 0 < who /\ pid_task v who = true /\ getprio_rl = true)%Z
       then Some (getpriority_line (current e) who, PHOTON_EVENT_STAT_PID_AUDIT api,
         stat_payload api "getpriority" "" (current e) who 0 (STAT_FLAG_TASK_EXISTS api))
       else None) e w.
Proof.
  intros Hp Hr which who. unfold hook_getpriority_cb, mbind at 1, M_bind at 1, deref.
  rewrite (proj2 (Z.eqb_neq _ _) Hp), Hr. cbn [mret M_ret]. fold which who. clearbody which who.
  unfold photon_pid_has_task.
  destruct (Z.eqb_spec which PRIO_PROCESS), (Z.leb_spec who 0), (pid_task v who) eqn:Ht, getprio_rl;
    cbn [negb orb andb]; case_decide; try done; exfalso; naive_solver lia.
Qed.

(** ** The hook counter *)
Lemma setup_fails names e w :
  Forall (fun r => r <> 0%Z) (take (length names) (env_rets e)) ->
  (length names <= length (env_rets e))%nat ->
  setup_ftrace_filter false names e w =
    Ret ((- ENOENT)%Z, set_rets (drop (length names) (env_rets e)) e, w).
Proof.
  revert e. induction names as [|n names IH]; intros e Hf Hlen; [by destruct e|].
  destruct (env_rets e) as [|r rs] eqn:Er; [simpl in Hlen; lia|].
  cbn [length take] in Hf. apply Forall_cons_iff in Hf as [Hr Hf].
  cbn [setup_ftrace_filter]. unfold mbind, M_bind, kcall. rewrite Er.
  rewrite (proj2 (Z.eqb_neq r 0)) by done. rewrite IH.
  - done.
  - done.
  - simpl in *. lia.
Qed.

Lemma setup_filter_ok has names e w :
  has = true \/ names <> [] ->
  no_fail e -> wp (setup_ftrace_filter has names) (fun r e' w' => r = 0%Z /\ w' = w /\ env_rel 0 e e') e w.
Proof.
  revert has e. induction names as [|n names IH]; intros has e Hn Hf; cbn [setup_ftrace_filter].
  - destruct Hn as [->|?]; [|done]. wp_steps. split_and!; [done|done|apply env_rel_refl].
  - do 2 wp_step. cbn beta. rewrite H0 by done. cbn [Z.eqb].
    eapply wp_mono; [apply IH; [by left|env_solve]|]. intros r1 e1 w1 (-> & -> & He1).
    split_and!; [done|done|env_solve].
Qed.


(** With no failing call a group is installed and counted. *)
Lemma install_group_ok ops names e n w (Q : Z -> env -> Z * world -> Prop) :
  names <> [] -> no_fail e ->
  (forall e', env_rel 0 e e' -> Q 0%Z e' ((n + 1)%Z, set_probes ({[ops]} ∪ w_probes w) w)) ->
  wp (install_group ops names) Q e (n, w).
Proof.
  intros Hn Hf HQ. unfold install_group, set_count. do 2 wp_step.
  eapply wp_mono; [apply setup_filter_ok; [by right|done]|].
  intros r e1 w1 (-> & -> & He1). cbn [Z.eqb].
  wp_steps; [apply HQ; env_solve|exfalso; env_solve].
Qed.

Lemma groups_nonempty a :
  a <> OTHER_ARCH ->
  stat_di_names a <> [] /\ stat_si_names a <> [] /\ getpriority_names a <> [] /\
  getdents_names a <> [] /\ getdents64_names a <> [].
Proof. by destruct a. Qed.

(** When every call succeeds, the stat detector installs its three hooks and its exit removes all of them. *)
Theorem hiding_stat_cycle a e n w :
  a <> OTHER_ARCH -> no_fail e ->
  let ops := {["stat_di_ops"; "stat_si_ops"; "getpriority_ops"]} in
  w_probes w ## ops ->
  wp (hiding_stat_init a) (fun r _ s =>
    r = 0%Z /\ s.1 = 3%Z /\ ops ⊆ w_probes s.2 /\
    forall e', wp hiding_stat_exit (fun _ _ s' => w_probes s'.2 = w_probes w) e' s) e (n, w).
Proof.
  intros Ha Hf ops Hw. destruct (groups_nonempty a Ha) as (H1 & H2 & H3 & _).
  unfold hiding_stat_init, set_count. do 3 wp_step. cbn [fst snd].
  wp_step. apply install_group_ok; [done|done|]. intros e1 He1. cbn [Z.eqb negb].
  assert (no_fail e1) by env_solve.
  wp_step. apply install_group_ok; [done|done|]. intros e2 He2. cbn [Z.eqb negb].
  assert (no_fail e2) by env_solve.
  wp_step. apply install_group_ok; [done|done|]. intros e3 He3. cbn [Z.eqb negb].
  wp_steps. unfold ops in *. split_and!; [done|done|cbn; set_solver|].
  intros e'. unfold hiding_stat_exit, unregister_if, set_count.
  wp_steps; cbn [fst snd set_probes w_probes]; set_solver.
Qed.

(** The exit of the stat detector trusts a counter that does not say which hooks are in: where none of the four stat system calls can be filtered and all other calls succeed, init reports success with two hooks counted, and exit leaves the getpriority hook registered with the module's code. *)
Theorem hiding_stat_exit_leaves_hook r1 r2 r3 r4 rs e n w :
  Forall (fun r => r <> 0%Z) [r1; r2; r3; r4] -> env_rets e = r1 :: r2 :: r3 :: r4 :: rs ->
  Forall (fun r => r = 0%Z) rs ->
  wp (hiding_stat_init X86_64) (fun r _ s =>
    r = 0%Z /\
    forall e', wp hiding_stat_exit (fun _ _ s' => "getpriority_ops" ∈ w_probes s'.2) e' s) e (n, w).
Proof.
  intros Hr He Hrs. unfold hiding_stat_init, set_count. do 3 wp_step. cbn [fst snd].
  wp_step. unfold install_group at 1, set_count. do 2 wp_step.
  assert (Hf : no_fail (set_rets rs e)) by exact Hrs.
  eapply wp_eq.
  { apply setup_fails; rewrite He; [exact Hr|simpl; lia]. }
  rewrite He. cbn [drop length stat_di_names Z.eqb ENOENT Z.opp].
  do 2 wp_step. cbn [Z.eqb negb fst snd].
  wp_step. apply install_group_ok; [done|done|]. intros e1 He1. cbn [Z.eqb negb].
  assert (no_fail e1) by env_solve.
  wp_step. apply install_group_ok; [done|done|]. intros e2 He2. cbn [Z.eqb negb].
  wp_steps. split; [done|].
  intros e'. unfold hiding_stat_exit, unregister_if, set_count.
  wp_steps; cbn [fst snd set_probes w_probes] in *; try done; set_solver.
Qed.
