(* ===== verification/SimpleDetectors.v ===== *)
(** * The remaining detectors
    [modules/trace_pid_detector.c], [hiding_readlink_detector.c],
    [hiding_chdir_detector.c], [hooks_write_detector.c],
    [clear_taint_dmesg_detector.c] and [lkrg_bypass_detector.c]: one probe
    each (two for the last), a handler that only prints.  None of them is in
    the registry of [main.c].  What the handlers read through kernel pointers is
    a [probe_view]. *)
From Stdlib Require Import ZArith Lia.
From Stdlib Require Import Strings.Byte Strings.Ascii Strings.String.
From stdpp Require Import base numbers list strings option gmap sets.
From S2P Require Import Prelude CString Kernel Events Crypto Cdev EventManager Arch Watchlists.
From S2P Require Import Hooks.
Open Scope string_scope.

(** The name behind a [struct tracepoint], a [struct dentry], and the dentry of
    a [struct file] ([Some None]: the name, or the dentry, is NULL). *)
Record probe_view := mk_probe_view {
  tp_name_at : Z -> option (option string);
  dentry_name_at : Z -> option (option string);
  file_dentry_at : Z -> option Z;
  user_at : Z -> option string;
}.

Section handlers.
Context (k : kernel) (v : probe_view).

Definition print (l : line) : M world unit := printk (level l) (text l) (line_args l).

(** ** trace_pid_detector.c *)
Definition tracepoint_alert (name : string) (t : task) (probe_fn : Z) : line :=
  mk_line KERN_ALERT
    "[PHOTON RING] SUSPICIOUS *** tracepoint probe registered on '%s' by process '%s' (PID %d), probe function at %pS. Possible PID-hiding rootkit (trace_pid)!"
    [AStr name; AStr (comm t); ANum (pid t); ANum probe_fn].
Definition tracepoint_info (name : string) (t : task) : line :=
  mk_line KERN_INFO "[PHOTON RING] Tracepoint probe registered on '%s' by process '%s' (PID %d)"
    [AStr name; AStr (comm t); ANum (pid t)].

Definition hook_tracepoint_probe_register (fregs : ftrace_regs) : M world unit :=
  let tp := get_arg k fregs 0 in
  let probe_fn := get_arg k fregs 1 in
  if Z.eqb tp 0 then mret tt else
  name ← deref (tp_name_at v tp);
  match name with
  | None => mret tt
  | Some name =>
      t ← get_current;
      if strncmp_eq name "sched_process_fork" 18 || strncmp_eq name "sched_process_exec" 18 ||
         strncmp_eq name "sched_process_exit" 18
      then print (tracepoint_alert name t probe_fn)
      else print (tracepoint_info name t)
  end.

(** ** hiding_readlink_detector.c *)
Definition readlink_alert (name : string) (t : task) (parent_ip : Z) : line :=
  mk_line KERN_ALERT
    "[PHOTON RING] SUSPICIOUS *** readlink on sensitive path '%s' by process '%s' (PID %d), caller: %pS. Monitoring for readlink-hiding rootkit activity!"
    [AStr name; AStr (comm t); ANum (pid t); ANum parent_ip].

Definition hook_vfs_readlink (parent_ip : Z) (fregs : ftrace_regs) : M world unit :=
  let dentry := get_arg k fregs 0 in
  if Z.eqb dentry 0 then mret tt else
  name ← deref (dentry_name_at v dentry);
  match name with
  | None => mret tt
  | Some name =>
      if strncmp_eq name "exe" 3 || strstr_found name ".ko" then
        t ← get_current;
        print (readlink_alert name t parent_ip)
      else mret tt
  end.

(** ** hooks_write_detector.c *)
Definition control_files : list string :=
  ["ftrace_enabled"; "tracing_on"; "current_tracer"; "set_ftrace_filter"; "trace_pipe"].
Definition write_alert (name : string) (t : task) : line :=
  mk_line KERN_ALERT
    "[PHOTON RING] SUSPICIOUS *** write to ftrace control file '%s' by process '%s' (PID %d). Possible write-hook rootkit tampering!"
    [AStr name; AStr (comm t); ANum (pid t)].

Definition write_handler_pre (regs : pt_regs) : M world unit :=
  let file := kprobe_get_arg k regs 0 in
  if Z.eqb file 0 then mret tt else
  dentry ← deref (file_dentry_at v file);
  if Z.eqb dentry 0 then mret tt else
  name ← deref (dentry_name_at v dentry);
  match name with
  | None => mret tt
  | Some name =>
      if strcmp_any name control_files then
        t ← get_current;
        print (write_alert name t)
      else mret tt
  end.

(** ** hiding_chdir_detector.c *)
Definition chdir_alert (path : string) (t : task) : line :=
  mk_line KERN_ALERT
    "[PHOTON RING] SUSPICIOUS *** chdir to sensitive path '%s' by process '%s' (PID %d). Monitoring for chdir-hiding rootkit activity!"
    [AStr path; AStr (comm t); ANum (pid t)].

(** [strncpy_from_user] into 255 of the 256 bytes of the buffer. *)
Definition chdir_handler_pre (regs : pt_regs) : M world unit :=
  let filename := kprobe_get_arg k regs 0 in
  if Z.eqb filename 0 then mret tt else
  match user_at v filename with
  | None | Some EmptyString => mret tt
  | Some s =>
      let buf := string_take 255 s in
      if strstr_found buf "/proc/" || strstr_found buf "/.hidden" || strstr_found buf "/dev/shm/" then
        t ← get_current;
        print (chdir_alert buf t)
      else mret tt
  end.

(** ** clear_taint_dmesg_detector.c *)
Definition dmesg_alert (t : task) : line :=
  mk_line KERN_ALERT
    "[PHOTON RING] SUSPICIOUS *** kernel ring buffer CLEAR (syslog type 5) by process '%s' (PID %d). Possible dmesg-clearing rootkit activity!"
    [AStr (comm t); ANum (pid t)].
Definition dmesg_info (ty : Z) (t : task) : line :=
  mk_line KERN_INFO "[PHOTON RING] do_syslog read (type %d) by process '%s' (PID %d)"
    [ANum ty; AStr (comm t); ANum (pid t)].

Definition dmesg_handler_pre (regs : pt_regs) : M world unit :=
  let ty := s32 (kprobe_get_arg k regs 0) in
  t ← get_current;
  if Z.eqb ty 5 then print (dmesg_alert t) else
  if Z.eqb ty 2 || Z.eqb ty 3 then print (dmesg_info ty t) else mret tt.

(** ** lkrg_bypass_detector.c *)
Record lkrg := mk_lkrg { vprintk_hook_active : bool; umh_hook_active : bool }.

Definition lkrg_alert (parent_ip : Z) (t : task) : line :=
  mk_line KERN_ALERT
    "[PHOTON RING] LKRG message detected in vprintk_emit from caller %pS, process '%s' (PID %d). Monitoring for LKRG bypass log filtering!"
    [ANum parent_ip; AStr (comm t); ANum (pid t)].

Definition hook_vprintk_emit (parent_ip : Z) (fregs : ftrace_regs) : M world unit :=
  let fmt := get_arg k fregs 3 in
  if Z.eqb fmt 0 then mret tt else
  s ← deref (string_at k fmt);
  if strstr_found s "lkrg" || strstr_found s "p_lkrg" || strstr_found s "LKRG" then
    t ← get_current;
    print (lkrg_alert parent_ip t)
  else mret tt.

Definition hook_umh_exec (parent_ip : Z) : M world unit :=
  t ← get_current;
  printk KERN_INFO
    "[PHOTON RING] call_usermodehelper_exec invoked by caller %pS, process '%s' (PID %d)"
    [ANum parent_ip; AStr (comm t); ANum (pid t)].

(** ** Set-up and tear-down *)
(** The two detectors with one ftrace hook; the static is [target_addr]. *)
Definition hook_init (ops symbol : string) : M (Z * world) Z :=
  in_statics (put (symbol_addr k symbol)) ;;
  in_world (ftrace_install ops (symbol_addr k symbol)).
Definition hook_exit (ops : string) : M (Z * world) unit :=
  target_addr ← in_statics get;
  in_world (unregister_probe ops) ;;
  in_world (ftrace_set_filter_ip ops target_addr true) ;;
  mret tt.
Definition trace_pid_detector_init := hook_init "trace_pid.ops" "tracepoint_probe_register".
Definition trace_pid_detector_exit := hook_exit "trace_pid.ops".
Definition hiding_readlink_detector_init := hook_init "hiding_readlink.ops" "vfs_readlink".
Definition hiding_readlink_detector_exit := hook_exit "hiding_readlink.ops".

(** The three with one kprobe. *)
Definition probe_init (kp symbol : string) : M (unit * world) Z :=
  '(ret, _) ← in_world (register_kprobe (symbol_addr k) kp symbol);
  if negb (Z.eqb ret 0) then mret ret else mret 0%Z.
Definition probe_exit (kp : string) : M (unit * world) unit := in_world (unregister_probe kp).
Definition chdir_symbol (a : arch) : string :=
  match a with
  | ARM64 => "__arm64_sys_chdir" | X86_64 => "__x64_sys_chdir" | OTHER_ARCH => "sys_chdir"
  end.
Definition hiding_chdir_detector_init := probe_init "hiding_chdir.kp" (chdir_symbol (k_arch k)).
Definition hiding_chdir_detector_exit := probe_exit "hiding_chdir.kp".
Definition hooks_write_detector_init := probe_init "hooks_write.kp" "vfs_write".
Definition hooks_write_detector_exit := probe_exit "hooks_write.kp".
Definition clear_taint_dmesg_detector_init := probe_init "clear_taint.kp" "do_syslog".
Definition clear_taint_dmesg_detector_exit := probe_exit "clear_taint.kp".

Definition set_vprintk b d := mk_lkrg b (umh_hook_active d).
Definition set_umh b d := mk_lkrg (vprintk_hook_active d) b.

(** Each of the two hooks that can be installed is; the flags are never cleared. *)
Definition lkrg_bypass_detector_init : M (lkrg * world) Z :=
  ret ← in_world (ftrace_install "vprintk_ops" (symbol_addr k "vprintk_emit"));
  (if Z.eqb ret 0 then in_statics (modify (set_vprintk true)) else mret tt) ;;
  ret ← in_world (ftrace_install "umh_ops" (symbol_addr k "call_usermodehelper_exec"));
  (if Z.eqb ret 0 then in_statics (modify (set_umh true)) else mret tt) ;;
  d ← in_statics get;
  if negb (vprintk_hook_active d) && negb (umh_hook_active d) then mret (- ENODEV)%Z else mret 0%Z.

Definition lkrg_bypass_detector_exit : M (lkrg * world) unit :=
  d ← in_statics get;
  (if vprintk_hook_active d then
     in_world (unregister_probe "vprintk_ops") ;;
     in_world (ftrace_set_filter_ip "vprintk_ops" (symbol_addr k "vprintk_emit") true) ;;
     mret tt
   else mret tt) ;;
  if umh_hook_active d then
    in_world (unregister_probe "umh_ops") ;;
    in_world (ftrace_set_filter_ip "umh_ops" (symbol_addr k "call_usermodehelper_exec") true) ;;
    mret tt
  else mret tt.
End handlers.

(** ** The laws *)
Section laws.
Context (k : kernel).

Lemma hook_laws ops symbol :
  DetectorLaws (hook_init k ops symbol) (hook_exit ops) {[ops]} (fun _ _ => True).
Proof.
  split; intros e d w H.
  - intros _. unfold hook_init. wp_steps; unfold only_probes;
      cbn [fst snd set_probes set_filters w_probes w_manager]; split_and!; try done; try env_solve; set_solver.
  - unfold hook_exit. wp_steps; cbn [fst snd set_probes set_filters w_probes w_manager];
      split_and!; try done; env_solve.
Qed.

Lemma probe_laws kp symbol :
  DetectorLaws (probe_init k kp symbol) (probe_exit kp) {[kp]} (fun _ _ => True).
Proof.
  split; intros e d w H.
  - intros _. unfold probe_init. wp_steps; unfold only_probes;
      cbn [fst snd set_probes set_filters w_probes w_manager]; split_and!; try done; try env_solve; set_solver.
  - unfold probe_exit. wp_steps; cbn [fst snd set_probes set_filters w_probes w_manager];
      split_and!; try done; try apply env_rel_refl.
Qed.

#[export] Instance trace_pid_laws :
  DetectorLaws (trace_pid_detector_init k) trace_pid_detector_exit {["trace_pid.ops"]} (fun _ _ => True).
Proof. exact (hook_laws "trace_pid.ops" "tracepoint_probe_register"). Qed.
#[export] Instance hiding_readlink_laws :
  DetectorLaws (hiding_readlink_detector_init k) hiding_readlink_detector_exit
    {["hiding_readlink.ops"]} (fun _ _ => True).
Proof. exact (hook_laws "hiding_readlink.ops" "vfs_readlink"). Qed.
#[export] Instance hiding_chdir_laws :
  DetectorLaws (hiding_chdir_detector_init k) hiding_chdir_detector_exit {["hiding_chdir.kp"]} (fun _ _ => True).
Proof. exact (probe_laws "hiding_chdir.kp" (chdir_symbol (k_arch k))). Qed.
#[export] Instance hooks_write_laws :
  DetectorLaws (hooks_write_detector_init k) hooks_write_detector_exit {["hooks_write.kp"]} (fun _ _ => True).
Proof. exact (probe_laws "hooks_write.kp" "vfs_write"). Qed.
#[export] Instance clear_taint_laws :
  DetectorLaws (clear_taint_dmesg_detector_init k) clear_taint_dmesg_detector_exit
    {["clear_taint.kp"]} (fun _ _ => True).
Proof. exact (probe_laws "clear_taint.kp" "do_syslog"). Qed.

Lemma del_added {A} `{Countable A} (x : A) (X : gset A) : x ∉ X -> ({[x]} ∪ X) ∖ {[x]} = X.
Proof. set_solver. Qed.

(** Where no call fails, installing and removing a hook of one's own. *)
Lemma install_ok ops addr (Q : Z -> env -> world -> Prop) e w :
  no_fail e ->
  (forall e', no_fail e' -> Q 0%Z e'
     (set_probes ({[ops]} ∪ w_probes w) (set_filters ({[(ops, addr)]} ∪ w_filters w) w))) ->
  wp (ftrace_install ops addr) Q e w.
Proof.
  intros Hf HQ. unfold ftrace_install. wp_steps; try (exfalso; env_solve). apply HQ. env_solve.
Qed.
Lemma filter_ip_ok ops addr (remove : bool) (Q : Z -> env -> world -> Prop) e w :
  no_fail e ->
  (forall e', no_fail e' -> Q 0%Z e' (set_filters
     (if remove then w_filters w ∖ {[(ops, addr)]} else {[(ops, addr)]} ∪ w_filters w) w)) ->
  wp (ftrace_set_filter_ip ops addr remove) Q e w.
Proof. intros Hf HQ. wp_step; [|exfalso; env_solve]. apply HQ. env_solve. Qed.

Ltac unfailing :=
  repeat (lazymatch goal with
          | |- wp (ftrace_install _ _) _ _ _ => apply install_ok; [assumption|intros ? ?]
          | |- wp (ftrace_set_filter_ip _ _ _) _ _ _ => apply filter_ip_ok; [assumption|intros ? ?]
          | |- _ => wp_step
          end; cbn beta iota).

Lemma hook_cycle ops symbol e d w :
  no_fail e -> ops ∉ w_probes w -> (forall a, (ops, a) ∉ w_filters w) ->
  wp (hook_init k ops symbol ;; hook_exit ops)
    (fun _ _ s => w_probes s.2 = w_probes w /\ w_filters s.2 = w_filters w) e (d, w).
Proof.
  intros Hf Hp Hfl. unfold hook_init, hook_exit. unfailing.
  cbn [fst snd set_probes set_filters w_probes w_filters]. by rewrite !del_added.
Qed.

(** Both hooks of the LKRG detector in, and out again. *)
Lemma lkrg_cycle e d w (Q : unit -> env -> lkrg * world -> Prop) :
  no_fail e -> "vprintk_ops" ∉ w_probes w -> "umh_ops" ∉ w_probes w ->
  (forall a, ("vprintk_ops", a) ∉ w_filters w) -> (forall a, ("umh_ops", a) ∉ w_filters w) ->
  (forall e', Q tt e' (mk_lkrg true true, w)) ->
  wp (lkrg_bypass_detector_init k ;; lkrg_bypass_detector_exit k) Q e (d, w).
Proof.
  intros Hf Hp1 Hp2 Hf1 Hf2 HQ. unfold lkrg_bypass_detector_init, lkrg_bypass_detector_exit.
  unfailing. pose proof (Hf1 (symbol_addr k "vprintk_emit")) as Hv.
  pose proof (Hf2 (symbol_addr k "call_usermodehelper_exec")) as Hu. clear Hf1 Hf2.
  match goal with |- Q _ _ ?s => replace s with (mk_lkrg true true, w); [apply HQ|] end.
  destruct w as [m p f c]. cbn in *. f_equal. unfold set_filters, set_probes. cbn.
  f_equal; set_solver.
Qed.

(** The detectors that take back the filter entry of their own function leave the filter as they found it: with every kernel call succeeding, loading and unloading the tracepoint, the readlink or the LKRG detector changes neither the probes nor the filter entries. *)
Theorem own_filter_entries_removed e d1 d2 d3 w :
  no_fail e ->
  (forall ops, ops ∈ ["trace_pid.ops"; "hiding_readlink.ops"; "vprintk_ops"; "umh_ops"] ->
     ops ∉ w_probes w /\ forall a, (ops, a) ∉ w_filters w) ->
  let restored (w' : world) := w_probes w' = w_probes w /\ w_filters w' = w_filters w in
  wp (trace_pid_detector_init k ;; trace_pid_detector_exit) (fun _ _ s => restored s.2) e (d1, w) /\
  wp (hiding_readlink_detector_init k ;; hiding_readlink_detector_exit) (fun _ _ s => restored s.2) e (d2, w) /\
  wp (lkrg_bypass_detector_init k ;; lkrg_bypass_detector_exit k) (fun _ _ s => restored s.2) e (d3, w).
Proof.
  intros Hf Hfree restored.
  destruct (Hfree "trace_pid.ops") as [Hp1 Hf1]; [set_solver|].
  destruct (Hfree "hiding_readlink.ops") as [Hp2 Hf2]; [set_solver|].
  destruct (Hfree "vprintk_ops") as [Hp3 Hf3]; [set_solver|].
  destruct (Hfree "umh_ops") as [Hp4 Hf4]; [set_solver|].
  split; [by apply hook_cycle|]. split; [by apply hook_cycle|].
  by apply lkrg_cycle.
Qed.

(** The LKRG detector never clears its flags: after it was loaded with both hooks and unloaded, a second load in which neither hook can be installed reports success, with no probe at all. *)
Theorem lkrg_reload_without_hooks r1 r2 e e2 d w :
  no_fail e -> r1 <> 0%Z -> r2 <> 0%Z -> env_rets e2 = [r1; r2] ->
  (forall ops, ops ∈ ["vprintk_ops"; "umh_ops"] ->
     ops ∉ w_probes w /\ forall a, (ops, a) ∉ w_filters w) ->
  wp (lkrg_bypass_detector_init k ;; lkrg_bypass_detector_exit k) (fun _ _ s =>
    exists e3 s3, lkrg_bypass_detector_init k e2 s = Ret (0%Z, e3, s3) /\ w_probes s3.2 = w_probes w)
    e (d, w).
Proof.
  intros Hf Hr1 Hr2 He2 Hfree.
  destruct (Hfree "vprintk_ops") as [Hp3 Hf3]; [set_solver|].
  destruct (Hfree "umh_ops") as [Hp4 Hf4]; [set_solver|].
  apply lkrg_cycle; try done. intros e'.
  unfold lkrg_bypass_detector_init, ftrace_install, ftrace_set_filter_ip, mbind, M_bind, in_world,
    in_statics, zoom, kcall, get, mret, M_ret. rewrite He2. cbn [snd fst set_rets env_rets].
  rewrite !(proj2 (Z.eqb_neq r1 0)) by done. cbn [negb snd fst].
  rewrite !(proj2 (Z.eqb_neq r1 0)) by done. cbn [negb snd fst env_rets set_rets].
  rewrite !(proj2 (Z.eqb_neq r2 0)) by done. cbn [negb snd fst].
  rewrite !(proj2 (Z.eqb_neq r2 0)) by done.
  eexists _, _. split; [reflexivity|]. done.
Qed.
(** ** What the handlers print *)
(** The computation prints [l] if [P] holds and nothing otherwise, and that is
    all it does. *)
Definition prints_iff (m : M world unit) (P : Prop) (l : line) (e : env) (w : world) : Prop :=
  exists ls, m e w = Ret (tt, e, set_console (w_console w ++ ls) w) /\ ((P /\ ls = [l]) \/ (~ P /\ ls = [])).
Definition starts_with (p s : string) : Prop := exists rest, s = (p +:+ rest)%string.
Definition contains (p s : string) : Prop := exists pre post, s = (pre +:+ (p +:+ post))%string.

Lemma starts_with_spec p s n :
  n = String.length p -> (strncmp_eq s p n = true <-> starts_with p s).
Proof. intros ->. rewrite strncmp_eq_prefix. apply prefix_spec. Qed.

Lemma set_console_same w : set_console (w_console w ++ []) w = w.
Proof. destruct w. unfold set_console. cbn. by rewrite app_nil_r. Qed.

Lemma prints_when (b : bool) (P : Prop) (l : task -> line) e w :
  (b = true <-> P) ->
  prints_iff (if b then t ← get_current; print (l t) else mret tt) P (l (current e)) e w.
Proof.
  intros HP. unfold prints_iff. destruct b.
  - exists [l (current e)]. split; [|left; split; [by apply HP|done]].
    unfold print, printk, modify, get_current, mbind, M_bind. by destruct (l (current e)).
  - exists []. split; [by rewrite set_console_same|right; split; [|done]]. intros [=]%HP.
Qed.

(** The detectors that only print do so exactly on what they watch for: every probe on a tracepoint, as an alert when its name starts with that of a process life-cycle event and as information otherwise; a readlink of a name that starts with exe or contains .ko; a write to one of the five ftrace control files; a chdir whose first 255 bytes contain a watched directory; the clearing of the kernel log. *)
Theorem print_only_policy v args ip tp probe_fn name dentry dname file path s e w :
  k_arch k <> OTHER_ARCH -> kernel_argument_ok k ->
  args !! 0%nat = Some tp -> args !! 1%nat = Some probe_fn -> tp <> 0%Z -> tp_name_at v tp = Some (Some name) ->
  dentry <> 0%Z -> dentry_name_at v dentry = Some (Some dname) ->
  file <> 0%Z -> file_dentry_at v file = Some dentry ->
  path <> 0%Z -> user_at v path = Some s -> s <> "" ->
  let t := current e in
  let at_entry l := entry_regs (k_arch k) l in
  let life_cycle := exists ev, ev ∈ ["sched_process_fork"; "sched_process_exec"; "sched_process_exit"] /\
                      starts_with ev name in
  (exists l, hook_tracepoint_probe_register k v (called k args) e w =
       Ret (tt, e, set_console (w_console w ++ [l]) w) /\
     (life_cycle /\ l = tracepoint_alert name t probe_fn \/ ~ life_cycle /\ l = tracepoint_info name t)) /\
  prints_iff (hook_vfs_readlink k v ip (called k [dentry])) (starts_with "exe" dname \/ contains ".ko" dname)
    (readlink_alert dname t ip) e w /\
  prints_iff (write_handler_pre k v (at_entry [file])) (dname ∈ control_files) (write_alert dname t) e w /\
  prints_iff (chdir_handler_pre k v (at_entry [path]))
    (exists d, d ∈ ["/proc/"; "/.hidden"; "/dev/shm/"] /\ contains d (string_take 255 s))
    (chdir_alert (string_take 255 s) t) e w /\
  prints_iff (dmesg_handler_pre k (at_entry [5%Z])) True (dmesg_alert t) e w.
Proof.
  intros Ha Hk Htp Hfn Htp0 Htn Hd0 Hdn Hf0 Hfd Hp0 Hus Hs t at_entry life.
  assert (Harg : forall l n, (n < 2)%nat -> get_arg k (called k l) n = default 0%Z (l !! n)).
  { intros l n Hn. apply get_arg_called. destruct (k_arch k); simpl; [lia..|done]. }
  assert (Hreg : forall x l, kprobe_get_arg k (at_entry (x :: l)) 0 = x).
  { intros x l. unfold at_entry. rewrite kprobe_get_arg_entry by (done || lia). done. }
  split_and!.
  - unfold hook_tracepoint_probe_register. rewrite !Harg, Htp, Hfn by lia. cbn.
    rewrite (proj2 (Z.eqb_neq tp 0)), Htn by done. unfold mbind, M_bind, deref, mret, M_ret, get_current.
    set (b := _ || _ || _).
    assert (Hb : b = true <-> life).
    { unfold b, life. rewrite !orb_true_iff.
      rewrite (starts_with_spec "sched_process_fork" name 18), (starts_with_spec "sched_process_exec" name 18),
        (starts_with_spec "sched_process_exit" name 18) by done. set_solver. }
    destruct b; eexists; (split; [reflexivity|]); [left|right]; (split; [|done]); [by apply Hb|].
    by intros ?%Hb.
  - unfold hook_vfs_readlink. rewrite Harg by lia. cbn [lookup default].
    cbn. rewrite (proj2 (Z.eqb_neq dentry 0)), Hdn by done.
    apply (prints_when _ _ (fun t => readlink_alert dname t ip)).
    rewrite orb_true_iff, (starts_with_spec "exe" dname 3), strstr_found_spec by done. reflexivity.
  - unfold write_handler_pre. rewrite Hreg. cbn.
    rewrite (proj2 (Z.eqb_neq file 0)), Hfd by done.
    unfold deref, mbind at 1, M_bind at 1, mret, M_ret. cbv beta iota.
    rewrite (proj2 (Z.eqb_neq dentry 0)), Hdn by done.
    exact (prints_when (strcmp_any dname control_files) _ (write_alert dname) e w (strcmp_any_spec _ _)).
  - unfold chdir_handler_pre. rewrite Hreg. cbv zeta. rewrite (proj2 (Z.eqb_neq path 0)), Hus by done.
    destruct s as [|c s]; [done|].
    apply (prints_when _ _ (fun t => chdir_alert (string_take 255 (String c s)) t)).
    rewrite !orb_true_iff, !strstr_found_spec. split.
    + intros [[H|H]|H]; eexists; (split; [|exact H]); set_solver.
    + intros (d & Hd & H). repeat (apply elem_of_cons in Hd as [->|Hd]; [tauto|]). by apply elem_of_nil in Hd.
  - unfold dmesg_handler_pre. rewrite Hreg. by apply (prints_when true _ dmesg_alert).
Qed.
End laws.
