(* ===== verification/Scenarios.v ===== *)
(** * Scenarios
    The detector theorems applied to concrete runs: one kernel with a few
    symbols, strings and structures in its memory, a rootkit loaded into it,
    and the module's reporting path after a key exchange ([Reporting.keyed]). *)
From Stdlib Require Import ZArith Lia.
From Stdlib Require Import Strings.Byte Strings.Ascii Strings.String.
From stdpp Require Import base numbers list strings option gmap sets.
From S2P Require Import Prelude CString Kernel Events Ring Crypto Cdev EventManager Reporting.
From S2P Require Import Arch Watchlists Hooks ProbeDetectors FtraceDirect BecomeRoot.
From S2P Require Import ResetTainted AuditHooks FilterIp Main TaskstatsHooks FileAccess Hiding.
From S2P Require Import SimpleDetectors.
Open Scope string_scope.

(** Addresses of the scenario: 100 and up are structures and strings, 9000 a
    function of the rootkit, which the symbol table does not know. *)
Definition toy_kprobe : kprobe := mk_kprobe (Some "filldir64") 5000 9000.
Definition plain_kprobe : kprobe := mk_kprobe (Some "vfs_read") 5100 5200.
Definition toy_kretprobe : kretprobe := mk_kretprobe (mk_kprobe (Some "vfs_read") 5100 0) 9000 0 4096.
Definition long_symbol : string :=
  "a_symbol_name_that_is_longer_than_sixty_three_characters_altogether [rootkit]".
Definition evil_frame : frame := mk_frame "give_root" "0x1d/0x40 [rootkit]".
Definition disguised_frame : frame := mk_frame "__sys_setuid" "0x1d/0x40 [rootkit]".

Definition toy_symbol (a : Z) : string :=
  if Z.eqb a 9000 then "0x2328" else if Z.eqb a 9100 then long_symbol
  else if Z.eqb a 5000 then "filldir64" else if Z.eqb a 5300 then "bpf_check" else "vfs_read".
Definition toy_address (name : string) : Z :=
  if String.eqb name "tainted_mask" then 600 else if String.eqb name "udp4_seq_show" then 5400
  else if String.eqb name "tpacket_rcv" then 0 else 5000 + Z.of_nat (String.length name).
Definition toy_string (a : Z) : option string :=
  if Z.eqb a 300 then Some "sys_call_table" else if Z.eqb a 301 then Some "tcp*_seq_show" else None.
Definition toy_memory (a : Z) : option Z :=
  if Z.eqb a 400 then Some 100%Z else if Z.eqb a 408 then Some 101%Z
  else if Z.eqb a 600 then Some 4096%Z else None.
Definition kernel_with (frames : list frame) (mask : Z) : kernel :=
  mk_kernel X86_64 true x86_argument (Z.eqb 1) toy_symbol toy_address toy_string
    (fun a => if Z.eqb a 600 then Some mask else toy_memory a)
    (fun a => if Z.eqb a 100 then Some toy_kprobe else if Z.eqb a 101 then Some plain_kprobe else None)
    (fun a => if Z.eqb a 200 then Some toy_kretprobe else None)
    (fun a => if Z.eqb a 500 then Some 9000%Z else if Z.eqb a 502 then Some 5200%Z else None)
    (fun a => if Z.eqb a 700 then Some 1000%Z else if Z.eqb a 701 then Some 0%Z else None)
    700 (fun _ _ => [9000%Z]) (fun _ => render frames) 512.
Definition toy_kernel : kernel := kernel_with [evil_frame] 4096.
Definition toy_world : world := mk_world keyed ∅ ∅ [].

Lemma toy_arch frames mask : k_arch (kernel_with frames mask) <> OTHER_ARCH.
Proof. done. Qed.
Lemma toy_arguments frames mask : kernel_argument_ok (kernel_with frames mask).
Proof. intros args n Hn. by apply (pr_get_arg_entry X86_64). Qed.
Lemma toy_world_inv : manager_inv toy_hmac (w_manager toy_world).
Proof. exact keyed_spec. Qed.

(** The console after a run that ends in given alerts. *)
Lemma alerted_console {A} (m : M world A) e l w :
  wp m (fun _ e' w' => env_rel 0 e e' /\ alerts toy_hmac toy_encrypt e l w w') e w ->
  manager_inv toy_hmac (w_manager w) ->
  exists a e' w', m e w = Ret (a, e', w') /\ w_console w' = (w_console w ++ (a_line <$> l))%list.
Proof.
  intros Hwp Hi. apply wp_run in Hwp as (a & e' & w' & Hrun & _ & Ha).
  exists a, e', w'. split; [exact Hrun|]. by apply (alerts_frame _ _ _ _ _ _ Ha).
Qed.

(** ** Probes and lookups *)
Lemma kprobe_hook_policy_witness :
  exists a e' w',
    hook_kprobe_register toy_kernel toy_encrypt 9000 (called toy_kernel [100%Z]) toy_env toy_world
      = Ret (a, e', w') /\
    w_console w' = [mk_line KERN_ALERT
      "[PHOTON RING] kprobe registered on watchlisted symbol: %s (addr=0x%lx)"
      [AStr "filldir64"; ANum 5000]].
Proof.
  apply (alerted_console _ _ _ _
    (kprobe_hook_policy toy_kernel toy_hmac toy_encrypt toy_encrypt_length ltac:(done)
       100 [100%Z] toy_kprobe 9000 toy_env toy_world eq_refl ltac:(done) eq_refl toy_world_inv)
    toy_world_inv).
Defined.

Lemma kretprobe_hook_policy_witness :
  exists a e' w',
    hook_register_kretprobe toy_kernel toy_encrypt 9000 (called toy_kernel [200%Z]) toy_env toy_world
      = Ret (a, e', w') /\
    exists l, w_console w' = [l] /\ level l = KERN_ALERT /\ last (line_args l) = Some (ANum 6).
Proof.
  destruct (alerted_console _ _ _ _
    (kretprobe_hook_policy toy_kernel toy_hmac toy_encrypt toy_encrypt_length ltac:(done)
       200 [200%Z] toy_kretprobe 9000 toy_env toy_world eq_refl ltac:(done) eq_refl toy_world_inv)
    toy_world_inv) as (a & e' & w' & Hrun & Hc).
  exists a, e', w'. split; [exact Hrun|]. rewrite Hc. eexists. split; [reflexivity|].
  split; reflexivity.
Defined.

(** Two elements, the second of them harmless. *)
Lemma batch_hook_policy_witness :
  exists a e' w',
    hook_register_kprobes toy_kernel toy_encrypt 9000 (called toy_kernel [400%Z; 2%Z]) toy_env toy_world
      = Ret (a, e', w') /\ length (w_console w') = 1%nat.
Proof.
  destruct (alerted_console _ _ _ _
    (batch_hook_policy toy_kernel toy_hmac toy_encrypt toy_encrypt_length ltac:(done)
       400 2 [400%Z; 2%Z] 9000 toy_env toy_world eq_refl eq_refl ltac:(done) ltac:(lia)
       eq_refl eq_refl toy_world_inv
       ltac:(intros [|[|i]] _ Hi; [exists 100%Z; by split|exists 101%Z; by split|lia]))
    toy_world_inv) as (a & e' & w' & Hrun & Hc).
  exists a, e', w'. split; [exact Hrun|]. rewrite Hc. reflexivity.
Defined.

Lemma kallsyms_hook_policy_witness :
  exists a e' w',
    hook_kallsyms_lookup toy_kernel toy_encrypt 9000 (called toy_kernel [300%Z]) toy_env toy_world
      = Ret (a, e', w') /\
    exists l, w_console w' = [l] /\
      line_args l = [AStr "sys_call_table"; ANum 9000; AStr "insmod"; ANum 7].
Proof.
  destruct (alerted_console _ _ _ _
    (kallsyms_hook_policy toy_kernel toy_hmac toy_encrypt toy_encrypt_length ltac:(done)
       300 [300%Z] "sys_call_table" 9000 toy_env toy_world eq_refl ltac:(done) eq_refl eq_refl
       toy_world_inv) toy_world_inv) as (a & e' & w' & Hrun & Hc).
  exists a, e', w'. split; [exact Hrun|]. rewrite Hc. eexists. split; reflexivity.
Defined.

(** ** ftrace bypasses *)
(** A glob pattern: caught with a callback outside the symbol table, passed
    with one that has a name. *)
Lemma set_filter_policy_witness :
  exists a e' w' a2 e2 w2,
    handle_set_filter_common toy_kernel toy_encrypt (entry_regs X86_64 [500%Z; 301%Z]) 0 toy_env toy_world
      = Ret (a, e', w') /\ length (w_console w') = 1%nat /\
    handle_set_filter_common toy_kernel toy_encrypt (entry_regs X86_64 [502%Z; 301%Z]) 0 toy_env toy_world
      = Ret (a2, e2, w2) /\ w_console w2 = [].
Proof.
  assert (Hf1 : name_fits toy_kernel 9000) by (intros _; vm_compute; lia).
  assert (Hf2 : name_fits toy_kernel 5200) by (intros _; vm_compute; lia).
  assert (Hx : X86_64 <> OTHER_ARCH) by discriminate.
  assert (Hb : 301%Z <> 0%Z) by discriminate.
  pose proof (set_filter_policy toy_kernel toy_hmac toy_encrypt toy_encrypt_length Hx (toy_arguments _ _) 0
    [500%Z; 301%Z] 500 301 9000 "tcp*_seq_show" toy_env toy_world eq_refl eq_refl Hb eq_refl eq_refl Hf1
    toy_world_inv) as Hcaught.
  pose proof (set_filter_policy toy_kernel toy_hmac toy_encrypt toy_encrypt_length Hx (toy_arguments _ _) 0
    [502%Z; 301%Z] 502 301 5200 "tcp*_seq_show" toy_env toy_world eq_refl eq_refl Hb eq_refl eq_refl Hf2
    toy_world_inv) as Hpassed.
  apply wp_run in Hcaught as (a & e' & w' & Hrun & _ & Ha & _).
  apply wp_run in Hpassed as (a2 & e2 & w2 & Hrun2 & _ & _ & Hn).
  assert (Hglob : is_glob "tcp*_seq_show" = true) by (vm_compute; reflexivity).
  assert (Hunnamed : unnamed toy_kernel 5200 = false) by (vm_compute; reflexivity).
  destruct (alerts_frame _ _ _ _ _ _ Ha toy_world_inv) as (_ & _ & _ & Hc).
  destruct (alerts_frame _ _ _ _ _ _ (Hn Hglob Hunnamed) toy_world_inv) as (_ & _ & _ & Hc2).
  exists a, e', w', a2, e2, w2. split_and!; [exact Hrun|rewrite Hc; reflexivity|exact Hrun2|rewrite Hc2; reflexivity].
Defined.

Lemma modify_direct_policy_witness :
  exists a e' w',
    handler_modify_direct toy_kernel toy_encrypt (entry_regs X86_64 [5000%Z; 0%Z; 9000%Z]) toy_env toy_world
      = Ret (a, e', w') /\ length (w_console w') = 1%nat.
Proof.
  destruct (alerted_console _ _ _ _
    (modify_direct_policy toy_kernel toy_hmac toy_encrypt toy_encrypt_length ltac:(done)
       (toy_arguments _ _) [5000%Z; 0%Z; 9000%Z] 5000 9000 toy_env toy_world
       eq_refl eq_refl ltac:(intros _; vm_compute; lia) toy_world_inv) toy_world_inv)
    as (a & e' & w' & Hrun & Hc).
  exists a, e', w'. split; [exact Hrun|]. rewrite Hc. reflexivity.
Defined.

Lemma long_symbol_overflows_witness :
  handler_modify_direct toy_kernel toy_encrypt (entry_regs X86_64 [5000%Z; 0%Z; 9100%Z])
    toy_env toy_world = Fault.
Proof.
  apply (long_symbol_overflows toy_kernel toy_encrypt ltac:(done) (toy_arguments _ _)
    [5000%Z; 0%Z; 9100%Z] 5000 9100 toy_env toy_world eq_refl eq_refl ltac:(done)
    ltac:(by apply (bool_decide_unpack _)) ltac:(vm_compute; lia)).
Defined.

(** ** Privilege escalation *)
Lemma toy_frames_ok : Forall (frame_ok 512) [disguised_frame; evil_frame].
Proof. repeat constructor; first [done | vm_compute; lia]. Qed.

Lemma stack_parser_exact_witness :
  stack_has_legitimate_caller 512 (render [disguised_frame; evil_frame]) = true.
Proof.
  apply (stack_parser_exact 512 [disguised_frame; evil_frame] toy_frames_ok ltac:(vm_compute; lia)).
  exists disguised_frame. split; [by left|by apply (bool_decide_unpack _)].
Defined.

Lemma commit_creds_policy_witness :
  exists a e' w',
    hook_commit_creds toy_kernel toy_encrypt 9000 (called toy_kernel [701%Z]) toy_env toy_world
      = Ret (a, e', w') /\
    w_console w' = escalation_lines (mk_task 7 "insmod") 1000 9000.
Proof.
  assert (Hok : Forall (frame_ok 512) [evil_frame]).
  { pose proof toy_frames_ok as H. by apply Forall_cons_iff in H as [_ H]. }
  pose proof (commit_creds_policy toy_kernel toy_hmac toy_encrypt toy_encrypt_length ltac:(done)
    701 [701%Z] 1000 0 [evil_frame] 9000 toy_env toy_world eq_refl ltac:(done) ltac:(done)
    eq_refl eq_refl eq_refl Hok ltac:(vm_compute; lia) toy_world_inv) as Hwp.
  apply wp_run in Hwp as (a & e' & w' & Hrun & _ & Hr). exists a, e', w'. split; [exact Hrun|].
  rewrite bool_decide_true in Hr.
  2:{ split_and!; [done|done|]. constructor; [|constructor]. by apply (bool_decide_unpack _). }
  destruct Hr as (_ & Hw & _). apply (f_equal w_console) in Hw. exact Hw.
Defined.

(** ** Taint monitoring *)
(** The kernel as loaded had the bits 4096 and 512 set; now 512 is gone. *)
Definition tainted_statics : reset_tainted := mk_reset_tainted false 5020 true 600 4608.
Definition unloading_statics : reset_tainted := mk_reset_tainted true 5020 true 600 4608.

Lemma taint_check_exact_witness :
  exists d' w',
    taint_check_fn (kernel_with [] 4096) toy_env (tainted_statics, toy_world) = Ret (tt, toy_env, (d', w')) /\
    d' = put_baseline 4096 tainted_statics /\ w_console w' = [cleared_line 4608 4096].
Proof.
  destruct (taint_check_exact (kernel_with [] 4096) 4096 toy_env tainted_statics toy_world eq_refl)
    as (d' & w' & Hrun & Hlost & _).
  exists d', w'. split; [exact Hrun|]. apply Hlost. exists 9%Z. by split; [lia|].
Defined.

(** A rootkit sets bit 3 and takes it away again. *)
Lemma later_taint_unnoticed_witness :
  exists w',
    taint_checks [kernel_with [] 4608; kernel_with [] 4616; kernel_with [] 4608] toy_env
      (tainted_statics, toy_world) = Ret (tt, toy_env, (tainted_statics, w')) /\
    w_console w' = [].
Proof.
  apply (later_taint_unnoticed [kernel_with [] 4608; kernel_with [] 4616; kernel_with [] 4608]
    toy_env tainted_statics toy_world).
  assert (H : forall m, Z.land 4608 (Z.lnot m) = 0%Z ->
    exists cur, pointer_at (kernel_with [] m) (tainted_mask_ptr tainted_statics) = Some cur /\
      forall i, (0 <= i)%Z -> ~ lost_bit (taint_baseline tainted_statics) cur i).
  { intros m Hm. exists m. split; [done|]. intros i Hi Hl.
    apply (proj2 (lost_bit_spec 4608 m)); [by exists i|done]. }
  repeat constructor; by apply H.
Defined.

(** ** Audit *)
Definition toy_audit : audit := mk_audit ∅ 0 0 0.
Definition toy_message : sk_buff := mk_sk_buff 40 1112.

Lemma netlink_hook_exact_witness :
  exists a e' s',
    hook_netlink_unicast_detector toy_kernel (fun _ => Some NETLINK_AUDIT) (fun _ => Some toy_message)
      250 9000 (called toy_kernel [800%Z; 801%Z]) toy_env (toy_audit, toy_world) = Ret (a, e', s') /\
    audit_unicast_calls s'.1 = 1%Z /\
    hd_error (w_console s'.2) = Some (unicast_line 1112 9000 (mk_task 7 "insmod")).
Proof.
  pose proof (netlink_hook_exact toy_kernel ltac:(done) (fun _ => Some NETLINK_AUDIT)
    (fun _ => Some toy_message) 250 800 801 [800%Z; 801%Z] toy_message 9000 toy_env toy_audit toy_world
    eq_refl eq_refl ltac:(done) ltac:(done) eq_refl eq_refl) as Hwp.
  apply wp_run in Hwp as (a & e' & s' & Hrun & _ & Hu & _ & stats & _ & Hw).
  exists a, e', s'. split_and!; [exact Hrun|exact Hu|].
  apply (f_equal w_console) in Hw. by rewrite Hw.
Defined.

(** kallsyms_lookup has emptied the buffer: nothing is printed. *)
Lemma log_start_hook_exact_witness :
  hook_audit_log_start_detector toy_kernel (fun _ => "") 9000
    (called toy_kernel [0%Z; 0%Z; 1300%Z]) toy_env (toy_audit, toy_world) =
    Ret (tt, toy_env, (inc_log toy_audit, set_console [] toy_world)).
Proof.
  destruct (log_start_hook_exact toy_kernel ltac:(done) (fun _ => "") [0%Z; 0%Z; 1300%Z] 1300 9000
    toy_env toy_audit toy_world eq_refl) as [H Hempty].
  rewrite (Hempty eq_refl) in H. exact H.
Defined.

(** ** Hooks set by address *)
Definition toy_tcp_api : tcp_api := mk_tcp_api 5 64 16 (fun event_type detector d =>
  printk KERN_INFO "event" [ANum event_type; ANum detector; ANum (td_hooked_addr d); ANum (td_caller_addr d)]).

Lemma watcher_exact_witness :
  wp (tcp_hiding_detector_init toy_kernel) (fun r _ s =>
    r = 0%Z ->
    tcp_handler_pre toy_kernel toy_tcp_api (entry_regs X86_64 [500%Z; 5400%Z; 0%Z]) toy_env (s.1, toy_world) =
      Ret (tt, toy_env, (s.1, set_console
        [mk_line KERN_ALERT (alert_text tcp_watcher)
           [AStr "udp4_seq_show"; ANum 500; AStr "insmod"; ANum 7];
         mk_line KERN_INFO "event" [ANum 5; ANum 1; ANum 5400; ANum 500]] toy_world)))
    toy_env (mk_filter_watch [] false, toy_world).
Proof.
  destruct (watcher_exact toy_kernel toy_tcp_api [500%Z; 5400%Z; 0%Z] 500 5400 0
      toy_env toy_world toy_env (mk_filter_watch [] false) toy_world ltac:(done) (toy_arguments _ _)
      ltac:(constructor) ltac:(set_solver) ltac:(set_solver) eq_refl eq_refl eq_refl) as [Htcp _].
  eapply wp_mono; [exact Htcp|]. intros r e' s H Hr. etrans; [exact (H Hr)|].
  reflexivity.
Defined.

(** ** The module *)
(** taskstats_hook_detector.c fills the registry's open entry. *)
Definition toy_statics : statics (T := audit) :=
  mk_statics (mk_reset_tainted false 0 false 0 0) (mk_kprobe_detector 0) toy_audit toy_audit
    (mk_filter_watch [] false) false (mk_ftrace_direct 0 0 0).
Definition toy_registry : list (detector (statics (T := audit))) :=
  detectors toy_kernel (Taskstats.audit_detector_init toy_kernel) (Taskstats.audit_detector_exit toy_kernel)
    (audit_names Taskstats.taskstats_unit) (audit_linked Taskstats.taskstats_unit).
Definition toy_module : kstate (statics (T := audit)) :=
  mk_kstate toy_statics (mk_world (manager_initial 2) ∅ ∅ []) 0.

Lemma toy_module_unloaded : unloaded toy_registry toy_module.
Proof.
  split_and!; [apply fresh_initial; lia|done|set_solver|].
  intros d Hd. unfold toy_registry, detectors in Hd.
  repeat (apply elem_of_cons in Hd as [->|Hd]; [cbn; try (split; [|try split]); set_solver|]).
  by apply elem_of_nil in Hd.
Qed.

Lemma toy_mask_readable :
  symbol_addr toy_kernel "tainted_mask" <> 0%Z ->
  is_Some (pointer_at toy_kernel (symbol_addr toy_kernel "tainted_mask")).
Proof. intros _. by exists 4096%Z. Qed.

Lemma photon_ring_init_all_or_nothing_witness :
  wp (photon_ring_init toy_encrypt toy_mem toy_registry) (fun r e' s' =>
    (r = 0%Z -> active_detectors s' = 9%nat) /\
    (r <> 0%Z -> w_probes (k_world s') = ∅)) toy_env toy_module.
Proof.
  eapply wp_mono.
  { apply (photon_ring_init_all_or_nothing toy_kernel (Taskstats.audit_detector_init toy_kernel)
      (Taskstats.audit_detector_exit toy_kernel) (audit_names Taskstats.taskstats_unit) (audit_linked Taskstats.taskstats_unit)
      (Taskstats.taskstats_laws toy_kernel) Taskstats.taskstats_apart toy_mask_readable
      toy_hmac toy_encrypt toy_encrypt_length toy_mem toy_env toy_module toy_module_unloaded). }
  intros r e' s' [H0 H1]. split; intros Hr; [by apply H0|by apply H1].
Defined.

Lemma load_unload_leaves_nothing_witness :
  wp (r ← photon_ring_init toy_encrypt toy_mem toy_registry;
      if Z.eqb r 0 then photon_ring_exit toy_encrypt toy_registry else mret tt) (fun _ e' s' =>
    env_rel 0 toy_env e' /\ w_probes (k_world s') = ∅) toy_env toy_module.
Proof.
  eapply wp_mono.
  { apply (load_unload_leaves_nothing toy_kernel (Taskstats.audit_detector_init toy_kernel)
      (Taskstats.audit_detector_exit toy_kernel) (audit_names Taskstats.taskstats_unit) (audit_linked Taskstats.taskstats_unit)
      (Taskstats.taskstats_laws toy_kernel) Taskstats.taskstats_apart toy_mask_readable
      toy_encrypt toy_encrypt_length toy_mem toy_env toy_module toy_module_unloaded). }
  intros r e' s' (He & Hp & _). by split.
Defined.

Lemma filter_entry_outlives_detector_witness :
  wp (ret ← become_root_detector_init toy_kernel; become_root_detector_exit) (fun _ e' s' =>
    ("commit_creds_ops", symbol_addr toy_kernel "commit_creds") ∈ w_filters s'.2) toy_env (tt, toy_world).
Proof.
  eapply wp_mono.
  { apply (filter_entry_outlives_detector toy_kernel toy_env tt toy_world ltac:(constructor) ltac:(done)). }
  intros r e' s' [_ H]. exact H.
Defined.

(** ** Files and processes *)
Definition ssh_file : file := mk_file (Some "/home/alice/.ssh/authorized_keys") 0.
Definition toy_view : open_view :=
  mk_open_view (Some 1%Z) 0 0 (fun _ => Some (1025%Z, 420%Z)) (fun _ => Some ssh_file).

(** [authorized_keys] opened for appending. *)
Lemma file_open_policy_witness :
  exists ctx e1,
    do_filp_open_entry toy_kernel toy_view (entry_regs X86_64 [0%Z; 0%Z; 900%Z]) toy_env toy_world
      = Ret (ctx, e1, toy_world) /\ ctx_pid ctx = 7%Z.
Proof.
  destruct (file_open_policy toy_kernel toy_view [0%Z; 0%Z; 900%Z] 900 1025 420 910 ssh_file
    "/home/alice/.ssh/authorized_keys" toy_env toy_env toy_world toy_world
    (mk_pt_regs 0 0 0 0 0 0 910 [])
    ltac:(done) eq_refl ltac:(done) eq_refl eq_refl ltac:(done) eq_refl eq_refl eq_refl)
    as (ctx & e1 & He & Hp & _).
  exists ctx, e1. split; [exact He|exact Hp].
Defined.

Definition hiding_view : vfs_view :=
  mk_vfs_view (Z.eqb 4242) (fun _ => None) (fun _ => None) (fun _ => None) (fun _ => None).

Definition toy_stat_api : stat_api := mk_stat_api 20 21 22 1 2 4 16 64 16 (fun event_type detector d =>
  printk KERN_INFO "event" [ANum event_type; ANum detector; ANum (sd_target_pid d); ANum (sd_flags d)]).

Lemma hidden_process_policy_witness :
  analyze_stat_path hiding_view toy_stat_api true true "/proc/4242/status" "stat" toy_env toy_world =
    Ret (tt, toy_env, set_console [hidden_line "stat" "/proc/4242/status" 4242;
      mk_line KERN_INFO "event" [ANum 20; ANum 3; ANum 4242; ANum 3]] toy_world).
Proof.
  etrans.
  { exact (hidden_process_policy hiding_view toy_stat_api true true [4%Z; 2%Z; 4%Z; 2%Z] "/status" "stat" toy_env
      toy_world ltac:(repeat constructor; unfold is_digit; lia) ltac:(simpl; lia)
      ltac:(vm_compute; done) eq_refl). }
  vm_compute. reflexivity.
Defined.

Lemma hiding_stat_exit_leaves_hook_witness :
  wp (hiding_stat_init X86_64) (fun r _ s =>
    r = 0%Z /\
    forall e', wp hiding_stat_exit (fun _ _ s' => "getpriority_ops" ∈ w_probes s'.2) e' s)
    (set_rets [(-22)%Z; (-22)%Z; (-22)%Z; (-22)%Z] toy_env) (0%Z, toy_world).
Proof.
  apply (hiding_stat_exit_leaves_hook (-22) (-22) (-22) (-22) []
    (set_rets [(-22)%Z; (-22)%Z; (-22)%Z; (-22)%Z] toy_env) 0 toy_world);
    [repeat constructor; done|done|constructor].
Defined.

(** A pid that fits an [int], followed by the rest of a path. *)
Lemma proc_pid_parsed_witness : extract_proc_pid "/proc/4242/status" = 4242%Z.
Proof.
  exact (proj1 (proc_pid_parsed "/proc/4242/status") [4%Z; 2%Z; 4%Z; 2%Z] "/status" eq_refl
    ltac:(repeat constructor; unfold is_digit; lia) ltac:(simpl; lia) eq_refl).
Defined.

(** ** The detectors that only print *)
Definition print_view : probe_view :=
  mk_probe_view (fun a => if Z.eqb a 900 then Some (Some "sched_process_fork") else None)
    (fun a => if Z.eqb a 901 then Some (Some "rootkit.ko") else None)
    (fun a => if Z.eqb a 902 then Some 901%Z else None)
    (fun a => if Z.eqb a 903 then Some "/dev/shm/.x" else None).

Lemma toy_hooks_free : forall ops, ops ∈ ["trace_pid.ops"; "hiding_readlink.ops"; "vprintk_ops"; "umh_ops"] ->
  ops ∉ w_probes toy_world /\ forall a, (ops, a) ∉ w_filters toy_world.
Proof. intros ops _. split; [|intros a]; cbn; set_solver. Qed.

Lemma own_filter_entries_removed_witness :
  wp (trace_pid_detector_init toy_kernel ;; trace_pid_detector_exit)
    (fun _ _ s => w_probes s.2 = w_probes toy_world /\ w_filters s.2 = w_filters toy_world) toy_env (0%Z, toy_world).
Proof.
  exact (proj1 (own_filter_entries_removed toy_kernel toy_env 0 0 (mk_lkrg false false) toy_world
    toy_no_fail toy_hooks_free)).
Defined.

Lemma lkrg_reload_without_hooks_witness :
  wp (lkrg_bypass_detector_init toy_kernel ;; lkrg_bypass_detector_exit toy_kernel) (fun _ _ s =>
    exists e3 s3, lkrg_bypass_detector_init toy_kernel
        (mk_env [(- EINVAL)%Z; (- EINVAL)%Z] [] [] 0 [] (mk_task 7 "insmod")) s = Ret (0%Z, e3, s3) /\
      w_probes s3.2 = w_probes toy_world) toy_env (mk_lkrg false false, toy_world).
Proof.
  apply (lkrg_reload_without_hooks toy_kernel (- EINVAL) (- EINVAL) toy_env
    (mk_env [(- EINVAL)%Z; (- EINVAL)%Z] [] [] 0 [] (mk_task 7 "insmod")) (mk_lkrg false false) toy_world toy_no_fail);
    [done|done|reflexivity|].
  intros ops Hops. apply toy_hooks_free. set_solver.
Defined.

Lemma print_only_policy_witness :
  prints_iff (hook_vfs_readlink toy_kernel print_view 9000 (called toy_kernel [901%Z]))
    (starts_with "exe" "rootkit.ko" \/ contains ".ko" "rootkit.ko")
    (readlink_alert "rootkit.ko" (current toy_env) 9000) toy_env toy_world.
Proof.
  destruct (print_only_policy toy_kernel print_view [900%Z; 9000%Z] 9000 900 9000 "sched_process_fork" 901 "rootkit.ko"
    902 903 "/dev/shm/.x" toy_env toy_world (toy_arch _ _) (toy_arguments _ _) eq_refl eq_refl ltac:(done) eq_refl
    ltac:(done) eq_refl ltac:(done) eq_refl ltac:(done) eq_refl ltac:(done)) as (_ & H & _).
  exact H.
Defined.
