(* ===== verification/PyRe.v ===== *)
(** * Regular expressions as Python's [re] matches them
    The fragment the dmesg reader writes its patterns in: literals, runs of a
    character class ([\s*], [(\S+)], [([^']+)], ...), greedy and with
    backtracking, and optional groups.  [search] tries every position from the
    left and returns the captured groups.  [derives] says which strings a
    pattern matches, without an order of trial; the matcher agrees with it on
    whether there is a match, and the lemmas on runs say which one it takes. *)
From Stdlib Require Import ZArith Lia.
From Stdlib Require Import Strings.Ascii Strings.String.
From stdpp Require Import base numbers list strings option.
From S2P Require Import Prelude CString.

#[local] Open Scope string_scope.
#[local] Open Scope list_scope.
#[local] Arguments String.append !_ _ : simpl nomatch.

(** ** Patterns *)
Inductive atom :=
  | Lit (s : string)
  | Run (captured at_least_one : bool) (class : ascii -> bool).
Inductive piece :=
  | Atom (a : atom)
  | Optional (l : list atom).
Definition re : Type := list piece.

(** The groups in the order of their parentheses; [None] did not take part. *)
Definition groups : Type := list (option string).

Definition atom_groups (a : atom) : nat :=
  match a with Run true _ _ => 1 | _ => 0 end.
Definition absent (l : list atom) : groups := replicate (sum_list_with atom_groups l) None.

(** ** Character classes, on bytes *)
Definition in_range (lo hi : nat) (c : ascii) : bool :=
  (lo <=? nat_of_ascii c)%nat && (nat_of_ascii c <=? hi)%nat.
Definition is_space (c : ascii) : bool := in_range 9 13 c || in_range 28 32 c.
Definition is_digit (c : ascii) : bool := in_range 48 57 c.
Definition is_hex (c : ascii) : bool := is_digit c || in_range 97 102 c || in_range 65 70 c.
Definition not_char (d c : ascii) : bool := negb (Ascii.eqb c d).
Definition not_space (c : ascii) : bool := negb (is_space c).

(** ** Matching *)
Fixpoint strip_prefix (p s : string) : option string :=
  match p, s with
  | EmptyString, s => Some s
  | String c p, String d s => if Ascii.eqb c d then strip_prefix p s else None
  | String _ _, EmptyString => None
  end.

Definition is_empty (s : string) : bool := match s with EmptyString => true | _ => false end.

Section matching.
Context {R : Type}.

(** The longest run first, then shorter ones. *)
Fixpoint run (class : ascii -> bool) (got s : string) (k : string -> string -> option R) : option R :=
  match s with
  | EmptyString => k got EmptyString
  | String c s' =>
      if class c then
        match run class (got +:+ String c EmptyString) s' k with
        | Some r => Some r
        | None => k got s
        end
      else k got s
  end.

Definition capture (captured : bool) (got : string) (g : groups) : groups :=
  if captured then (g ++ [Some got])%list else g.

Fixpoint atoms (l : list atom) (s : string) (g : groups) (k : string -> groups -> option R) : option R :=
  match l with
  | [] => k s g
  | Lit t :: l => match strip_prefix t s with Some s => atoms l s g k | None => None end
  | Run captured at_least_one class :: l =>
      run class EmptyString s (fun got rest =>
        if at_least_one && is_empty got then None else atoms l rest (capture captured got g) k)
  end.

Fixpoint pieces (r : re) (s : string) (g : groups) (k : string -> groups -> option R) : option R :=
  match r with
  | [] => k s g
  | Atom a :: r => atoms [a] s g (fun s g => pieces r s g k)
  | Optional l :: r =>
      match atoms l s g (fun s g => pieces r s g k) with
      | Some x => Some x
      | None => pieces r s (g ++ absent l) k
      end
  end.
End matching.

Definition match_here (r : re) (s : string) : option groups := pieces r s [] (fun _ g => Some g).

Fixpoint search (r : re) (s : string) : option groups :=
  match match_here r s with
  | Some g => Some g
  | None => match s with EmptyString => None | String _ s => search r s end
  end.

(** ** Strings *)
Fixpoint all_chars (p : ascii -> bool) (s : string) : bool :=
  match s with EmptyString => true | String c s => p c && all_chars p s end.
(** The string is empty or its first character is outside the class. *)
Definition stops (class : ascii -> bool) (s : string) : bool :=
  match s with EmptyString => true | String c _ => negb (class c) end.

Lemma append_nil s : s +:+ "" = s.
Proof. induction s as [|c s IH]; [done|]. cbn. by rewrite IH. Qed.
Lemma append_assoc a b c : (a +:+ b) +:+ c = a +:+ (b +:+ c).
Proof. induction a as [|x a IH]; [done|]. cbn. by rewrite IH. Qed.
Lemma append_cons a c s : (a +:+ String c "") +:+ s = a +:+ String c s.
Proof. apply append_assoc. Qed.

Lemma all_chars_app p a b : all_chars p (a +:+ b) = all_chars p a && all_chars p b.
Proof. induction a as [|c a IH]; [done|]. cbn. rewrite IH. apply andb_assoc. Qed.
Lemma all_chars_impl (p q : ascii -> bool) s :
  (forall c, p c = true -> q c = true) -> all_chars p s = true -> all_chars q s = true.
Proof. intros H. induction s as [|c s IH]; [done|]. cbn. intros [? ?]%andb_true_iff. by rewrite H, IH. Qed.

Lemma strip_prefix_app p s : strip_prefix p (p +:+ s) = Some s.
Proof. induction p as [|c p IH]; [by destruct s|]. cbn. by rewrite Ascii.eqb_refl. Qed.
Lemma strip_prefix_some p s t : strip_prefix p s = Some t -> s = p +:+ t.
Proof.
  revert s. induction p as [|c p IH]; intros [|d s] H; try done; [by injection H as <-..|].
  cbn in H. destruct (Ascii.eqb_spec c d) as [->|]; [|done]. cbn. by rewrite (IH s).
Qed.

(** ** The matcher against the language of a pattern *)
Inductive atom_derives : atom -> string -> groups -> Prop :=
  | derives_lit s : atom_derives (Lit s) s []
  | derives_run captured at_least_one class s :
      all_chars class s = true -> at_least_one && is_empty s = false ->
      atom_derives (Run captured at_least_one class) s (capture captured s []).
Inductive atoms_derive : list atom -> string -> groups -> Prop :=
  | derive_nil : atoms_derive [] "" []
  | derive_cons a l s t g h :
      atom_derives a s g -> atoms_derive l t h -> atoms_derive (a :: l) (s +:+ t) (g ++ h).
Inductive derives : re -> string -> groups -> Prop :=
  | derives_nil : derives [] "" []
  | derives_atom a r s t g h :
      atom_derives a s g -> derives r t h -> derives (Atom a :: r) (s +:+ t) (g ++ h)
  | derives_present l r s t g h :
      atoms_derive l s g -> derives r t h -> derives (Optional l :: r) (s +:+ t) (g ++ h)
  | derives_absent l r t h : derives r t h -> derives (Optional l :: r) t (absent l ++ h).

Lemma capture_app captured got g : capture captured got g = (g ++ capture captured got [])%list.
Proof. destruct captured; cbn; [done|]. by rewrite app_nil_r. Qed.

Section exact.
Context {R : Type}.
Implicit Types (k : string -> groups -> option R).

Lemma run_sound class got s (k : string -> string -> option R) x :
  run class got s k = Some x ->
  exists t rest, s = t +:+ rest /\ all_chars class t = true /\ k (got +:+ t) rest = Some x.
Proof.
  revert got. induction s as [|c s IH]; intros got H; cbn [run] in H.
  { exists "", "". by rewrite !append_nil. }
  destruct (class c) eqn:Hc; [|by exists "", (String c s); rewrite (append_nil got)].
  destruct (run class (got +:+ String c "") s k) as [r|] eqn:Hr; [|by exists "", (String c s); rewrite (append_nil got)].
  injection H as ->. destruct (IH _ Hr) as (t & rest & -> & Ht & Hk).
  exists (String c t), rest. cbn. by rewrite Hc, Ht, <- append_cons.
Qed.

Lemma run_complete class got t rest (k : string -> string -> option R) :
  all_chars class t = true -> k (got +:+ t) rest <> None -> run class got (t +:+ rest) k <> None.
Proof.
  revert got. induction t as [|c t IH]; intros got Ht Hk.
  - rewrite append_nil in Hk. cbn [append]. destruct rest as [|c s]; [done|]. cbn [run].
    destruct (class c); [|done]. by destruct (run _ _ s k).
  - cbn in Ht. apply andb_true_iff in Ht as [Hc Ht]. cbn [append run]. rewrite Hc.
    destruct (run _ _ _ k) eqn:E; [done|]. exfalso. revert E. apply IH; [done|]. by rewrite append_cons.
Qed.

Lemma atoms_sound l s g k x :
  atoms l s g k = Some x ->
  exists t rest h, s = t +:+ rest /\ atoms_derive l t h /\ k rest (g ++ h)%list = Some x.
Proof.
  revert s g. induction l as [|a l IH]; intros s g H; cbn [atoms] in H.
  { exists "", s, []. rewrite app_nil_r. split_and!; [done|constructor|done]. }
  destruct a as [t|captured one class].
  - destruct (strip_prefix t s) as [s'|] eqn:E; [|done]. apply strip_prefix_some in E as ->.
    destruct (IH _ _ H) as (u & rest & h & -> & Hd & Hk). exists (t +:+ u), rest, h.
    rewrite append_assoc. split_and!; [done| |done]. apply (derive_cons (Lit t) l t u [] h); [constructor|done].
  - apply run_sound in H as (t & rest & -> & Ht & H). cbn [append] in H.
    destruct (one && is_empty t) eqn:E; [done|].
    destruct (IH _ _ H) as (u & rest' & h & -> & Hd & Hk).
    exists (t +:+ u), rest', (capture captured t [] ++ h)%list. rewrite append_assoc, app_assoc, <- capture_app.
    split_and!; [done| |done]. by apply derive_cons; [constructor|].
Qed.

Lemma atoms_complete l t h rest g k :
  atoms_derive l t h -> k rest (g ++ h)%list <> None -> atoms l (t +:+ rest) g k <> None.
Proof.
  intros Hd. revert g rest. induction Hd as [|a l s t g1 h Ha Hd IH]; intros g rest Hk; cbn [atoms].
  { by rewrite app_nil_r in Hk. }
  rewrite append_assoc. destruct Ha as [s|captured one class s Hs He].
  - rewrite strip_prefix_app. by apply IH.
  - apply run_complete; [done|]. cbn [append]. rewrite He. apply IH. by rewrite capture_app, <- app_assoc.
Qed.

Lemma pieces_sound r s g k x :
  pieces r s g k = Some x ->
  exists t rest h, s = t +:+ rest /\ derives r t h /\ k rest (g ++ h)%list = Some x.
Proof.
  revert s g. induction r as [|p r IH]; intros s g H; cbn [pieces] in H.
  { exists "", s, []. rewrite app_nil_r. split_and!; [done|constructor|done]. }
  destruct p as [a|l].
  - apply atoms_sound in H as (t & rest & h & -> & Hd & H).
    destruct (IH _ _ H) as (u & rest' & h' & -> & Hd' & Hk). exists (t +:+ u), rest', (h ++ h')%list.
    rewrite append_assoc, app_assoc. split_and!; [done| |done].
    inversion Hd as [|? ? s1 t1 g1 h1 Ha Hn]; subst. inversion Hn; subst.
    rewrite append_nil, app_nil_r. by constructor.
  - destruct (atoms l s g _) as [y|] eqn:E.
    + injection H as ->. apply atoms_sound in E as (t & rest & h & -> & Hd & H).
      destruct (IH _ _ H) as (u & rest' & h' & -> & Hd' & Hk). exists (t +:+ u), rest', (h ++ h')%list.
      rewrite append_assoc, app_assoc. split_and!; [done|by constructor|done].
    + destruct (IH _ _ H) as (u & rest' & h' & -> & Hd' & Hk). exists u, rest', (absent l ++ h')%list.
      rewrite app_assoc. split_and!; [done|by constructor|done].
Qed.

Lemma pieces_complete r t h rest g k :
  derives r t h -> k rest (g ++ h)%list <> None -> pieces r (t +:+ rest) g k <> None.
Proof.
  intros Hd. revert g rest. induction Hd as [|a r s t g1 h Ha Hd IH|l r s t g1 h Ha Hd IH|l r t h Hd IH];
    intros g rest Hk; cbn [pieces].
  - by rewrite app_nil_r in Hk.
  - rewrite append_assoc. eapply (atoms_complete [a] s (g1 ++ [])%list).
    + rewrite <- (append_nil s). constructor; [done|constructor].
    + rewrite app_nil_r. apply IH. by rewrite <- app_assoc.
  - rewrite append_assoc. destruct (atoms l (s +:+ (t +:+ rest)) g _) eqn:E; [done|]. exfalso. revert E.
    eapply atoms_complete; [done|]. apply IH. by rewrite <- app_assoc.
  - destruct (atoms l (t +:+ rest) g _); [done|]. apply IH. by rewrite <- app_assoc.
Qed.
End exact.

(** [search] finds something exactly when the pattern matches somewhere. *)
Lemma search_exact r s :
  (exists g, search r s = Some g) <-> exists pre t post g, s = pre +:+ (t +:+ post) /\ derives r t g.
Proof.
  split.
  - intros [g H]. induction s as [|c s IH]; cbn [search] in H;
      destruct (match_here r _) as [g'|] eqn:E in H; try done;
      try (apply pieces_sound in E as (t & rest & h & -> & Hd & _); by exists "", t, rest, h).
    destruct (IH H) as (pre & t & post & h & -> & Hd). by exists (String c pre), t, post, h.
  - intros (pre & t & post & g & -> & Hd). induction pre as [|c pre IH].
    + assert (Hm : match_here r (t +:+ post) <> None) by (by eapply pieces_complete).
      cbn [append]. destruct (match_here r (t +:+ post)) as [g'|] eqn:E; [|done].
      exists g'. destruct (t +:+ post); cbn [search]; by rewrite E.
    + cbn [append search]. destruct (match_here r _); [by eexists|done].
Qed.

(** ** Which match it takes *)
Section greedy.
Context {R : Type}.

(** After the longest run, if what follows then matches. *)
Lemma run_all class got x rest (k : string -> string -> option R) r :
  all_chars class x = true -> stops class rest = true ->
  k (got +:+ x) rest = Some r -> run class got (x +:+ rest) k = Some r.
Proof.
  revert got. induction x as [|c x IH]; intros got Hx Hs Hk.
  - rewrite append_nil in Hk. cbn [append]. destruct rest as [|c rest]; [done|].
    cbn [run]. cbn in Hs. by destruct (class c).
  - cbn in Hx. apply andb_true_iff in Hx as [Hc Hx]. cbn [append run]. rewrite Hc.
    rewrite (IH (got +:+ String c "")); [done..|]. by rewrite append_cons.
Qed.

(** After giving back [y], if no shorter return helps. *)
Lemma run_back class got x y rest (k : string -> string -> option R) r :
  all_chars class x = true -> all_chars class y = true -> stops class rest = true ->
  (forall c y1 y2, y = String c y1 +:+ y2 -> k ((got +:+ x) +:+ String c y1) (y2 +:+ rest) = None) ->
  k (got +:+ x) (y +:+ rest) = Some r -> run class got (x +:+ (y +:+ rest)) k = Some r.
Proof.
  intros Hx Hy Hs Hno Hk. revert got Hno Hk. induction x as [|c x IH]; intros got Hno Hk.
  - rewrite append_nil in Hk, Hno. cbn [append].
    assert (Hlong : forall y1 y2, y = y1 +:+ y2 -> y1 <> "" -> run class (got +:+ y1) (y2 +:+ rest) k = None).
    { intros y1 y2. revert y1. induction y2 as [|d y2 IH2]; intros y1 E Hy1.
      - cbn [append]. assert (Hk0 : k (got +:+ y1) rest = None).
        { destruct y1 as [|c y1]; [done|]. by apply (Hno c y1 ""). }
        destruct rest as [|d rest]; [done|]. cbn [run]. cbn in Hs. by destruct (class d).
      - cbn [append run]. assert (Hd : class d = true).
        { rewrite E, all_chars_app in Hy. cbn in Hy. by destruct (class d), (all_chars class y1). }
        rewrite Hd, append_assoc, (IH2 (y1 +:+ String d "")); [|by rewrite append_cons|by destruct y1].
        destruct y1 as [|c y1]; [done|]. by apply (Hno c y1 (String d y2)). }
    destruct y as [|c y].
    + cbn [append] in Hk |- *. destruct rest as [|d rest]; [done|]. cbn [run]. cbn in Hs. by destruct (class d).
    + cbn [append run]. cbn in Hy. apply andb_true_iff in Hy as [Hc _]. rewrite Hc.
      rewrite (Hlong (String c "") y); [exact Hk|done..].
  - cbn in Hx. apply andb_true_iff in Hx as [Hc Hx]. cbn [append run]. rewrite Hc.
    rewrite (IH Hx (got +:+ String c "")); [done| |by rewrite append_cons].
    intros d y1 y2 E. rewrite append_cons. by apply Hno.
Qed.

Lemma run_none class got s (k : string -> string -> option R) :
  (forall t rest, s = t +:+ rest -> all_chars class t = true -> k (got +:+ t) rest = None) ->
  run class got s k = None.
Proof.
  intros Hno. destruct (run class got s k) as [x|] eqn:E; [|done].
  apply run_sound in E as (t & rest & -> & Ht & Hk). by rewrite (Hno t rest) in Hk.
Qed.
End greedy.

(** ** Where it looks *)
Lemma search_here r s g : match_here r s = Some g -> search r s = Some g.
Proof. intros H. destruct s; cbn [search]; by rewrite H. Qed.

(** The literals every match contains. *)
Definition literals (r : re) : list string :=
  omap (fun p => match p with Atom (Lit l) => Some l | _ => None end) r.

Lemma derives_literal r t g l : derives r t g -> l ∈ literals r -> strstr_found t l = true.
Proof.
  intros Hd Hl. induction Hd as [|a r s t g1 h Ha Hd IH|l' r s t g1 h Ha Hd IH|l' r t h Hd IH]; cbn in Hl;
    try by apply IH. { by apply elem_of_nil in Hl. }
  - assert (Hrest : l ∈ literals r -> strstr_found (s +:+ t) l = true).
    { intros [pre [post ->]]%IH%strstr_found_spec. apply strstr_found_spec. exists (s +:+ pre), post. by rewrite append_assoc. }
    destruct a as [lit|? ? ?]; [|by apply Hrest]. cbn in Hl. apply elem_of_cons in Hl as [->|Hl]; [|by apply Hrest].
    inversion Ha; subst. apply strstr_found_spec. by exists "", t.
  - apply IH in Hl. apply strstr_found_spec in Hl as (pre & post & ->). apply strstr_found_spec.
    exists (s +:+ pre), post. by rewrite append_assoc.
Qed.

(** A text without one of them is not matched. *)
Lemma search_lacks r s l : l ∈ literals r -> strstr_found s l = false -> search r s = None.
Proof.
  intros Hl Hh. destruct (search r s) as [g|] eqn:E; [|done]. exfalso.
  assert (Hs : exists g, search r s = Some g) by eauto. apply search_exact in Hs as (pre & t & post & h & -> & Hd).
  apply not_true_iff_false in Hh. apply Hh, strstr_found_spec.
  apply (derives_literal _ _ _ l) in Hd as (a & b & ->)%strstr_found_spec; [|done].
  exists (pre +:+ a), (b +:+ post). by rewrite !append_assoc.
Qed.

(** Text in front that the pattern cannot start in. *)
Lemma search_skip r p s :
  (forall pre c rest, p = pre +:+ String c rest -> match_here r (String c rest +:+ s) = None) ->
  search r (p +:+ s) = search r s.
Proof.
  induction p as [|c p IH]; intros H; [done|]. cbn [append search].
  rewrite (H "" c p eq_refl : match_here r (String c (p +:+ s)) = None).
  apply IH. intros pre d rest ->. by apply (H (String c pre) d rest).
Qed.
