(* ===== verification/Console.v ===== *)
(** * The kernel log as text
    The detectors' [printk] lines ([Hooks.line]: level, format, arguments) as
    the text they become, and a line of [dmesg --decode] around it.  Formats
    are read the way the kernel's vsnprintf reads the conversions the module
    uses; [%pS], a symbol with offset, is a parameter, because only the running
    kernel knows its symbols. *)
From Stdlib Require Import ZArith Lia.
From Stdlib Require Import Strings.Ascii Strings.String.
From stdpp Require Import base numbers list strings option.
From S2P Require Import Prelude CString PyRe Hooks.

#[local] Open Scope string_scope.
#[local] Arguments String.append !_ _ : simpl nomatch.

(** ** Numbers *)
Definition hex_digit (d : Z) : ascii :=
  ascii_of_byte (byte_of_Z (if (d <? 10)%Z then 48 + d else 87 + d)).
Fixpoint radix_fuel (base : Z) (fuel : nat) (z : Z) (acc : string) : string :=
  match fuel with
  | O => acc
  | S fuel =>
      let acc := String (hex_digit (z mod base)) acc in
      if (z <? base)%Z then acc else radix_fuel base fuel (z / base) acc
  end.
(** A 64-bit number has at most 16 hexadecimal and 22 octal digits. *)
Definition print_hex (z : Z) : string := radix_fuel 16 16 z EmptyString.
Definition print_octal (z : Z) : string := radix_fuel 8 22 z EmptyString.

Section render.
Context (sprint_symbol : Z -> string).

Definition string_arg (a : list parg) : string := match a with AStr s :: _ => s | _ => EmptyString end.
Definition number_arg (a : list parg) : Z := match a with ANum z :: _ => z | _ => 0%Z end.

(** [%s], [%d], [%u], [%x], [%o], [%lx], [%llu] and [%pS]. *)
Fixpoint render (format : string) (args : list parg) : string :=
  match format with
  | EmptyString => EmptyString
  | String c format =>
      if negb (Ascii.eqb c "%") then String c (render format args) else
      match format with
      | String c1 f1 =>
          if Ascii.eqb c1 "s" then string_arg args +:+ render f1 (tail args) else
          if Ascii.eqb c1 "d" then print_int (number_arg args) +:+ render f1 (tail args) else
          if Ascii.eqb c1 "u" then print_u64 (number_arg args) +:+ render f1 (tail args) else
          if Ascii.eqb c1 "x" then print_hex (number_arg args) +:+ render f1 (tail args) else
          if Ascii.eqb c1 "o" then print_octal (number_arg args) +:+ render f1 (tail args) else
          match f1 with
          | String c2 f2 =>
              if Ascii.eqb c1 "l" && Ascii.eqb c2 "x" then
                print_hex (number_arg args) +:+ render f2 (tail args)
              else if Ascii.eqb c1 "p" && Ascii.eqb c2 "S" then
                sprint_symbol (number_arg args) +:+ render f2 (tail args)
              else
                match f2 with
                | String c3 f3 =>
                    if Ascii.eqb c1 "l" && Ascii.eqb c2 "l" && Ascii.eqb c3 "u" then
                      print_u64 (number_arg args) +:+ render f3 (tail args)
                    else String c (render format args)
                | EmptyString => String c (render format args)
                end
          | EmptyString => String c (render format args)
          end
      | EmptyString => String c EmptyString
      end
  end.

Definition printed (l : line) : string := render (text l) (line_args l).

(** A line of [dmesg --decode]: facility and level, time, text. *)
Definition dmesg_line (facility time : string) (l : line) : string :=
  facility +:+ ("[" +:+ (time +:+ ("] " +:+ printed l))).
End render.

(** ** What the numbers consist of *)
Lemma digit_is_digit z : is_digit (digit z) = true.
Proof.
  unfold digit. pose proof (Z.mod_pos_bound z 10 ltac:(lia)) as Hm.
  assert (Hall : forallb (fun d => is_digit (ascii_of_byte (byte_of_Z (48 + d)))) (Z.of_nat <$> seq 0 10) = true)
    by (vm_compute; reflexivity).
  rewrite forallb_forall in Hall. apply Hall. apply in_map_iff.
  exists (Z.to_nat (z mod 10)). split; [lia|]. apply in_seq. lia.
Qed.

Lemma decimal_fuel_digits fuel z acc :
  all_chars is_digit acc = true -> all_chars is_digit (decimal_fuel fuel z acc) = true.
Proof.
  revert z acc. induction fuel as [|fuel IH]; intros z acc Hacc; [done|]. cbn [decimal_fuel].
  assert (H : all_chars is_digit (String (digit z) acc) = true) by (cbn; by rewrite digit_is_digit).
  destruct (z <? 10)%Z; [done|]. by apply IH.
Qed.
Lemma print_u64_digits z : all_chars is_digit (print_u64 z) = true.
Proof. by apply decimal_fuel_digits. Qed.

Lemma hex_digit_hex d : (0 <= d < 16)%Z -> is_hex (hex_digit d) = true.
Proof.
  intros Hd. assert (Hall : forallb (fun d => is_hex (hex_digit d)) (Z.of_nat <$> seq 0 16) = true)
    by (vm_compute; reflexivity).
  rewrite forallb_forall in Hall. apply Hall. apply in_map_iff.
  exists (Z.to_nat d). split; [lia|]. apply in_seq. lia.
Qed.

Lemma radix_fuel_hex base fuel z acc :
  (2 <= base <= 16)%Z -> all_chars is_hex acc = true -> all_chars is_hex (radix_fuel base fuel z acc) = true.
Proof.
  intros Hb. revert z acc. induction fuel as [|fuel IH]; intros z acc Hacc; [done|]. cbn [radix_fuel].
  pose proof (Z.mod_pos_bound z base ltac:(lia)).
  assert (H1 : all_chars is_hex (String (hex_digit (z mod base)) acc) = true) by (cbn; by rewrite hex_digit_hex by lia).
  destruct (z <? base)%Z; [done|]. by apply IH.
Qed.
Lemma print_hex_hex z : all_chars is_hex (print_hex z) = true.
Proof. by apply radix_fuel_hex. Qed.
Lemma print_octal_hex z : all_chars is_hex (print_octal z) = true.
Proof. by apply radix_fuel_hex. Qed.

Lemma decimal_fuel_nonempty fuel z acc : is_empty acc = false -> is_empty (decimal_fuel fuel z acc) = false.
Proof. revert z acc. induction fuel as [|fuel IH]; intros; [done|]. cbn [decimal_fuel]. destruct (z <? 10)%Z; [done|]. by apply IH. Qed.
Lemma print_u64_nonempty z : is_empty (print_u64 z) = false.
Proof. unfold print_u64. cbn [decimal_fuel]. destruct (z <? 10)%Z; [done|]. by apply (decimal_fuel_nonempty 19). Qed.
Lemma radix_fuel_nonempty base fuel z acc : is_empty acc = false -> is_empty (radix_fuel base fuel z acc) = false.
Proof. revert z acc. induction fuel as [|fuel IH]; intros; [done|]. cbn [radix_fuel]. destruct (z <? base)%Z; [done|]. by apply IH. Qed.
Lemma print_hex_nonempty z : is_empty (print_hex z) = false.
Proof. unfold print_hex. cbn [radix_fuel]. destruct (z <? 16)%Z; [done|]. by apply (radix_fuel_nonempty 16 15). Qed.
Lemma print_octal_nonempty z : is_empty (print_octal z) = false.
Proof. unfold print_octal. cbn [radix_fuel]. destruct (z <? 8)%Z; [done|]. by apply (radix_fuel_nonempty 8 21). Qed.

(** ** Reading a number back *)
Definition digit_value (c : ascii) : Z := Z.of_nat (nat_of_ascii c) - 48.
Fixpoint int_from (acc : Z) (s : string) : Z :=
  match s with
  | EmptyString => acc
  | String c s => int_from (10 * acc + digit_value c) s
  end.
(** [int] of a string of digits. *)
Definition int_of (s : string) : Z := int_from 0 s.

Lemma digit_value_digit z : digit_value (digit z) = (z mod 10)%Z.
Proof.
  unfold digit. pose proof (Z.mod_pos_bound z 10 ltac:(lia)) as Hm.
  assert (Hall : forallb (fun d => Z.eqb (digit_value (ascii_of_byte (byte_of_Z (48 + d)))) d) (Z.of_nat <$> seq 0 10) = true)
    by (vm_compute; reflexivity).
  rewrite forallb_forall in Hall. apply Z.eqb_eq, Hall. apply in_map_iff.
  exists (Z.to_nat (z mod 10)). split; [lia|]. apply in_seq. lia.
Qed.

(** The digits written, read from [a] on, put [z] behind [a]. *)
Lemma int_from_decimal fuel z acc a :
  (0 <= z < 10 ^ Z.of_nat fuel)%Z -> (0 < fuel)%nat ->
  exists n, (0 <= n)%Z /\ int_from a (decimal_fuel fuel z acc) = int_from (a * 10 ^ n + z) acc.
Proof.
  revert z acc. induction fuel as [|fuel IH]; intros z acc Hz Hf; [lia|]. cbn [decimal_fuel].
  destruct (Z.ltb_spec z 10).
  - exists 1%Z. split; [lia|]. cbn [int_from]. rewrite digit_value_digit, Z.mod_small by lia. f_equal. lia.
  - assert (Hp : (10 ^ Z.of_nat (S fuel) = 10 * 10 ^ Z.of_nat fuel)%Z).
    { rewrite Nat2Z.inj_succ, Z.pow_succ_r; lia. }
    assert (Hd : (0 <= z / 10 < 10 ^ Z.of_nat fuel)%Z).
    { split; [apply Z.div_pos; lia|]. apply Z.div_lt_upper_bound; lia. }
    destruct fuel as [|fuel']; [cbn in Hd; assert (1 <= z / 10)%Z by (apply Z.div_le_lower_bound; lia); lia|].
    destruct (IH (z / 10)%Z (String (digit z) acc) Hd ltac:(lia)) as (n & Hn & Hint).
    exists (n + 1)%Z. split; [lia|]. rewrite Hint. cbn [int_from]. rewrite digit_value_digit.
    rewrite Z.pow_add_r by lia. f_equal. pose proof (Z.div_mod z 10 ltac:(lia)). lia.
Qed.

Lemma int_of_print_u64 z : (0 <= z < 2 ^ 64)%Z -> int_of (print_u64 z) = z.
Proof.
  intros Hz. destruct (int_from_decimal 20 z "" 0) as (n & _ & H); [|lia|exact H].
  change (Z.of_nat 20) with 20%Z. assert (2 ^ 64 < 10 ^ 20)%Z by done. lia.
Qed.
Lemma print_int_nonneg z : (0 <= z)%Z -> print_int z = print_u64 z.
Proof. intros Hz. unfold print_int. by rewrite (proj2 (Z.ltb_ge _ _)). Qed.
