(* ===== verification/DmesgReader.v ===== *)
(** * The dmesg reader
    [python_tools/core/modules/dmesg_reader.py] and the registry of
    [core/module_base.py] that polls it: the regular expressions, in the order
    [_parse_message] tries them, the event each one makes, and the reader that
    takes the module's lines out of [dmesg --decode] and reports each of them
    once.  Text is a string of bytes; a character beyond ASCII is its bytes,
    which no class of the patterns treats as a space, digit or quote.  The
    output of the dmesg program is an argument ([None] when it cannot be run). *)
From Stdlib Require Import ZArith QArith Lia.
From Stdlib Require Import Strings.Ascii Strings.String.
From stdpp Require Import base numbers list strings option.
From S2P Require Import Prelude CString PyRe Hooks Console.

#[local] Open Scope string_scope.
#[local] Open Scope list_scope.

(** ** Pattern notation *)
Definition dquote_char : ascii := "034"%char.
Definition lit (s : string) : piece := Atom (Lit s).
Definition spaces : atom := Run false false is_space.               (* \s* *)
Definition spaces1 : atom := Run false true is_space.               (* \s+ *)
Definition word : atom := Run true true not_space.                  (* (\S+) *)
Definition digits : atom := Run true true is_digit.                 (* (\d+) *)
Definition hexs : atom := Run true true is_hex.                     (* ([0-9a-fA-F]+) *)
Definition quoted : atom := Run true true (not_char "'").           (* ([^']+) *)
Definition dquoted : atom := Run true true (not_char dquote_char).  (* the same for the double quote *)

Definition by_process : list atom :=
  [spaces; Lit "by process '"; quoted; Lit "'"; spaces; Lit "(PID"; spaces; digits; Lit ")"].
(** by process '...' (PID ...) and nothing before it. *)
Definition process_pid : re :=
  [lit "by process '"; Atom quoted; lit "'"; Atom spaces; lit "(PID"; Atom spaces; Atom digits; lit ")"].

Definition PHOTON_RE : re :=
  [lit "["; Atom spaces; Atom (Run true true (fun c => is_digit c || Ascii.eqb c ".")); lit "]"; Atom spaces;
   lit "[PHOTON RING]"; Atom spaces; Atom (Run true false (not_char "010"))].

Definition BPF_SUSPICIOUS_RE : re :=
  [lit "SUSPICIOUS *** ftrace hook on BPF function:"; Atom spaces; Atom word; Atom spaces; lit "(addr";
   Atom spaces1; Atom hexs; lit ")"; Optional by_process].
Definition BPF_FTRACE_RE : re :=
  [lit "ftrace filter registered for:"; Atom spaces; Atom word; Atom spaces; lit "(addr";
   Atom spaces1; Atom hexs; lit ")"; Optional by_process].
Definition PRIVESC_RE : re :=
  [lit "Process '"; Atom quoted; lit "'"; Atom spaces; lit "(PID"; Atom spaces; Atom digits; lit ")"; Atom spaces;
   lit "becoming root via commit_creds"].
Definition hook_re (kind : string) : re :=
  [lit "SUSPICIOUS *** ftrace hook on "; Atom word; lit (" detected! Possible " +:+ kind +:+ " rootkit!");
   Atom spaces; lit "(caller:"; Atom spaces; Atom word; lit ")"; Atom spaces] ++ process_pid.
Definition TCP_HOOK_RE : re := hook_re "TCP hiding".
Definition ICMP_HOOK_RE : re := hook_re "ICMP backdoor".
Definition KTHREAD_RE : re :=
  [lit "SUSPICIOUS *** kthread '"; Atom quoted; lit "' spawned! Caller:"; Atom spaces; Atom word; lit ",";
   Atom spaces; lit "process:"; Atom spaces; lit "'"; Atom quoted; lit "'"; Atom spaces; lit "(PID"; Atom spaces;
   Atom digits; lit ")"].
Definition TAINT_CLEARED_RE : re :=
  [lit "SUSPICIOUS *** tainted_mask cleared! Cleared bits:"; Atom spaces; lit "0x"; Atom hexs; Atom spaces;
   lit "(was:"; Atom spaces; lit "0x"; Atom hexs; lit ","; Atom spaces; lit "now:"; Atom spaces; lit "0x";
   Atom hexs; lit ")"].
Definition HIDDEN_TASK_RE : re :=
  [lit "SUSPICIOUS *** suspicious task found in kernel task list:"; Atom spaces; lit "'"; Atom quoted; lit "'";
   Atom spaces; lit "(PID"; Atom spaces; Atom digits; lit ","; Atom spaces; lit "TGID"; Atom spaces; Atom digits;
   lit ")"].
Definition DMESG_CLEAR_RE : re :=
  [lit "SUSPICIOUS *** kernel ring buffer CLEAR (syslog type 5) by process '"; Atom quoted; lit "'"; Atom spaces;
   lit "(PID"; Atom spaces; Atom digits; lit ")"].
Definition TRACE_PID_RE : re :=
  [lit "SUSPICIOUS *** tracepoint probe registered on '"; Atom quoted; lit "' by process '"; Atom quoted; lit "'";
   Atom spaces; lit "(PID"; Atom spaces; Atom digits; lit "),"; Atom spaces; lit "probe function at"; Atom spaces;
   Atom word].
(** The three messages about a path and a process. *)
Definition path_re (what : string) : re :=
  [lit ("SUSPICIOUS *** " +:+ what +:+ " '"); Atom quoted; lit "' by process '"; Atom quoted; lit "'"; Atom spaces;
   lit "(PID"; Atom spaces; Atom digits; lit ")"].
Definition CHDIR_RE : re := path_re "chdir to sensitive path".
Definition FTRACE_WRITE_RE : re := path_re "write to ftrace control file".
Definition READLINK_RE : re := path_re "readlink on sensitive path".
Definition PID_HIDDEN_RE : re :=
  [lit "CRITICAL:"; Atom spaces; Atom word; lit ("(" +:+ String dquote_char ""); Atom dquoted;
   lit (String dquote_char ")"); Atom spaces; lit "-"; Atom spaces; lit "PID"; Atom spaces; Atom digits; Atom spaces;
   lit "exists in tasklist but /proc entry missing"].
Definition FILE_OPEN_RE : re :=
  [lit ("FILE_OPEN path=" +:+ String dquote_char ""); Atom dquoted; lit (String dquote_char " flags=0x"); Atom hexs;
   lit " mode="; Atom word; lit " pid="; Atom digits; lit " ppid="; Atom digits; lit " uid="; Atom digits;
   lit " gid="; Atom digits; lit (" comm=" +:+ String dquote_char ""); Atom dquoted; lit (String dquote_char "")].
Definition LKRG_BYPASS_RE : re :=
  [lit "LKRG message detected in vprintk_emit from caller"; Atom spaces; Atom word; lit ", process '"; Atom quoted;
   lit "'"; Atom spaces; lit "(PID"; Atom spaces; Atom digits; lit ")"].
Definition KPROBE_RE : re := [lit "Kprobe registered for symbol:"; Atom spaces; Atom word].

(** ** Reports *)
Inductive value := VStr (s : string) | VInt (z : Z).
Definition data : Type := list (string * value).
Record report := mk_report { severity : string; ev_type : string; details : data }.

(** [m.group(n)] of a group that takes part in every match. *)
Definition group (g : groups) (n : nat) : string := default "" (mjoin (g !! (n - 1)%nat)).
Definition str (g : groups) (n : nat) : value := VStr (group g n).
Definition num (g : groups) (n : nat) : value := VInt (int_of (group g n)).

(** [if m.group(n): data[key] = ...] *)
Definition when_present (g : groups) (n : nat) (key : string) (v : value) : data :=
  match mjoin (g !! (n - 1)%nat) with
  | Some s => if is_empty s then [] else [(key, v)]
  | None => []
  end.

Definition bpf_data (g : groups) : data :=
  [("detector", VStr "bpf_hook_detector"); ("target_symbol", str g 1); ("target_addr", str g 2);
   ("hook_mechanism", VStr "ftrace")] ++ when_present g 3 "process_name" (str g 3) ++ when_present g 4 "pid" (num g 4).
Definition hook_data (detector : string) (g : groups) : data :=
  [("detector", VStr detector); ("target_symbol", str g 1); ("caller", str g 2); ("process_name", str g 3);
   ("pid", num g 4); ("hook_mechanism", VStr "ftrace")].
Definition path_data (detector key : string) (g : groups) : data :=
  [("detector", VStr detector); (key, str g 1); ("process_name", str g 2); ("pid", num g 3)].

Record rule := mk_rule { pattern : re; report_of : groups -> report }.

(** The patterns in the order they are tried. *)
Definition rules : list rule := [
  mk_rule BPF_SUSPICIOUS_RE (fun g => mk_report "critical" "bpf_hook_detected" (bpf_data g));
  mk_rule BPF_FTRACE_RE (fun g => mk_report "info" "ftrace_filter_registered" (bpf_data g));
  mk_rule PRIVESC_RE (fun g => mk_report "critical" "privilege_escalation"
    [("detector", VStr "become_root_detector"); ("process_name", str g 1); ("pid", num g 2);
     ("target_symbol", VStr "commit_creds"); ("hook_mechanism", VStr "ftrace")]);
  mk_rule TCP_HOOK_RE (fun g => mk_report "critical" "tcp_hook_detected" (hook_data "tcp_hiding_detector" g));
  mk_rule ICMP_HOOK_RE (fun g => mk_report "critical" "icmp_hook_detected" (hook_data "icmp_hook_detector" g));
  mk_rule KTHREAD_RE (fun g => mk_report "critical" "suspicious_kthread"
    [("detector", VStr "reset_tainted_detector"); ("thread_name", str g 1); ("caller", str g 2);
     ("process_name", str g 3); ("pid", num g 4)]);
  mk_rule TAINT_CLEARED_RE (fun g => mk_report "critical" "taint_cleared"
    [("detector", VStr "reset_tainted_detector"); ("cleared_bits", str g 1); ("old_mask", str g 2);
     ("new_mask", str g 3)]);
  mk_rule HIDDEN_TASK_RE (fun g => mk_report "critical" "hidden_task_detected"
    [("detector", VStr "reset_tainted_detector"); ("process_name", str g 1); ("pid", num g 2); ("tgid", num g 3)]);
  mk_rule DMESG_CLEAR_RE (fun g => mk_report "critical" "dmesg_cleared"
    [("detector", VStr "clear_taint_dmesg_detector"); ("process_name", str g 1); ("pid", num g 2)]);
  mk_rule FTRACE_WRITE_RE (fun g => mk_report "critical" "ftrace_tamper"
    (path_data "hooks_write_detector" "target_file" g));
  mk_rule TRACE_PID_RE (fun g => mk_report "high" "pid_hiding_hook"
    [("detector", VStr "trace_pid_detector"); ("tracepoint", str g 1); ("process_name", str g 2); ("pid", num g 3);
     ("probe_function", str g 4)]);
  mk_rule CHDIR_RE (fun g => mk_report "medium" "suspicious_chdir" (path_data "hiding_chdir_detector" "path" g));
  mk_rule READLINK_RE (fun g => mk_report "medium" "suspicious_readlink"
    (path_data "hiding_readlink_detector" "path" g));
  mk_rule PID_HIDDEN_RE (fun g => mk_report "critical" "pid_hidden"
    [("detector", VStr "hiding_stat_detector"); ("syscall", str g 1); ("path", str g 2); ("pid", num g 3)]);
  mk_rule FILE_OPEN_RE (fun g => mk_report "high" "sensitive_file_access"
    [("detector", VStr "hook_file_access_detector"); ("path", str g 1); ("flags", str g 2); ("mode", str g 3);
     ("pid", num g 4); ("ppid", num g 5); ("uid", num g 6); ("gid", num g 7); ("process_name", str g 8)]);
  mk_rule LKRG_BYPASS_RE (fun g => mk_report "high" "lkrg_bypass_attempt"
    [("detector", VStr "lkrg_bypass_detector"); ("caller", str g 1); ("process_name", str g 2); ("pid", num g 3)])
].

Fixpoint first_rule (l : list rule) (msg : string) : option report :=
  match l with
  | [] => None
  | r :: l =>
      match search (pattern r) msg with
      | Some g => Some (report_of r g)
      | None => first_rule l msg
      end
  end.

Definition parse_message (msg : string) : report :=
  match first_rule rules msg with
  | Some r => r
  | None =>
      if strstr_found msg "SUSPICIOUS" then mk_report "high" "suspicious_probe" [("message", VStr msg)] else
      match search KPROBE_RE msg with
      | Some g => mk_report "info" "kprobe_registered" [("symbol", str g 1)]
      | None => mk_report "info" "photon_ring_generic" [("message", VStr msg)]
      end
  end.

(** ** The reader *)
(** [str.strip] *)
Fixpoint lstrip (s : string) : string :=
  match s with
  | EmptyString => EmptyString
  | String c s' => if is_space c then lstrip s' else s
  end.
Fixpoint rstrip (s : string) : string :=
  match s with
  | EmptyString => EmptyString
  | String c s =>
      let s := rstrip s in
      if is_empty s && is_space c then EmptyString else String c s
  end.
Definition strip (s : string) : string := rstrip (lstrip s).

(** [float] of digits with at most one point, exactly; [None]: ValueError. *)
Fixpoint float_from (s : string) (n : Z) (decimals : option nat) (any : bool) : option Q :=
  match s with
  | EmptyString => if any then Some (Qred (n # Z.to_pos (10 ^ Z.of_nat (default 0%nat decimals)))) else None
  | String c s =>
      if is_digit c then float_from s (10 * n + digit_value c) (S <$> decimals) true
      else if Ascii.eqb c "." then
        match decimals with None => float_from s n (Some 0%nat) any | Some _ => None end
      else None
  end.
Definition float_of (s : string) : option Q := float_from s 0 None false.

#[export] Instance Q_eq_dec : EqDecision Q.
Proof. solve_decision. Defined.

Record event := mk_event { seq : Z; ts : Q; type : string; ev_data : data; ev_severity : string; source : string }.

Record reader := mk_reader { last_ts : Q; seen : list (Q * string); running : bool }.
Definition new_reader : reader := mk_reader 0 [] false.
Definition start (r : reader) : reader := mk_reader (last_ts r) (seen r) true.
Definition stop (r : reader) : reader := mk_reader (last_ts r) (seen r) false.

(** [dict.setdefault] *)
Definition setdefault (key : string) (v : value) (d : data) : data :=
  if existsb (fun kv => String.eqb (fst kv) key) d then d else d ++ [(key, v)].

(** The loop over the lines; [None]: [float] raised. *)
Fixpoint poll_lines (lines : list string) (r : reader) : option (list event * reader) :=
  match lines with
  | [] => Some ([], r)
  | line :: lines =>
      match search PHOTON_RE line with
      | None => poll_lines lines r
      | Some m =>
          t ← float_of (group m 1);
          if negb (Qle_bool (last_ts r) t) then poll_lines lines r else
          let msg := strip (group m 2) in
          if decide ((t, msg) ∈ seen r) then poll_lines lines r else
          let r := mk_reader (last_ts r) ((t, msg) :: seen r) (running r) in
          let p := parse_message msg in
          '(events, r) ← poll_lines lines r;
          Some (mk_event 0 t (ev_type p) (setdefault "message" (VStr msg) (details p)) (severity p) "kprobe_reader"
                  :: events, r)
      end
  end.

(** [str.splitlines]: the line cut by each break, with a carriage return and a
    line feed as one break; no empty line after the last. *)
Definition line_break (c : ascii) : bool := in_range 10 13 c || in_range 28 30 c.
Fixpoint split_from (line s : string) : list string :=
  match s with
  | EmptyString => if is_empty line then [] else [line]
  | String c s' =>
      if line_break c then
        line :: match s' with
                | String d s'' =>
                    if Ascii.eqb c "013" && Ascii.eqb d "010" then split_from EmptyString s''
                    else split_from EmptyString s'
                | EmptyString => []
                end
      else split_from (line +:+ String c EmptyString) s'
  end.
Definition splitlines (s : string) : list string := split_from EmptyString s.

Definition poll (output : option string) (r : reader) : option (list event * reader) :=
  if negb (running r) then Some ([], r) else
  match output with
  | None => Some ([], r)
  | Some text => poll_lines (splitlines text) r
  end.

(** ** The registry, with the one module there is *)
Record registry := mk_registry { next_seq : Z; module : reader }.

Fixpoint number_events (n : Z) (l : list event) : list event :=
  match l with
  | [] => []
  | e :: l => mk_event n (ts e) (type e) (ev_data e) (ev_severity e) (source e) :: number_events (n + 1) l
  end.

Definition poll_all (output : option string) (g : registry) : option (list event * registry) :=
  '(events, r) ← poll output (module g);
  Some (number_events (next_seq g) events, mk_registry (next_seq g + Z.of_nat (length events)) r).

(** The daemon's rounds: the events it has logged after so many polls, and its
    state; [None]: an exception has ended it. *)
Fixpoint daemon (outputs : list (option string)) (g : registry) : list event * option registry :=
  match outputs with
  | [] => ([], Some g)
  | o :: outputs =>
      match poll_all o g with
      | None => ([], None)
      | Some (now, g) => let '(later, g) := daemon outputs g in (now ++ later, g)
      end
  end.
