(* ===== verification/DmesgFacts.v ===== *)
(** * What the dmesg reader makes of the detectors' lines
    The text a detector prints and the pattern the reader has for it: each
    line is recognised with the values it was printed with ([announces]),
    provided they fit the pattern's classes and nothing in the text looks like
    an earlier pattern.  Then the lines that no pattern recognises, and the
    reader over time. *)
From Stdlib Require Import ZArith QArith Lia.
From Stdlib Require Import Strings.Ascii Strings.String.
From stdpp Require Import base numbers list strings option.
From S2P Require Import Prelude CString Kernel PyRe Hooks Console ProbeDetectors BecomeRoot ResetTainted FilterIp.
From S2P Require Import FileAccess Hiding SimpleDetectors DmesgReader.

#[local] Open Scope string_scope.
#[local] Open Scope list_scope.
#[local] Arguments String.append !_ _ : simpl nomatch.

(** ** Stepping through a pattern *)
Section steps.
Context {R : Type}.
Implicit Types (k : string -> groups -> option R).

Lemma piece_atom a r s g k x :
  atoms [a] s g (fun s g => pieces r s g k) = Some x -> pieces (Atom a :: r) s g k = Some x.
Proof. done. Qed.
Lemma piece_present l r s g k x :
  atoms l s g (fun s g => pieces r s g k) = Some x -> pieces (Optional l :: r) s g k = Some x.
Proof. intros H. cbn [pieces]. by rewrite H. Qed.
Lemma atoms_lit t l s s' g k x :
  strip_prefix t s = Some s' -> atoms l s' g k = Some x -> atoms (Lit t :: l) s g k = Some x.
Proof. intros H. cbn [atoms]. by rewrite H. Qed.
Lemma atoms_run y rest captured one class l s g k x :
  s = y +:+ rest -> all_chars class y = true -> stops class rest = true -> one && is_empty y = false ->
  atoms l rest (capture captured y g) k = Some x -> atoms (Run captured one class :: l) s g k = Some x.
Proof.
  intros -> Hy Hs He H. cbn [atoms]. apply run_all; [done..|]. cbn [append]. by rewrite He.
Qed.
(** A word that the next literal is taken back from. *)
Lemma atoms_run_back y c z rest captured class l s g k x :
  s = y +:+ String c (z +:+ rest) -> all_chars class y = true -> all_chars class (String c z) = true ->
  stops class rest = true -> is_empty y = false ->
  (forall d z1 z2, String c z = String d z1 +:+ z2 ->
     atoms l (z2 +:+ rest) (capture captured (y +:+ String d z1) g) k = None) ->
  atoms l (String c (z +:+ rest)) (capture captured y g) k = Some x ->
  atoms (Run captured true class :: l) s g k = Some x.
Proof.
  intros -> Hy Hz Hs He Hno H. cbn [atoms]. apply (run_back class "" y (String c z) rest); [done..| |].
  - intros d z1 z2 E. cbn [append]. replace (is_empty (y +:+ String d z1)) with false; [by apply Hno|]. by destruct y.
  - cbn [append]. by rewrite He.
Qed.
End steps.

Lemma strip_prefix_none c p s : all_chars (not_char c) s = true -> strip_prefix (String c p) s = None.
Proof.
  destruct s as [|d s]; [done|]. cbn. intros [H _]%andb_true_iff. unfold not_char in H.
  by destruct (Ascii.eqb_spec c d) as [->|]; [rewrite Ascii.eqb_refl in H|].
Qed.

(** ** The text of a line *)
Definition word_like (s : string) : Prop := all_chars not_space s = true /\ is_empty s = false.
Definition quotable (s : string) : Prop := all_chars (not_char "'") s = true /\ is_empty s = false.
Definition dquotable (s : string) : Prop := all_chars (not_char dquote_char) s = true /\ is_empty s = false.
Definition number (z : Z) : Prop := (0 <= z < 2 ^ 64)%Z.

Lemma hex_not_space s : all_chars is_hex s = true -> all_chars not_space s = true.
Proof.
  apply all_chars_impl. by intros [[] [] [] [] [] [] [] []].
Qed.

Lemma digits_not_space s : all_chars PyRe.is_digit s = true -> all_chars not_space s = true.
Proof.
  apply all_chars_impl. by intros [[] [] [] [] [] [] [] []].
Qed.
Lemma stops_word y rest : all_chars not_space y = true -> is_empty y = false -> stops is_space (y +:+ rest) = true.
Proof. destruct y as [|c y]; [done|]. cbn. by intros [? _]%andb_true_iff. Qed.

Lemma octal_word z : all_chars not_space (String "0" (print_octal z)) = true.
Proof. exact (hex_not_space (print_octal z) (print_octal_hex z)). Qed.

Ltac fits :=
  lazymatch goal with
  | |- all_chars not_space (print_hex _) = true => apply hex_not_space, print_hex_hex
  | |- all_chars not_space (print_u64 _) = true => apply digits_not_space, print_u64_digits
  | |- all_chars not_space (String _ (print_octal _)) = true => apply octal_word
  | |- all_chars _ (print_hex _) = true => apply print_hex_hex
  | |- all_chars _ (print_u64 _) = true => apply print_u64_digits
  | |- context [is_empty (print_hex _)] => apply print_hex_nonempty
  | |- context [is_empty (print_u64 _)] => apply print_u64_nonempty
  | |- _ => first [assumption | reflexivity]
  end.
Ltac halts :=
  lazymatch goal with
  | |- stops _ (String _ _) = true => reflexivity
  | |- stops _ (_ +:+ _) = true => apply stops_word; fits
  end.
Ltac re_step :=
  lazymatch goal with
  | |- pieces [] _ _ _ = _ => reflexivity
  | |- pieces (Atom _ :: _) _ _ _ = _ => apply piece_atom
  | |- pieces (Optional _ :: _) _ _ _ = _ => apply piece_present
  | |- atoms [] _ _ _ = _ => cbn [atoms]
  | |- atoms (Lit _ :: _) _ _ _ = _ => eapply atoms_lit; [reflexivity|]
  | |- atoms (Run false _ _ :: _) _ _ _ = _ =>
      first [ eapply (atoms_run " "); [reflexivity|reflexivity|halts|reflexivity|]
            | eapply (atoms_run ""); [reflexivity|reflexivity|halts|reflexivity|] ]
  | |- atoms (Run true _ _ :: _) (?y +:+ ?rest) _ _ = _ =>
      eapply (atoms_run y rest); [reflexivity|fits|reflexivity|fits|]
  | |- atoms (Run true _ _ :: _) (String ?c (?y +:+ ?rest)) _ _ = _ =>
      eapply (atoms_run (String c y) rest); [reflexivity|fits|reflexivity|fits|]
  end.
(** A word and the character after it, which the next literal needs. *)
Ltac give_back :=
  lazymatch goal with
  | |- atoms [Run true true _] (?y +:+ String ?c ?rest) _ _ = _ =>
      apply (atoms_run_back y c "" rest); [reflexivity|fits|reflexivity|reflexivity|fits| |]
  end; [intros d z1 z2 E; injection E as <- E; by destruct z1, z2|].

(** The last character is there and is no space. *)
Fixpoint tidy (s : string) : bool :=
  match s with
  | EmptyString => false
  | String c EmptyString => negb (is_space c)
  | String _ s => tidy s
  end.
Lemma tidy_cons c s : tidy s = true -> tidy (String c s) = true.
Proof. by destruct s. Qed.
Lemma tidy_app a s : tidy s = true -> tidy (a +:+ s) = true.
Proof. intros H. induction a as [|c a IH]; [done|]. by apply (tidy_cons c (a +:+ s)). Qed.
Lemma rstrip_tidy s : tidy s = true -> rstrip s = s.
Proof.
  induction s as [|c s IH]; [done|]. intros H. cbn [rstrip]. destruct s as [|d s].
  - cbn in H |- *. by destruct (is_space c).
  - rewrite IH by exact H. done.
Qed.

(** What follows the module's tag. *)
Definition message (sprint_symbol : Z -> string) (l : line) : string :=
  default "" (strip_prefix "[PHOTON RING] " (printed sprint_symbol l)).

(** The text of a line with its format filled in. *)
Ltac with_text sprint_symbol l after k :=
  let t := eval vm_compute in (text l) in
  let l' := eval hnf in l in
  lazymatch l' with
  | mk_line _ _ ?a =>
      let m := eval cbv -[String.append print_int print_u64 print_hex print_octal is_writeish ctx_comm ctx_pid ppid
        kuid kgid open_mode ts_ns comm pid Z.land Z.lnot] in (after (Console.render sprint_symbol t a)) in
      k m
  end.
Ltac show_message sprint_symbol l :=
  with_text sprint_symbol l (fun s => default "" (strip_prefix "[PHOTON RING] " s)) ltac:(fun m => change (message sprint_symbol l) with m).
Ltac show_printed sprint_symbol l :=
  with_text sprint_symbol l (fun s : string => s) ltac:(fun m => change (printed sprint_symbol l) with m).
Section lines.
Context (sprint_symbol : Z -> string).

(** The lines of the hook watchers ([FilterIp]), with their arguments. *)
Definition bpf_line (watched : bool) (name : string) (addr : Z) (t : task) : line :=
  mk_line (if watched then KERN_ALERT else KERN_INFO)
    (if watched then "[PHOTON RING] SUSPICIOUS *** ftrace hook on BPF function: %s (addr %lx) by process '%s' (PID %d)"
     else "[PHOTON RING] ftrace filter registered for: %s (addr %lx) by process '%s' (PID %d)")
    [AStr name; ANum addr; AStr (comm t); ANum (pid t)].
Definition hook_line (u : watcher) (name : string) (ops : Z) (t : task) : line :=
  mk_line KERN_ALERT (alert_text u) [AStr name; ANum ops; AStr (comm t); ANum (pid t)].

Definition task_ok (t : task) : Prop := quotable (comm t) /\ number (pid t).
Definition task_data (t : task) : data := [("process_name", VStr (comm t)); ("pid", VInt (pid t))].
Definition from_detector (detector : string) (d : data) : data := ("detector", VStr detector) :: d.

(** The sentence's full stop stays with the function. *)
Definition tracepoint_report (name : string) (t : task) (fn : Z) : report :=
  mk_report "high" "pid_hiding_hook"
    (from_detector "trace_pid_detector" (("tracepoint", VStr name) :: task_data t ++
      [("probe_function", VStr (sprint_symbol fn +:+ "."))])).
Definition hidden_report (syscall path : string) (target : Z) : report :=
  mk_report "critical" "pid_hidden"
    (from_detector "hiding_stat_detector" [("syscall", VStr syscall); ("path", VStr path); ("pid", VInt target)]).

Definition open_report (path : string) (fl : Z) (ctx : open_call_ctx) : report :=
  mk_report "high" "sensitive_file_access"
    (from_detector "hook_file_access_detector" [("path", VStr path); ("flags", VStr (print_hex fl));
      ("mode", VStr (String "0" (print_octal (open_mode ctx)))); ("pid", VInt (ctx_pid ctx)); ("ppid", VInt (ppid ctx));
      ("uid", VInt (kuid ctx)); ("gid", VInt (kgid ctx)); ("process_name", VStr (ctx_comm ctx))]).

(** [announces n l r]: the [n]-th pattern is the one for the line [l], whose
    values [r] has. *)
Inductive announces : nat -> line -> report -> Prop :=
  | announce_bpf (watched : bool) name addr t :
      word_like name -> task_ok t ->
      announces (if watched then 0 else 1)%nat (bpf_line watched name addr t)
        (mk_report (if watched then "critical" else "info")
           (if watched then "bpf_hook_detected" else "ftrace_filter_registered")
           (from_detector "bpf_hook_detector" ([("target_symbol", VStr name); ("target_addr", VStr (print_hex addr));
             ("hook_mechanism", VStr "ftrace")] ++ task_data t)))
  | announce_tcp name ops t :
      word_like name -> word_like (sprint_symbol ops) -> task_ok t ->
      announces 3 (hook_line tcp_watcher name ops t)
        (mk_report "critical" "tcp_hook_detected"
           (from_detector "tcp_hiding_detector" ([("target_symbol", VStr name); ("caller", VStr (sprint_symbol ops))] ++
             task_data t ++ [("hook_mechanism", VStr "ftrace")])))
  | announce_icmp name ops t :
      word_like name -> word_like (sprint_symbol ops) -> task_ok t ->
      announces 4 (hook_line icmp_watcher name ops t)
        (mk_report "critical" "icmp_hook_detected"
           (from_detector "icmp_hook_detector" ([("target_symbol", VStr name); ("caller", VStr (sprint_symbol ops))] ++
             task_data t ++ [("hook_mechanism", VStr "ftrace")])))
  | announce_kthread name ip t :
      quotable name -> word_like (sprint_symbol ip) -> task_ok t ->
      announces 5 (thread_line name ip t)
        (mk_report "critical" "suspicious_kthread"
           (from_detector "reset_tainted_detector" ([("thread_name", VStr name); ("caller", VStr (sprint_symbol ip))] ++ task_data t)))
  | announce_taint baseline cur :
      announces 6 (cleared_line baseline cur)
        (mk_report "critical" "taint_cleared"
           (from_detector "reset_tainted_detector" [("cleared_bits", VStr (print_hex (Z.land baseline (Z.lnot cur))));
             ("old_mask", VStr (print_hex baseline)); ("new_mask", VStr (print_hex cur))]))
  | announce_task t tgid :
      task_ok t -> number tgid ->
      announces 7 (scan_line t tgid)
        (mk_report "critical" "hidden_task_detected"
           (from_detector "reset_tainted_detector" (task_data t ++ [("tgid", VInt tgid)])))
  | announce_clear t :
      task_ok t ->
      announces 8 (dmesg_alert t)
        (mk_report "critical" "dmesg_cleared" (from_detector "clear_taint_dmesg_detector" (task_data t)))
  | announce_write name t :
      quotable name -> task_ok t ->
      announces 9 (write_alert name t)
        (mk_report "critical" "ftrace_tamper" (from_detector "hooks_write_detector" (("target_file", VStr name) :: task_data t)))
  | announce_tracepoint name t fn :
      quotable name -> word_like (sprint_symbol fn) -> task_ok t ->
      announces 10 (tracepoint_alert name t fn)
        (tracepoint_report name t fn)
  | announce_chdir path t :
      quotable path -> task_ok t ->
      announces 11 (chdir_alert path t)
        (mk_report "medium" "suspicious_chdir" (from_detector "hiding_chdir_detector" (("path", VStr path) :: task_data t)))
  | announce_readlink name t ip :
      quotable name -> task_ok t ->
      announces 12 (readlink_alert name t ip)
        (mk_report "medium" "suspicious_readlink" (from_detector "hiding_readlink_detector" (("path", VStr name) :: task_data t)))
  | announce_hidden syscall path target :
      word_like syscall -> word_like path -> dquotable path -> all_chars (not_char "(") path = true -> number target ->
      announces 13 (hidden_line syscall path target)
        (hidden_report syscall path target)
  | announce_file path fl ctx :
      dquotable path -> dquotable (ctx_comm ctx) -> number (ctx_pid ctx) -> number (ppid ctx) ->
      number (kuid ctx) -> number (kgid ctx) ->
      announces 14 (open_line path fl ctx)
        (open_report path fl ctx)
  | announce_lkrg ip t :
      word_like (sprint_symbol ip) -> task_ok t ->
      announces 15 (lkrg_alert ip t)
        (mk_report "high" "lkrg_bypass_attempt"
           (from_detector "lkrg_bypass_detector" (("caller", VStr (sprint_symbol ip)) :: task_data t))).

(** The text lacks a literal of every pattern tried before the [n]-th. *)
Definition lacks (msg : string) (r : rule) : bool :=
  existsb (fun l => negb (strstr_found msg l)) (literals (pattern r)).
Definition unclaimed (n : nat) (msg : string) : bool := forallb (lacks msg) (take n rules).

Lemma lacks_none msg r : lacks msg r = true -> search (pattern r) msg = None.
Proof.
  intros (l & Hl & Hs)%existsb_exists. apply (search_lacks _ _ l); [by apply list_elem_of_In|].
  by apply negb_true_iff.
Qed.

Lemma first_rule_skip l n r msg g :
  l !! n = Some r -> forallb (lacks msg) (take n l) = true ->
  search (pattern r) msg = Some g -> first_rule l msg = Some (report_of r g).
Proof.
  revert n. induction l as [|r0 l IH]; intros [|n] Hn Hu Hs; try done; cbn [first_rule].
  - cbn in Hn. injection Hn as ->. by rewrite Hs.
  - cbn in Hu. apply andb_true_iff in Hu as [H0 Hu]. rewrite lacks_none by done. by apply (IH n).
Qed.

Lemma read_by n r msg g rep :
  rules !! n = Some r -> unclaimed n msg = true -> match_here (pattern r) msg = Some g -> report_of r g = rep ->
  parse_message msg = rep.
Proof.
  intros Hr Hu Hm <-. unfold parse_message. by rewrite (first_rule_skip rules n r msg g Hr Hu (search_here _ _ _ Hm)).
Qed.

Ltac recognised n l :=
  eapply (read_by n); [reflexivity|assumption
    |show_message sprint_symbol l; unfold number in *; rewrite ?print_int_nonneg by lia;
     unfold match_here; cbv [pattern BPF_SUSPICIOUS_RE BPF_FTRACE_RE TCP_HOOK_RE ICMP_HOOK_RE KTHREAD_RE
       TAINT_CLEARED_RE HIDDEN_TASK_RE DMESG_CLEAR_RE FTRACE_WRITE_RE TRACE_PID_RE CHDIR_RE READLINK_RE PID_HIDDEN_RE
       FILE_OPEN_RE LKRG_BYPASS_RE by_process process_pid hook_re path_re lit spaces spaces1 word digits hexs quoted
       dquoted app]; repeat first [re_step|give_back]
    |].

(** The captured texts are the values printed. *)
Ltac reports :=
  cbv [report_of tracepoint_report hidden_report open_report bpf_data hook_data path_data when_present str num group from_detector task_data capture];
  cbn -[int_of print_u64 print_hex print_octal append];
  repeat match goal with H : is_empty ?x = false |- context [is_empty ?x] => rewrite H end;
  rewrite ?print_u64_nonempty; cbn -[int_of print_u64 print_hex print_octal append]; by rewrite ?int_of_print_u64.

(** Every line has the tag, and its text neither begins nor ends with a space. *)
Definition tagged (l : line) : Prop :=
  printed sprint_symbol l = "[PHOTON RING] " +:+ message sprint_symbol l /\
  stops is_space (message sprint_symbol l) = true /\ tidy (message sprint_symbol l) = true.

Lemma message_printed l :
  strip_prefix "[PHOTON RING] " (printed sprint_symbol l) <> None ->
  printed sprint_symbol l = "[PHOTON RING] " +:+ message sprint_symbol l.
Proof.
  unfold message. destruct (strip_prefix _ (printed sprint_symbol l)) as [m|] eqn:E; [intros _|done].
  by apply strip_prefix_some in E.
Qed.

Ltac tidy_end :=
  lazymatch goal with
  | |- tidy (String _ EmptyString) = true => reflexivity
  | |- tidy (String _ _) = true => apply tidy_cons
  | |- tidy (_ +:+ EmptyString) = true => rewrite append_nil
  | |- tidy (_ +:+ _) = true => apply tidy_app
  | |- tidy (if ?b then _ else _) = true => destruct b
  end.
Ltac is_tagged l :=
  split_and!; [apply message_printed; show_printed sprint_symbol l; by cbn|show_message sprint_symbol l; reflexivity|show_message sprint_symbol l; cbn [append]; repeat tidy_end].

Lemma announced_tagged n l r : announces n l r -> tagged l.
Proof.
  destruct 1 as [[] name addr t ? ?|name ops t ? ? ?|name ops t ? ? ?|name ip t ? ? ?|baseline cur|t tgid ? ?|t ?|
    name t ? ?|name t fn ? ? ?|path t ? ?|name t ip ? ?|syscall path target ? ? ? ? ?|path fl ctx ? ? ? ? ? ?|ip t ? ?].
  - is_tagged (bpf_line true name addr t).
  - is_tagged (bpf_line false name addr t).
  - is_tagged (hook_line tcp_watcher name ops t).
  - is_tagged (hook_line icmp_watcher name ops t).
  - is_tagged (thread_line name ip t).
  - is_tagged (cleared_line baseline cur).
  - is_tagged (scan_line t tgid).
  - is_tagged (dmesg_alert t).
  - is_tagged (write_alert name t).
  - is_tagged (tracepoint_alert name t fn).
  - is_tagged (chdir_alert path t).
  - is_tagged (readlink_alert name t ip).
  - is_tagged (hidden_line syscall path target).
  - is_tagged (open_line path fl ctx).
  - is_tagged (lkrg_alert ip t).
Qed.

Lemma tracepoint_read name t fn :
  quotable name -> word_like (sprint_symbol fn) -> task_ok t ->
  unclaimed 10 (message sprint_symbol (tracepoint_alert name t fn)) = true ->
  parse_message (message sprint_symbol (tracepoint_alert name t fn)) = tracepoint_report name t fn.
Proof.
  intros [] [] [[] Hp] Hu.
  recognised 10%nat (tracepoint_alert name t fn).
  - eapply (atoms_run (sprint_symbol fn +:+ ".") " Possible PID-hiding rootkit (trace_pid)!");
      [by rewrite append_assoc|by rewrite all_chars_app, andb_true_iff|reflexivity|by destruct (sprint_symbol fn)|reflexivity].
  - reports.
Qed.

(** The path is given back up to the parenthesis in front of it. *)
Lemma hidden_read syscall path target :
  word_like syscall -> word_like path -> dquotable path -> all_chars (not_char "(") path = true -> number target ->
  unclaimed 13 (message sprint_symbol (hidden_line syscall path target)) = true ->
  parse_message (message sprint_symbol (hidden_line syscall path target)) = hidden_report syscall path target.
Proof.
  intros [] [Hw _] [] Hc Ht Hu.
  recognised 13%nat (hidden_line syscall path target).
  { apply (atoms_run_back syscall "(" (String dquote_char (path +:+ String dquote_char ")"))
      (" - PID " +:+ (print_u64 target +:+ " exists in tasklist but /proc entry missing at VFS level!")));
      [cbn; by rewrite append_assoc|assumption|cbn; by rewrite all_chars_app, Hw|reflexivity|assumption| |].
    - intros d z1 z2 E. injection E as <- E. cbn [pieces atoms].
      change ("(" +:+ String dquote_char "") with (String "(" (String dquote_char "")).
      rewrite strip_prefix_none; [done|].
      assert (Hz : all_chars (not_char "(") (z1 +:+ z2) = true) by (rewrite <- E; cbn; by rewrite all_chars_app, Hc).
      rewrite all_chars_app in Hz. apply andb_true_iff in Hz as [_ Hz]. rewrite all_chars_app, Hz. cbn.
      rewrite all_chars_app, (all_chars_impl PyRe.is_digit (not_char "(")); [done| |apply print_u64_digits].
      by intros [[] [] [] [] [] [] [] []].
    - cbn [append]. rewrite append_assoc. cbn [append]. repeat re_step. }
  reports.
Qed.

Ltac read_line n l := recognised n l; reports.

(** Each line is read back as what was printed. *)
Lemma announced_read n l r :
  announces n l r -> unclaimed n (message sprint_symbol l) = true -> parse_message (message sprint_symbol l) = r.
Proof.
  destruct 1 as [[] name addr t [] [[] Hp]|name ops t [] [] [[] Hp]|name ops t [] [] [[] Hp]|name ip t [] [] [[] Hp]|
    baseline cur|t tgid [[] Hp] Ht|t [[] Hp]|name t [] [[] Hp]|name t fn [] [] [[] Hp]|path t [] [[] Hp]|
    name t ip [] [[] Hp]|syscall path target [] [] [] Hc Ht|path fl ctx [] [] Hp Hpp Huid Hgid|ip t [] [[] Hp]]; intros Hu.
  - read_line 0%nat (bpf_line true name addr t).
  - read_line 1%nat (bpf_line false name addr t).
  - read_line 3%nat (hook_line tcp_watcher name ops t).
  - read_line 4%nat (hook_line icmp_watcher name ops t).
  - read_line 5%nat (thread_line name ip t).
  - read_line 6%nat (cleared_line baseline cur).
  - read_line 7%nat (scan_line t tgid).
  - read_line 8%nat (dmesg_alert t).
  - read_line 9%nat (write_alert name t).
  - by apply tracepoint_read.
  - read_line 11%nat (chdir_alert path t).
  - read_line 12%nat (readlink_alert name t ip).
  - by apply hidden_read.
  - read_line 14%nat (open_line path fl ctx).
  - read_line 15%nat (lkrg_alert ip t).
Qed.
End lines.
