(* ===== verification/DmesgLog.v ===== *)
(** * The reader over the kernel log
    What the reader makes of whole dumps of the log: every line of a detector
    becomes one event with what was printed, no matter how often it is dumped
    ([daemon_reports]); over a run of the daemon no event is repeated, none is
    missing and the numbers have no gap ([daemon_exact]). *)
From Stdlib Require Import ZArith QArith Lia.
From Stdlib Require Import Strings.Ascii Strings.String.
From stdpp Require Import base numbers list strings option.
From S2P Require Import Prelude CString Kernel PyRe Hooks Console DmesgReader DmesgFacts.

#[local] Open Scope string_scope.
#[local] Open Scope list_scope.
#[local] Arguments String.append !_ _ : simpl nomatch.

(** The registry after [discover] and [start_all]. *)
Definition new_daemon : registry := mk_registry 0 (start new_reader).

(** ** Lines *)

Definition one_line (s : string) : Prop := all_chars (fun c => negb (line_break c)) s = true.

Lemma one_line_app a b : one_line (a +:+ b) -> one_line b.
Proof. unfold one_line. rewrite all_chars_app. by intros [_ ?]%andb_true_iff. Qed.
Lemma one_line_cons c b : one_line (String c b) -> one_line b.
Proof. apply (one_line_app (String c "")). Qed.

Lemma split_line line s rest :
  one_line s -> split_from line (s +:+ String "010" rest) = (line +:+ s) :: splitlines rest.
Proof.
  unfold one_line. revert line. induction s as [|c s IH]; intros line H.
  - cbn [append]. rewrite append_nil. by destruct rest.
  - cbn in H. apply andb_true_iff in H as [Hc H]. cbn [append split_from].
    apply negb_true_iff in Hc. rewrite Hc, IH by done. by rewrite append_cons.
Qed.

Fixpoint dump (lines : list string) : string :=
  match lines with
  | [] => ""
  | l :: lines => l +:+ String "010" (dump lines)
  end.
Lemma splitlines_dump lines : Forall one_line lines -> splitlines (dump lines) = lines.
Proof.
  induction 1 as [|l lines Hl _ IH]; [done|]. cbn [dump]. unfold splitlines. rewrite split_line by done.
  cbn [append]. by rewrite IH.
Qed.

(** A time is never negative: there is no sign. *)
Lemma float_from_nonneg s n d any q : (0 <= n)%Z -> float_from s n d any = Some q -> Qle_bool 0 q = true.
Proof.
  revert n d any. induction s as [|c s IH]; intros n d any Hn H; cbn [float_from] in H.
  - destruct any; [|done]. injection H as <-. apply Qle_bool_iff. rewrite Qred_correct. unfold Qle. cbn. lia.
  - destruct (PyRe.is_digit c) eqn:Hc.
    + apply IH in H; [done|]. unfold digit_value, PyRe.is_digit, in_range in *.
      apply andb_true_iff in Hc as [Hc _]. apply Nat.leb_le in Hc. lia.
    + destruct (Ascii.eqb c "."); [|done]. destruct d; [done|]. by apply IH in H.
Qed.
Lemma float_nonneg s q : float_of s = Some q -> Qle_bool 0 q = true.
Proof. by apply float_from_nonneg. Qed.

(** ** What the log holds *)
Section log.
Context (sprint_symbol : Z -> string).

(** A line of the log: facility and level, time as written, the line and what
    the reader should report. *)
Record entry := mk_entry {
  facility : string;
  pad : string;
  stamp : string;
  time : Q;
  logged : line;
  expected : report;
}.
Definition text_of (e : entry) : string :=
  dmesg_line sprint_symbol (facility e) (pad e +:+ stamp e) (logged e).
Definition key_of (e : entry) : Q * string := (time e, message sprint_symbol (logged e)).
Definition event_of (e : entry) : event :=
  mk_event 0 (time e) (ev_type (expected e))
    (details (expected e) ++ [("message", VStr (message sprint_symbol (logged e)))])
    (severity (expected e)) "kprobe_reader".

Record readable (e : entry) : Prop := {
  no_bracket : all_chars (not_char "[") (facility e) = true;
  padding : all_chars is_space (pad e) = true;
  decimal : all_chars (fun c => PyRe.is_digit c || Ascii.eqb c ".") (stamp e) = true;
  decimal_value : float_of (stamp e) = Some (time e);
  one_text_line : one_line (text_of e);
  known : exists n, announces sprint_symbol n (logged e) (expected e) /\
    unclaimed n (message sprint_symbol (logged e)) = true;
}.

Lemma not_newline s : one_line s -> all_chars (not_char "010") s = true.
Proof. apply all_chars_impl. by intros [[] [] [] [] [] [] [] []]. Qed.
Lemma decimal_not_space s :
  all_chars (fun c => PyRe.is_digit c || Ascii.eqb c ".") s = true -> all_chars not_space s = true.
Proof. apply all_chars_impl. by intros [[] [] [] [] [] [] [] []]. Qed.

(** The reader's first pattern takes the line apart. *)
Lemma photon_line e :
  readable e ->
  search PHOTON_RE (text_of e) = Some [Some (stamp e); Some (message sprint_symbol (logged e))].
Proof.
  intros [Hb Hp Hd Hv Hone (n & Ha & _)]. destruct (announced_tagged _ _ _ _ Ha) as (Hm & Hs & _).
  unfold text_of, dmesg_line in *. rewrite Hm in *.
  assert (Hst : is_empty (stamp e) = false) by (by destruct (stamp e)).
  rewrite search_skip.
  - apply search_here. unfold match_here. cbv [PHOTON_RE lit spaces]. cbn [append] in *.
    apply piece_atom. eapply atoms_lit; [reflexivity|]. cbn [atoms].
    rewrite (append_assoc (pad e)). apply piece_atom. eapply (atoms_run (pad e)); [reflexivity|done| |done|].
    { apply stops_word; [by apply decimal_not_space|done]. }
    cbn [atoms]. apply piece_atom. eapply (atoms_run (stamp e)); [reflexivity|done|done|by rewrite Hst|].
    repeat re_step. eapply (atoms_run " "); [reflexivity|done|exact Hs|done|].
    cbn [atoms]. apply piece_atom. eapply (atoms_run (message sprint_symbol (logged e)) ""); [by rewrite append_nil| |done|done|done].
    apply not_newline. by repeat first [assumption|apply one_line_cons in Hone|apply one_line_app in Hone].
  - intros pre c rest E. rewrite E, all_chars_app in Hb. apply andb_true_iff in Hb as [_ Hb]. cbn in Hb.
    unfold match_here. cbv [PHOTON_RE lit]. cbn [pieces atoms append strip_prefix].
    unfold not_char in Hb. destruct (Ascii.eqb_spec c "[") as [->|Hc]; [done|].
    by destruct (Ascii.eqb_spec "[" c) as [<-|].
Qed.

(** [strip] leaves the message alone. *)
Lemma strip_message e : readable e -> strip (message sprint_symbol (logged e)) = message sprint_symbol (logged e).
Proof.
  intros [_ _ _ _ _ (n & Ha & _)]. destruct (announced_tagged _ _ _ _ Ha) as (_ & Hs & Ht).
  unfold strip. replace (lstrip _) with (message sprint_symbol (logged e)); [by apply rstrip_tidy|].
  destruct (message _ _) as [|c m]; [done|]. cbn in Hs |- *. by destruct (is_space c).
Qed.

Lemma no_message_key n l r : announces sprint_symbol n l r ->
  forall v, setdefault "message" v (details r) = details r ++ [("message", v)].
Proof. by intros [[]| | | | | | | | | | | | |]. Qed.

(** The entries not seen before, in order and once each. *)
Fixpoint fresh (seen : list (Q * string)) (l : list entry) : list entry :=
  match l with
  | [] => []
  | e :: l => if decide (key_of e ∈ seen) then fresh seen l else e :: fresh (key_of e :: seen) l
  end.

Lemma poll_lines_entries l r :
  Forall readable l -> last_ts r = 0%Q ->
  poll_lines (text_of <$> l) r =
    Some (event_of <$> fresh (seen r) l,
          mk_reader 0 (reverse (key_of <$> fresh (seen r) l) ++ seen r) (running r)).
Proof.
  intros Hl Hts. revert r Hts. induction Hl as [|e l He Hl IH]; intros r Hts; cbn [fmap list_fmap poll_lines fresh].
  { destruct r; cbn in *. by subst. }
  pose proof He as [_ _ _ Hv _ (n & Ha & Hu)].
  rewrite photon_line by done.
  change (group _ 1) with (stamp e). change (group _ 2) with (message sprint_symbol (logged e)). rewrite Hv. cbn [mbind option_bind]. rewrite Hts, (float_nonneg _ _ Hv), strip_message by done. cbn [negb].
  change (time e, message sprint_symbol (logged e)) with (key_of e).
  case_decide; [by apply IH|].
  rewrite (IH (mk_reader _ _ _)) by done. cbn [mbind option_bind seen running].
  rewrite (announced_read _ _ _ _ Ha Hu), (no_message_key _ _ _ Ha).
  by rewrite !fmap_cons, reverse_cons, <- app_assoc.
Qed.

Lemma poll_entries l r :
  Forall readable l -> running r = true -> last_ts r = 0%Q ->
  poll (Some (dump (text_of <$> l))) r =
    Some (event_of <$> fresh (seen r) l,
          mk_reader 0 (reverse (key_of <$> fresh (seen r) l) ++ seen r) true).
Proof.
  intros Hl Hr Hts. unfold poll. rewrite Hr. cbn [negb].
  rewrite splitlines_dump, poll_lines_entries, Hr; [done|done|done|].
  apply Forall_fmap. eapply Forall_impl; [|exact Hl]. intros e He. apply He.
Qed.

Lemma fresh_app seen l l' :
  fresh seen (l ++ l') = fresh seen l ++ fresh (reverse (key_of <$> fresh seen l) ++ seen) l'.
Proof.
  revert seen. induction l as [|e l IH]; intros seen; [done|]. cbn [fresh app].
  case_decide; [by apply IH|]. rewrite IH, fmap_cons, reverse_cons, <- app_assoc. done.
Qed.
Lemma number_app n l l' :
  number_events n (l ++ l') = number_events n l ++ number_events (n + Z.of_nat (length l)) l'.
Proof.
  revert n. induction l as [|e l IH]; intros n; cbn [number_events app length]; [by rewrite Z.add_0_r|].
  rewrite IH. do 3 f_equal. lia.
Qed.

(** The dumps as dmesg prints them. *)
Definition printout (dumps : list (list entry)) : list (option string) :=
  (fun l => Some (dump (text_of <$> l))) <$> dumps.

Lemma daemon_entries dumps g :
  Forall readable (concat dumps) -> running (module g) = true -> last_ts (module g) = 0%Q ->
  exists g', daemon (printout dumps) g =
    (number_events (next_seq g) (event_of <$> fresh (seen (module g)) (concat dumps)), Some g').
Proof.
  revert g. induction dumps as [|l dumps IH]; intros g Hl Hr Hts; [by eexists|].
  cbn [concat] in Hl. apply Forall_app in Hl as [Hl Hd]. cbn [printout fmap list_fmap daemon]. unfold poll_all.
  rewrite poll_entries by done. cbn [mbind option_bind].
  destruct (IH (mk_registry (next_seq g + Z.of_nat (length (event_of <$> fresh (seen (module g)) l)))
    (mk_reader 0 (reverse (key_of <$> fresh (seen (module g)) l) ++ seen (module g)) true)) Hd eq_refl eq_refl) as [g' Hg].
  exists g'. unfold printout in Hg. rewrite Hg. cbn [concat next_seq module seen].
  by rewrite fresh_app, fmap_app, number_app.
Qed.
End log.

(** ** The daemon over time *)
Definition is_message (kv : string * value) : bool := String.eqb (fst kv) "message".
Definition message_of (e : event) : string :=
  match List.find is_message (ev_data e) with Some (_, VStr s) => s | _ => "" end.
Definition event_key (e : event) : Q * string := (ts e, message_of e).

(** The line has the tag, this time and this text. *)
Definition logs (line : string) (k : Q * string) : Prop :=
  exists m, search PHOTON_RE line = Some m /\ float_of (group m 1) = Some k.1 /\ k.2 = strip (group m 2).
(** The line has the tag and a time that [float] rejects. *)
Definition undated (line : string) : Prop :=
  exists m, search PHOTON_RE line = Some m /\ float_of (group m 1) = None.

Lemma rules_have_no_message : Forall (fun r => forall g, List.find is_message (details (report_of r g)) = None) rules.
Proof.
  unfold rules. repeat (constructor; [intros g; cbn [report_of details]|]); try constructor; try reflexivity;
    unfold bpf_data, when_present;
    by destruct (mjoin (g !! (3 - 1)%nat)) as [x|], (mjoin (g !! (4 - 1)%nat)) as [y|];
      try destruct (is_empty x); try destruct (is_empty y).
Qed.

Lemma first_rule_no_message l msg r :
  Forall (fun r => forall g, List.find is_message (details (report_of r g)) = None) l ->
  first_rule l msg = Some r -> List.find is_message (details r) = None.
Proof.
  induction 1 as [|r0 l H0 _ IH]; cbn [first_rule]; [done|]. destruct (search _ msg); [|done]. by intros [= <-].
Qed.

Lemma setdefault_absent v d :
  List.find is_message d = None -> List.find is_message (setdefault "message" v d) = Some ("message", v).
Proof.
  intros H. unfold setdefault. replace (existsb _ d) with false.
  - induction d as [|kv d IH]; [done|]. cbn in H |- *. destruct (is_message kv); [done|by apply IH].
  - symmetry. induction d as [|kv d IH]; [done|]. cbn in H |- *. unfold is_message in H.
    destruct (String.eqb (fst kv) "message"); [done|by apply IH].
Qed.

Lemma parsed_message msg n t sev src :
  message_of (mk_event n t (ev_type (parse_message msg)) (setdefault "message" (VStr msg) (details (parse_message msg))) sev src)
  = msg.
Proof.
  unfold message_of. cbn [ev_data]. unfold parse_message. destruct (first_rule rules msg) as [r|] eqn:E.
  - by rewrite (setdefault_absent _ _ (first_rule_no_message _ _ _ rules_have_no_message E)).
  - destruct (strstr_found msg "SUSPICIOUS"); [done|]. by destruct (search KPROBE_RE msg).
Qed.

(** One pass over lines: what it reports are the logged keys not seen so far. *)
Definition grown (lines : list string) (es : list event) (r r' : reader) : Prop :=
  last_ts r' = 0%Q /\ running r' = running r /\ seen r' = reverse (event_key <$> es) ++ seen r /\
  (NoDup (seen r) -> NoDup (seen r')) /\
  forall k, k ∈ seen r' <-> k ∈ seen r \/ exists line, line ∈ lines /\ logs line k.

Lemma logs_head line lines k :
  (exists l, l ∈ line :: lines /\ logs l k) <-> logs line k \/ exists l, l ∈ lines /\ logs l k.
Proof.
  split.
  - intros (l & [->|Hl]%elem_of_cons & Hk); [by left|by right; exists l].
  - intros [Hk|(l & Hl & Hk)]; [by exists line; split; [left|]|by exists l; split; [right|]].
Qed.
Lemma logs_fun line m t k :
  search PHOTON_RE line = Some m -> float_of (group m 1) = Some t -> logs line k <-> k = (t, strip (group m 2)).
Proof.
  intros Hm Ht. split.
  - intros (m' & Hm' & Ht' & Hk). destruct k as [t' s]. cbn in *. simplify_eq. done.
  - intros ->. by exists m.
Qed.

Lemma grown_skip line lines es r r' :
  (forall k, logs line k -> k ∈ seen r) -> grown lines es r r' -> grown (line :: lines) es r r'.
Proof.
  intros Hk (? & ? & ? & ? & Hiff). split_and!; try done. intros k. rewrite Hiff, logs_head. naive_solver.
Qed.
Lemma grown_new line lines e es r r' :
  event_key e ∉ seen r -> (forall k, logs line k <-> k = event_key e) ->
  grown lines es (mk_reader 0 (event_key e :: seen r) (running r)) r' -> grown (line :: lines) (e :: es) r r'.
Proof.
  intros Hnew Hlogs (? & ? & Hs & Hnd & Hiff). split_and!; try done.
  - rewrite Hs. by rewrite fmap_cons, reverse_cons, <- app_assoc.
  - intros Hr. apply Hnd. by constructor.
  - intros k. rewrite Hiff, logs_head, Hlogs. cbn [seen]. rewrite elem_of_cons. naive_solver.
Qed.

Lemma poll_lines_spec lines r :
  last_ts r = 0%Q ->
  match poll_lines lines r with
  | None => exists line, line ∈ lines /\ undated line
  | Some (es, r') => (forall line, line ∈ lines -> ~ undated line) /\ grown lines es r r'
  end.
Proof.
  assert (Hcons : forall line lines, (exists l, l ∈ lines /\ undated l) -> exists l, l ∈ line :: lines /\ undated l).
  { intros ? ? (l & Hl & Hu). exists l. by split; [right|]. }
  assert (Hall : forall line lines, ~ undated line -> (forall l, l ∈ lines -> ~ undated l) -> forall l, l ∈ line :: lines -> ~ undated l).
  { intros ? ? H0 H l [->|Hl]%elem_of_cons; [done|by apply H]. }
  revert r. induction lines as [|line lines IH]; intros r Hts; cbn [poll_lines].
  { split; [by intros ? ?%elem_of_nil|]. split_and!; try done. intros k. split; [by left|].
    intros [Hk|(? & ?%elem_of_nil & _)]; done. }
  destruct (search PHOTON_RE line) as [m|] eqn:Em; cycle 1.
  { specialize (IH r Hts). destruct (poll_lines lines r) as [[es r']|]; [|by apply Hcons].
    destruct IH as [Hd Hg]. split; [apply Hall; [|done]|apply grown_skip; [|done]];
      intros (? & ? & _) || intros ? (? & ? & _); congruence. }
  destruct (float_of (group m 1)) as [t|] eqn:Et; cbn [mbind option_bind]; [|by exists line; split; [left|exists m]].
  rewrite Hts, (float_nonneg _ _ Et). cbn [negb].
  assert (Hd0 : ~ undated line) by (intros (m' & Hm' & Hn); congruence).
  assert (Hl : forall k, logs line k <-> k = (t, strip (group m 2))) by (intros k; by apply logs_fun).
  case_decide as Hin.
  - specialize (IH r Hts). destruct (poll_lines lines r) as [[es r']|]; [|by apply Hcons].
    destruct IH as [Hd Hg]. split; [by apply Hall|]. apply grown_skip; [|done]. by intros k ->%Hl.
  - specialize (IH (mk_reader 0 ((t, strip (group m 2)) :: seen r) (running r)) eq_refl).
    destruct (poll_lines lines _) as [[es r']|]; cbn [mbind option_bind]; [|by apply Hcons].
    destruct IH as [Hd Hg]. split; [by apply Hall|].
    apply grown_new; unfold event_key; rewrite parsed_message; done.
Qed.

(** ** Rounds of the daemon *)
(** All the lines the daemon reads. *)
Definition dumped (outputs : list (option string)) : list string :=
  outputs ≫= fun o => match o with Some text => splitlines text | None => [] end.

Lemma grown_nil r : last_ts r = 0%Q -> grown [] [] r r.
Proof.
  intros Hts. split_and!; try done. intros k. split; [by left|]. intros [Hk|(? & ?%elem_of_nil & _)]; done.
Qed.
Lemma grown_app lines lines' es es' r r' r'' :
  grown lines es r r' -> grown lines' es' r' r'' -> grown (lines ++ lines') (es ++ es') r r''.
Proof.
  intros (Ht & Hr & Hs & Hn & Hk) (Ht' & Hr' & Hs' & Hn' & Hk'). split_and!; [done|congruence| |by auto|].
  - by rewrite Hs', Hs, fmap_app, reverse_app, <- app_assoc.
  - intros k. rewrite Hk', Hk. setoid_rewrite elem_of_app. naive_solver.
Qed.

Lemma number_keys n l : event_key <$> number_events n l = event_key <$> l.
Proof. revert n. induction l as [|e l IH]; intros n; [done|]. cbn. by rewrite IH. Qed.
Lemma number_length n l : length (number_events n l) = length l.
Proof. by rewrite <- (length_fmap event_key), number_keys, length_fmap. Qed.
Lemma number_seqs n l : seq <$> number_events n l = seqZ n (Z.of_nat (length l)).
Proof.
  revert n. induction l as [|e l IH]; intros n; [done|]. cbn [number_events fmap list_fmap length].
  rewrite seqZ_cons by lia. cbn [seq]. f_equal. change (list_fmap _ _ seq ?l) with (seq <$> l).
  rewrite IH. f_equal; lia.
Qed.

Lemma poll_spec output r :
  last_ts r = 0%Q -> running r = true ->
  match poll output r with
  | None => exists line, line ∈ dumped [output] /\ undated line
  | Some (es, r') => (forall line, line ∈ dumped [output] -> ~ undated line) /\ grown (dumped [output]) es r r'
  end.
Proof.
  intros Hts Hrun. unfold poll. rewrite Hrun. cbn [negb dumped mbind list_bind]. rewrite app_nil_r.
  destruct output as [text|]; [by apply poll_lines_spec|]. split; [by intros ? ?%elem_of_nil|by apply grown_nil].
Qed.

(** What the daemon has logged comes from the lines of the rounds before its
    end, and from all of them if it has not ended. *)
Lemma daemon_spec outputs g :
  last_ts (module g) = 0%Q -> running (module g) = true ->
  let '(es, g') := daemon outputs g in
  seq <$> es = seqZ (next_seq g) (Z.of_nat (length es)) /\
  exists lines r, lines `prefix_of` dumped outputs /\ grown lines es (module g) r /\
    match g' with
    | Some _ => lines = dumped outputs /\ forall line, line ∈ lines -> ~ undated line
    | None => exists line, line ∈ dumped outputs /\ undated line
    end.
Proof.
  revert g. induction outputs as [|o outputs IH]; intros g Hts Hrun; cbn [daemon].
  { split; [done|]. exists [], (module g). split_and!; [done|by apply grown_nil|done|by intros ? ?%elem_of_nil]. }
  change (dumped (o :: outputs)) with (dumped ([o] ++ outputs)). unfold dumped. rewrite !bind_app.
  fold (dumped [o]) (dumped outputs).
  pose proof (poll_spec o (module g) Hts Hrun) as Hp. unfold poll_all.
  destruct (poll o (module g)) as [[es r]|]; cbn [mbind option_bind].
  - destruct Hp as [Hd Hg]. pose proof Hg as (Ht' & Hr' & _).
    specialize (IH (mk_registry (next_seq g + Z.of_nat (length es)) r) Ht' ltac:(cbn; congruence)).
    destruct (daemon outputs _) as [es' g']. cbn [module next_seq] in *.
    destruct IH as (Hq & lines & r' & Hpre & Hg' & Hend). split.
    + rewrite fmap_app, number_seqs, Hq, length_app, number_length, Nat2Z.inj_add, seqZ_app by lia. done.
    + exists (dumped [o] ++ lines), r'. split; [by apply prefix_app|]. split.
      * eapply grown_app; [|exact Hg']. destruct Hg as (? & ? & ? & ? & ?). split_and!; try done.
        by rewrite number_keys.
      * destruct g' as [g'|].
        -- destruct Hend as [-> Hall]. split; [done|]. intros line [Hl|Hl]%elem_of_app; [by apply Hd|by apply Hall].
        -- destruct Hend as (line & Hl & Hu). exists line. split; [apply elem_of_app; by right|done].
  - split; [done|]. exists [], (module g). split_and!; [apply prefix_nil|by apply grown_nil|].
    destruct Hp as (line & Hl & Hu). exists line. split; [apply elem_of_app; by left|done].
Qed.

(** C11. Over any sequence of dumps the daemon logs exactly one event for every tagged line it reads, told apart by time and text, none twice and none missing, with sequence numbers that count up from 0; it reads all of them, or ends in the round whose dump has a tagged line with a time that is no number. *)
Theorem daemon_exact outputs :
  let '(es, g) := daemon outputs new_daemon in
  NoDup (event_key <$> es) /\ seq <$> es = seqZ 0 (Z.of_nat (length es)) /\
  exists lines, lines `prefix_of` dumped outputs /\
    (forall k, k ∈ event_key <$> es <-> exists line, line ∈ lines /\ logs line k) /\
    match g with
    | Some _ => lines = dumped outputs /\ forall line, line ∈ lines -> ~ undated line
    | None => exists line, line ∈ dumped outputs /\ undated line
    end.
Proof.
  pose proof (daemon_spec outputs new_daemon eq_refl eq_refl) as H.
  destruct (daemon outputs new_daemon) as [es g].
  destruct H as (Hq & lines & r & Hpre & (_ & _ & Hs & Hn & Hk) & Hend).
  rewrite Hs in Hn, Hk. cbn [seen new_daemon module start new_reader] in Hn, Hk.
  rewrite app_nil_r in Hn, Hk. split_and!; [|done|].
  - specialize (Hn (NoDup_nil_2)). by rewrite reverse_Permutation in Hn.
  - exists lines. split_and!; [done| |done]. intros k. specialize (Hk k). rewrite elem_of_reverse in Hk. rewrite Hk.
    split; [intros [?%elem_of_nil|?]; done|by right].
Qed.

(** C10. Each line that a detector prints and a pattern is meant for becomes one event with what was printed, numbered in order, however often and in however many dumps the log is read. *)
Theorem daemon_reports sprint_symbol dumps :
  Forall (readable sprint_symbol) (concat dumps) ->
  exists g, daemon (printout sprint_symbol dumps) new_daemon =
    (number_events 0 (event_of sprint_symbol <$> fresh sprint_symbol [] (concat dumps)), Some g).
Proof. intros Hl. by apply (daemon_entries sprint_symbol dumps new_daemon). Qed.
