(* ===== verification/DmesgPaths.v ===== *)
(** * From a detector to the event, and where it is lost
    The open of a sensitive file from the return probe of do_filp_open to the
    event of the reader ([file_open_reported]); and the alerts whose caller is
    in a module, which no pattern recognises ([module_callers_missed]): the
    symbol of such an address is printed with the module's name behind a
    space, and the patterns want a word without one. *)
From Stdlib Require Import ZArith QArith Lia.
From Stdlib Require Import Strings.Ascii Strings.String.
From stdpp Require Import base numbers list strings option.
From S2P Require Import Prelude CString Kernel Arch Hooks PyRe Console BecomeRoot ResetTainted FilterIp FileAccess DmesgReader DmesgFacts DmesgLog.

#[local] Open Scope string_scope.
#[local] Open Scope list_scope.
#[local] Arguments String.append !_ _ : simpl nomatch.

(** ** Patterns that fail *)
(** A run that ends before [d] ends inside what is before [d]. *)
Lemma run_inside (class : ascii -> bool) x y f d tail :
  x +:+ y = f +:+ String d tail -> all_chars class x = true -> class d = false ->
  exists f', f = x +:+ f' /\ y = f' +:+ String d tail.
Proof.
  revert f. induction x as [|c x IH]; intros f E Hx Hd; [by exists f|].
  cbn in Hx. apply andb_true_iff in Hx as [Hc Hx]. destruct f as [|c' f]; cbn in E; injection E as -> E.
  - congruence.
  - destruct (IH f E Hx Hd) as (f' & -> & ->). by exists f'.
Qed.

Section missed.
Context {R : Type}.
Implicit Types (k : string -> groups -> option R).

Lemma lit_missed t r tail k :
  (forall g, pieces r tail g k = None) -> forall g, pieces (Atom (Lit t) :: r) (t +:+ tail) g k = None.
Proof. intros H g. cbn [pieces atoms]. by rewrite strip_prefix_app. Qed.

(** A field up to the literal after it, when the rest fails. *)
Lemma field_missed class captured one y c p r tail k :
  all_chars class y = true -> class c = false ->
  (forall g, pieces r tail g k = None) ->
  forall g, pieces (Atom (Run captured one class) :: Atom (Lit (String c p)) :: r) (y +:+ (String c p +:+ tail)) g k = None.
Proof.
  intros Hy Hc H g. cbn [pieces atoms]. apply run_none. intros t rest E Ht. cbn [append].
  destruct (one && is_empty t); [done|]. destruct (run_inside _ _ _ y c (p +:+ tail) (eq_sym E) Ht Hc) as (y' & Hy' & ->).
  destruct y' as [|d y'].
  - change ("" +:+ String c (p +:+ tail)) with (String c p +:+ tail). by rewrite strip_prefix_app.
  - rewrite Hy', all_chars_app in Hy. cbn in Hy. cbn [append strip_prefix].
    destruct (Ascii.eqb_spec c d) as [<-|]; [|done]. rewrite Hc in Hy. by destruct (all_chars class t).
Qed.

(** The caller, when a space comes before what should follow it. *)
Lemma caller_missed f c p r tail k :
  word_like f -> all_chars (not_char c) f = true -> not_space c = true -> forall g,
  pieces (Atom (Run false false is_space) :: Atom (Run true true not_space) :: Atom (Lit (String c p)) :: r)
    (String " " (f +:+ String " " tail)) g k = None.
Proof.
  intros [Hf Hne] Hc Hs g. cbn [pieces atoms andb]. apply run_none. intros t rest E Ht.
  apply run_none. intros x y -> Hx. cbn [append]. destruct (is_empty x) eqn:Ex; [done|]. cbn [andb].
  assert (Ey : exists f', f = x +:+ f' /\ y = f' +:+ String " " tail).
  { destruct t as [|d t].
    - cbn in E. destruct x as [|d x]; [done|]. cbn in E. injection E as <- E. by cbn in Hx.
    - cbn in E. injection E as <- E. cbn in Ht. destruct t as [|d t].
      + by apply (run_inside not_space x y f).
      + destruct f as [|d' f]; [done|]. cbn in E, Hf, Ht. injection E as <- E.
        apply andb_true_iff in Hf as [Hf _], Ht as [_ [Ht _]%andb_true_iff]. unfold not_space in Hf. by rewrite Ht in Hf. }
  destruct Ey as (f' & -> & ->). destruct f' as [|d f'].
  - cbn [append strip_prefix]. destruct (Ascii.eqb_spec c " ") as [->|]; [by cbn in Hs|done].
  - rewrite all_chars_app in Hc. apply andb_true_iff in Hc as [_ Hc].
    cbn in Hc. apply andb_true_iff in Hc as [Hc _]. unfold not_char in Hc. cbn [append strip_prefix].
    by destruct (Ascii.eqb_spec c d) as [->|]; [rewrite Ascii.eqb_refl in Hc|].
Qed.
End missed.

(** The first match fails, and the pattern's text does not come again. *)
Lemma search_once r c s l :
  match_here r (String c s) = None -> l ∈ literals r -> strstr_found s l = false -> search r (String c s) = None.
Proof. intros Hm Hl Hs. cbn [search]. rewrite Hm. by apply (search_lacks _ _ l). Qed.

Lemma first_rule_none l msg : Forall (fun r => search (pattern r) msg = None) l -> first_rule l msg = None.
Proof. induction 1 as [|r l Hr _ IH]; [done|]. cbn. by rewrite Hr. Qed.

(** ** Callers in modules *)
Section callers.
Context (sprint_symbol : Z -> string).

(** The alerts that name a caller, with the pattern meant for them. *)
Inductive calls : nat -> Z -> line -> Prop :=
  | calls_tcp name ip t : word_like name -> calls 3 ip (hook_line tcp_watcher name ip t)
  | calls_icmp name ip t : word_like name -> calls 4 ip (hook_line icmp_watcher name ip t)
  | calls_kthread name ip t : quotable name -> calls 5 ip (thread_line name ip t).

(** The symbol [f] with its offset, in the module [m]. *)
Definition in_module (f m : string) : string := f +:+ (" [" +:+ (m +:+ "]")).

(** The text lacks a literal of every other pattern, and does not start over. *)
Definition unclaimed_but (n : nat) (msg : string) : bool :=
  forallb (lacks msg) (take n rules) && forallb (lacks msg) (drop (S n) rules) &&
  match msg with String _ s => negb (strstr_found s "SUSPICIOUS *** ") | EmptyString => false end.

Lemma strstr_found_longer s a b : strstr_found s a = false -> strstr_found s (a +:+ b) = false.
Proof.
  intros Ha. apply not_true_iff_false. intros (pre & post & ->)%strstr_found_spec.
  apply not_true_iff_false in Ha. apply Ha, strstr_found_spec. exists pre, (b +:+ post). by rewrite append_assoc.
Qed.

(** No pattern takes the line. *)
Lemma unclaimed_missed n r l m s :
  rules !! n = Some r -> literals (pattern r) !! 0%nat = Some ("SUSPICIOUS *** " +:+ l) -> m = String "S" s ->
  unclaimed_but n m = true -> match_here (pattern r) m = None -> first_rule rules m = None.
Proof.
  intros Hr Hl -> (( Hb & Ha)%andb_true_iff & Hs%negb_true_iff)%andb_true_iff Hm. apply first_rule_none.
  rewrite <- (take_drop_middle rules n r Hr). apply Forall_app. split; [|constructor].
  - apply Forall_forall. intros r' Hr'. apply lacks_none. rewrite forallb_forall in Hb. by apply Hb.
  - apply (search_once _ _ _ _ Hm (list_elem_of_lookup_2 _ _ _ Hl)). by apply strstr_found_longer.
  - apply Forall_forall. intros r' Hr'. apply lacks_none. rewrite forallb_forall in Ha. by apply Ha.
Qed.

Lemma hook_missed kind name f rest :
  word_like name -> word_like f -> all_chars (not_char ")") f = true ->
  match_here (hook_re kind)
    ("SUSPICIOUS *** ftrace hook on " +:+ (name +:+ ((" detected! Possible " +:+ (kind +:+ " rootkit!")) +:+
      (" (caller: " +:+ (f +:+ String " " rest))))) = None.
Proof.
  intros [Hn _] Hf Hp. unfold match_here. cbv [hook_re lit app].
  apply (lit_missed "SUSPICIOUS *** ftrace hook on ").
  apply (field_missed not_space true true name " " ("detected! Possible " +:+ (kind +:+ " rootkit!"))); [done|done|].
  apply (field_missed is_space false false " " "(" "caller:"); [done|done|].
  by apply caller_missed.
Qed.
Lemma kthread_missed name f rest :
  quotable name -> word_like f -> all_chars (not_char ",") f = true ->
  match_here KTHREAD_RE
    ("SUSPICIOUS *** kthread '" +:+ (name +:+ ("' spawned! Caller:" +:+ (" " +:+ (f +:+ String " " rest))))) = None.
Proof.
  intros [Hn _] Hf Hp. unfold match_here. cbv [KTHREAD_RE lit].
  apply (lit_missed "SUSPICIOUS *** kthread '").
  apply (field_missed (not_char "'") true true name "'" " spawned! Caller:"); [done|done|].
  by apply caller_missed.
Qed.

Lemma calls_missed n ip l f m r :
  calls n ip l -> sprint_symbol ip = in_module f m -> word_like f ->
  all_chars (not_char ",") f = true -> all_chars (not_char ")") f = true -> rules !! n = Some r ->
  match_here (pattern r) (message sprint_symbol l) = None.
Proof.
  intros Hc Hsym Hf Hcomma Hparen Hr. unfold in_module in Hsym.
  destruct Hc as [name ip t Hn|name ip t Hn|name ip t Hn]; injection Hr as <-; cbv [pattern].
  - show_message sprint_symbol (hook_line tcp_watcher name ip t). rewrite Hsym, !append_assoc.
    by apply (hook_missed "TCP hiding").
  - show_message sprint_symbol (hook_line icmp_watcher name ip t). rewrite Hsym, !append_assoc.
    by apply (hook_missed "ICMP backdoor").
  - show_message sprint_symbol (thread_line name ip t). rewrite Hsym, !append_assoc.
    by apply kthread_missed.
Qed.

Lemma calls_message n ip l : calls n ip l -> exists s, message sprint_symbol l = "SUSPICIOUS" +:+ s.
Proof.
  destruct 1 as [name ip t _|name ip t _|name ip t _];
    [show_message sprint_symbol (hook_line tcp_watcher name ip t)
    |show_message sprint_symbol (hook_line icmp_watcher name ip t)
    |show_message sprint_symbol (thread_line name ip t)]; by eexists.
Qed.
Lemma calls_rule n ip l :
  calls n ip l -> exists r t, rules !! n = Some r /\ literals (pattern r) !! 0%nat = Some ("SUSPICIOUS *** " +:+ t).
Proof.
  destruct 1; eexists; [exists "ftrace hook on "|exists "ftrace hook on "|exists "kthread '"]; done.
Qed.

(** C34. An alert about a kernel thread or an ftrace hook whose caller lies in a module is not recognised as one: it is reported as a suspicious probe of high severity with nothing but its text, not as the critical event with caller, process and pid. *)
Theorem module_callers_missed n ip l f m :
  calls n ip l -> sprint_symbol ip = in_module f m -> word_like f ->
  all_chars (not_char ",") f = true -> all_chars (not_char ")") f = true ->
  unclaimed_but n (message sprint_symbol l) = true ->
  parse_message (message sprint_symbol l) =
    mk_report "high" "suspicious_probe" [("message", VStr (message sprint_symbol l))].
Proof.
  intros Hc Hsym Hf Hcomma Hparen Hu.
  destruct (calls_rule _ _ _ Hc) as (r & t & Hr & Hl), (calls_message _ _ _ Hc) as [s Hs].
  assert (Hnone : first_rule rules (message sprint_symbol l) = None).
  { eapply (unclaimed_missed n r t); [done|done|exact Hs|done|by eapply calls_missed]. }
  unfold parse_message. rewrite Hnone. replace (strstr_found _ "SUSPICIOUS") with true; [done|].
  symmetry. apply strstr_found_spec. by exists "", s.
Qed.
End callers.

(** ** From the return probe to the event *)
(** The event for a file opened by [t], whose parent is [pp]. *)
Definition open_event (time : Q) (msg path : string) (flags mode pp uid gid : Z) (t : task) : event :=
  mk_event 0 time "sensitive_file_access"
    [("detector", VStr "hook_file_access_detector"); ("path", VStr path); ("flags", VStr (print_hex flags));
     ("mode", VStr (String "0" (print_octal mode))); ("pid", VInt (pid t)); ("ppid", VInt pp); ("uid", VInt uid);
     ("gid", VInt gid); ("process_name", VStr (comm t)); ("message", VStr msg)] "high" "kprobe_reader".

(** C33. A sensitive file that is opened is printed by the return probe, and the reader turns that line into one event with the path, the flags that were in force, the mode, and the process, parent and owner recorded at entry. *)
Theorem file_open_reported sprint_symbol k v args p of_flag of_mode filep f path pp e0 e w0 w rregs :
  k_arch k <> OTHER_ARCH -> args !! 2%nat = Some p -> p <> 0%Z ->
  open_flags_at v p = Some (of_flag, of_mode) ->
  pr_get_ret (k_arch k) rregs = filep -> filep <> 0%Z -> IS_ERR filep = false ->
  file_at v filep = Some f -> f_path f = Some path -> is_sensitive_path path = true ->
  dquotable path -> dquotable (comm (current e0)) -> number (pid (current e0)) -> real_parent v = Some pp -> number pp ->
  number (current_uid v) -> number (current_gid v) ->
  let flags := if decide (u64 of_flag = 0%Z) then f_flags f else u64 of_flag in
  exists ctx e1,
    do_filp_open_entry k v (entry_regs (k_arch k) args) e0 w0 = Ret (ctx, e1, w0) /\
    do_filp_open_ret k v ctx rregs e w = Ret (tt, e, set_console (w_console w ++ [open_line path flags ctx]) w) /\
    forall fac pad stamp time,
      let l := open_line path flags ctx in
      let text := dmesg_line sprint_symbol fac (pad +:+ stamp) l in
      all_chars (not_char "[") fac = true -> all_chars is_space pad = true ->
      all_chars (fun c => PyRe.is_digit c || Ascii.eqb c ".") stamp = true -> float_of stamp = Some time ->
      one_line text -> unclaimed 14 (message sprint_symbol l) = true ->
      fst <$> poll (Some (dump [text])) (start new_reader) =
        Some [open_event time (message sprint_symbol l) path flags of_mode pp (current_uid v) (current_gid v) (current e0)].
Proof.
  intros Ha Hp Hp0 Hof Hret Hf0 Herr Hfile Hpath Hsens Hpq Hcq Hpid Hpp Hppn Hu Hg flags.
  destruct (do_filp_open_entry_spec k v args p of_flag of_mode e0 w0 Ha Hp Hp0 Hof) as (ts & e1 & Hentry).
  eexists _, _. split; [exact Hentry|]. split.
  - by rewrite (do_filp_open_ret_spec _ _ _ _ _ _ _ _ _ Hret Hf0 Herr Hfile Hpath), Hsens.
  - intros fac pad stamp time l text Hfac Hpad Hstamp Htime Hone Hun.
    set (en := mk_entry fac pad stamp time l (open_report path flags
      (mk_open_call_ctx ts (pid (current e0)) (default (-1)%Z (real_parent v)) (current_uid v)
        (current_gid v) (comm (current e0)) (u64 of_flag) of_mode))).
    assert (Hr : readable sprint_symbol en).
    { split; [done..|]. exists 14%nat. split; [|done]. constructor; try done. by rewrite Hpp. }
    change [text] with (text_of sprint_symbol <$> [en]).
    rewrite poll_entries; [|by apply Forall_singleton|done..]. cbn [fresh seen start new_reader fmap option_fmap option_map fst].
    rewrite decide_False by apply not_elem_of_nil. unfold event_of, open_event. subst en. by rewrite Hpp.
Qed.

(** The alert of an escalation, for which the reader has a pattern of its own,
    is one of the suspicious lines it does not know. *)
Lemma escalation_missed sprint_symbol t old parent_ip :
  exists l rest, escalation_lines t old parent_ip = l :: rest /\
    parse_message (message sprint_symbol l) =
      mk_report "high" "suspicious_probe" [("message", VStr "SUSPICIOUS *** commit_creds uid escalation to root!")].
Proof. do 2 eexists. split; [done|]. by vm_compute. Qed.
