(* ===== verification/EventLog.v ===== *)
(** * The event files and the index
    [python_tools/output/json_logger.py], the part of [es_writer.py] that
    decides what is indexed, and [run_daemon] of [main.py], which hands every
    round's events to both.  An event is one line of JSON in the file of the
    day; a reader of such lines, which is not in the program, says what a line
    means ([read_event]).  How Python writes a float is a parameter. *)
From Stdlib Require Import ZArith QArith Lia.
From Stdlib Require Import Strings.Ascii Strings.String.
From stdpp Require Import base numbers list strings option gmap.
From S2P Require Import Prelude CString PyRe Console DmesgReader DmesgLog.

#[local] Open Scope string_scope.
#[local] Open Scope list_scope.
#[local] Arguments String.append !_ _ : simpl nomatch.

(** ** [json.dumps] *)
Definition backslash : ascii := "\"%char.
Definition escape (s : string) : string := String backslash s.

(** One character, with [ensure_ascii]. *)
Definition json_char (c : ascii) : string :=
  let n := Z.of_nat (nat_of_ascii c) in
  if Ascii.eqb c dquote_char then escape (String dquote_char "")
  else if Ascii.eqb c backslash then escape (String backslash "")
  else if Z.eqb n 8 then escape "b"
  else if Z.eqb n 9 then escape "t"
  else if Z.eqb n 10 then escape "n"
  else if Z.eqb n 12 then escape "f"
  else if Z.eqb n 13 then escape "r"
  else if (32 <=? n)%Z && (n <? 127)%Z then String c ""
  else escape ("u00" +:+ String (hex_digit (n / 16)) (String (hex_digit (n mod 16)) "")).
Fixpoint json_chars (s : string) : string :=
  match s with
  | EmptyString => ""
  | String c s => json_char c +:+ json_chars s
  end.
Definition json_string (s : string) : string := String dquote_char (json_chars s +:+ String dquote_char "").

(** [str] of an int, of any size. *)
Definition print_digits (z : Z) : string := decimal_fuel (S (Z.to_nat (Z.log2 z))) z "".
Definition json_int (z : Z) : string := if (z <? 0)%Z then String "-" (print_digits (- z)) else print_digits z.
Definition json_value (v : value) : string := match v with VStr s => json_string s | VInt z => json_int z end.

Definition json_pair (kv : string * value) : string := json_string (fst kv) +:+ (": " +:+ json_value (snd kv)).
Fixpoint json_pairs (d : data) : string :=
  match d with
  | [] => ""
  | [kv] => json_pair kv
  | kv :: d => json_pair kv +:+ (", " +:+ json_pairs d)
  end.
Definition json_data (d : data) : string := "{" +:+ (json_pairs d +:+ "}").

(** ** Reading it *)
Definition hex_value (c : ascii) : Z :=
  let n := Z.of_nat (nat_of_ascii c) in if (n <? 58)%Z then n - 48 else n - 87.
Definition unescape (c : ascii) : ascii :=
  if Ascii.eqb c "b" then "008" else if Ascii.eqb c "t" then "009" else if Ascii.eqb c "n" then "010"
  else if Ascii.eqb c "f" then "012" else if Ascii.eqb c "r" then "013" else c.
Definition prepend (c : ascii) (r : option (string * string)) : option (string * string) :=
  '(s, rest) ← r; Some (String c s, rest).

(** The characters up to the closing quote. *)
Fixpoint read_chars (s : string) : option (string * string) :=
  match s with
  | EmptyString => None
  | String c s1 =>
      if Ascii.eqb c dquote_char then Some ("", s1)
      else if Ascii.eqb c backslash then
        match s1 with
        | EmptyString => None
        | String e s2 =>
            if Ascii.eqb e "u" then
              match s2 with
              | String _ (String _ (String a (String b s3))) =>
                  prepend (ascii_of_nat (Z.to_nat (16 * hex_value a + hex_value b))) (read_chars s3)
              | _ => None
              end
            else prepend (unescape e) (read_chars s2)
        end
      else prepend c (read_chars s1)
  end.
Definition read_string (s : string) : option (string * string) :=
  s ← strip_prefix (String dquote_char "") s; read_chars s.

Fixpoint span (p : ascii -> bool) (s : string) : string * string :=
  match s with
  | EmptyString => ("", "")
  | String c s' => if p c then let '(a, b) := span p s' in (String c a, b) else ("", s)
  end.
Definition read_int (s : string) : Z * string :=
  match strip_prefix "-" s with
  | Some s => let '(d, rest) := span PyRe.is_digit s in ((- int_of d)%Z, rest)
  | None => let '(d, rest) := span PyRe.is_digit s in (int_of d, rest)
  end.
Definition read_value (s : string) : option (value * string) :=
  match strip_prefix (String dquote_char "") s with
  | Some s => '(x, rest) ← read_chars s; Some (VStr x, rest)
  | None => let '(z, rest) := read_int s in Some (VInt z, rest)
  end.
Definition read_pair (s : string) : option (string * value * string) :=
  '(k, s) ← read_string s;
  s ← strip_prefix ": " s;
  '(v, s) ← read_value s;
  Some (k, v, s).
Fixpoint read_pairs (fuel : nat) (s : string) : option (data * string) :=
  match fuel with
  | O => None
  | S fuel =>
      '(kv, s) ← read_pair s;
      match strip_prefix ", " s with
      | Some s => '(d, s) ← read_pairs fuel s; Some (kv :: d, s)
      | None => s ← strip_prefix "}" s; Some ([kv], s)
      end
  end.
Definition read_data (s : string) : option (data * string) :=
  s ← strip_prefix "{" s;
  match strip_prefix "}" s with
  | Some s => Some ([], s)
  | None => read_pairs (String.length s) s
  end.

(** ** What is written is read back *)
Lemma read_json_char c rest : read_chars (json_char c +:+ rest) = prepend c (read_chars rest).
Proof. by destruct c as [[] [] [] [] [] [] [] []]. Qed.
Lemma read_json_chars s rest : read_chars (json_chars s +:+ String dquote_char rest) = Some (s, rest).
Proof. induction s as [|c s IH]; [done|]. cbn [json_chars]. by rewrite append_assoc, read_json_char, IH. Qed.
Lemma strip_json_string s rest :
  strip_prefix (String dquote_char "") (json_string s +:+ rest) = Some (json_chars s +:+ String dquote_char rest).
Proof. unfold json_string. cbn. by rewrite append_assoc. Qed.
Lemma read_json_string s rest : read_string (json_string s +:+ rest) = Some (s, rest).
Proof. unfold read_string. rewrite strip_json_string. apply read_json_chars. Qed.

Lemma span_stops p x rest : all_chars p x = true -> stops p rest = true -> span p (x +:+ rest) = (x, rest).
Proof.
  intros Hx Hs. induction x as [|c x IH]; cbn [append].
  - destruct rest as [|c rest]; [done|]. cbn in Hs |- *. by destruct (p c).
  - cbn in Hx. apply andb_true_iff in Hx as [Hc Hx]. cbn [span]. by rewrite Hc, IH.
Qed.

Lemma print_digits_digits z : all_chars PyRe.is_digit (print_digits z) = true.
Proof. by apply decimal_fuel_digits. Qed.
Lemma int_of_print_digits z : (0 <= z)%Z -> int_of (print_digits z) = z.
Proof.
  intros Hz. set (fuel := S (Z.to_nat (Z.log2 z))).
  assert (Hf : (z < 10 ^ Z.of_nat fuel)%Z).
  { destruct (Z.eq_dec z 0%Z) as [->|Hnz]; [done|].
    pose proof (Z.log2_spec z ltac:(lia)) as [_ H]. pose proof (Z.log2_nonneg z). unfold fuel.
    rewrite Nat2Z.inj_succ, Z2Nat.id by done.
    pose proof (Z.pow_le_mono_l 2%Z 10%Z (Z.succ (Z.log2 z)) ltac:(lia)). lia. }
  destruct (int_from_decimal fuel z "" 0%Z) as (n & _ & H); [lia|unfold fuel; lia|exact H].
Qed.
Lemma print_digits_nonempty z : is_empty (print_digits z) = false.
Proof.
  unfold print_digits. generalize (Z.to_nat (Z.log2 z)) as fuel. intros fuel. cbn [decimal_fuel].
  destruct (z <? 10)%Z; [done|]. by apply decimal_fuel_nonempty.
Qed.

(** No number begins with a character that is no digit. *)
Lemma strip_prefix_number c p z rest :
  PyRe.is_digit c = false -> strip_prefix (String c p) (print_digits z +:+ rest) = None.
Proof.
  intros Hc. pose proof (print_digits_digits z) as Hd. pose proof (print_digits_nonempty z) as Hn.
  destruct (print_digits z) as [|d s]; [done|]. cbn [append strip_prefix].
  destruct (Ascii.eqb_spec c d) as [->|]; [|done]. cbn in Hd. by rewrite Hc in Hd.
Qed.

Lemma read_json_int z rest : stops PyRe.is_digit rest = true -> read_int (json_int z +:+ rest) = (z, rest).
Proof.
  intros Hs. unfold json_int. destruct (Z.ltb_spec z 0).
  - unfold read_int. cbn [append strip_prefix Ascii.eqb Bool.eqb].
    rewrite (span_stops _ _ _ (print_digits_digits _) Hs), int_of_print_digits by lia. f_equal. lia.
  - unfold read_int. rewrite strip_prefix_number by done.
    by rewrite (span_stops _ _ _ (print_digits_digits z) Hs), int_of_print_digits.
Qed.

Lemma read_json_value v rest : stops PyRe.is_digit rest = true -> read_value (json_value v +:+ rest) = Some (v, rest).
Proof.
  intros Hs. unfold read_value. destruct v as [s|z]; cbn [json_value].
  - by rewrite strip_json_string, read_json_chars.
  - replace (strip_prefix _ _) with (@None string); [by rewrite read_json_int|].
    unfold json_int. destruct (z <? 0)%Z; [done|]. by rewrite strip_prefix_number.
Qed.
Lemma read_json_pair kv rest : stops PyRe.is_digit rest = true -> read_pair (json_pair kv +:+ rest) = Some (kv, rest).
Proof.
  intros Hs. destruct kv as [k v]. unfold read_pair, json_pair. cbn [fst snd].
  rewrite append_assoc, read_json_string. cbn [mbind option_bind]. rewrite append_assoc, strip_prefix_app.
  cbn [mbind option_bind]. by rewrite read_json_value.
Qed.
Lemma read_json_pairs d rest fuel :
  d <> [] -> (length d <= fuel)%nat -> read_pairs fuel (json_pairs d +:+ ("}" +:+ rest)) = Some (d, rest).
Proof.
  revert fuel. induction d as [|kv d IH]; intros [|fuel] Hd Hf; cbn in Hf; try done; try lia.
  cbn [read_pairs json_pairs]. destruct d as [|kv' d].
  - by rewrite read_json_pair.
  - rewrite append_assoc, read_json_pair by done. cbn [mbind option_bind].
    rewrite append_assoc, strip_prefix_app, IH; [done|done|cbn in *; lia].
Qed.

Lemma json_pairs_quote kv d : exists s, json_pairs (kv :: d) = String dquote_char s.
Proof. destruct d; by eexists. Qed.
Lemma json_pairs_length d : (length d <= String.length (json_pairs d))%nat.
Proof.
  induction d as [|kv d IH]; [done|]. cbn [json_pairs]. destruct d as [|kv' d]; [cbn; lia|].
  rewrite !string_length_app. change (String.length ", ") with 2%nat. cbn [length] in *. lia.
Qed.

Lemma read_json_data d rest : read_data (json_data d +:+ rest) = Some (d, rest).
Proof.
  unfold read_data, json_data. rewrite append_assoc, strip_prefix_app. cbn [mbind option_bind]. rewrite append_assoc.
  destruct d as [|kv d]; [done|]. replace (strip_prefix "}" _) with (@None string).
  - apply read_json_pairs; [done|]. rewrite string_length_app. pose proof (json_pairs_length (kv :: d)). lia.
  - by destruct (json_pairs_quote kv d) as [s ->].
Qed.

(** ** One line per event *)
Definition quoted_key (k : string) : string := json_string k +:+ ": ".

Section lines.
Context (float_repr : Q -> string).
Context (read_float : string -> option Q).

(** [json.dumps(ev.to_dict())] *)
Definition event_json (e : event) : string :=
  "{" +:+ (quoted_key "seq" +:+ (json_int (seq e) +:+ (", " +:+ (quoted_key "ts" +:+ (float_repr (ts e) +:+
  (", " +:+ (quoted_key "type" +:+ (json_string (type e) +:+ (", " +:+ (quoted_key "data" +:+ (json_data (ev_data e) +:+
  (", " +:+ (quoted_key "severity" +:+ (json_string (ev_severity e) +:+ (", " +:+ (quoted_key "source" +:+
  (json_string (source e) +:+ "}"))))))))))))))))).

(** A line read as an event. *)
Definition read_event (s : string) : option event :=
  s ← strip_prefix ("{" +:+ quoted_key "seq") s;
  let '(n, s) := read_int s in
  s ← strip_prefix (", " +:+ quoted_key "ts") s;
  let '(t, s) := span (not_char ",") s in
  t ← read_float t;
  s ← strip_prefix (", " +:+ quoted_key "type") s;
  '(ty, s) ← read_string s;
  s ← strip_prefix (", " +:+ quoted_key "data") s;
  '(d, s) ← read_data s;
  s ← strip_prefix (", " +:+ quoted_key "severity") s;
  '(sev, s) ← read_string s;
  s ← strip_prefix (", " +:+ quoted_key "source") s;
  '(src, s) ← read_string s;
  s ← strip_prefix "}" s;
  if is_empty s then Some (mk_event n t ty d sev src) else None.

(** Python writes a float on one line, without a comma, and so that it can be
    read back. *)
Context (float_reads : forall q, read_float (float_repr q) = Some q).
Context (float_plain : forall q, all_chars (not_char ",") (float_repr q) = true /\ one_line (float_repr q)).

Lemma strip_prefix_app2 a b s : strip_prefix (a +:+ b) (a +:+ (b +:+ s)) = Some s.
Proof. rewrite <- append_assoc. apply strip_prefix_app. Qed.

Lemma read_event_json e : read_event (event_json e) = Some e.
Proof.
  unfold read_event, event_json. rewrite strip_prefix_app2. cbn [mbind option_bind].
  rewrite read_json_int by done. rewrite strip_prefix_app2. cbn [mbind option_bind].
  destruct (float_plain (ts e)) as [Hc _]. rewrite (span_stops _ _ _ Hc) by done. rewrite float_reads. cbn [mbind option_bind].
  rewrite strip_prefix_app2. cbn [mbind option_bind]. rewrite read_json_string. cbn [mbind option_bind].
  rewrite strip_prefix_app2. cbn [mbind option_bind]. rewrite read_json_data. cbn [mbind option_bind].
  rewrite strip_prefix_app2. cbn [mbind option_bind]. rewrite read_json_string. cbn [mbind option_bind].
  rewrite strip_prefix_app2. cbn [mbind option_bind]. rewrite read_json_string. cbn [mbind option_bind].
  by destruct e.
Qed.

(** *** No line break gets out *)
Lemma one_line_append a b : one_line a -> one_line b -> one_line (a +:+ b).
Proof. unfold one_line. rewrite all_chars_app. by intros -> ->. Qed.
Lemma json_string_line s : one_line (json_string s).
Proof.
  unfold json_string. apply (one_line_append (String dquote_char "")); [done|]. apply one_line_append; [|done].
  induction s as [|c s IH]; [done|]. cbn [json_chars]. apply one_line_append; [|done].
  by destruct c as [[] [] [] [] [] [] [] []].
Qed.
Lemma json_int_line z : one_line (json_int z).
Proof.
  assert (Hd : forall z, one_line (print_digits z)).
  { intros z'. apply (all_chars_impl PyRe.is_digit); [by intros [[] [] [] [] [] [] [] []]|apply print_digits_digits]. }
  unfold json_int. destruct (z <? 0)%Z; [|done]. by apply (one_line_append "-").
Qed.
Lemma json_data_line d : one_line (json_data d).
Proof.
  unfold json_data. apply one_line_append; [done|]. apply one_line_append; [|done].
  assert (Hp : forall kv, one_line (json_pair kv)).
  { intros [k v]. unfold json_pair. apply one_line_append; [apply json_string_line|].
    apply one_line_append; [done|]. destruct v; [apply json_string_line|apply json_int_line]. }
  induction d as [|kv d IH]; [done|]. cbn [json_pairs]. destruct d as [|kv' d]; [done|].
  apply one_line_append; [done|]. by apply one_line_append.
Qed.
Lemma event_json_line e : one_line (event_json e).
Proof.
  unfold event_json. repeat lazymatch goal with
    | |- one_line (json_string _) => apply json_string_line
    | |- one_line (json_int _) => apply json_int_line
    | |- one_line (json_data _) => apply json_data_line
    | |- one_line (float_repr _) => apply float_plain
    | |- one_line (_ +:+ _) => apply one_line_append
    | |- _ => reflexivity
    end.
Qed.

(** ** The files of a directory and the index *)
Record sinks := mk_sinks { files : gmap string string; indexed : list (event * string) }.
(** What a round of the daemon meets: the output of dmesg, the date, the time
    of each document, whether the bulk request succeeds and, if not, which of
    its documents the index took before it failed. *)
Record round := mk_round {
  dmesg_output : option string;
  today : string;
  now : nat -> string;
  bulk_ok : bool;
  bulk_done : nat -> bool;
}.

Context (output_dir : string).
Context (enabled : bool).

Definition log_path (today : string) : string :=
  output_dir +:+ ("/lksm_events_" +:+ (today +:+ ".jsonl")).
Definition append_to (path text : string) (s : sinks) : sinks :=
  mk_sinks (<[path := default "" (files s !! path) +:+ text]> (files s)) (indexed s).

(** [EventLogger.log_events] *)
Definition log_events (day : string) (events : list event) (s : sinks) : sinks :=
  match events with
  | [] => s
  | _ => append_to (log_path day) (dump (event_json <$> events)) s
  end.
(** The documents of a bulk request that the index takes. *)
Definition taken (r : round) (i : nat) : bool := bulk_ok r || bulk_done r i.
Definition documents (r : round) (events : list event) : list (event * string) :=
  concat (imap (fun i e => if taken r i then [(e, now r i)] else []) events).

(** [ElasticsearchWriter.log_events]: a failure is logged and swallowed. *)
Definition index_events (r : round) (events : list event) (s : sinks) : sinks :=
  match events with
  | [] => s
  | _ => if negb enabled then s
         else mk_sinks (files s) (indexed s ++ documents r events)
  end.

Fixpoint run_daemon (rounds : list round) (g : registry) (s : sinks) : sinks * option registry :=
  match rounds with
  | [] => (s, Some g)
  | r :: rounds =>
      match poll_all (dmesg_output r) g with
      | None => (s, None)
      | Some (events, g) =>
          let s := match events with [] => s | _ => index_events r events (log_events (today r) events s) end in
          run_daemon rounds g s
      end
  end.

(** The events of the rounds with their dates. *)
Fixpoint dated (rounds : list round) (g : registry) : list (string * event) :=
  match rounds with
  | [] => []
  | r :: rounds =>
      match poll_all (dmesg_output r) g with
      | None => []
      | Some (events, g) => ((fun e => (today r, e)) <$> events) ++ dated rounds g
      end
  end.
Definition on_day (day : string) (l : list (string * event)) : list event :=
  snd <$> filter (fun p => fst p = day) l.

Lemma dated_daemon rounds g :
  snd <$> dated rounds g = fst (daemon (dmesg_output <$> rounds) g).
Proof.
  revert g. induction rounds as [|r rounds IH]; intros g; [done|]. cbn [dated fmap list_fmap daemon].
  destruct (poll_all (dmesg_output r) g) as [[es g']|]; [|done].
  rewrite fmap_app, <- list_fmap_compose. specialize (IH g'). unfold fmap in IH.
  destruct (daemon _ g') as [later g'']. cbn [fst] in *. f_equal; [|exact IH].
  induction es as [|e es IHe]; [done|]. cbn. by f_equal.
Qed.

Lemma log_path_inj d d' : log_path d = log_path d' -> d = d'.
Proof.
  unfold log_path. intros H. apply (inj (String.append _)), (inj (String.append _)) in H.
  revert d' H. induction d as [|c d IH]; intros [|c' d'] H; cbn [append] in H; [done|..].
  - apply (f_equal String.length) in H. cbn in H. rewrite string_length_app in H. cbn in H. lia.
  - apply (f_equal String.length) in H. cbn in H. rewrite string_length_app in H. cbn in H. lia.
  - injection H as -> H. f_equal. by apply IH.
Qed.

Definition content (day : string) (s : sinks) : string := default "" (files s !! log_path day).

(** One round appends its events to its day's file and to no other. *)
Lemma log_events_content day es s d :
  content d (log_events day es s) =
    content d s +:+ dump (event_json <$> if decide (day = d) then es else []).
Proof.
  unfold content. destruct es as [|e es].
  - cbn [log_events]. case_decide; cbn; by rewrite append_nil.
  - cbn [log_events append_to files]. case_decide as Hd.
    + subst. by rewrite lookup_insert_eq.
    + rewrite lookup_insert_ne; [cbn; by rewrite append_nil|]. intros H. by apply log_path_inj in H.
Qed.
Lemma index_files r es s : files (index_events r es s) = files s.
Proof. unfold index_events. destruct es; [done|]. by destruct enabled. Qed.

Lemma dump_app a b : dump (a ++ b) = dump a +:+ dump b.
Proof. induction a as [|l a IH]; [done|]. cbn [app dump]. by rewrite IH, append_assoc. Qed.

Lemma run_daemon_content rounds g s d :
  content d (fst (run_daemon rounds g s)) = content d s +:+ dump (event_json <$> on_day d (dated rounds g)).
Proof.
  revert g s. induction rounds as [|r rounds IH]; intros g s; cbn [run_daemon dated].
  { cbn. by rewrite append_nil. }
  destruct (poll_all (dmesg_output r) g) as [[es g']|]; [|cbn; by rewrite append_nil].
  rewrite IH. clear IH.
  assert (Hday : on_day d (((fun e => (today r, e)) <$> es) ++ dated rounds g') =
                 (if decide (today r = d) then es else []) ++ on_day d (dated rounds g')).
  { unfold on_day. rewrite filter_app, fmap_app. f_equal. induction es as [|e es IHe]; [by case_decide|].
    cbn [fmap list_fmap]. rewrite filter_cons. cbn [fst]. case_decide; [|done]. cbn. by f_equal. }
  rewrite Hday, fmap_app, dump_app, <- append_assoc. f_equal.
  rewrite <- log_events_content. destruct es as [|e es]; [done|].
  unfold content. by rewrite index_files.
Qed.

Lemma read_dump es : mapM read_event (splitlines (dump (event_json <$> es))) = Some es.
Proof.
  rewrite splitlines_dump.
  - apply mapM_Some, Forall2_fmap_l, Forall_Forall2_diag, Forall_true. intros e. apply read_event_json.
  - apply Forall_fmap, Forall_true. intros e. apply event_json_line.
Qed.

Lemma documents_sublist g h (es : list event) :
  fst <$> concat (imap (fun i e => if (g i : bool) then [(e, (h i : string))] else []) es) `sublist_of` es /\
  ((forall i, g i = true) -> fst <$> concat (imap (fun i e => if g i then [(e, h i)] else []) es) = es).
Proof.
  revert g h. induction es as [|e es IH]; intros g h; [done|].
  rewrite imap_cons. cbn [concat]. rewrite fmap_app.
  destruct (IH (g ∘ S) (h ∘ S)) as [Hsub Hall]. split.
  - destruct (g 0%nat); cbn [app fmap list_fmap fst]; [by constructor|by apply sublist_cons].
  - intros Hg. rewrite Hg. cbn. f_equal. apply Hall. intros i. apply Hg.
Qed.

(** What a round adds to the index: some of its events, or all. *)
Lemma index_events_adds r es s :
  exists l, indexed (index_events r es s) = indexed s ++ l /\ fst <$> l `sublist_of` es /\
    (enabled = true -> bulk_ok r = true -> fst <$> l = es).
Proof.
  unfold index_events. destruct es as [|e es]; [exists []; by rewrite app_nil_r|].
  destruct enabled; [|exists []; rewrite app_nil_r; split_and!; [done|apply sublist_nil_l|done]].
  exists (documents r (e :: es)). split; [done|].
  destruct (documents_sublist (taken r) (now r) (e :: es)) as [Hsub Hall]. split; [done|].
  intros _ Hok. apply Hall. intros i. unfold taken. by rewrite Hok.
Qed.

Lemma run_daemon_index rounds g s :
  exists l, indexed (fst (run_daemon rounds g s)) = indexed s ++ l /\ fst <$> l `sublist_of` snd <$> dated rounds g /\
    (enabled = true -> Forall (fun r => bulk_ok r = true) rounds -> fst <$> l = snd <$> dated rounds g).
Proof.
  revert g s. induction rounds as [|r rounds IH]; intros g s; cbn [run_daemon dated].
  { exists []. by rewrite app_nil_r. }
  destruct (poll_all (dmesg_output r) g) as [[es g']|]; [|exists []; by rewrite app_nil_r].
  assert (Hsnd : snd <$> ((fun e => (today r, e)) <$> es) = es).
  { rewrite <- list_fmap_compose. apply list_fmap_id. }
  rewrite fmap_app, Hsnd.
  destruct (IH g' (match es with [] => s | _ => index_events r es (log_events (today r) es s) end))
    as (l & Hl & Hsub & Hall).
  destruct (index_events_adds r es (log_events (today r) es s)) as (c & Hc & Hcs & Hca).
  assert (Hs : indexed (match es with [] => s | _ => index_events r es (log_events (today r) es s) end) = indexed s ++ c).
  { destruct es as [|e es]; [|exact Hc]. destruct c; [by rewrite app_nil_r|by apply sublist_nil_r in Hcs]. }
  exists (c ++ l). rewrite Hl, Hs, <- app_assoc, fmap_app. split_and!; [done|by apply sublist_app|].
  intros He Hb. apply Forall_cons in Hb as [Hb Hbs]. by rewrite Hca, Hall.
Qed.

(** C12. Every event of the daemon is one line of the file of its day, in order, from which the event can be read back; the index gets some of the events, in order, and all of them when it is enabled and no bulk request fails; of a request that fails the index may have taken a part; what it refuses is in the files all the same. *)
Theorem events_logged rounds g s :
  snd <$> dated rounds g = fst (daemon (dmesg_output <$> rounds) g) /\
  (forall day, exists text,
     content day (fst (run_daemon rounds g s)) = content day s +:+ text /\
     mapM read_event (splitlines text) = Some (on_day day (dated rounds g))) /\
  exists l, indexed (fst (run_daemon rounds g s)) = indexed s ++ l /\ fst <$> l `sublist_of` snd <$> dated rounds g /\
    (enabled = true -> Forall (fun r => bulk_ok r = true) rounds -> fst <$> l = snd <$> dated rounds g).
Proof.
  split; [apply dated_daemon|]. split; [|apply run_daemon_index].
  intros day. eexists. split; [apply run_daemon_content|apply read_dump].
Qed.
End lines.
