(* ===== verification/DmesgRuns.v ===== *)
(** * The dmesg reader on logs written out
    The theorems on the reader applied to concrete lines, and lines on which
    the reader errs: a forged path, a name with an apostrophe, a parent that is
    gone, a time that is no number. *)
From Stdlib Require Import ZArith QArith Lia.
From Stdlib Require Import Strings.Ascii Strings.String.
From stdpp Require Import base numbers list strings option.
From S2P Require Import Prelude CString Kernel Arch Hooks PyRe Console ResetTainted FilterIp FileAccess SimpleDetectors Reporting Scenarios.
From S2P Require Import DmesgReader DmesgFacts DmesgLog DmesgPaths EventLog.

#[local] Open Scope string_scope.
#[local] Open Scope list_scope.

(** One symbol in a module, every other in the kernel. *)
Definition toy_symbol (a : Z) : string :=
  if Z.eqb a 9000 then "evil_init+0x1a/0x40 [evil]" else "do_init_module+0x60/0x250".

Definition bash : task := mk_task 1234 "bash".
Definition clear_entry (stamp : string) (time : Q) : entry :=
  mk_entry "kern  :alert : " "  " stamp time (dmesg_alert bash)
    (mk_report "critical" "dmesg_cleared" (from_detector "clear_taint_dmesg_detector" (task_data bash))).
Definition thread_entry : entry :=
  mk_entry "kern  :alert : " "  " "102.000250" (Qred (102000250 # 1000000)) (thread_line "zer0t" 8000 bash)
    (mk_report "critical" "suspicious_kthread"
      (from_detector "reset_tainted_detector"
        ([("thread_name", VStr "zer0t"); ("caller", VStr "do_init_module+0x60/0x250")] ++ task_data bash))).

Ltac concrete := repeat split; vm_compute; done.
Lemma bash_ok : task_ok bash.
Proof. concrete. Qed.
Definition first_clear : entry := clear_entry "101.500000" (203 # 2).
Definition second_clear : entry := clear_entry "101.500001" (101500001 # 1000000).

Lemma entries_readable : Forall (readable toy_symbol) [first_clear; thread_entry; second_clear].
Proof.
  repeat apply Forall_cons_2; [..|apply Forall_nil_2]; (split; [vm_compute; reflexivity..|]).
  - exists 8%nat. split; [constructor; apply bash_ok|vm_compute; reflexivity].
  - exists 5%nat. split; [|vm_compute; reflexivity].
    apply (announce_kthread toy_symbol "zer0t" 8000 bash); [concrete|concrete|apply bash_ok].
  - exists 8%nat. split; [constructor; apply bash_ok|vm_compute; reflexivity].
Qed.

(** Two dumps that overlap: three events, the repeated line only once. *)
Lemma daemon_reports_witness :
  exists g, daemon (printout toy_symbol [[first_clear; thread_entry]; [first_clear; thread_entry; second_clear]]) new_daemon =
    (number_events 0 (event_of toy_symbol <$> [first_clear; thread_entry; second_clear]), Some g).
Proof.
  destruct (daemon_reports toy_symbol [[first_clear; thread_entry]; [first_clear; thread_entry; second_clear]]) as [g Hg].
  - exact (Forall_app_2 _ [first_clear; thread_entry] _ (Forall_take _ 2 _ entries_readable) entries_readable).
  - exists g. etrans; [exact Hg|vm_compute; reflexivity].
Defined.

(** The same alert when the thread's creator is a module. *)
Lemma module_callers_missed_witness :
  parse_message (message toy_symbol (thread_line "zer0t" 9000 bash)) =
    mk_report "high" "suspicious_probe"
      [("message", VStr "SUSPICIOUS *** kthread 'zer0t' spawned! Caller: evil_init+0x1a/0x40 [evil], process: 'bash' (PID 1234). Possible taint-clearing rootkit!")].
Proof.
  etrans.
  - apply (module_callers_missed toy_symbol 5 9000 (thread_line "zer0t" 9000 bash) "evil_init+0x1a/0x40" "evil");
      [constructor; concrete|reflexivity|concrete|reflexivity|reflexivity|vm_compute; reflexivity].
  - vm_compute. reflexivity.
Defined.

(** [authorized_keys] opened for appending, as in [Scenarios]. *)
Lemma file_open_reported_witness :
  exists ctx e1,
    do_filp_open_entry toy_kernel toy_view (entry_regs X86_64 [0%Z; 0%Z; 900%Z]) toy_env toy_world = Ret (ctx, e1, toy_world) /\
    fst <$> poll (Some (dump [dmesg_line toy_symbol "kern  :alert : " "  99.000001"
                         (open_line "/home/alice/.ssh/authorized_keys" 1025 ctx)])) (start new_reader) =
      Some [open_event (Qred (99000001 # 1000000)) (message toy_symbol (open_line "/home/alice/.ssh/authorized_keys" 1025 ctx))
              "/home/alice/.ssh/authorized_keys" 1025 420 1 0 0 (current toy_env)].
Proof.
  destruct (file_open_reported toy_symbol toy_kernel toy_view [0%Z; 0%Z; 900%Z] 900 1025 420 910 ssh_file
    "/home/alice/.ssh/authorized_keys" 1 toy_env toy_env toy_world toy_world (mk_pt_regs 0 0 0 0 0 0 910 [])
    ltac:(done) eq_refl ltac:(done) eq_refl eq_refl ltac:(done) eq_refl eq_refl eq_refl eq_refl
    ltac:(concrete) ltac:(concrete) ltac:(concrete) eq_refl ltac:(concrete) ltac:(concrete) ltac:(concrete))
    as (ctx & e1 & He & _ & Hread).
  exists ctx, e1. split; [exact He|].
  assert (Hctx : ctx = mk_open_call_ctx 0 7 1 0 0 "insmod" 1025 420). { vm_compute in He. congruence. }
  apply (Hread "kern  :alert : " "  " "99.000001"); try (subst ctx; vm_compute; reflexivity).
Defined.

(** Floats written as fractions, read back exactly. *)
Definition toy_repr (q : Q) : string := json_int (Qnum q) +:+ String "/" (json_int (Z.pos (Qden q))).
Definition toy_float (s : string) : option Q :=
  let '(n, s) := read_int s in
  s ← strip_prefix "/" s;
  let '(d, _) := read_int s in Some (n # Z.to_pos d).
Lemma toy_float_reads q : toy_float (toy_repr q) = Some q.
Proof.
  unfold toy_float, toy_repr. rewrite read_json_int by done. cbn [strip_prefix]. rewrite Ascii.eqb_refl.
  cbn [mbind option_bind]. rewrite <- (append_nil (json_int (Z.pos _))), read_json_int by done. by destruct q.
Qed.
Lemma toy_repr_plain q : all_chars (not_char ",") (toy_repr q) = true /\ one_line (toy_repr q).
Proof.
  assert (Hint : forall z, all_chars (not_char ",") (json_int z) = true).
  { assert (Hd : forall z, all_chars (not_char ",") (print_digits z) = true).
    { intros z. eapply all_chars_impl; [|apply print_digits_digits]. by intros [[] [] [] [] [] [] [] []]. }
    intros z. unfold json_int. destruct (z <? 0)%Z; [|done]. cbn [all_chars]. by rewrite Hd. }
  unfold toy_repr. split.
  - rewrite all_chars_app. cbn [all_chars]. by rewrite !Hint.
  - apply one_line_append; [apply json_int_line|]. apply (one_line_append "/"); [done|apply json_int_line].
Qed.

Definition toy_rounds : list round :=
  [mk_round (Some (dump [text_of toy_symbol first_clear])) "2026-01-31" (fun _ => "T1") true (fun _ => false);
   mk_round None "2026-01-31" (fun _ => "T2") true (fun _ => false);
   mk_round (Some (dump [text_of toy_symbol first_clear; text_of toy_symbol thread_entry])) "2026-02-01" (fun _ => "T3") false (Nat.eqb 1)].
Definition toy_sinks : sinks := mk_sinks ∅ [].

(** Two days, and a bulk request that fails on the second. *)
Lemma events_logged_witness :
  let s := fst (run_daemon toy_repr "data/logs" true toy_rounds new_daemon toy_sinks) in
  mapM (read_event toy_float) (splitlines (content "data/logs" "2026-02-01" s)) =
    Some (drop 1 (number_events 0 (event_of toy_symbol <$> [first_clear; thread_entry]))) /\
  fst <$> indexed s = number_events 0 [event_of toy_symbol first_clear].
Proof.
  destruct (events_logged toy_repr toy_float toy_float_reads toy_repr_plain "data/logs" true toy_rounds new_daemon toy_sinks)
    as (_ & Hfiles & _).
  destruct (Hfiles "2026-02-01") as (text & Htext & Hread). split.
  - rewrite Htext. etrans; [exact Hread|vm_compute; reflexivity].
  - vm_compute. reflexivity.
Defined.

(** ** Where the reader errs *)
(** One line with a time that is no number ends the daemon. *)
Example undated_line_ends_daemon :
  daemon [Some (dump [text_of toy_symbol first_clear]); None;
          Some (dump [text_of toy_symbol first_clear; "kern  :info  : [  1.2.3] [PHOTON RING] Module loaded"])] new_daemon =
    (number_events 0 [event_of toy_symbol first_clear], None).
Proof. by vm_compute. Qed.

Definition open_by (who : string) (parent : Z) : open_call_ctx := mk_open_call_ctx 5 4321 parent 1000 1000 who 577 420.
Definition severity_and_type (msg : string) : string * string :=
  (severity (parse_message msg), ev_type (parse_message msg)).

(** A file named like the text of another pattern is reported as that. *)
Example forged_path :
  let path := "/home/alice/.ssh/ftrace filter registered for: x (addr 1)" in
  is_sensitive_path path = true /\
  severity_and_type (message toy_symbol (open_line path 577 (open_by "vi" 1))) = ("info", "ftrace_filter_registered").
Proof. by vm_compute. Qed.

(** The parent of a process without one is printed as -1, which is no number to the pattern. *)
Example orphan_open :
  severity_and_type (message toy_symbol (open_line "/etc/shadow" 577 (open_by "vi" (-1)))) = ("info", "photon_ring_generic").
Proof. by vm_compute. Qed.

(** A quote in the name of the process ends the name early. *)
Example quoted_name :
  severity_and_type (message toy_symbol (dmesg_alert (mk_task 1234 "it's"))) = ("high", "suspicious_probe") /\
  severity_and_type (message toy_symbol (dmesg_alert bash)) = ("critical", "dmesg_cleared").
Proof. by vm_compute. Qed.
