(* ===== verification/Agent.v ===== *)
(** * The userspace agent
    [photon_agent.c]: the relay between the device and the remote server.
    OpenSSL, the socket calls and the system calls on the device are a
    [Platform]: operations on a world [W] of which the agent sees results and
    bytes only; what their documentation promises is in [AgentFacts].  The flag
    [g_running] belongs to the world: a signal handler clears it during one of
    these calls.  Errors of system calls are negative error numbers.  A
    computation that is still in a loop after the steps it was given has no
    result, but a state.  Log output is not modelled. *)
From Stdlib Require Import ZArith Lia.
From Stdlib Require Import Strings.Byte Strings.Ascii Strings.String.
From stdpp Require Import base numbers list strings option.
From S2P Require Import Prelude CString Crypto Device.

(** The calls that build a TLS context, in the order of [build_ssl_ctx]. *)
Inductive ctx_call :=
  | CTX_new
  | CTX_set_min_proto_version (version : Z)
  | CTX_use_certificate_file (file : string)
  | CTX_use_PrivateKey_file (file : string)
  | CTX_check_private_key
  | CTX_load_verify_locations (file : string)
  | CTX_set_verify (mode : Z).

Class Platform (W : Type) := {
  SSL_read : nat -> W -> Z * list byte * W;
  SSL_write : list byte -> W -> Z * W;
  SSL_new : W -> Z * W;
  SSL_connect : W -> Z * W;
  SSL_CTX : ctx_call -> W -> Z * W;
  getaddrinfo : string -> string -> W -> Z * list Z * W;
  socket : Z -> W -> Z * W;
  connect : Z -> Z -> W -> Z * W;
  dev_open : W -> Z * W;
  dev_ioctl : Z -> list byte -> W -> Z * W;
  dev_read : Z -> W -> Z * list byte * W;
  dev_close : W -> W;
  sleep : Z -> W -> W;
  g_running : W -> bool;
}.

(** The process: the world, the stack buffer for the master key, the
    numbers of open descriptors and of TLS objects, and the counters of [run_relay]. *)
Record agent (W : Type) := mk_agent {
  os : W;
  master_key : list byte;
  open_fds : Z;
  live_ssl : Z;
  total_frames : Z;
  total_bytes : Z;
  total_errors : Z;
}.
Arguments mk_agent {W}.
Arguments os {W}.
Arguments master_key {W}.
Arguments open_fds {W}.
Arguments live_ssl {W}.
Arguments total_frames {W}.
Arguments total_bytes {W}.
Arguments total_errors {W}.

Definition P (W A : Type) : Type := agent W -> option A * agent W.
#[export] Instance P_ret W : MRet (P W) := fun A a s => (Some a, s).
#[export] Instance P_bind W : MBind (P W) := fun A B f m s =>
  match m s with
  | (Some a, s') => f a s'
  | (None, s') => (None, s')
  end.

Section agent.
Context {W : Type} `{Platform W}.
Abbreviation agent := (agent W).
Abbreviation P := (P W).

Definition call {A} (f : W -> A * W) : P A := fun s =>
  let '(a, w) := f (os s) in
  (Some a, mk_agent w (master_key s) (open_fds s) (live_ssl s)
             (total_frames s) (total_bytes s) (total_errors s)).
Definition call_ {A} (f : W -> W) (a : A) : P A := call (fun w => (a, f w)).
Definition running : P bool := fun s => (Some (g_running (os s)), s).
(** A loop that has used up its steps. *)
Definition still_running {A} : P A := fun s => (None, s).

Definition put_key (k : list byte) : P unit := fun s =>
  (Some tt, mk_agent (os s) k (open_fds s) (live_ssl s) (total_frames s) (total_bytes s) (total_errors s)).
Definition own_fds (d : Z) : P unit := fun s =>
  (Some tt, mk_agent (os s) (master_key s) (open_fds s + d) (live_ssl s)
              (total_frames s) (total_bytes s) (total_errors s)).
Definition own_ssl (d : Z) : P unit := fun s =>
  (Some tt, mk_agent (os s) (master_key s) (open_fds s) (live_ssl s + d)
              (total_frames s) (total_bytes s) (total_errors s)).
Definition put_totals (f b x : Z) : P unit := fun s =>
  (Some tt, mk_agent (os s) (master_key s) (open_fds s) (live_ssl s) f b x).
Definition get_agent : P agent := fun s => (Some s, s).

(** ** Exact reads and writes *)
(** [fuel] bounds the calls of [SSL_read]; what was read so far is in the
    caller's buffer also when the call fails. *)
Fixpoint recv_loop (fuel n : nat) : P (Z * list byte) :=
  match n with
  | O => mret (0%Z, [])
  | _ =>
      match fuel with
      | O => still_running
      | S fuel =>
          '(r, data) ← call (SSL_read n);
          if (r <=? 0)%Z then mret ((-1)%Z, []) else
          '(rc, rest) ← recv_loop fuel (n - Z.to_nat r);
          mret (rc, (data ++ rest)%list)
      end
  end.
Definition ssl_recv_all (n : nat) : P (Z * list byte) := recv_loop n n.

Fixpoint send_loop (fuel : nat) (buf : list byte) : P Z :=
  match buf with
  | [] => mret 0%Z
  | _ =>
      match fuel with
      | O => still_running
      | S fuel =>
          r ← call (SSL_write buf);
          if (r <=? 0)%Z then mret (-1)%Z else send_loop fuel (drop (Z.to_nat r) buf)
      end
  end.
Definition ssl_send_all (buf : list byte) : P Z := send_loop (length buf) buf.

(** ** Connecting *)
(** The loop over the addresses: a connected socket, or a negative number. *)
Fixpoint try_addresses (addrs : list Z) : P Z :=
  match addrs with
  | [] => mret (-1)%Z
  | ai :: addrs =>
      fd ← call (socket ai);
      if (fd <? 0)%Z then try_addresses addrs else
      own_fds 1 ;;
      rc ← call (connect fd ai);
      if Z.eqb rc 0 then mret fd else
      own_fds (-1) ;;
      try_addresses addrs
  end.

(** 0, or -1 where the source returns NULL. *)
Definition connect_tls (host port : string) : P Z :=
  '(rc, addrs) ← call (getaddrinfo host port);
  if negb (Z.eqb rc 0) then mret (-1)%Z else
  fd ← try_addresses addrs;
  if (fd <? 0)%Z then mret (-1)%Z else
  ssl ← call SSL_new;
  if Z.eqb ssl 0 then (own_fds (-1) ;; mret (-1)%Z) else
  own_ssl 1 ;;
  rc ← call SSL_connect;
  if negb (Z.eqb rc 1) then
    own_ssl (-1) ;;
    own_fds (-1) ;;
    mret (-1)%Z
  else mret 0%Z.

(** ** Key exchange *)
Definition MAGIC : list byte := [x50; x52; x4f; x47].
Definition MSG_KEY_OFFER : byte := x01.
Definition MSG_KEY_ACK : byte := x02.

Definition do_key_exchange : P Z :=
  rc ← ssl_send_all MAGIC;
  if negb (Z.eqb rc 0) then mret (-1)%Z else
  '(rc, offer) ← ssl_recv_all 1;
  if negb (Z.eqb rc 0) || bool_decide (hd_error offer <> Some MSG_KEY_OFFER) then mret (-1)%Z else
  s ← get_agent;
  '(rc, key) ← ssl_recv_all PHOTON_KEY_SIZE;
  put_key (key ++ drop (length key) (master_key s))%list ;;
  if negb (Z.eqb rc 0) then mret (-1)%Z else
  rc ← ssl_send_all [MSG_KEY_ACK];
  if negb (Z.eqb rc 0) then mret (-1)%Z else mret 0%Z.

(** [open] for a file descriptor, [close] of one of the device. *)
Definition open_device : P Z :=
  fd ← call dev_open;
  if (fd <? 0)%Z then mret fd else (own_fds 1 ;; mret fd).
Definition close_device : P unit := call_ dev_close tt ;; own_fds (-1).

Definition set_kernel_key (key : list byte) : P Z :=
  fd ← open_device;
  if (fd <? 0)%Z then mret (-1)%Z else
  r ← call (dev_ioctl PHOTON_IOC_SET_KEY key);
  if (r <? 0)%Z && negb (Z.eqb r (- EEXIST)) then (close_device ;; mret (-1)%Z) else
  close_device ;;
  mret 0%Z.

(** ** The relay *)
Definition MAX_FRAME_BYTES : Z := 8192.

(** One round of the loop: [true] to go on. *)
Definition relay_step : P bool :=
  go ← running;
  if negb go then mret false else
  '(n, data) ← call (dev_read MAX_FRAME_BYTES);
  s ← get_agent;
  let error := put_totals (total_frames s) (total_bytes s) (u64 (total_errors s + 1)) in
  if (n <? 0)%Z then
    if Z.eqb n (- EINTR) then mret true else
    if Z.eqb n (- EIO) then mret false else
    error ;; mret true
  else if Z.eqb n 0 then mret true else
  if (n <? 4)%Z then (error ;; mret true) else
  rc ← ssl_send_all data;
  if negb (Z.eqb rc 0) then (error ;; mret false) else
  put_totals (u64 (total_frames s + 1)) (u64 (total_bytes s + n)) (total_errors s) ;;
  mret true.

Fixpoint relay_loop (fuel : nat) : P unit :=
  match fuel with
  | O => still_running
  | S fuel => more ← relay_step; if (more : bool) then relay_loop fuel else mret tt
  end.

Definition run_relay (fuel : nat) : P Z :=
  put_totals 0 0 0 ;;
  fd ← open_device;
  if (fd <? 0)%Z then mret (-1)%Z else
  relay_loop fuel ;;
  close_device ;;
  mret 0%Z.

(** ** One connection, and the reconnect loop *)
Definition hang_up : P unit := own_ssl (-1) ;; own_fds (-1).

Definition connect_and_run (fuel : nat) (host port : string) (inject_key : bool) : P Z :=
  rc ← connect_tls host port;
  if negb (Z.eqb rc 0) then mret (-1)%Z else
  put_key (zeros PHOTON_KEY_SIZE) ;;
  rc ← do_key_exchange;
  if negb (Z.eqb rc 0) then (hang_up ;; mret (-1)%Z) else
  s ← get_agent;
  rc ← (if inject_key then set_kernel_key (master_key s) else mret 0%Z);
  put_key (zeros PHOTON_KEY_SIZE) ;;
  if negb (Z.eqb rc 0) then (hang_up ;; mret (-1)%Z) else
  run_relay fuel ;;
  hang_up ;;
  mret 0%Z.

Fixpoint reconnect_loop (fuel : nat) (host port : string) (inject_key : bool) (retry_delay : Z) : P unit :=
  match fuel with
  | O => still_running
  | S n =>
      go ← running;
      if negb go then mret tt else
      connect_and_run fuel host port inject_key ;;
      go ← running;
      if negb go then mret tt else
      call_ (sleep (u32 retry_delay)) tt ;;
      reconnect_loop n host port inject_key retry_delay
  end.

(** ** The TLS context and the command line *)
Definition TLS1_3_VERSION : Z := 0x304.
Definition SSL_VERIFY_PEER : Z := 1.
Definition SSL_VERIFY_FAIL_IF_NO_PEER_CERT : Z := 2.

(** The calls that must answer 1, in turn; the context is freed if one does not. *)
Fixpoint ctx_calls (calls : list ctx_call) : P Z :=
  match calls with
  | [] => mret 0%Z
  | c :: calls =>
      r ← call (SSL_CTX c);
      if negb (Z.eqb r 1) then (own_ssl (-1) ;; mret (-1)%Z) else ctx_calls calls
  end.

(** 0, or -1 where the source returns NULL. *)
Definition build_ssl_ctx (cert key ca : string) : P Z :=
  ctx ← call (SSL_CTX CTX_new);
  if Z.eqb ctx 0 then mret (-1)%Z else
  own_ssl 1 ;;
  call (SSL_CTX (CTX_set_min_proto_version TLS1_3_VERSION)) ;;
  r ← ctx_calls [CTX_use_certificate_file cert; CTX_use_PrivateKey_file key;
                 CTX_check_private_key; CTX_load_verify_locations ca];
  if negb (Z.eqb r 0) then mret (-1)%Z else
  call (SSL_CTX (CTX_set_verify (Z.lor SSL_VERIFY_PEER SSL_VERIFY_FAIL_IF_NO_PEER_CERT))) ;;
  mret 0%Z.

Open Scope string_scope.
Record options := mk_options {
  opt_host : string; opt_port : string; opt_cert : string; opt_key : string; opt_ca : string;
  opt_inject : bool; opt_retry : Z;
}.
Definition default_options : options :=
  mk_options "127.0.0.1" "9443" "certs/client.crt" "certs/client.key" "certs/ca.crt" true 5.

(** [atoi]: blanks, a sign, digits. *)
Fixpoint atoi_digits (acc : Z) (s : string) : Z :=
  match s with
  | String c s =>
      let z := (Z.of_nat (nat_of_ascii c) - 48)%Z in
      if (0 <=? z)%Z && (z <=? 9)%Z then atoi_digits (10 * acc + z) s else acc
  | EmptyString => acc
  end.
Fixpoint atoi (s : string) : Z :=
  match s with
  | String c rest =>
      let n := nat_of_ascii c in
      if bool_decide (n = 32 \/ 9 <= n <= 13)%nat then atoi rest
      else if Ascii.eqb c "-" then (- atoi_digits 0 rest)%Z
      else if Ascii.eqb c "+" then atoi_digits 0 rest
      else atoi_digits 0 s
  | EmptyString => 0%Z
  end.

(** The options that take a value. *)
Definition with_value (name v : string) (o : options) : option options :=
  let '(mk_options host port cert key ca inj retry) := o in
  if strcmp_eq name "--host" then Some (mk_options v port cert key ca inj retry)
  else if strcmp_eq name "--port" then Some (mk_options host v cert key ca inj retry)
  else if strcmp_eq name "--cert" then Some (mk_options host port v key ca inj retry)
  else if strcmp_eq name "--key" then Some (mk_options host port cert v ca inj retry)
  else if strcmp_eq name "--ca" then Some (mk_options host port cert key v inj retry)
  else if strcmp_eq name "--retry-delay" then Some (mk_options host port cert key ca inj (atoi v))
  else None.

(** The options, or the exit code of a run that stops here. *)
Fixpoint parse_args (args : list string) (o : options) : options + Z :=
  match args with
  | [] => inl o
  | name :: rest =>
      let flag :=
        if strcmp_eq name "--no-inject" then
          parse_args rest (mk_options (opt_host o) (opt_port o) (opt_cert o) (opt_key o) (opt_ca o)
                             false (opt_retry o))
        else if strcmp_eq name "--help" then inr 0%Z
        else inr 1%Z in
      match rest with
      | [] => flag
      | v :: rest => match with_value name v o with Some o => parse_args rest o | None => flag end
      end
  end.

Definition main (fuel : nat) (args : list string) : P Z :=
  match parse_args args default_options with
  | inr code => mret code
  | inl o =>
      ctx ← build_ssl_ctx (opt_cert o) (opt_key o) (opt_ca o);
      if negb (Z.eqb ctx 0) then mret 1%Z else
      reconnect_loop fuel (opt_host o) (opt_port o) (opt_inject o) (opt_retry o) ;;
      own_ssl (-1) ;;
      mret 0%Z
  end.
End agent.
