(* ===== verification/AgentFacts.v ===== *)
(** * What the agent does on any platform
    Rules for the agent's computations ([pwp]), what the documentation of the
    platform's calls promises ([Wire], [DeviceLog]), and the theorems on exact
    transfers, the relay, the key and the resources of the process. *)
From Stdlib Require Import ZArith Lia.
From Stdlib Require Import Strings.Byte Strings.String.
From stdpp Require Import base numbers list option.
From S2P Require Import Prelude Crypto Device Agent.

Definition with_os {W} (w : W) (s : agent W) : agent W :=
  mk_agent w (master_key s) (open_fds s) (live_ssl s) (total_frames s) (total_bytes s) (total_errors s).

(** [Q] holds of the result and the state if the computation returns, [R] of
    the state if it is still in a loop. *)
Definition pwp {W A} (R : agent W -> Prop) (m : P W A) (Q : A -> agent W -> Prop) (s : agent W) : Prop :=
  match m s with
  | (Some a, s') => Q a s'
  | (None, s') => R s'
  end.
Definition never {W} (s : agent W) : Prop := False.

Section rules.
Context {W : Type} `{Platform W}.
Abbreviation agent := (agent W).

Lemma pwp_ret {A} R (a : A) (Q : A -> agent -> Prop) s : Q a s -> pwp R (mret a) Q s.
Proof. done. Qed.
Lemma pwp_bind {A B} R (m : P W A) (f : A -> P W B) Q s :
  pwp R m (fun a s' => pwp R (f a) Q s') s -> pwp R (m ≫= f) Q s.
Proof. unfold pwp, mbind, P_bind. by destruct (m s) as [[a|] s']. Qed.
Lemma pwp_mono {A} (R R' : agent -> Prop) (m : P W A) (Q Q' : A -> agent -> Prop) s :
  pwp R m Q s -> (forall s', R s' -> R' s') -> (forall a s', Q a s' -> Q' a s') -> pwp R' m Q' s.
Proof. unfold pwp. destruct (m s) as [[a|] s']; auto. Qed.
Lemma pwp_call {A} R (f : W -> A * W) (Q : A -> agent -> Prop) s :
  (forall a w, f (os s) = (a, w) -> Q a (with_os w s)) -> pwp R (call f) Q s.
Proof. intros HQ. unfold pwp, call. destruct (f (os s)) as [a w] eqn:E. by apply HQ. Qed.
Lemma pwp_call_ {A} R (f : W -> W) (a : A) (Q : A -> agent -> Prop) s :
  Q a (with_os (f (os s)) s) -> pwp R (call_ f a) Q s.
Proof. done. Qed.
Lemma pwp_and {A} R (m : P W A) (Q Q' : A -> agent -> Prop) s :
  pwp R m Q s -> pwp R m Q' s -> pwp R m (fun a s' => Q a s' /\ Q' a s') s.
Proof. unfold pwp. destruct (m s) as [[a|] s']; auto. Qed.
Lemma pwp_own_fds R d (Q : unit -> agent -> Prop) s :
  Q tt (mk_agent (os s) (master_key s) (open_fds s + d) (live_ssl s)
          (total_frames s) (total_bytes s) (total_errors s)) -> pwp R (own_fds d) Q s.
Proof. done. Qed.
Lemma pwp_own_ssl R d (Q : unit -> agent -> Prop) s :
  Q tt (mk_agent (os s) (master_key s) (open_fds s) (live_ssl s + d)
          (total_frames s) (total_bytes s) (total_errors s)) -> pwp R (own_ssl d) Q s.
Proof. done. Qed.
Lemma pwp_put_key R k (Q : unit -> agent -> Prop) s :
  Q tt (mk_agent (os s) k (open_fds s) (live_ssl s) (total_frames s) (total_bytes s) (total_errors s)) ->
  pwp R (put_key k) Q s.
Proof. done. Qed.
Lemma pwp_put_totals R f b x (Q : unit -> agent -> Prop) s :
  Q tt (mk_agent (os s) (master_key s) (open_fds s) (live_ssl s) f b x) -> pwp R (put_totals f b x) Q s.
Proof. done. Qed.
Lemma pwp_get_agent R (Q : agent -> agent -> Prop) s : Q s s -> pwp R get_agent Q s.
Proof. done. Qed.
Lemma pwp_running R (Q : bool -> agent -> Prop) s : Q (g_running (os s)) s -> pwp R running Q s.
Proof. done. Qed.
Lemma pwp_run {A} R (m : P W A) Q s :
  pwp R m Q s -> (forall s', R s' -> False) -> exists a s', m s = (Some a, s') /\ Q a s'.
Proof. unfold pwp. destruct (m s) as [[a|] s']; [eauto|]. intros HR HF. by destruct (HF s'). Qed.
End rules.

Ltac pstep :=
  lazymatch goal with
  | |- pwp _ (_ ≫= _) _ _ => apply pwp_bind
  | |- pwp _ (mret _) _ _ => apply pwp_ret
  | |- pwp _ (call _) _ _ => apply pwp_call; let E := fresh "Ecall" in intros ? ? E
  | |- pwp _ (call_ _ _) _ _ => apply pwp_call_
  | |- pwp _ (own_fds _) _ _ => apply pwp_own_fds
  | |- pwp _ (own_ssl _) _ _ => apply pwp_own_ssl
  | |- pwp _ (put_key _) _ _ => apply pwp_put_key
  | |- pwp _ (put_totals _ _ _) _ _ => apply pwp_put_totals
  | |- pwp _ get_agent _ _ => apply pwp_get_agent
  | |- pwp _ running _ _ => apply pwp_running
  | |- pwp _ still_running _ _ => unfold still_running, pwp
  | |- pwp _ (let '(_, _) := ?x in _) _ _ => destruct x
  | |- pwp _ (if ?b then _ else _) _ _ => destruct b eqn:?
  end.
Ltac psteps := repeat (pstep; cbn beta iota zeta).

(** ** The promises of the platform *)
(** Of OpenSSL: [SSL_read] delivers the next bytes of the server's stream and
    [SSL_write] appends a prefix of the buffer to the agent's, both at least
    one byte and at most as many as asked for, or they fail and move nothing. *)
Class Wire (W : Type) `{Platform W} := {
  incoming : W -> list byte;
  sent : W -> list byte;
  SSL_read_law n w r data w' :
    (0 < n)%nat -> SSL_read n w = (r, data, w') ->
    sent w' = sent w /\ incoming w = (data ++ incoming w')%list /\
    ((0 < r)%Z -> length data = Z.to_nat r /\ (Z.to_nat r <= n)%nat) /\
    ((r <= 0)%Z -> data = []);
  SSL_write_law buf w r w' :
    SSL_write buf w = (r, w') ->
    incoming w' = incoming w /\
    sent w' = (sent w ++ take (Z.to_nat r) buf)%list /\ (r <= Z.of_nat (length buf))%Z;
}.

(** Of [read] on the device: a positive result is the number of bytes put in
    the buffer; [frames_read] is the history of these.  The device and the TLS
    connection do not interfere. *)
Class DeviceLog (W : Type) `{Wire W} := {
  frames_read : W -> list (list byte);
  dev_read_law n w r data w' :
    dev_read n w = (r, data, w') ->
    sent w' = sent w /\
    ((0 < r)%Z -> length data = Z.to_nat r /\ frames_read w' = (frames_read w ++ [data])%list) /\
    ((r <= 0)%Z -> frames_read w' = frames_read w);
  write_log_law buf w r w' : SSL_write buf w = (r, w') -> frames_read w' = frames_read w;
}.

(** ** Exact transfers *)
Section transfers.
Context {W : Type} `{Platform W}.
Abbreviation agent := (agent W).

Lemma recv_loop_returns fuel n (s : agent) :
  (n <= fuel)%nat ->
  pwp never (recv_loop fuel n) (fun _ s' => exists w, s' = with_os w s) s.
Proof.
  revert n s. induction fuel as [|fuel IH]; intros [|n] s Hn; [|lia| |].
  1,2: cbn; exists (os s); by destruct s.
  cbn [recv_loop]. psteps.
  - eexists. reflexivity.
  - eapply pwp_mono; [apply IH; lia|done|]. intros [rc rest] s' [w' ->]. psteps. by exists w'.
Qed.

Lemma send_loop_returns fuel buf (s : agent) :
  (length buf <= fuel)%nat ->
  pwp never (send_loop fuel buf) (fun _ s' => exists w, s' = with_os w s) s.
Proof.
  revert buf s. induction fuel as [|fuel IH]; intros [|b buf] s Hn; simpl in Hn; [|lia| |].
  1,2: cbn; exists (os s); by destruct s.
  cbn [send_loop]. psteps.
  - eexists. reflexivity.
  - eapply pwp_mono; [apply IH; rewrite length_drop; simpl; lia|done|].
    intros rc s' [w' ->]. by exists w'.
Qed.

Context `{!Wire W}.

Lemma recv_loop_spec fuel n (s : agent) :
  (n <= fuel)%nat ->
  pwp never (recv_loop fuel n) (fun r s' => exists w, s' = with_os w s /\
    sent w = sent (os s) /\ incoming (os s) = (r.2 ++ incoming w)%list /\
    ((r.1 = 0%Z /\ length r.2 = n) \/ (r.1 = (-1)%Z /\ (length r.2 < n)%nat))) s.
Proof.
  revert n s. induction fuel as [|fuel IH]; intros [|n] s Hn; [|lia| |].
  1,2: cbn; exists (os s); split_and!; try done; [by destruct s|by left].
  cbn [recv_loop]. pstep. pstep. destruct a as [r data].
  destruct (SSL_read_law (S n) _ _ _ _ ltac:(lia) Ecall) as (Hs & Hi & Hpos & Hneg).
  cbn [with_os]. psteps.
  - eexists. split; [reflexivity|]. cbn. split_and!; [done| |right; cbn; lia].
    rewrite Hi. by rewrite Hneg by lia.
  - destruct (Hpos ltac:(lia)) as [Hl Hr].
    eapply pwp_mono; [apply IH; lia|done|]. intros [rc rest] s' (w' & -> & Hs' & Hi' & Hres). cbn in *.
    psteps. exists w'. split_and!; [done|congruence| |].
    + cbn. by rewrite Hi, Hi', app_assoc.
    + cbn. rewrite length_app. destruct Hres as [[-> ?]|[-> ?]]; [left|right]; lia.
Qed.

Lemma send_loop_spec fuel buf (s : agent) :
  (length buf <= fuel)%nat ->
  pwp never (send_loop fuel buf) (fun rc s' => exists w p, s' = with_os w s /\
    incoming w = incoming (os s) /\ sent w = (sent (os s) ++ p)%list /\
    ((rc = 0%Z /\ p = buf) \/ (rc = (-1)%Z /\ p `prefix_of` buf /\ p <> buf))) s.
Proof.
  revert buf s. induction fuel as [|fuel IH]; intros [|b buf] s Hn; simpl in Hn; [|lia| |].
  1,2: exists (os s), []; split_and!; try done; [by destruct s|by rewrite app_nil_r|by left].
  cbn [send_loop]. do 2 pstep. cbn beta.
  destruct (SSL_write_law _ _ _ _ Ecall) as (Hi & Hs & Hr). revert Hs Hr.
  set (l := b :: buf). intros Hs Hr. cbn [with_os]. psteps.
  - exists w, []. rewrite Hs, app_nil_r. replace (Z.to_nat a) with 0%nat by lia.
    rewrite take_0, app_nil_r. split_and!; try done. right. split_and!; [done|apply prefix_nil|done].
  - eapply pwp_mono; [apply IH; rewrite length_drop; simpl in *; lia|done|].
    intros rc s' (w' & p & -> & Hi' & Hs' & Hres). cbn in *.
    exists w', (take (Z.to_nat a) l ++ p)%list. rewrite Hs', Hs, <- app_assoc.
    split_and!; try done; [congruence|].
    destruct Hres as [[-> ->]|(-> & [q Hq] & Hne)]; [left|right].
    + by rewrite take_drop.
    + split_and!; [done| |].
      * exists q. rewrite <- app_assoc, <- Hq. by rewrite take_drop.
      * intros E. apply Hne. apply (app_inv_head (take (Z.to_nat a) l)).
        by rewrite take_drop.
Qed.
End transfers.

(** What every [SSL_write] keeps, a transfer keeps. *)
Lemma send_loop_keeps `{Platform W} (I : W -> Prop) fuel buf (s : agent W) :
  (forall b w r w', SSL_write b w = (r, w') -> I w -> I w') ->
  (length buf <= fuel)%nat -> I (os s) ->
  pwp never (send_loop fuel buf) (fun _ s' => I (os s')) s.
Proof.
  intros HI. revert buf s. induction fuel as [|fuel IH]; intros [|b buf] s Hn Hs; simpl in Hn;
    [done|lia|done|].
  cbn [send_loop]. do 2 pstep. cbn beta. specialize (HI _ _ _ _ Ecall Hs). psteps; [done|].
  apply IH; [rewrite length_drop; simpl; lia|done].
Qed.

(** ssl_recv_all returns after at most as many calls of SSL_read as bytes asked for, whatever OpenSSL answers: with 0 and exactly the next n bytes of the server's stream, or with -1 and fewer than n of them already in the caller's buffer. *)
Theorem recv_all_exact `{Wire W} n (s : agent W) :
  exists rc data w, ssl_recv_all n s = (Some (rc, data), with_os w s) /\
    sent w = sent (os s) /\ incoming (os s) = (data ++ incoming w)%list /\
    ((rc = 0%Z /\ length data = n) \/ (rc = (-1)%Z /\ (length data < n)%nat)).
Proof.
  destruct (pwp_run never (ssl_recv_all n) _ s (recv_loop_spec n n s ltac:(lia)) ltac:(done))
    as ([rc data] & s' & Hrun & w & -> & H'). by exists rc, data, w.
Qed.

(** ** The relay *)
Section relay.
Context {W : Type} `{DeviceLog W}.
Abbreviation agent := (agent W).

(** The frames the relay forwards: reads of less than a length prefix are dropped. *)
Definition forwarded (reads : list (list byte)) : list (list byte) :=
  filter (fun d => (4 <= length d)%nat) reads.

(** The server has [out] more bytes of the agent than before and the agent has
    read [new] from the device. *)
Definition relayed (s s' : agent) (new : list (list byte)) (out : list byte) : Prop :=
  frames_read (os s') = (frames_read (os s) ++ new)%list /\
  sent (os s') = (sent (os s) ++ out)%list.

(** How a round ends: everything read was forwarded, or sending failed in the
    middle of the last frame. *)
Definition relay_round (s s' : agent) (more : bool) : Prop :=
  exists new, relayed s s' new (concat (forwarded new)) /\ (length new <= 1)%nat \/
    more = false /\ exists d p, new = [d] /\ relayed s s' new p /\
      p `prefix_of` d /\ p <> d /\ (4 <= length d)%nat.

Lemma forwarded_app l1 l2 : forwarded (l1 ++ l2) = (forwarded l1 ++ forwarded l2)%list.
Proof. apply list_basics.list.filter_app. Qed.

Lemma relay_step_spec (s : agent) : pwp never relay_step (fun more s' => relay_round s s' more) s.
Proof.
  unfold relay_step. do 2 pstep. cbn beta.
  assert (Hnone : forall w', sent w' = sent (os s) -> frames_read w' = frames_read (os s) ->
    forall f b x more, relay_round s (mk_agent w' (master_key s) (open_fds s) (live_ssl s) f b x) more).
  { intros w' Hs Hf f b x more. exists []. left. split; [|simpl; lia].
    unfold relayed. cbn. by rewrite Hs, Hf, !app_nil_r. }
  pstep. { pstep. destruct s. by apply Hnone. }
  do 2 pstep. destruct a as [n data]. destruct (dev_read_law _ _ _ _ _ Ecall) as (Hs & Hpos & Hneg).
  do 2 pstep. cbn beta zeta. cbn [with_os total_frames total_bytes total_errors].
  pstep.
  { specialize (Hneg ltac:(lia)). psteps; by apply Hnone. }
  pstep. { specialize (Hneg ltac:(lia)). psteps. by apply Hnone. }
  destruct (Hpos ltac:(lia)) as [Hl Hf].
  pstep.
  { psteps. exists [data]. left. unfold relayed. cbn -[forwarded].
    unfold forwarded. rewrite filter_cons_False by lia. cbn. by rewrite Hs, Hf, app_nil_r. }
  assert (Hfw : forwarded [data] = [data]).
  { unfold forwarded. rewrite filter_cons_True by lia. done. }
  pstep. eapply pwp_mono; [apply pwp_and; [apply (send_loop_spec (length data) data); lia|]|done|].
  { apply (send_loop_keeps (fun w => frames_read w = (frames_read (os s) ++ [data])%list)); [|lia|done].
    intros ? ? ? ? ->%write_log_law. done. }
  intros rc s' [(w' & p & -> & _ & Hs' & Hres) Hf']. cbn in Hs', Hf'. psteps.
  - exists [data]. right. split; [done|]. destruct Hres as [[-> ->]|(-> & Hp & Hne)]; [done|].
    exists data, p. split_and!; [done| |done|done|lia]. split; [done|]. cbn. by rewrite Hs', Hs.
  - exists [data]. left. split; [|simpl; lia].
    destruct Hres as [[-> ->]|(-> & _)]; [|done].
    split; [done|]. rewrite Hfw. cbn. by rewrite Hs', Hs, app_nil_r.
Qed.

(** The relay so far: everything it read has been forwarded. *)
Definition relay_open (s s' : agent) : Prop :=
  exists new, relayed s s' new (concat (forwarded new)).
(** The relay cut off by the connection in the middle of its last frame. *)
Definition relay_cut (s s' : agent) : Prop :=
  exists new d p, relayed s s' (new ++ [d]) (concat (forwarded new) ++ p) /\
    p `prefix_of` d /\ p <> d /\ (4 <= length d)%nat.

Lemma relayed_trans s1 s2 s3 n1 n2 o1 o2 :
  relayed s1 s2 n1 o1 -> relayed s2 s3 n2 o2 -> relayed s1 s3 (n1 ++ n2) (o1 ++ o2).
Proof. intros [Hf1 Hs1] [Hf2 Hs2]. split; [rewrite Hf2, Hf1|rewrite Hs2, Hs1]; by rewrite app_assoc. Qed.

Lemma relay_loop_spec fuel (s : agent) :
  pwp (relay_open s) (relay_loop fuel) (fun _ s' => relay_open s s' \/ relay_cut s s') s.
Proof.
  assert (Hnil : relay_open s s). { exists []. split; by rewrite ?app_nil_r. }
  revert s Hnil. induction fuel as [|fuel IH]; intros s Hnil; cbn [relay_loop]; [exact Hnil|].
  pstep. eapply pwp_mono; [apply relay_step_spec|done|].
  intros more s1 (new & [[Hr1 _]|(-> & d & p & -> & Hr1 & Hp)]).
  - destruct more; [|by left; exists new].
    assert (Hnil1 : relay_open s1 s1). { exists []. split; by rewrite ?app_nil_r. }
    eapply pwp_mono; [by apply IH| |]; [|intros [] s2 [Hopen|Hcut]]; [intros s2 Hopen|left|right].
    1,2: destruct Hopen as [new2 Hr2]; exists (new ++ new2)%list; rewrite forwarded_app, concat_app;
      by apply (relayed_trans s s1).
    destruct Hcut as (new2 & d & p & Hr2 & Hp). exists (new ++ new2)%list, d, p.
    split; [|done]. rewrite forwarded_app, concat_app, <- !app_assoc. by apply (relayed_trans s s1).
  - right. by exists [], d, p.
Qed.

(** C17. For every behaviour of the device and of the TLS connection, at every point of the relay loop the server has received the frames read from the device verbatim and in order, those of less than four bytes excepted; only when sending fails does it hold a proper prefix of the last one instead, and then the loop has ended. *)
Theorem relay_forwards_verbatim fuel (s : agent) :
  pwp (relay_open s) (relay_loop fuel) (fun _ s' => relay_open s s' \/ relay_cut s s') s.
Proof. apply relay_loop_spec. Qed.
End relay.

(** ** When the relay ends *)
(** A device whose reads run out: each read that is not the last uses up some
    of a measure, or a signal has arrived. *)
Class Finite (W : Type) `{Platform W} := {
  reads_left : W -> nat;
  reads_law n w r data w' :
    dev_read n w = (r, data, w') ->
    r = (- EIO)%Z \/ (reads_left w' < reads_left w)%nat \/ g_running w' = false;
  reads_write_law buf w r w' :
    SSL_write buf w = (r, w') ->
    (reads_left w' <= reads_left w)%nat /\ (g_running w = false -> g_running w' = false);
}.

Section relay_ends.
Context {W : Type} `{Finite W}.
Abbreviation agent := (agent W).

Definition nearer (s s' : agent) (more : bool) : Prop :=
  more = false \/ (reads_left (os s') < reads_left (os s))%nat \/ g_running (os s') = false.

Lemma relay_step_nearer (s : agent) : pwp never relay_step (fun more s' => nearer s s' more) s.
Proof.
  unfold relay_step, nearer. do 2 pstep. cbn beta. pstep; [by pstep; left|].
  do 2 pstep. destruct a as [n data]. do 2 pstep. cbn beta zeta.
  destruct (reads_law _ _ _ _ _ Ecall) as [->|Hw].
  { cbn. by left. }
  psteps; try (by left); try (by right).
  eapply pwp_mono.
  { apply (send_loop_keeps (fun w' => (reads_left w' < reads_left (os s))%nat \/ g_running w' = false));
      [|lia|exact Hw].
    intros b w1 r1 w2 Hwr. destruct (reads_write_law _ _ _ _ Hwr). intros [?|?]; [left; lia|right; auto]. }
  { done. }
  intros rc s' Hn. psteps; [by left|by right].
Qed.

(** C19. The relay loop ends if the device does: after at most two rounds more than the device has reads left before it reports its shutdown or a signal stops the agent. *)
Theorem relay_terminates (s : agent) fuel :
  (S (reads_left (os s)) < fuel)%nat ->
  exists s', relay_loop fuel s = (Some tt, s').
Proof.
  assert (Hstop : forall fuel (s : agent), (0 < fuel)%nat -> g_running (os s) = false ->
    exists s', relay_loop fuel s = (Some tt, s')).
  { intros [|f] s' Hf Hg; [lia|]. exists s'. cbn [relay_loop]. unfold relay_step, running, mbind, P_bind.
    by rewrite Hg. }
  revert s. induction fuel as [|fuel IH]; intros s Hf; [lia|].
  destruct (pwp_run _ _ _ _ (relay_step_nearer s) ltac:(done)) as (more & s1 & Hrun & Hn).
  cbn [relay_loop]. unfold mbind, P_bind. rewrite Hrun.
  destruct more; [|by exists s1].
  destruct Hn as [?|[Hlt|Hg]]; [done|apply IH; lia|apply Hstop; [lia|done]].
Qed.
End relay_ends.

(** A read that keeps failing with an error other than EINTR and EIO is retried for ever: after any number of rounds the loop is still running, nothing was sent, and all that has changed is the error counter. *)
Theorem read_error_spins `{Wire W} (stuck : W -> Prop) fuel (s : agent W) :
  (forall w, stuck w -> g_running w = true /\ exists r w',
     dev_read MAX_FRAME_BYTES w = (r, [], w') /\ stuck w' /\ sent w' = sent w /\
     (r < 0)%Z /\ r <> (- EINTR)%Z /\ r <> (- EIO)%Z) ->
  stuck (os s) ->
  exists s', relay_loop fuel s = (None, s') /\ sent (os s') = sent (os s) /\
    ((0 <= total_errors s < 2 ^ 64)%Z ->
     total_errors s' = u64 (total_errors s + Z.of_nat fuel)).
Proof.
  intros Hstuck. revert s. induction fuel as [|fuel IH]; intros s Hs.
  { exists s. split_and!; [done|done|]. intros Hr. rewrite Z.add_0_r. symmetry. by apply wrap_small. }
  destruct (Hstuck _ Hs) as (Hg & r & w' & Hrd & Hs' & Hsent & Hr & Hne1 & Hne2).
  set (s1 := mk_agent w' (master_key s) (open_fds s) (live_ssl s) (total_frames s) (total_bytes s)
               (u64 (total_errors s + 1))).
  assert (Hstep : relay_step s = (Some true, s1)).
  { unfold relay_step, mbind, P_bind, running, call. rewrite Hg. cbn [negb]. rewrite Hrd. cbn.
    by rewrite (proj2 (Z.ltb_lt r 0)), (proj2 (Z.eqb_neq r (- EINTR))), (proj2 (Z.eqb_neq r (- EIO))). }
  destruct (IH s1 Hs') as (s' & Hrun & Hse & Hte). exists s'.
  cbn [relay_loop]. unfold mbind, P_bind. rewrite Hstep. split_and!; [done|cbn in Hse; congruence|].
  intros Hrange. rewrite Hte by (apply wrap_range; lia). cbn [s1 total_errors].
  unfold u64, wrap. rewrite Zplus_mod_idemp_l. f_equal. lia.
Qed.

(** ** The key and the resources of the process *)
Section process.
Context {W : Type} `{Platform W}.
Abbreviation agent := (agent W).

(** [d] descriptors and [t] TLS objects more than in [s], the key buffer [k]. *)
Definition holds (s : agent) (d t : Z) (k : list byte) (s' : agent) : Prop :=
  open_fds s' = (open_fds s + d)%Z /\ live_ssl s' = (live_ssl s + t)%Z /\ master_key s' = k.

Lemma transfer_holds {A} (m : P W A) s0 d t k (s : agent) :
  pwp never m (fun _ s' => exists w, s' = with_os w s) s -> holds s0 d t k s ->
  pwp never m (fun _ s' => holds s0 d t k s') s.
Proof. intros Hm Hs. eapply pwp_mono; [exact Hm|done|]. by intros a s' [w ->]. Qed.

Lemma recv_holds n s0 d t k (s : agent) :
  holds s0 d t k s -> pwp never (ssl_recv_all n) (fun _ s' => holds s0 d t k s') s.
Proof. apply transfer_holds, recv_loop_returns. lia. Qed.

Lemma send_holds buf s0 d t k (s : agent) :
  holds s0 d t k s -> pwp never (ssl_send_all buf) (fun _ s' => holds s0 d t k s') s.
Proof. apply transfer_holds, send_loop_returns. lia. Qed.

Lemma any_never {A} R (m : P W A) (Q : A -> agent -> Prop) s : pwp never m Q s -> pwp R m Q s.
Proof. intros Hm. by eapply pwp_mono. Qed.

Ltac holding := unfold holds in *; cbn [with_os open_fds live_ssl master_key] in *;
  split_and?; first [done | lia | tauto].

Lemma try_addresses_holds addrs k (s0 s : agent) :
  holds s0 0 0 k s ->
  pwp never (try_addresses addrs) (fun fd s' =>
    holds s0 (if (fd <? 0)%Z then 0 else 1) 0 k s') s.
Proof.
  revert s. induction addrs as [|ai addrs IH]; intros s Hs; cbn [try_addresses]; [done|].
  psteps; try (apply IH; holding). rewrite Heqb. holding.
Qed.

Lemma connect_tls_holds host port k (s0 s : agent) :
  holds s0 0 0 k s ->
  pwp never (connect_tls host port) (fun rc s' =>
    holds s0 (if Z.eqb rc 0 then 1 else 0) (if Z.eqb rc 0 then 1 else 0) k s') s.
Proof.
  intros Hs. unfold connect_tls. do 2 pstep. destruct a as [rc addrs]. pstep; [psteps; holding|].
  pstep. eapply pwp_mono; [apply try_addresses_holds; exact Hs|done|]. intros fd s1 H1. cbn beta in H1.
  pstep; [psteps; holding|]. psteps; cbn; holding.
Qed.

Lemma key_exchange_holds s0 d t k (s : agent) :
  holds s0 d t k s ->
  pwp never do_key_exchange (fun rc s' => exists k', holds s0 d t k' s') s.
Proof.
  intros Hs. unfold do_key_exchange. pstep. eapply pwp_mono; [by apply send_holds|done|].
  intros rc s1 H1. cbn beta in H1. pstep; [psteps; by exists k|]. pstep.
  eapply pwp_mono; [by apply recv_holds|done|].
  intros [rc2 offer] s2 H2. cbn beta in H2. pstep; [psteps; by exists k|]. do 2 pstep. cbn beta. pstep.
  eapply pwp_mono; [by apply recv_holds|done|]. intros [rc3 key] s3 H3. cbn beta in H3. do 2 pstep. cbn beta zeta.
  pstep; [psteps; eexists; holding|]. pstep.
  eapply pwp_mono; [apply (send_holds _ s0 d t (key ++ drop (length key) (master_key s2))%list); holding|done|].
  intros rc4 s4 H4. cbn beta in H4. psteps; eexists; exact H4.
Qed.

Lemma set_kernel_key_holds key s0 d t k (s : agent) :
  holds s0 d t k s -> pwp never (set_kernel_key key) (fun _ s' => holds s0 d t k s') s.
Proof.
  intros Hs. unfold set_kernel_key, open_device, close_device. psteps; holding.
Qed.

Lemma relay_step_holds s0 d t k (s : agent) :
  holds s0 d t k s -> pwp never relay_step (fun _ s' => holds s0 d t k s') s.
Proof.
  intros Hs. unfold relay_step. do 2 pstep. cbn beta. pstep; [by pstep|].
  do 2 pstep. destruct a as [n data]. do 2 pstep. cbn beta zeta. psteps; try holding.
  eapply pwp_mono; [apply (send_holds _ s0 d t k); holding|done|]. intros rc s' H'. psteps; holding.
Qed.

Lemma relay_loop_holds fuel s0 d t k (s : agent) :
  holds s0 d t k s ->
  pwp (holds s0 d t k) (relay_loop fuel) (fun _ s' => holds s0 d t k s') s.
Proof.
  revert s. induction fuel as [|fuel IH]; intros s Hs; cbn [relay_loop]; [done|].
  pstep. eapply pwp_mono; [by apply relay_step_holds|done|]. intros [|] s' H'; [by apply IH|done].
Qed.

Lemma run_relay_holds fuel s0 d t k (s : agent) :
  holds s0 d t k s ->
  pwp (holds s0 (d + 1) t k) (run_relay fuel) (fun _ s' => holds s0 d t k s') s.
Proof.
  intros Hs. unfold run_relay, open_device, close_device. psteps; try holding.
  eapply pwp_mono; [apply (relay_loop_holds fuel s0 (d + 1) t k); holding|done|].
  intros [] s' H'. psteps. holding.
Qed.

Lemma connect_and_run_holds fuel host port inject k (s0 s : agent) :
  holds s0 0 0 k s ->
  pwp (holds s0 2 1 (zeros PHOTON_KEY_SIZE)) (connect_and_run fuel host port inject) (fun rc s' =>
    exists k', holds s0 0 0 k' s' /\ (rc = 0%Z -> k' = zeros PHOTON_KEY_SIZE)) s.
Proof.
  intros Hs. unfold connect_and_run, hang_up. pstep.
  eapply any_never, pwp_mono; [by apply connect_tls_holds|done|]. intros rc s1 H1. cbn beta in H1.
  destruct (Z.eqb_spec rc 0) as [->|Hne]; cbn [negb Z.eqb].
  2:{ pstep. exists k. split; [done|]. intros; lia. }
  do 2 pstep. cbn beta. pstep.
  eapply any_never, pwp_mono; [apply (key_exchange_holds s0 1 1 (zeros PHOTON_KEY_SIZE)); holding|done|].
  intros rc2 s2 [k2 H2]. pstep. { psteps. exists k2. split; [holding|]. intros; lia. }
  do 2 pstep. cbn beta. pstep.
  eapply any_never, pwp_mono with (R := never) (Q := fun _ s' => holds s0 1 1 k2 s').
  { destruct inject; [by apply set_kernel_key_holds|by pstep]. }
  { done. }
  intros rc3 s3 H3. do 2 pstep. cbn beta.
  pstep. { psteps. eexists. split; [holding|]. intros; lia. }
  pstep. eapply pwp_mono; [apply (run_relay_holds fuel s0 1 1 (zeros PHOTON_KEY_SIZE)); holding|done|].
  intros rc4 s4 H4. psteps. exists (zeros PHOTON_KEY_SIZE). split; [holding|done].
Qed.

Lemma reconnect_holds fuel host port inject delay k (s0 s : agent) :
  holds s0 0 0 k s ->
  pwp (fun s' => exists n k', holds s0 (2 * n) n k' s' /\ (0 <= n <= 1)%Z)
    (reconnect_loop fuel host port inject delay)
    (fun _ s' => exists k', holds s0 0 0 k' s') s.
Proof.
  revert k s. induction fuel as [|fuel IH]; intros k s Hs.
  { cbn. exists 0%Z, k. split; [done|lia]. }
  cbn [reconnect_loop]. do 2 pstep. cbn beta. pstep; [pstep; by exists k|].
  pstep. eapply pwp_mono; [by apply (connect_and_run_holds (S fuel) host port inject k s0)| |].
  { intros s' H'. eexists 1%Z, _. split; [exact H'|lia]. }
  intros rc s1 (k1 & H1 & _). do 2 pstep. cbn beta. pstep; [pstep; by exists k1|].
  do 2 pstep. cbn beta. apply (IH k1). holding.
Qed.
End process.

(** C20. The agent leaks nothing through reconnects: whenever main has returned, every socket, device descriptor and TLS object it opened is closed, whatever calls failed and however often it reconnected; and a run that is still in its loops holds at most the context, one connection and two descriptors. *)
Theorem agent_leaks_nothing `{Platform W} fuel args (s : agent W) :
  pwp (fun s' => exists n : Z, (0 <= n <= 1)%Z /\
         open_fds s' = (open_fds s + 2 * n)%Z /\ live_ssl s' = (live_ssl s + 1 + n)%Z)
    (main fuel args)
    (fun _ s' => open_fds s' = open_fds s /\ live_ssl s' = live_ssl s) s.
Proof.
  unfold main. destruct (parse_args _ _) as [o|code]; [|done].
  assert (Hctx : forall calls (s1 : agent W), holds s 0 1 (master_key s) s1 ->
    pwp never (ctx_calls calls) (fun r s2 => holds s 0 (if Z.eqb r 0 then 1 else 0) (master_key s) s2) s1).
  { induction calls as [|c calls IH]; intros s1 Hs1; cbn [ctx_calls]; [done|].
    psteps; [unfold holds in *; cbn; split_and!; lia || tauto|]. apply IH. exact Hs1. }
  unfold build_ssl_ctx. do 3 pstep. cbn beta. pstep.
  { psteps; [split; cbn; lia|done]. }
  do 5 pstep. cbn beta.
  eapply any_never, pwp_mono; [apply Hctx; unfold holds; cbn; split_and!; [lia|lia|done]|done|].
  intros r s1 H1. cbn beta in H1. destruct (Z.eqb_spec r 0) as [->|Hne]; cbn [negb Z.eqb].
  2:{ psteps; [|done]. destruct H1 as (?&?&_). split; lia. }
  do 3 pstep. cbn beta zeta. cbn [negb Z.eqb]. pstep. eapply pwp_mono.
  { apply (reconnect_holds fuel _ _ _ _ (master_key s) (with_os w1 s1)). unfold holds. cbn.
    destruct H1 as (?&?&?). split_and!; [lia|lia|done]. }
  { intros s' (n & k' & (?&?&?) & Hn). destruct H1 as (?&?&_). exists n. cbn in *. split_and!; lia. }
  intros [] s' (k' & ?&?&_). destruct H1 as (?&?&_). psteps. cbn in *. split; lia.
Qed.

(** Once a connection has got as far as the relay, and whenever it ends without error, the agent's copy of the master key has been overwritten with zeros, whatever OpenSSL, the sockets and the device answered. *)
Theorem key_wiped_before_relay `{Platform W} fuel host port inject (s : agent W) :
  pwp (fun s' => master_key s' = zeros PHOTON_KEY_SIZE) (connect_and_run fuel host port inject)
    (fun rc s' => rc = 0%Z -> master_key s' = zeros PHOTON_KEY_SIZE) s.
Proof.
  eapply pwp_mono; [apply (connect_and_run_holds fuel host port inject (master_key s) s); split_and!; [lia|lia|done]| |].
  - intros s' (_ & _ & Hk). exact Hk.
  - intros rc s' (k' & (_ & _ & Hk) & Hz) Hrc. rewrite Hk. by apply Hz.
Qed.

Definition with_key {W} (k : list byte) (s : agent W) : agent W :=
  mk_agent (os s) k (open_fds s) (live_ssl s) (total_frames s) (total_bytes s) (total_errors s).

(** When the acknowledgement of a received key cannot be sent, the agent gives up the connection with the complete master key still in its memory: the label it jumps to skips the wipe. *)
Theorem failed_ack_leaves_key `{Platform W} fuel host port inject key rc (s s1 s2 s3 s4 s5 : agent W) :
  connect_tls host port s = (Some 0%Z, s1) ->
  ssl_send_all MAGIC (with_key (zeros PHOTON_KEY_SIZE) s1) = (Some 0%Z, s2) ->
  ssl_recv_all 1 s2 = (Some (0%Z, [MSG_KEY_OFFER]), s3) ->
  ssl_recv_all PHOTON_KEY_SIZE s3 = (Some (0%Z, key), s4) ->
  length key = PHOTON_KEY_SIZE -> length (master_key s3) = PHOTON_KEY_SIZE ->
  ssl_send_all [MSG_KEY_ACK] (with_key key s4) = (Some rc, s5) -> rc <> 0%Z ->
  exists s', connect_and_run fuel host port inject s = (Some (-1)%Z, s') /\ master_key s' = key.
Proof.
  intros Hc Hm Ho Hk Hlen Hbuf Ha Hrc.
  assert (Hs5 : master_key s5 = key).
  { destruct (pwp_run never (ssl_send_all [MSG_KEY_ACK]) _ (with_key key s4)
      (send_loop_returns 1 [MSG_KEY_ACK] (with_key key s4) ltac:(simpl; lia)) ltac:(done))
      as (a & s' & Hrun & w & ->). rewrite Ha in Hrun. by injection Hrun as -> ->. }
  assert (Hx : do_key_exchange (with_key (zeros PHOTON_KEY_SIZE) s1) = (Some (-1)%Z, s5)).
  { unfold do_key_exchange, mbind, P_bind. rewrite Hm. cbn [negb Z.eqb]. rewrite Ho. cbn [negb Z.eqb orb].
    rewrite bool_decide_false by (intros Hn; by apply Hn). unfold get_agent. rewrite Hk.
    rewrite drop_ge, app_nil_r by lia. unfold put_key. cbn [negb Z.eqb].
    fold (with_key key s4). rewrite Ha. by rewrite (proj2 (Z.eqb_neq rc 0)). }
  eexists. unfold connect_and_run, mbind, P_bind. rewrite Hc. cbn [negb Z.eqb]. unfold put_key at 1.
  fold (with_key (zeros PHOTON_KEY_SIZE) s1). rewrite Hx. cbn. by split.
Qed.
