(* ===== verification/AgentDevice.v ===== *)
(** * The agent on the module's device
    The platform of the agent with the kernel side filled in by the module
    itself: [open], [close], [ioctl] and [read] of the device run
    [photon_cdev_open], [photon_cdev_release], [photon_cdev_ioctl] and
    [photon_cdev_read].  A read that would sleep for ever is ended by the
    signal that stops the agent.  The TLS side is a connection on which nothing
    fails: the server's bytes in, the agent's bytes out. *)
From Stdlib Require Import ZArith Lia.
From Stdlib Require Import Strings.Byte Strings.String.
From stdpp Require Import base numbers list option.
From S2P Require Import Prelude Kernel Events Ring Crypto Cdev EventManager Device Reporting.
From S2P Require Import Agent AgentFacts.

Record host := mk_host {
  h_env : env;
  h_mgr : manager;
  h_in : list byte;
  h_out : list byte;
  h_run : bool;
}.

Section host.
Context (hmac_sha256 : list byte -> list byte -> list byte).
Context (aead_encrypt : list byte -> list byte -> list byte -> list byte).

(** A system call that runs an operation of the module. *)
Definition syscall (m : M manager (Z * list byte)) (w : host) : Z * list byte * host :=
  match m (h_env w) (h_mgr w) with
  | Ret (r, e, s) => (r, mk_host e s (h_in w) (h_out w) (h_run w))
  | Deadlock => ((- EINTR)%Z, [], mk_host (h_env w) (h_mgr w) (h_in w) (h_out w) false)
  | Fault => ((- EFAULT)%Z, [], w)
  end.
Definition syscall_code (m : M manager Z) (w : host) : Z * host :=
  let '(r, _, w) := syscall (r ← m; mret (r, [])) w in (r, w).

#[local] Instance host_platform : Platform host := {
  SSL_read n w :=
    (Z.of_nat (min n (length (h_in w))), take n (h_in w),
     mk_host (h_env w) (h_mgr w) (drop n (h_in w)) (h_out w) (h_run w));
  SSL_write buf w :=
    (Z.of_nat (length buf), mk_host (h_env w) (h_mgr w) (h_in w) (h_out w ++ buf) (h_run w));
  SSL_new w := (1%Z, w);
  SSL_connect w := (1%Z, w);
  SSL_CTX _ w := (1%Z, w);
  getaddrinfo _ _ w := (0%Z, [1%Z], w);
  socket _ w := (3%Z, w);
  connect _ _ w := (0%Z, w);
  dev_open w :=
    let '(r, w) := syscall_code (on_channel (on_cdev (photon_cdev_open true))) w in
    (if Z.eqb r 0 then 4 else r, w)%Z;
  dev_ioctl cmd buf w := syscall_code (photon_cdev_ioctl hmac_sha256 aead_encrypt true cmd buf) w;
  dev_read count w := syscall (on_channel (on_cdev (photon_cdev_read count))) w;
  dev_close w := (syscall_code (on_channel (on_cdev photon_cdev_release)) w).2;
  sleep _ w := w;
  g_running := h_run;
}.

Abbreviation dev m := (ch_cdev (chan m)).
Abbreviation keys m := (ch_crypto (chan m)).

(** The device idle between system calls, no call failing. *)
Record device_ready (w : host) : Prop := {
  ready_env : no_fail (h_env w);
  ready_mutex : g_open_mutex (dev (h_mgr w)) = false;
  ready_up : g_shutting_down (dev (h_mgr w)) = false;
  ready_ring : ring_inv (g_ring (dev (h_mgr w)));
}.

Lemma ring_frames_bounded rb :
  ring_inv rb -> Forall (fun f => (length f <= PHOTON_FRAME_SLOT_SIZE)%nat) (ring_frames rb).
Proof.
  intros (sl & Hs & Hok & Hsl & _). unfold ring_frames. rewrite Hs. apply Forall_fmap.
  apply Forall_lookup. intros i s Hin%list_elem_of_lookup_2. unfold ring_view in Hin.
  apply list_elem_of_fmap in Hin as (k & -> & Hk%elem_of_seqZ).
  pose proof Hok as (Hcap & _).
  pose proof (Z.mod_pos_bound (rb_tail rb + k) (rb_capacity rb) ltac:(lia)) as Hi.
  pose proof (ring_slot_lookup sl _ _ _ _ Hok Hi) as Hlk.
  rewrite Forall_lookup in Hsl. destruct (Hsl _ _ Hlk) as [_ Hlen].
  unfold compose, frame_bytes. rewrite length_take. lia.
Qed.

(** One read of a ready device with a frame waiting. *)
Lemma device_read f fs (w : host) :
  device_ready w -> ch_frames (chan (h_mgr w)) = f :: fs ->
  exists w', dev_read MAX_FRAME_BYTES w = (Z.of_nat (length f), f, w') /\
    device_ready w' /\ ch_frames (chan (h_mgr w')) = fs /\ keys (h_mgr w') = keys (h_mgr w) /\
    h_in w' = h_in w /\ h_out w' = h_out w /\ h_run w' = h_run w.
Proof.
  intros [Hnf Hmx Hup Hring] Hfr.
  pose proof (ring_frames_bounded _ Hring) as Hb. unfold ch_frames in Hfr.
  rewrite Hfr in Hb. apply Forall_cons_iff in Hb as [Hlen _].
  change PHOTON_FRAME_SLOT_SIZE with 356%nat in Hlen.
  destruct (ring_pop_spec f fs (h_env w) _ Hring Hfr) as (rb' & Hp & Hinv' & Hfr' & _ & _).
  destruct (ring_frames_nonempty _ _ _ Hring Hfr) as [Hf Hemp].
  assert (Hl0 : length f <> 0%nat) by (by destruct f).
  assert (Hwp : wp (photon_cdev_read MAX_FRAME_BYTES) (fun r e' st' =>
    r = (Z.of_nat (length f), f) /\ no_fail e' /\ ring_inv (g_ring st') /\
    ring_frames (g_ring st') = fs /\ g_open_mutex st' = false /\ g_shutting_down st' = false)
    (h_env w) (dev (h_mgr w))).
  { unfold photon_cdev_read. wp_steps.
    eapply wp_eq; [apply wait_readable_now; by left|]. wp_steps.
    eapply wp_eq; [exact Hp|]. cbn [fst snd].
    wp_steps; cbn [fst snd] in *; zbool; try lia; try done.
    - exfalso. env_solve.
    - rewrite Z.min_l by (change (u32 MAX_FRAME_BYTES) with 8192%Z; lia).
      split_and!; try done; [|env_solve].
      f_equal. rewrite Nat2Z.id. etransitivity; [apply take_take_overwrite; lia|]. apply firstn_all. }
  apply wp_run in Hwp as (r & e' & st' & Hrun & -> & Hnf' & Hr' & Hf' & Hm' & Hu').
  eexists. split.
  { cbn [dev_read host_platform]. unfold syscall, on_channel, on_cdev, zoom. rewrite Hrun. reflexivity. }
  cbn. split_and!; try done; by split.
Qed.

(** On an empty ring the reader sleeps until the signal. *)
Lemma device_idle (w : host) :
  device_ready w -> ch_frames (chan (h_mgr w)) = [] ->
  dev_read MAX_FRAME_BYTES w = ((- EINTR)%Z, [], mk_host (h_env w) (h_mgr w) (h_in w) (h_out w) false).
Proof.
  intros [Hnf Hmx Hup Hring] Hfr. destruct (Hring) as (sl & Hs & Hok & _).
  assert (Hemp : ring_buf_empty (g_ring (dev (h_mgr w))) = true).
  { unfold ring_buf_empty. rewrite (ring_empty_iff sl) by exact Hok. unfold ch_frames, ring_frames in Hfr. rewrite Hs in Hfr.
    by apply fmap_nil_inv in Hfr. }
  cbn [dev_read host_platform]. unfold syscall, on_channel, on_cdev, zoom.
  replace (photon_cdev_read MAX_FRAME_BYTES (h_env w) (ch_cdev (chan (h_mgr w)))) with (@Deadlock (Z * list byte * env * cdev_state)); [done|].
  unfold photon_cdev_read. unfold mbind at 1, M_bind at 1. rewrite wait_readable_sleeps by done.
  destruct (env_rets (h_env w)) as [|r rs] eqn:E; [done|]. unfold no_fail in Hnf. rewrite E in Hnf.
  by apply Forall_cons_iff in Hnf as [-> _].
Qed.

(** ** Transfers on a connection that does not fail *)
Lemma host_send buf (s : agent host) :
  ssl_send_all buf s = (Some 0%Z, with_os
    (mk_host (h_env (os s)) (h_mgr (os s)) (h_in (os s)) (h_out (os s) ++ buf) (h_run (os s))) s).
Proof.
  destruct s as [w k f l tf tb te], buf as [|b buf].
  - cbn. rewrite app_nil_r. by destruct w.
  - unfold ssl_send_all. cbn [length send_loop]. unfold mbind, P_bind, call. cbn [SSL_write host_platform os].
    rewrite (proj2 (Z.leb_gt _ _)) by (simpl; lia). rewrite Nat2Z.id, drop_ge by done.
    by destruct (length buf).
Qed.

Lemma host_recv n (s : agent host) :
  (n <= length (h_in (os s)))%nat ->
  ssl_recv_all n s = (Some (0%Z, take n (h_in (os s))), with_os
    (mk_host (h_env (os s)) (h_mgr (os s)) (drop n (h_in (os s))) (h_out (os s)) (h_run (os s))) s).
Proof.
  destruct s as [w k f l tf tb te], n as [|n]; cbn [os]; intros Hn.
  - cbn. by destruct w.
  - unfold ssl_recv_all. cbn [recv_loop]. unfold mbind, P_bind, call. cbn [SSL_read host_platform os].
    rewrite Nat.min_l by done. rewrite (proj2 (Z.leb_gt _ _)) by lia. rewrite Nat2Z.id, Nat.sub_diag.
    destruct n; cbn; by rewrite app_nil_r.
Qed.

(** ** Draining the device *)
Definition drained_by_agent (w w' : host) (fs : list (list byte)) : Prop :=
  device_ready w' /\ ch_frames (chan (h_mgr w')) = [] /\ keys (h_mgr w') = keys (h_mgr w) /\
  h_in w' = h_in w /\ h_out w' = (h_out w ++ concat fs)%list /\ h_run w' = false.

Lemma relay_frame f fs (s : agent host) :
  device_ready (os s) -> ch_frames (chan (h_mgr (os s))) = f :: fs -> (4 <= length f)%nat ->
  h_run (os s) = true ->
  exists w', relay_step s = (Some true, mk_agent w' (master_key s) (open_fds s) (live_ssl s)
      (u64 (total_frames s + 1)) (u64 (total_bytes s + Z.of_nat (length f))) (total_errors s)) /\
    device_ready w' /\ ch_frames (chan (h_mgr w')) = fs /\ keys (h_mgr w') = keys (h_mgr (os s)) /\
    h_in w' = h_in (os s) /\ h_out w' = (h_out (os s) ++ f)%list /\ h_run w' = true.
Proof.
  intros Hready Hfr Hlen Hrun. destruct (device_read f fs (os s) Hready Hfr)
    as (w' & Hrd & Hready' & Hfr' & Hk & Hin & Hout & Hrun').
  exists (mk_host (h_env w') (h_mgr w') (h_in w') (h_out w' ++ f) (h_run w')). split.
  - unfold relay_step, mbind, P_bind, running, call, get_agent, mret, P_ret.
    cbn [g_running host_platform]. rewrite Hrun. cbn [negb]. rewrite Hrd.
    rewrite (proj2 (Z.ltb_ge _ 0)), (proj2 (Z.eqb_neq _ 0)), (proj2 (Z.ltb_ge _ 4)) by lia.
    rewrite host_send. done.
  - cbn. rewrite Hin, Hout, Hrun'. destruct Hready'. by split_and!.
Qed.

Lemma relay_drains fs fuel (s : agent host) :
  device_ready (os s) -> ch_frames (chan (h_mgr (os s))) = fs ->
  Forall (fun f => (4 <= length f)%nat) fs -> h_run (os s) = true ->
  (length fs + 2 <= fuel)%nat ->
  exists w' f b x, relay_loop fuel s = (Some tt, mk_agent w' (master_key s) (open_fds s) (live_ssl s) f b x) /\
    ((0 <= total_frames s < 2 ^ 64)%Z -> f = u64 (total_frames s + Z.of_nat (length fs))) /\
    drained_by_agent (os s) w' fs.
Proof.
  revert fuel s. induction fs as [|f fs IH]; intros fuel s Hready Hfr Hlen Hrun Hfuel.
  - destruct fuel as [|[|fuel]]; [simpl in Hfuel; lia..|].
    eexists _, _, _, _. cbn [relay_loop]. unfold relay_step, mbind, P_bind, running, call, get_agent.
    cbn [g_running host_platform]. rewrite Hrun. cbn [negb]. rewrite device_idle by done.
    cbn. split; [reflexivity|]. split.
    { intros Hr. rewrite Z.add_0_r. symmetry. by apply wrap_small. }
    destruct Hready. unfold drained_by_agent. cbn. rewrite app_nil_r. by split_and!.
  - destruct fuel as [|fuel]; [lia|]. apply Forall_cons_iff in Hlen as [Hf Hlen].
    destruct (relay_frame f fs s Hready Hfr Hf Hrun) as (w1 & Hstep & Hready1 & Hfr1 & Hk1 & Hin1 & Hout1 & Hrun1).
    edestruct (IH fuel (mk_agent w1 (master_key s) (open_fds s) (live_ssl s)
      (u64 (total_frames s + 1)) (u64 (total_bytes s + Z.of_nat (length f))) (total_errors s)) Hready1 Hfr1 Hlen Hrun1)
      as (w2 & f2 & b2 & x2 & Hloop & Hf2 & (Hready2 & Hfr2 & Hk2 & Hin2 & Hout2 & Hrun2)); [simpl in *; lia|].
    exists w2, f2, b2, x2. cbn [relay_loop]. unfold mbind, P_bind. rewrite Hstep.
    split; [exact Hloop|]. cbn in *. split.
    + intros Hr. rewrite Hf2 by (apply wrap_range; lia). unfold u64, wrap.
      rewrite Zplus_mod_idemp_l. f_equal. lia.
    + split_and!; try done; [congruence|congruence|]. rewrite Hout2, Hout1. by rewrite <- app_assoc.
Qed.

(** The device can be opened and closed around an operation. *)
Lemma device_open (w : host) :
  g_open_mutex (dev (h_mgr w)) = false -> g_is_open (dev (h_mgr w)) = false ->
  dev_open w = (4%Z, mk_host (h_env w)
    (set_chan (set_cdev (set_is_open true (dev (h_mgr w))) (chan (h_mgr w))) (h_mgr w))
    (h_in w) (h_out w) (h_run w)).
Proof.
  intros Hm Ho. cbn [dev_open host_platform]. unfold syscall_code, syscall, mbind, M_bind, on_channel, on_cdev, zoom.
  rewrite open_exclusive, Ho by done. done.
Qed.

Lemma device_close (w : host) :
  g_open_mutex (dev (h_mgr w)) = false ->
  dev_close w = mk_host (h_env w)
    (set_chan (set_cdev (set_is_open false (dev (h_mgr w))) (chan (h_mgr w))) (h_mgr w))
    (h_in w) (h_out w) (h_run w).
Proof.
  intros Hm. cbn [dev_close host_platform]. unfold syscall_code, syscall, mbind, M_bind, on_channel, on_cdev, zoom.
  by rewrite release_spec.
Qed.

(** Run on after the device was opened as descriptor 4. *)
Ltac opened :=
  do 3 (cbn [own_fds os master_key open_fds live_ssl total_frames total_bytes total_errors];
        unfold mret, P_ret; cbv beta iota; change (4 <? 0)%Z with false; cbv beta iota).

Lemma run_relay_drains fs fuel (s : agent host) :
  device_ready (os s) -> g_is_open (dev (h_mgr (os s))) = false ->
  ch_frames (chan (h_mgr (os s))) = fs -> Forall (fun f => (4 <= length f)%nat) fs ->
  h_run (os s) = true -> (length fs + 2 <= fuel)%nat ->
  exists s', run_relay fuel s = (Some 0%Z, s') /\ drained_by_agent (os s) (os s') fs /\
    g_is_open (dev (h_mgr (os s'))) = false /\ master_key s' = master_key s /\
    total_frames s' = u64 (Z.of_nat (length fs)).
Proof.
  intros Hready Hopen Hfr Hlen Hrun Hfuel. pose proof Hready as [Hnf Hmx Hup Hring].
  unfold run_relay, mbind, P_bind, put_totals, open_device, call. cbn [os].
  unfold mbind, P_bind. rewrite device_open by done.
  opened.
  set (w1 := mk_host _ _ _ _ _).
  set (s1 := mk_agent w1 (master_key s) (open_fds s + 1) (live_ssl s) 0 0 0).
  destruct (relay_drains fs fuel s1) as (w2 & f & b & x & Hloop & Hf & Hd); try done.
  rewrite Hloop.
  destruct Hd as (Hready2 & Hfr2 & Hk2 & Hin2 & Hout2 & Hrun2).
  pose proof Hready2 as [Hnf2 Hmx2 Hup2 Hring2].
  eexists. split.
  { unfold close_device, call_, mbind, P_bind, call. cbn [os]. rewrite device_close by exact Hmx2. reflexivity. }
  cbn. unfold drained_by_agent. cbn. split_and!; try done. apply Hf. cbn. lia.
Qed.

(** The relay empties the module's device: opened on a ring of frames, run_relay delivers to the server their concatenation in the order of the ring, leaves the ring empty and the device closed, counts every frame, and ends at the signal that finds it asleep. *)
Theorem relay_empties_device fs fuel (s : agent host) :
  device_ready (os s) -> g_is_open (dev (h_mgr (os s))) = false ->
  ch_frames (chan (h_mgr (os s))) = fs -> Forall (fun f => (4 <= length f)%nat) fs ->
  h_run (os s) = true -> (length fs + 2 <= fuel)%nat ->
  exists s', run_relay fuel s = (Some 0%Z, s') /\
    h_out (os s') = (h_out (os s) ++ concat fs)%list /\
    ch_frames (chan (h_mgr (os s'))) = [] /\ g_is_open (dev (h_mgr (os s'))) = false /\
    total_frames s' = u64 (Z.of_nat (length fs)).
Proof.
  intros H1 H2 H3 H4 H5 H6.
  destruct (run_relay_drains fs fuel s H1 H2 H3 H4 H5 H6) as (s' & Hr & (_ & Hf & _ & _ & Ho & _) & Hop & _ & Ht).
  by exists s'.
Qed.

(** A first stop request makes the relay leave whatever waits in the device: with the flag already cleared run_relay ends without reading a frame, although the program is documented to drain the device before it closes. *)
Theorem stopped_relay_drains_nothing fuel (s : agent host) :
  device_ready (os s) -> g_is_open (dev (h_mgr (os s))) = false -> h_run (os s) = false ->
  (0 < fuel)%nat ->
  exists s', run_relay fuel s = (Some 0%Z, s') /\ h_out (os s') = h_out (os s) /\
    ch_frames (chan (h_mgr (os s'))) = ch_frames (chan (h_mgr (os s))).
Proof.
  intros [Hnf Hmx Hup Hring] Hopen Hrun Hfuel. destruct fuel as [|fuel]; [lia|].
  unfold run_relay, mbind, P_bind, put_totals, open_device, call. cbn [os].
  unfold mbind, P_bind. rewrite device_open by done.
  opened. cbn [relay_loop].
  unfold relay_step, mbind, P_bind, running. cbn [g_running host_platform os h_run]. rewrite Hrun. cbn [negb].
  unfold mret, P_ret. unfold close_device, call_, mbind, P_bind, call. cbn [os].
  rewrite device_close by exact Hmx. eexists. split; [reflexivity|]. done.
Qed.

(** ** A whole session *)
Lemma host_exchange key (s : agent host) :
  length key = PHOTON_KEY_SIZE -> h_in (os s) = MSG_KEY_OFFER :: key ->
  length (master_key s) = PHOTON_KEY_SIZE ->
  do_key_exchange s = (Some 0%Z, with_key key (with_os
    (mk_host (h_env (os s)) (h_mgr (os s)) [] (h_out (os s) ++ MAGIC ++ [MSG_KEY_ACK]) (h_run (os s))) s)).
Proof.
  intros Hkey Hin Hbuf. destruct s as [w k f l tf tb te]. cbn [os master_key] in *.
  unfold do_key_exchange, mbind, P_bind. rewrite host_send. cbn [negb Z.eqb].
  rewrite host_recv by (cbn; rewrite Hin; simpl; lia). cbn [with_os os h_in]. rewrite Hin.
  cbn [take drop negb Z.eqb orb hd_error]. rewrite bool_decide_false by (intros Hn; by apply Hn).
  unfold get_agent. rewrite host_recv by (cbn [os h_in with_os]; rewrite drop_0; lia). cbn [with_os os h_in h_env h_mgr h_out h_run].
  rewrite drop_0, <- Hkey, firstn_all, drop_all. unfold put_key. cbn [negb Z.eqb master_key].
  rewrite (drop_ge k), app_nil_r by lia. rewrite host_send. cbn.
  by rewrite <- app_assoc.
Qed.

Lemma host_connect hostname port (s : agent host) :
  connect_tls hostname port s = (Some 0%Z, mk_agent (os s) (master_key s) (open_fds s + 1)
    (live_ssl s + 1) (total_frames s) (total_bytes s) (total_errors s)).
Proof. by destruct s. Qed.

(** A module that is loaded, idle and without a key. *)
Record unkeyed (m : manager) : Prop := {
  unkeyed_inv : manager_inv hmac_sha256 m;
  unkeyed_tfm : is_Some (g_tfm (keys m));
  unkeyed_key : g_key_set (keys m) = false;
  unkeyed_drained : drained m;
  unkeyed_frames : ch_frames (chan m) = [];
}.

Lemma unkeyed_open b m : unkeyed m -> unkeyed (set_chan (set_cdev (set_is_open b (dev m)) (chan m)) m).
Proof.
  intros [(?&?&?&?&?&?) ? ? ? ?]. split; try done.
Qed.

Lemma kernel_inject key (s : agent host) :
  (forall k m, length (hmac_sha256 k m) = 32%nat) ->
  (forall k n p, length (aead_encrypt k n p) = (length p + PHOTON_TAG_SIZE)%nat) ->
  device_ready (os s) -> g_is_open (dev (h_mgr (os s))) = false -> unkeyed (h_mgr (os s)) ->
  length key = PHOTON_KEY_SIZE ->
  exists w' nonce ev,
    set_kernel_key key s = (Some 0%Z, mk_agent w' (master_key s) (open_fds s + 1 + -1) (live_ssl s)
      (total_frames s) (total_bytes s) (total_errors s)) /\
    device_ready w' /\ g_is_open (dev (h_mgr w')) = false /\
    h_in w' = h_in (os s) /\ h_out w' = h_out (os s) /\ h_run w' = h_run (os s) /\
    let session := session_key hmac_sha256 key 0 in
    g_key_set (keys (h_mgr w')) = true /\ g_session_key (keys (h_mgr w')) = session /\
    length nonce = PHOTON_IV_SIZE /\ event_type ev = 100%Z /\ packed_wf ev /\
    ch_frames (chan (h_mgr w')) = [event_frame aead_encrypt session nonce 0 ev].
Proof.
  intros Hhl Hal [Hnf Hmx Hup Hring] Hopen Hun Hkey. destruct s as [w k f l tf tb te]. cbn [os] in *.
  pose proof (unkeyed_open true _ Hun) as [Hinv Htfm Hks Hdr Hfr].
  set (m1 := set_chan (set_cdev (set_is_open true (dev (h_mgr w))) (chan (h_mgr w))) (h_mgr w)) in *.
  pose proof (ioctl_heartbeat hmac_sha256 aead_encrypt key (h_env w) m1 Hhl Hal Hinv Htfm Hks Hdr Hnf
    (ring_frames_room _ Hring Hfr)) as Hwp.
  apply wp_run in Hwp as (r & e' & m2 & Hio & -> & Hinv2 & Hnf2 & (Hsd & Hom & Hio2 & _) & Hks2 & Hse
    & nonce & ev & Hn & Hev & Hwf & Hfr2).
  rewrite (fit_exact _ key) in Hse, Hfr2 by exact Hkey. rewrite Hfr in Hfr2.
  assert (Hioctl : dev_ioctl PHOTON_IOC_SET_KEY key (mk_host (h_env w) m1 (h_in w) (h_out w) (h_run w)) =
    (0%Z, mk_host e' m2 (h_in w) (h_out w) (h_run w))).
  { cbn [dev_ioctl host_platform]. unfold syscall_code, syscall, mbind, M_bind. cbn [h_env h_mgr].
    rewrite Hio. done. }
  assert (Hmx2 : g_open_mutex (dev m2) = false) by (rewrite Hom; exact Hmx).
  eexists _, nonce, ev. split.
  { unfold set_kernel_key, open_device, close_device, call_, call, mbind, P_bind. cbn [os].
    rewrite device_open by done. opened. fold m1. rewrite Hioctl. opened.
    change ((0 <? 0)%Z && negb (0 =? - EEXIST)%Z) with false. cbv beta iota. opened.
    rewrite device_close by exact Hmx2. reflexivity. }
  pose proof Hinv2 as (_ & _ & _ & _ & (_ & Hring2)).
  split; [split; try done; cbn; rewrite Hsd; exact Hup|]. cbn [h_mgr h_in h_out h_run]. by split_and!.
Qed.

(** One session end to end: a server that offers a key to an agent on a freshly loaded module receives the magic, the acknowledgement and exactly one frame, the heartbeat sealed under the rotation-0 session key derived from that key; the module holds the key, the agent's copy is wiped, the device is closed and the ring empty. *)
Theorem agent_session key fuel hostname port (s : agent host) :
  (forall k m, length (hmac_sha256 k m) = 32%nat) ->
  (forall k n p, length (aead_encrypt k n p) = (length p + PHOTON_TAG_SIZE)%nat) ->
  device_ready (os s) -> g_is_open (dev (h_mgr (os s))) = false ->
  unkeyed (h_mgr (os s)) -> length key = PHOTON_KEY_SIZE -> h_in (os s) = MSG_KEY_OFFER :: key -> h_run (os s) = true ->
  (3 <= fuel)%nat ->
  exists s' nonce ev, connect_and_run fuel hostname port true s = (Some 0%Z, s') /\
    let session := session_key hmac_sha256 key 0 in
    length nonce = PHOTON_IV_SIZE /\ event_type ev = 100%Z /\ packed_wf ev /\
    h_out (os s') = (h_out (os s) ++ MAGIC ++ [MSG_KEY_ACK] ++
                     event_frame aead_encrypt session nonce 0 ev)%list /\
    g_key_set (keys (h_mgr (os s'))) = true /\ g_session_key (keys (h_mgr (os s'))) = session /\
    master_key s' = zeros PHOTON_KEY_SIZE /\
    ch_frames (chan (h_mgr (os s'))) = [] /\ g_is_open (dev (h_mgr (os s'))) = false.
Proof.
  intros Hhl Hal Hready Hopen Hun Hkey Hin Hrun Hfuel.
  set (s1 := mk_agent (os s) (zeros PHOTON_KEY_SIZE) (open_fds s + 1) (live_ssl s + 1)
               (total_frames s) (total_bytes s) (total_errors s)).
  pose proof (host_exchange key s1 Hkey Hin (length_zeros _)) as Hx.
  set (s2 := with_key _ _) in Hx.
  assert (Hready2 : device_ready (os s2)) by (destruct Hready; by split).
  destruct (kernel_inject key s2 Hhl Hal Hready2 Hopen Hun Hkey)
    as (w3 & nonce & ev & Hinj & Hready3 & Hopen3 & Hin3 & Hout3 & Hrun3 & Hks & Hse & Hn & Hev & Hwf & Hfr).
  set (session := session_key hmac_sha256 key 0) in *.
  set (s3 := mk_agent w3 _ _ _ _ _ _) in Hinj.
  assert (Hlen : Forall (fun f => (4 <= length f)%nat) [event_frame aead_encrypt session nonce 0 ev]).
  { constructor; [|constructor]. unfold event_frame. rewrite length_app, length_le_encode. lia. }
  destruct (run_relay_drains _ fuel (with_key (zeros PHOTON_KEY_SIZE) s3) Hready3 Hopen3 Hfr Hlen)
    as (s4 & Hrelay & (_ & Hfr4 & Hk4 & _ & Hout4 & _) & Hopen4 & Hmk4 & _).
  { cbn. by rewrite Hrun3. }
  { simpl. lia. }
  eexists _, nonce, ev. split.
  { unfold connect_and_run, hang_up, mbind, P_bind. rewrite host_connect. cbn [negb Z.eqb].
    unfold put_key at 1. cbn [os master_key open_fds live_ssl total_frames total_bytes total_errors].
    fold s1. rewrite Hx. cbn [negb Z.eqb]. unfold get_agent.
    change (master_key s2) with key. rewrite Hinj. unfold put_key. cbn [negb Z.eqb].
    fold (with_key (zeros PHOTON_KEY_SIZE) s3). rewrite Hrelay. reflexivity. }
  cbn zeta. cbn [os master_key]. split_and!; try done.
  - rewrite Hout4. cbn [with_key os s3]. rewrite Hout3. cbn. by rewrite app_nil_r, <- !app_assoc.
  - rewrite Hk4. exact Hks.
  - rewrite Hk4. exact Hse.
Qed.
End host.
