(* ===== verification/LogServer.v ===== *)
(** * The log server
    [python_tools/server.py], the other end of the agent's TLS connection:
    the formats it parses, the key derivation and decryption it repeats, the
    session-key cache, and [handle_agent], which serves one connection.
    Names are those of the Python code, in the module [Server].  The
    [struct] formats are read field by field; AES-GCM (the cryptography
    package) and HMAC-SHA256 are the parameters the module's own crypto layer
    has.  A connection is what will arrive on it, cut into the chunks that
    [recv] returns one at a time.  A handler ends with a value, with an
    exception of the socket, or is [Unfinished] when it has used up its
    rounds.  Times stay in nanoseconds, an address a number and a symbol a
    byte string: their renderings for Elasticsearch are not modelled. *)
From Stdlib Require Import ZArith Lia.
From Stdlib Require Import Strings.Byte Strings.String.
From stdpp Require Import base numbers list option gmap.
From S2P Require Import Prelude CString Events Crypto.

Module Server.

(** ** Constants and formats *)
Definition PHOTON_KEY_SIZE : nat := 32.
Definition PHOTON_MAX_EVENT_DATA : nat := 512.
Definition MAGIC : list byte := [x50; x52; x4f; x47].
Definition MSG_KEY_OFFER : byte := x01.
Definition MSG_KEY_ACK : byte := x02.

(** [struct.calcsize] of a packed format is the sum of its widths. *)
Definition calcsize (widths : list nat) : nat := sum_list widths.
Definition PHOTON_EVENT_FMT : list nat := [8; 8; 4; 4; 2; PHOTON_MAX_EVENT_DATA]%nat.
Definition PHOTON_EVENT_SIZE : nat := calcsize PHOTON_EVENT_FMT.
Definition ENC_HDR_FMT : list nat := [8; 8; 12; 2; 16]%nat.
Definition ENC_HDR_SIZE : nat := calcsize ENC_HDR_FMT.
Definition KPROBE_DATA_FMT : list nat := [64; 8; 4; 1]%nat.
Definition KPROBE_DATA_SIZE : nat := calcsize KPROBE_DATA_FMT.

(** [struct.unpack_from]: the fields of a buffer that holds them all. *)
Fixpoint unpack_from (fmt : list nat) (buf : list byte) : list (list byte) :=
  match fmt with
  | [] => []
  | n :: fmt => take n buf :: unpack_from fmt (drop n buf)
  end.
Definition field (i : nat) (fields : list (list byte)) : list byte := default [] (fields !! i).
Definition number (i : nat) (fields : list (list byte)) : Z := le_decode (field i fields).

(** ** Key derivation *)
Section hkdf.
Context (hmac_sha256 : list byte -> list byte -> list byte).

Definition hkdf_extract (salt ikm : list byte) : list byte := hmac_sha256 salt ikm.

(** [while len(okm) < length]; a block adds bytes, so [length] rounds do. *)
Fixpoint hkdf_expand_loop (fuel : nat) (prk info t okm : list byte) (counter : Z)
    (len : nat) : list byte :=
  match fuel with
  | O => okm
  | S fuel =>
      if (length okm <? len)%nat then
        let t := hmac_sha256 prk (t ++ info ++ [byte_of_Z counter]) in
        hkdf_expand_loop fuel prk info t (okm ++ t) (counter + 1) len
      else okm
  end.

(** [None]: "HKDF output too long". *)
Definition hkdf_expand (prk info : list byte) (len : nat) : option (list byte) :=
  if (255 * 32 <? len)%nat then None else
  Some (take len (hkdf_expand_loop len prk info [] [] 1 len)).

Definition derive_session_key (master_key : list byte) (rotation_num : Z) : option (list byte) :=
  let salt := le_encode 8 rotation_num in
  let info := list_byte_of_string (String.append "photon-ring-v1-" (print_u64 rotation_num)) in
  let prk := hkdf_extract salt master_key in
  hkdf_expand prk info PHOTON_KEY_SIZE.
End hkdf.

(** ** Parsing *)
Inductive value_error := FrameTooShort | FrameTruncated | PlaintextTooShort.

Record EncryptedFrame := mk_EncryptedFrame {
  ef_sequence_num : Z;
  ef_rotation_num : Z;
  ef_iv : list byte;
  ef_encrypted_len : Z;
  ef_auth_tag : list byte;
  ef_ciphertext : list byte;
}.

Record PhotonEvent := mk_PhotonEvent {
  pe_sequence_num : Z;
  pe_timestamp_ns : Z;
  pe_event_type : Z;
  pe_detector_id : Z;
  pe_data_len : Z;
  pe_data : list byte;
}.

Definition parse_encrypted_frame (body : list byte) : value_error + EncryptedFrame :=
  if (length body <? ENC_HDR_SIZE)%nat then inl FrameTooShort else
  let h := unpack_from ENC_HDR_FMT body in
  let encrypted_len := number 3 h in
  let ciphertext_end := (ENC_HDR_SIZE + Z.to_nat encrypted_len)%nat in
  if (length body <? ciphertext_end)%nat then inl FrameTruncated else
  inr (mk_EncryptedFrame (number 0 h) (number 1 h) (field 2 h) encrypted_len (field 4 h)
         (take (Z.to_nat encrypted_len) (drop ENC_HDR_SIZE body))).

Definition parse_photon_event (plaintext : list byte) : value_error + PhotonEvent :=
  if (length plaintext <? PHOTON_EVENT_SIZE)%nat then inl PlaintextTooShort else
  let h := unpack_from PHOTON_EVENT_FMT plaintext in
  inr (mk_PhotonEvent (number 0 h) (number 1 h) (number 2 h) (number 3 h) (number 4 h) (field 5 h)).

(** ** What is logged and indexed *)
Definition EVENT_NAMES (event_type : Z) : option string :=
  match event_type with
  | 1 => Some "KPROBE_REG" | 2 => Some "SYSCALL_HOOK" | 3 => Some "MODULE_HIDDEN"
  | 4 => Some "PROCESS_HIDDEN" | 5 => Some "NETWORK_HOOK" | 100 => Some "HEARTBEAT"
  | 101 => Some "KEY_ROTATION" | _ => None
  end%string%Z.
Definition DETECTOR_NAMES (detector_id : Z) : option string :=
  match detector_id with
  | 0 => Some "SYSTEM" | 1 => Some "KPROBE" | 2 => Some "SYSCALL" | _ => None
  end%string%Z.
Definition unknown (n : Z) : string := String.append "UNKNOWN(" (String.append (print_u64 n) ")").
Definition event_name (e : PhotonEvent) : string :=
  default (unknown (pe_event_type e)) (EVENT_NAMES (pe_event_type e)).
Definition detector_name (e : PhotonEvent) : string :=
  default (unknown (pe_detector_id e)) (DETECTOR_NAMES (pe_detector_id e)).

(** [bytes.rstrip] of NULs, from the end. *)
Fixpoint drop_nuls (l : list byte) : list byte :=
  match l with
  | x00 :: l => drop_nuls l
  | _ => l
  end.
Definition rstrip (l : list byte) : list byte := reverse (drop_nuls (reverse l)).

Inductive payload :=
  | KprobePayload (symbol : list byte) (target_addr flags : Z) (is_suspicious : bool)
  | HeartbeatPayload (uptime_ns events_sent events_dropped : Z)
  | RotationPayload (new_rotation_num : Z)
  | RawPayload (raw : list byte).

Definition parse_event_payload (e : PhotonEvent) : payload :=
  let payload := take (Z.to_nat (pe_data_len e)) (pe_data e) in
  if Z.eqb (pe_event_type e) 1 && (Z.of_nat KPROBE_DATA_SIZE <=? pe_data_len e)%Z then
    let h := unpack_from KPROBE_DATA_FMT payload in
    KprobePayload (rstrip (field 0 h)) (number 1 h) (number 2 h) (negb (Z.eqb (number 3 h) 0))
  else if Z.eqb (pe_event_type e) 100 && (32 <=? pe_data_len e)%Z then
    let h := unpack_from [8; 8; 8; 8]%nat payload in
    HeartbeatPayload (number 0 h) (number 2 h) (number 3 h)
  else if Z.eqb (pe_event_type e) 101 && (16 <=? pe_data_len e)%Z then
    RotationPayload (number 0 (unpack_from [8; 8]%nat payload))
  else RawPayload payload.

Definition EVENT_SEVERITY (event_type : Z) : option string :=
  match event_type with
  | 1 => Some "high" | 2 => Some "critical" | 3 => Some "critical" | 4 => Some "critical"
  | 5 => Some "high" | 100 => Some "info" | 101 => Some "info" | _ => None
  end%string%Z.

Definition kallsyms_symbol : list byte := list_byte_of_string "kallsyms_lookup_name".

(** [payload_data.get("symbol") == ... or payload_data.get("is_suspicious")]. *)
Definition is_critical (p : payload) : bool :=
  match p with
  | KprobePayload symbol _ _ sus => bool_decide (symbol = kallsyms_symbol) || sus
  | _ => false
  end.

Record doc := mk_doc {
  doc_seq : Z;
  doc_ts_ns : Z;
  doc_type : string;
  doc_severity : string;
  doc_data : payload;
}.

Definition event_to_doc (e : PhotonEvent) : doc :=
  let p := parse_event_payload e in
  mk_doc (pe_sequence_num e) (pe_timestamp_ns e) (event_name e)
    (if is_critical p then "critical" else default "info" (EVENT_SEVERITY (pe_event_type e)))%string p.

(** The line of [_log_event]. *)
Record log_line := mk_log_line {
  ll_seq : Z;
  ll_type : string;
  ll_detector : string;
  ll_ts_ns : Z;
  ll_rotation : Z;
  ll_suspicious : bool;
}.

Definition log_event (e : PhotonEvent) (f : EncryptedFrame) : log_line :=
  mk_log_line (ef_sequence_num f) (event_name e) (detector_name e) (pe_timestamp_ns e) (ef_rotation_num f)
    (Z.eqb (pe_event_type e) 1 && (64 <=? pe_data_len e)%Z &&
     bool_decide (rstrip (take 64 (pe_data e)) = kallsyms_symbol)).

(** ** The session-key cache *)
Record SessionKeyCache := mk_cache {
  cache_master : list byte;
  cache_keys : gmap Z (list byte);
  cache_max : nat;
}.

Definition lowest (m : gmap Z (list byte)) : option Z :=
  match (map_to_list m).*1 with
  | [] => None
  | r :: rs => Some (foldr Z.min r rs)
  end.

Section server.
Context (hmac_sha256 : list byte -> list byte -> list byte).
Context (aead_decrypt : list byte -> list byte -> list byte -> option (list byte)).

(** [None]: [min] of an empty cache, or a derivation that raised. *)
Definition cache_get (rotation_num : Z) (c : SessionKeyCache) : option (list byte * SessionKeyCache) :=
  match cache_keys c !! rotation_num with
  | Some k => Some (k, c)
  | None =>
      keys ← (if (cache_max c <=? size (cache_keys c))%nat then
                oldest ← lowest (cache_keys c); Some (delete oldest (cache_keys c))
              else Some (cache_keys c));
      k ← derive_session_key hmac_sha256 (cache_master c) rotation_num;
      Some (k, mk_cache (cache_master c) (<[rotation_num := k]> keys) (cache_max c))
  end.

Definition aes_gcm_decrypt (key iv ciphertext tag : list byte) : option (list byte) :=
  aead_decrypt key iv (ciphertext ++ tag).

(** ** Connections *)
Inductive arrival :=
  | Chunk (b : list byte)
  | Broken.                                  (* SSLError, OSError *)

Record session := mk_session {
  inbox : list arrival;
  sendable : bool;
  outbox : list byte;
  closed : bool;
  frames : Z;
  errors : Z;
  nbytes : Z;
  key_cache : SessionKeyCache;
  log_lines : list log_line;
  docs : list doc;
}.
Definition set_inbox i s := mk_session i (sendable s) (outbox s) (closed s) (frames s) (errors s)
  (nbytes s) (key_cache s) (log_lines s) (docs s).
Definition send_bytes b s := mk_session (inbox s) (sendable s) (outbox s ++ b) (closed s) (frames s) (errors s)
  (nbytes s) (key_cache s) (log_lines s) (docs s).
Definition close_conn s := mk_session (inbox s) (sendable s) (outbox s) true (frames s) (errors s)
  (nbytes s) (key_cache s) (log_lines s) (docs s).
Definition add_error s := mk_session (inbox s) (sendable s) (outbox s) (closed s) (frames s) (errors s + 1)
  (nbytes s) (key_cache s) (log_lines s) (docs s).
Definition add_bytes n s := mk_session (inbox s) (sendable s) (outbox s) (closed s) (frames s) (errors s)
  (nbytes s + n) (key_cache s) (log_lines s) (docs s).
Definition set_cache c s := mk_session (inbox s) (sendable s) (outbox s) (closed s) (frames s) (errors s)
  (nbytes s) c (log_lines s) (docs s).
Definition add_frame l d s := mk_session (inbox s) (sendable s) (outbox s) (closed s) (frames s + 1) (errors s)
  (nbytes s) (key_cache s) (log_lines s ++ [l]) (docs s ++ [d]).

Inductive outcome (A : Type) := Value (a : A) | Raised | Unfinished.
#[global] Arguments Value {A}.
#[global] Arguments Raised {A}.
#[global] Arguments Unfinished {A}.

Definition H (A : Type) : Type := session -> outcome A * session.
#[global] Instance H_ret : MRet H := fun A a s => (Value a, s).
#[global] Instance H_bind : MBind H := fun A B f m s =>
  match m s with
  | (Value a, s) => f a s
  | (Raised, s) => (Raised, s)
  | (Unfinished, s) => (Unfinished, s)
  end.
Definition change (f : session -> session) : H unit := fun s => (Value tt, f s).

(** [sock.recv]: at most [n] bytes of what has arrived, none at the end. *)
Definition recv (n : nat) : H (list byte) := fun s =>
  match inbox s with
  | [] => (Value [], s)
  | Broken :: _ => (Raised, s)
  | Chunk b :: rest =>
      (Value (take n b),
       set_inbox (if (length b <=? n)%nat then rest else Chunk (drop n b) :: rest) s)
  end.

(** Every call brings a byte or ends the loop. *)
Fixpoint recv_loop (fuel n : nat) (buf : list byte) : H (option (list byte)) :=
  if (length buf <? n)%nat then
    match fuel with
    | O => fun s => (Unfinished, s)
    | S fuel =>
        chunk ← recv (n - length buf);
        match chunk with
        | [] => mret None
        | _ => recv_loop fuel n (buf ++ chunk)
        end
    end
  else mret (Some buf).
Definition recv_exactly (n : nat) : H (option (list byte)) := recv_loop n n [].

Definition sendall (b : list byte) : H unit := fun s =>
  if sendable s then (Value tt, send_bytes b s) else (Raised, s).

(** One frame's body: parse, find the key, decrypt, parse, log. *)
Definition handle_body (body : list byte) : H unit := fun s =>
  match parse_encrypted_frame body with
  | inl _ => change add_error s
  | inr frame =>
      match cache_get (ef_rotation_num frame) (key_cache s) with
      | None => change add_error s
      | Some (session_key, cache) =>
          let s := set_cache cache s in
          match aes_gcm_decrypt session_key (ef_iv frame) (ef_ciphertext frame) (ef_auth_tag frame) with
          | None => change add_error s
          | Some plaintext =>
              match parse_photon_event plaintext with
              | inl _ => change add_error s
              | inr event => change (add_frame (log_event event frame) (event_to_doc event)) s
              end
          end
      end
  end.

(** One round of the receive loop; [false] leaves it. *)
Definition receive_frame : H bool :=
  hdr ← recv_exactly 4;
  match hdr with
  | None => mret false
  | Some hdr =>
      let body_len := le_decode hdr in
      if Z.eqb body_len 0 || (65536 <? body_len)%Z then mret true else
      body ← recv_exactly (Z.to_nat body_len);
      match body with
      | None => mret false
      | Some body => change (add_bytes (4 + body_len)) ;; handle_body body ;; mret true
      end
  end.

Fixpoint receive_loop (fuel : nat) : H unit :=
  match fuel with
  | O => fun s => (Unfinished, s)
  | S fuel => go_on ← receive_frame; if (go_on : bool) then receive_loop fuel else mret tt
  end.

Definition serve (fuel : nat) (master_key : list byte) : H unit :=
  magic ← recv_exactly 4;
  if negb (bool_decide (magic = Some MAGIC)) then mret tt else
  sendall (MSG_KEY_OFFER :: master_key) ;;
  ack ← recv_exactly 1;
  if negb (bool_decide (ack = Some [MSG_KEY_ACK])) then mret tt else
  receive_loop fuel.

(** [try ... except ... finally]: an exception of the socket ends there. *)
Definition handle_agent (fuel : nat) (master_key : list byte) : H unit := fun s =>
  match serve fuel master_key s with
  | (Unfinished, s) => (Unfinished, s)
  | (_, s) => (Value tt, close_conn s)
  end.
End server.

End Server.
