(* ===== verification/LogServerFacts.v ===== *)
(** * Properties of the log server
    The server derives the kernel's session keys and opens the kernel's
    frames; the cache holds right keys only and stays within its bound; a
    handler ends whatever arrives and closes its connection; and what a
    session of kernel frames amounts to. *)
From Stdlib Require Import ZArith Lia.
From Stdlib Require Import Strings.Byte Strings.String.
From stdpp Require Import base numbers list option gmap.
From S2P Require Import Prelude CString Kernel Events Crypto Cdev LogServer.
Import Server.

Section server_facts.
Context (hmac_sha256 : list byte -> list byte -> list byte).
Context (hmac_length : forall k m, length (hmac_sha256 k m) = 32%nat).
Abbreviation kernel_key := (Crypto.session_key hmac_sha256).
Abbreviation rfc_T := (rfc_T hmac_sha256).
Abbreviation rfc_blocks := (rfc_blocks hmac_sha256).

(** ** Keys *)
Lemma expand_loop_blocks fuel prk info i len :
  (len <= 32 * i + fuel)%nat ->
  exists n, (len <= 32 * n)%nat /\
    Server.hkdf_expand_loop hmac_sha256 fuel prk info (rfc_T prk info i) (rfc_blocks prk info 1 i)
      (Z.of_nat (S i)) len = rfc_blocks prk info 1 n.
Proof using hmac_length.
  revert i. induction fuel as [|fuel IH]; intros i Hlen; [by exists i; split; [lia|]|].
  cbn [Server.hkdf_expand_loop]. rewrite (length_rfc_blocks _ hmac_length) by lia.
  destruct (Nat.ltb_spec (32 * i) len) as [_|Hge]; [|by exists i].
  destruct (IH (S i)) as (n & Hn & Hloop); [lia|]. exists n. split; [done|].
  rewrite <- Hloop. clear Hloop IH. replace (Z.of_nat (S i) + 1)%Z with (Z.of_nat (S (S i))) by lia.
  replace (rfc_blocks prk info 1 (S i)) with (rfc_blocks prk info 1 i ++ rfc_T prk info (S i)); [done|].
  replace (rfc_blocks prk info 1 (S i)) with (rfc_blocks prk info 1 (i + 1)) by (f_equal; lia).
  rewrite rfc_blocks_app. cbn [Crypto.rfc_blocks]. unfold Crypto.rfc_blocks at 2. cbn -[Crypto.rfc_T]. by rewrite app_nil_r.
Qed.

Lemma take_blocks prk info n m len :
  (len <= 32 * n)%nat -> (len <= 32 * m)%nat ->
  take len (rfc_blocks prk info 1 n) = take len (rfc_blocks prk info 1 m).
Proof using hmac_length.
  assert (Hle : forall a b, (a <= b)%nat -> (len <= 32 * a)%nat ->
    take len (rfc_blocks prk info 1 a) = take len (rfc_blocks prk info 1 b)).
  { intros a b Hab Ha. replace b with (a + (b - a))%nat by lia.
    rewrite rfc_blocks_app, take_app_le; [done|]. rewrite (length_rfc_blocks _ hmac_length); lia. }
  intros Hn Hm. destruct (decide (n <= m)%nat); [by apply Hle|]. symmetry. apply Hle; [lia|done].
Qed.

Lemma server_expand prk info len :
  (len <= 255 * 32)%nat ->
  Server.hkdf_expand hmac_sha256 prk info len = Some (rfc_expand hmac_sha256 prk info len).
Proof using hmac_length.
  intros Hlen. unfold Server.hkdf_expand. rewrite (proj2 (Nat.ltb_ge _ _)) by lia.
  destruct (expand_loop_blocks len prk info 0 len) as (n & Hn & Hloop); [lia|].
  f_equal. etransitivity; [by apply (f_equal (take len) Hloop)|].
  apply take_blocks; [done|]. pose proof (Nat.div_mod (len + 31) 32). pose proof (Nat.mod_upper_bound (len + 31) 32). lia.
Qed.

Lemma server_key master rotation_num :
  Server.derive_session_key hmac_sha256 master rotation_num = Some (kernel_key master rotation_num).
Proof using hmac_length. apply server_expand. vm_compute. lia. Qed.

(** C7. The server's HKDF, a Python loop over HMAC blocks, is the one of
    RFC 5869 for every length up to its limit of 255 blocks, and refuses a
    longer one; the session key it derives for a rotation is the key the
    kernel's own HKDF derives. *)
Theorem server_derives_kernel_key prk info len master rotation_num :
  Server.hkdf_expand hmac_sha256 prk info len =
    (if decide (len <= 255 * 32)%nat then Some (rfc_expand hmac_sha256 prk info len) else None) /\
  Server.derive_session_key hmac_sha256 master rotation_num = Some (kernel_key master rotation_num).
Proof using hmac_length.
  split; [|apply server_key]. case_decide; [by apply server_expand|].
  unfold Server.hkdf_expand. by rewrite (proj2 (Nat.ltb_lt _ _)) by lia.
Qed.

(** ** The cache *)
Definition cache_ok (c : SessionKeyCache) : Prop :=
  map_Forall (fun r k => k = kernel_key (cache_master c) r) (cache_keys c) /\
  (0 < cache_max c)%nat /\ (size (cache_keys c) <= cache_max c)%nat.

Lemma foldr_min_spec r rs :
  foldr Z.min r rs ∈ r :: rs /\ Forall (fun x => (foldr Z.min r rs <= x)%Z) (r :: rs).
Proof.
  induction rs as [|x rs [Hin Hall]]; cbn [foldr].
  { split; [by left|]. by repeat constructor. }
  apply Forall_cons in Hall as [Hr Hrs]. split.
  - destruct (Z.min_spec x (foldr Z.min r rs)) as [[_ ->]|[_ ->]]; [set_solver|].
    apply elem_of_cons in Hin as [Hin|Hin]; rewrite ?elem_of_cons; tauto.
  - repeat constructor; [lia..|]. eapply Forall_impl; [exact Hrs|]. cbn. lia.
Qed.

(** The evicted entry is the one with the lowest rotation number. *)
Lemma lowest_spec m :
  match lowest m with
  | None => m = ∅
  | Some r => is_Some (m !! r) /\ forall r', is_Some (m !! r') -> (r <= r')%Z
  end.
Proof.
  unfold lowest. destruct ((map_to_list m).*1) as [|r rs] eqn:E.
  { apply fmap_nil_inv in E. by apply map_to_list_empty_iff. }
  assert (Hdom : forall x, is_Some (m !! x) <-> x ∈ r :: rs).
  { intros x. rewrite <- E, list_elem_of_fmap. split.
    - intros [k Hk]. exists (x, k). split; [done|]. by apply elem_of_map_to_list.
    - intros ([x' k] & -> & Hk). exists k. by apply elem_of_map_to_list. }
  destruct (foldr_min_spec r rs) as [Hin Hall]. split; [by apply Hdom|].
  intros r' Hr'. apply Hdom in Hr'. by apply (proj1 (Forall_forall _ _) Hall).
Qed.

Lemma cache_get_spec r c :
  cache_ok c ->
  exists c', cache_get hmac_sha256 r c = Some (kernel_key (cache_master c) r, c') /\ cache_ok c' /\
    cache_master c' = cache_master c /\ cache_max c' = cache_max c.
Proof using hmac_length.
  intros (Hall & Hpos & Hsize). unfold cache_get.
  destruct (cache_keys c !! r) as [k|] eqn:Ek.
  { exists c. rewrite (Hall _ _ Ek). by split_and!. }
  rewrite server_key.
  assert (Hroom : exists keys, (if (cache_max c <=? size (cache_keys c))%nat then
      oldest ← lowest (cache_keys c); Some (delete oldest (cache_keys c))
    else Some (cache_keys c)) = Some keys /\
    map_Forall (fun r k => k = kernel_key (cache_master c) r) keys /\ (S (size keys) <= cache_max c)%nat).
  { destruct (Nat.leb_spec (cache_max c) (size (cache_keys c))) as [Hfull|Hroom]; [|by eexists].
    pose proof (lowest_spec (cache_keys c)) as Hlow. destruct (lowest _) as [o|].
    - destruct Hlow as [Ho _]. eexists. split; [done|]. split; [by apply map_Forall_delete|].
      rewrite map_size_delete. destruct Ho as [k ->]. lia.
    - rewrite Hlow, map_size_empty in Hfull. lia. }
  destruct Hroom as (keys & -> & Hkeys & Hsz).
  exists (mk_cache (cache_master c) (<[r := kernel_key (cache_master c) r]> keys) (cache_max c)).
  split; [done|]. split; [split_and!|done]; cbn [cache_keys cache_max cache_master].
  - by apply map_Forall_insert_2.
  - done.
  - rewrite map_size_insert. destruct (keys !! r); unfold id; lia.
Qed.

Context (aead_encrypt : list byte -> list byte -> list byte -> list byte).
Context (aead_length : forall k n p,
  length (aead_encrypt k n p) = (length p + PHOTON_TAG_SIZE)%nat).
Context (aead_decrypt : list byte -> list byte -> list byte -> option (list byte)).
Context (aead_correct : forall k n p, aead_decrypt k n (aead_encrypt k n p) = Some p).

(** ** What arrives *)
Definition arriving (bs : list byte) (s : session) : Prop :=
  exists cs, inbox s = Chunk <$> cs /\ Forall (fun c => c <> []) cs /\ mjoin cs = bs.

Lemma recv_spec n s c cs :
  inbox s = Chunk <$> (c :: cs) -> Forall (fun c => c <> []) (c :: cs) ->
  exists cs', recv n s = (Value (take n c), set_inbox (Chunk <$> cs') s) /\
    Forall (fun c => c <> []) cs' /\ mjoin cs' = drop n c ++ mjoin cs.
Proof using.
  intros Hin Hne. apply Forall_cons in Hne as [Hc Hcs]. unfold recv. rewrite Hin. cbn [fmap list_fmap].
  destruct (Nat.leb_spec (length c) n).
  - exists cs. by rewrite drop_ge by lia.
  - exists (drop n c :: cs). split_and!; [done| |done]. constructor; [|done].
    intros Hd. apply (f_equal length) in Hd. rewrite length_drop in Hd. cbn in Hd. lia.
Qed.

Lemma match_nonempty {A B} (l : list A) (x y : B) :
  l <> [] -> match l with [] => x | _ :: _ => y end = y.
Proof using. by destruct l. Qed.

(** Taking [k] bytes chunk by chunk. *)
Lemma take_pieces {A} k (c l : list A) :
  take k c ++ take (k - length (take k c)) (drop k c ++ l) = take k (c ++ l).
Proof using.
  rewrite length_take, (take_app c). destruct (Nat.min_spec k (length c)) as [[Hk ->]|[Hk ->]].
  - rewrite Nat.sub_diag. replace (k - length c)%nat with 0%nat by lia. by rewrite !take_0.
  - by rewrite (drop_ge c) by lia.
Qed.
Lemma drop_pieces {A} k (c l : list A) :
  drop (k - length (take k c)) (drop k c ++ l) = drop k (c ++ l).
Proof using.
  rewrite length_take, (drop_app c). destruct (Nat.min_spec k (length c)) as [[Hk ->]|[Hk ->]].
  - rewrite Nat.sub_diag. by replace (k - length c)%nat with 0%nat by lia.
  - by rewrite (drop_ge c) by lia.
Qed.

(** [recv_loop] depends on the bytes, not on how they are cut. *)
Lemma recv_loop_delivers n fuel buf s bs :
  arriving bs s -> (length buf <= n <= length buf + fuel)%nat ->
  exists i, arriving (drop (n - length buf) bs) (set_inbox i s) /\
    recv_loop fuel n buf s =
      (Value (if (n <=? length buf + length bs)%nat then Some (buf ++ take (n - length buf) bs) else None),
       set_inbox i s).
Proof using.
  revert buf s bs. induction fuel as [|fuel IH]; intros buf s bs (cs & Hin & Hne & Hbs) Hn; cbn [recv_loop].
  all: destruct (Nat.ltb_spec (length buf) n) as [Hlt|Hge]; [try lia|].
  1, 3: exists (inbox s); replace (n - length buf)%nat with 0%nat by lia;
    rewrite (proj2 (Nat.leb_le _ _)) by lia; rewrite take_0, app_nil_r; destruct s; by split; [exists cs|].
  destruct cs as [|c cs].
  { exists []. cbn in Hbs. subst bs. unfold mbind, H_bind, recv. rewrite Hin. cbn [fmap list_fmap].
    rewrite (proj2 (Nat.leb_gt _ _)) by (cbn; lia). rewrite drop_nil.
    destruct s; cbn in *; subst. split; [by exists []|done]. }
  destruct (recv_spec (n - length buf) s c cs Hin Hne) as (cs' & Hrecv & Hne' & Hcs').
  unfold mbind, H_bind. rewrite Hrecv.
  assert (Hc : take (n - length buf) c <> []).
  { apply Forall_cons in Hne as [Hc _]. destruct c; [done|]. destruct (n - length buf)%nat eqn:E; [lia|done]. }
  rewrite match_nonempty by done. clear Hc.
  assert (Hl : (0 < length (take (n - length buf) c))%nat).
  { apply Forall_cons in Hne as [Hc _]. rewrite length_take. destruct c; [done|cbn; lia]. }
  destruct (IH (buf ++ take (n - length buf) c) (set_inbox (Chunk <$> cs') s) (drop (n - length buf) c ++ mjoin cs))
    as (i & Harr & Hloop).
  { by exists cs'. }
  { rewrite length_app. rewrite length_take in *. lia. }
  subst bs. change (mjoin (c :: cs)) with (c ++ mjoin cs).
  exists i. rewrite Hloop, length_app, Nat.sub_add_distr in *. rewrite drop_pieces in Harr. split; [done|].
  rewrite <- app_assoc, take_pieces, <- Nat.add_assoc.
  replace (length (take (n - length buf) c) + length (drop (n - length buf) c ++ mjoin cs))%nat
    with (length (c ++ mjoin cs)); [by rewrite length_app|].
  rewrite !length_app, length_take, length_drop. lia.
Qed.

Lemma recv_exactly_some n a bs s :
  length a = n -> arriving (a ++ bs) s ->
  exists i, arriving bs (set_inbox i s) /\ recv_exactly n s = (Value (Some a), set_inbox i s).
Proof using.
  intros <- Harr. destruct (recv_loop_delivers (length a) (length a) [] s _ Harr) as (i & Hi & Hloop); [cbn; lia|].
  exists i. cbn [length] in *. rewrite Nat.sub_0_r in *. rewrite drop_app_length in Hi. split; [done|].
  unfold recv_exactly. rewrite Hloop, length_app, (proj2 (Nat.leb_le _ _)) by lia.
  by rewrite take_app_length.
Qed.

Lemma recv_exactly_none n bs s :
  (length bs < n)%nat -> arriving bs s ->
  exists i, recv_exactly n s = (Value None, set_inbox i s).
Proof using.
  intros Hlt Harr. destruct (recv_loop_delivers n n [] s _ Harr) as (i & _ & Hloop); [cbn; lia|].
  exists i. unfold recv_exactly. rewrite Hloop. cbn [length]. by rewrite (proj2 (Nat.leb_gt _ _)) by lia.
Qed.

(** ** Frames *)
(** The body of a frame that carries the bytes [p], sealed under [key]. *)
Definition frame_body (key nonce : list byte) (seq rot : Z) (p : list byte) : list byte :=
  le_encode 8 seq ++ le_encode 8 rot ++ nonce ++ le_encode 2 (Z.of_nat (length p)) ++
  take PHOTON_TAG_SIZE (drop (length p) (aead_encrypt key nonce p)) ++
  take (length p) (aead_encrypt key nonce p).

Lemma kernel_body key nonce rot ev :
  packed_wf ev ->
  pack_encrypted_msg (sealed_msg aead_encrypt key nonce rot ev) =
  frame_body key nonce (sequence_num ev) rot (pack ev).
Proof using. intros Hwf. unfold frame_body. by rewrite (length_pack ev Hwf). Qed.

Lemma unpack_app n fmt a l :
  length a = n -> unpack_from (n :: fmt) (a ++ l) = a :: unpack_from fmt l.
Proof using. intros <-. cbn [unpack_from]. by rewrite take_app_length, drop_app_length. Qed.

Lemma number_le i n z fields :
  fields !! i = Some (le_encode n z) -> uint_range n z -> number i fields = z.
Proof using.
  intros Hi Hz. unfold number, field. rewrite Hi. change (le_decode (le_encode n z) = z). rewrite le_decode_encode. by apply Z.mod_small.
Qed.

Lemma parse_frame_body key nonce seq rot p :
  uint_range 8 seq -> uint_range 8 rot -> length nonce = PHOTON_IV_SIZE -> (Z.of_nat (length p) < 2 ^ 16)%Z ->
  parse_encrypted_frame (frame_body key nonce seq rot p) =
  inr (mk_EncryptedFrame seq rot nonce (Z.of_nat (length p))
         (take PHOTON_TAG_SIZE (drop (length p) (aead_encrypt key nonce p)))
         (take (length p) (aead_encrypt key nonce p))).
Proof using aead_length.
  intros Hs Hr Hn Hp. pose proof (aead_length key nonce p) as Hal. unfold frame_body.
  set (tag := take PHOTON_TAG_SIZE _). set (ct := take (length p) _).
  assert (Htag : length tag = 16%nat) by (unfold tag; rewrite length_take, length_drop, Hal; unfold PHOTON_TAG_SIZE; lia).
  assert (Hct : length ct = length p) by (unfold ct; rewrite length_take, Hal; lia).
  assert (Hhdr : unpack_from ENC_HDR_FMT
      (le_encode 8 seq ++ le_encode 8 rot ++ nonce ++ le_encode 2 (Z.of_nat (length p)) ++ tag ++ ct) =
    [le_encode 8 seq; le_encode 8 rot; nonce; le_encode 2 (Z.of_nat (length p)); tag]).
  { unfold ENC_HDR_FMT. by rewrite !unpack_app by (done || apply length_le_encode). }
  assert (Hlen : length (le_encode 8 seq ++ le_encode 8 rot ++ nonce ++ le_encode 2 (Z.of_nat (length p)) ++ tag ++ ct)
    = (ENC_HDR_SIZE + length p)%nat).
  { rewrite !length_app, !length_le_encode, Hn, Htag, Hct. done. }
  assert (Hdrop : drop ENC_HDR_SIZE
    (le_encode 8 seq ++ le_encode 8 rot ++ nonce ++ le_encode 2 (Z.of_nat (length p)) ++ tag ++ ct) = ct).
  { rewrite !app_assoc. apply drop_app_length'. by rewrite !length_app, !length_le_encode, Hn, Htag. }
  unfold parse_encrypted_frame. rewrite Hhdr, Hlen, Hdrop.
  rewrite (number_le 0 8 seq), (number_le 1 8 rot), (number_le 3 2 (Z.of_nat (length p))) by (done || by split; [lia|]).
  rewrite Nat2Z.id, !(proj2 (Nat.ltb_ge _ _)) by lia. rewrite (take_ge ct) by lia. done.
Qed.

(** The frame [parse_encrypted_frame] makes of such a body. *)
Definition frame_of (key nonce : list byte) (seq rot : Z) (p : list byte) : EncryptedFrame :=
  mk_EncryptedFrame seq rot nonce (Z.of_nat (length p))
    (take PHOTON_TAG_SIZE (drop (length p) (aead_encrypt key nonce p)))
    (take (length p) (aead_encrypt key nonce p)).

Lemma handle_body_sealed key nonce seq rot p c s :
  cache_get hmac_sha256 rot (key_cache s) = Some (key, c) ->
  uint_range 8 seq -> uint_range 8 rot -> length nonce = PHOTON_IV_SIZE -> (Z.of_nat (length p) < 2 ^ 16)%Z ->
  handle_body hmac_sha256 aead_decrypt (frame_body key nonce seq rot p) s =
  (Value tt, match parse_photon_event p with
             | inl _ => add_error (set_cache c s)
             | inr e => add_frame (log_event e (frame_of key nonce seq rot p)) (event_to_doc e) (set_cache c s)
             end).
Proof using aead_length aead_correct.
  intros Hget Hs Hr Hn Hp. unfold handle_body. rewrite parse_frame_body by done.
  cbn [ef_rotation_num ef_iv ef_ciphertext ef_auth_tag]. rewrite Hget. unfold aes_gcm_decrypt.
  set (ct := aead_encrypt key nonce p).
  replace (take (length p) ct ++ take PHOTON_TAG_SIZE (drop (length p) ct)) with ct.
  2: { rewrite <- (take_drop (length p) ct) at 1. f_equal. symmetry. apply take_ge.
       rewrite length_drop. unfold ct. rewrite aead_length. lia. }
  unfold ct. rewrite aead_correct. by destruct (parse_photon_event p).
Qed.

(** C8. A frame that the kernel seals under the session key of the rotation it
    is labelled with opens at the server, whatever its contents and whatever
    the cache holds so far: the server reads back the label and the sequence
    number, recovers what was sealed, and logs and indexes the event in it, or
    counts an error when it is too short to be one.  The cache stays right. *)
Theorem server_opens_frame nonce seq rot p s :
  cache_ok (key_cache s) -> uint_range 8 seq -> uint_range 8 rot -> length nonce = PHOTON_IV_SIZE ->
  (Z.of_nat (length p) < 2 ^ 16)%Z ->
  let master := cache_master (key_cache s) in
  let key := kernel_key master rot in
  parse_encrypted_frame (frame_body key nonce seq rot p) = inr (frame_of key nonce seq rot p) /\
  exists c, cache_ok c /\ cache_master c = master /\
    handle_body hmac_sha256 aead_decrypt (frame_body key nonce seq rot p) s =
    (Value tt, match parse_photon_event p with
               | inl _ => add_error (set_cache c s)
               | inr e => add_frame (log_event e (frame_of key nonce seq rot p)) (event_to_doc e) (set_cache c s)
               end).
Proof using hmac_length aead_length aead_correct.
  intros Hc Hs Hr Hn Hp master key. split; [by apply parse_frame_body|].
  destruct (cache_get_spec rot _ Hc) as (c & Hget & Hc' & Hm & _). exists c. split_and!; [done..|].
  by apply handle_body_sealed.
Qed.

(** ** A session *)
Definition sealed_for (master : list byte) (f : list byte) : Prop :=
  exists nonce rot ev, packed_wf ev /\ length nonce = PHOTON_IV_SIZE /\ uint_range 8 rot /\
    f = event_frame aead_encrypt (kernel_key master rot) nonce rot ev.

(** The kernel's events are 306 bytes, the server waits for 538. *)
Lemma kernel_event_too_short (ev : photon_event) :
  packed_wf ev -> parse_photon_event (pack ev) = inl PlaintextTooShort.
Proof using. intros Hwf. unfold parse_photon_event. by rewrite (length_pack ev Hwf). Qed.

(** [k] frames that came to nothing. *)
Definition fruitless (k : nat) (s s' : session) : Prop :=
  frames s' = frames s /\ errors s' = (errors s + Z.of_nat k)%Z /\
  nbytes s' = (nbytes s + Z.of_nat (PHOTON_FRAME_SLOT_SIZE * k))%Z /\
  log_lines s' = log_lines s /\ docs s' = docs s /\ outbox s' = outbox s /\ closed s' = closed s /\
  cache_ok (key_cache s') /\ cache_master (key_cache s') = cache_master (key_cache s).

Lemma receive_frame_sealed f bs s :
  sealed_for (cache_master (key_cache s)) f -> cache_ok (key_cache s) -> arriving (f ++ bs) s ->
  exists s', receive_frame hmac_sha256 aead_decrypt s = (Value true, s') /\ arriving bs s' /\ fruitless 1 s s'.
Proof using hmac_length aead_length aead_correct.
  intros (nonce & rot & ev & Hwf & Hn & Hr & ->) Hc Harr.
  pose proof (length_event_frame aead_encrypt aead_length (kernel_key (cache_master (key_cache s)) rot) nonce rot ev Hwf Hn) as Hlen.
  unfold event_frame in *. set (body := pack_encrypted_msg _) in *. rewrite length_app, length_le_encode in Hlen.
  unfold PHOTON_FRAME_SLOT_SIZE in Hlen.
  rewrite <- app_assoc in Harr.
  destruct (recv_exactly_some 4 _ _ _ (length_le_encode _ _) Harr) as (i & Harr1 & Hr1).
  destruct (recv_exactly_some PHOTON_FRAME_BODY_MAX body bs (set_inbox i s)) as (j & Harr2 & Hr2); [lia|done|].
  destruct (cache_get_spec rot _ Hc) as (c & Hget & Hc' & Hm & _).
  pose proof (handle_body_sealed _ nonce (sequence_num ev) rot (pack ev) c
    (add_bytes (4 + Z.of_nat PHOTON_FRAME_BODY_MAX) (set_inbox j s)) Hget) as Hbody.
  specialize (Hbody ltac:(apply Hwf) Hr Hn ltac:(by rewrite (length_pack ev Hwf))).
  rewrite kernel_event_too_short in Hbody by done.
  exists (add_error (set_cache c (add_bytes (4 + Z.of_nat PHOTON_FRAME_BODY_MAX) (set_inbox j s)))).
  split; [|split; [exact Harr2|by unfold fruitless; split_and!]].
  unfold receive_frame, mbind, H_bind. rewrite Hr1.
  change (le_decode (le_encode 4 (Z.of_nat PHOTON_FRAME_BODY_MAX))) with (Z.of_nat PHOTON_FRAME_BODY_MAX).
  change (Z.eqb (Z.of_nat PHOTON_FRAME_BODY_MAX) 0 || (65536 <? Z.of_nat PHOTON_FRAME_BODY_MAX)%Z) with false.
  cbv beta iota zeta. rewrite Nat2Z.id, Hr2. unfold body. rewrite (kernel_body _ _ _ _ Hwf).
  unfold change. change (set_inbox j (set_inbox i s)) with (set_inbox j s).
  by rewrite Hbody.
Qed.

Lemma fruitless_trans j k s1 s2 s3 : fruitless j s1 s2 -> fruitless k s2 s3 -> fruitless (j + k) s1 s3.
Proof using.
  intros (F1 & E1 & B1 & L1 & D1 & O1 & C1 & K1 & M1) (F2 & E2 & B2 & L2 & D2 & O2 & C2 & K2 & M2).
  split_and!; try congruence; try done; lia.
Qed.

Lemma receive_loop_sealed fs fuel s :
  Forall (sealed_for (cache_master (key_cache s))) fs -> cache_ok (key_cache s) ->
  arriving (mjoin fs) s -> (length fs < fuel)%nat ->
  exists s', receive_loop hmac_sha256 aead_decrypt fuel s = (Value tt, s') /\ fruitless (length fs) s s'.
Proof using hmac_length aead_length aead_correct.
  revert fuel s. induction fs as [|f fs IH]; intros [|fuel] s Hall Hc Harr Hfuel; try (cbn in Hfuel; lia);
    cbn [receive_loop]; unfold mbind, H_bind.
  - destruct (recv_exactly_none 4 [] s) as (i & Hr); [cbn; lia|done|].
    exists (set_inbox i s). unfold receive_frame, mbind, H_bind. rewrite Hr. cbn.
    split; [done|]. split_and!; try done; cbn; lia.
  - apply Forall_cons in Hall as [Hf Hfs].
    destruct (receive_frame_sealed f (mjoin fs) s Hf Hc Harr) as (s1 & Hr & Harr1 & Hq1).
    pose proof Hq1 as (_ & _ & _ & _ & _ & _ & _ & Hc1 & Hm1).
    destruct (IH fuel s1) as (s2 & Hloop & Hq2); [by rewrite Hm1|done|done|cbn in Hfuel; lia|].
    exists s2. rewrite Hr. split; [exact Hloop|]. by apply (fruitless_trans 1 (length fs) s s1 s2).
Qed.

(** A session with an agent that plays its part: it sends the magic and the
    acknowledgement, and then any number of frames the kernel sealed under the
    keys of the master key it was given, cut up on the way in any manner.  The
    server sends the key offer, opens every frame, finds every event too short
    for the format it knows, and closes the connection having logged and
    indexed nothing at all. *)
Lemma kernel_frames_logged_nowhere fs fuel s :
  let master := cache_master (key_cache s) in
  Forall (sealed_for master) fs -> cache_ok (key_cache s) -> sendable s = true ->
  arriving (MAGIC ++ [MSG_KEY_ACK] ++ mjoin fs) s -> (length fs < fuel)%nat ->
  exists s', handle_agent hmac_sha256 aead_decrypt fuel master s = (Value tt, s') /\
    closed s' = true /\ outbox s' = outbox s ++ MSG_KEY_OFFER :: master /\
    frames s' = frames s /\ log_lines s' = log_lines s /\ docs s' = docs s /\
    errors s' = (errors s + Z.of_nat (length fs))%Z /\
    nbytes s' = (nbytes s + Z.of_nat (PHOTON_FRAME_SLOT_SIZE * length fs))%Z.
Proof using hmac_length aead_length aead_correct.
  intros master Hall Hc Hsend Harr Hfuel.
  destruct (recv_exactly_some 4 MAGIC _ s eq_refl Harr) as (i & Harr1 & Hr1).
  destruct (recv_exactly_some 1 [MSG_KEY_ACK] (mjoin fs) (send_bytes (MSG_KEY_OFFER :: master) (set_inbox i s)) eq_refl)
    as (j & Harr2 & Hr2); [exact Harr1|].
  set (s2 := set_inbox j _) in *.
  destruct (receive_loop_sealed fs fuel s2) as (s3 & Hloop & (HF & HE & HB & HL & HD & HO & HC & _)); [done..|].
  exists (close_conn s3). split; [|cbn; by rewrite HO].
  unfold handle_agent, serve, mbind, H_bind. rewrite Hr1, bool_decide_true by done. cbn [negb].
  unfold sendall. cbn [sendable set_inbox]. rewrite Hsend, Hr2, bool_decide_true by done. cbn [negb].
  by rewrite Hloop.
Qed.

(** ** Whatever arrives *)
Definition arrived (s : session) : nat :=
  sum_list_with (fun a => match a with Chunk b => length b | Broken => 0%nat end) (inbox s).

(** The cache is right, and every counted frame is one line and one document. *)
Definition session_ok (s : session) : Prop :=
  cache_ok (key_cache s) /\ frames s = Z.of_nat (length (docs s)) /\ length (log_lines s) = length (docs s).

Lemma recv_any n s :
  match recv n s with
  | (Value b, s') => exists i, s' = set_inbox i s /\ (arrived s' + length b = arrived s)%nat
  | (Raised, s') => s' = s
  | (Unfinished, _) => False
  end.
Proof using.
  unfold recv. destruct (inbox s) as [|[b|] rest] eqn:E; [| |done].
  - exists []. destruct s; cbn in *; subst. split; [done|]. unfold arrived. cbn. lia.
  - eexists. split; [done|]. unfold arrived at 2. rewrite E. unfold arrived. cbn [set_inbox inbox].
    destruct (Nat.leb_spec (length b) n); cbn [sum_list_with]; rewrite ?length_drop, length_take; lia.
Qed.

Lemma recv_loop_any fuel n buf s :
  (n <= length buf + fuel)%nat ->
  match recv_loop fuel n buf s with
  | (Value (Some out), s') => exists i, s' = set_inbox i s /\
      (arrived s' + length out = arrived s + length buf)%nat /\ (n <= length out)%nat
  | (Value None, s') | (Raised, s') => exists i, s' = set_inbox i s
  | (Unfinished, _) => False
  end.
Proof using.
  revert buf s. induction fuel as [|fuel IH]; intros buf s Hn; cbn [recv_loop];
    (destruct (Nat.ltb_spec (length buf) n) as [Hlt|Hge];
     [|exists (inbox s); split_and!; [by destruct s|lia..]]); [lia|].
  unfold mbind, H_bind. pose proof (recv_any (n - length buf) s) as Hr.
  destruct (recv (n - length buf) s) as [[b| |] s1]; [|by exists (inbox s); subst; destruct s|done].
  destruct Hr as (i & -> & Ha). destruct b as [|b0 b]; [by exists i|].
  specialize (IH (buf ++ b0 :: b) (set_inbox i s)). rewrite length_app in IH. cbn [length] in *.
  specialize (IH ltac:(lia)).
  destruct (recv_loop fuel n (buf ++ b0 :: b) (set_inbox i s)) as [[[out|]| |] s2]; [|done..].
  destruct IH as (j & -> & Hj & Hout). exists j. split_and!; [done|lia|done].
Qed.

Lemma handle_body_any body s :
  session_ok s ->
  exists s', handle_body hmac_sha256 aead_decrypt body s = (Value tt, s') /\ session_ok s' /\ inbox s' = inbox s.
Proof using hmac_length.
  intros (Hc & Hf & Hl). unfold handle_body, change.
  destruct (parse_encrypted_frame body) as [err|f]; [by eexists|].
  destruct (cache_get_spec (ef_rotation_num f) _ Hc) as (c & -> & Hc' & _ & _).
  destruct (aes_gcm_decrypt _ _ _ _ _) as [p|]; [|by eexists].
  destruct (parse_photon_event p) as [err|e]; [by eexists|].
  eexists. split; [done|]. split; [|done]. unfold session_ok. cbn. rewrite !length_app. cbn. split_and!; [done|lia..].
Qed.

(** A round goes on only after four bytes at least. *)
Lemma receive_frame_any s :
  session_ok s ->
  match receive_frame hmac_sha256 aead_decrypt s with
  | (Value true, s') => session_ok s' /\ (arrived s' < arrived s)%nat
  | (Value false, s') | (Raised, s') => session_ok s'
  | (Unfinished, _) => False
  end.
Proof using hmac_length.
  intros Hok. unfold receive_frame, mbind, H_bind, recv_exactly.
  pose proof (recv_loop_any 4 4 [] s ltac:(cbn; lia)) as Hr.
  destruct (recv_loop 4 4 [] s) as [[[hdr|]| |] s1]; [|by destruct Hr as (i & ->)..|done].
  destruct Hr as (i & -> & Ha & Hn). cbn [length] in Ha.
  destruct (Z.eqb _ 0 || _); [split; [exact Hok|lia]|].
  pose proof (recv_loop_any (Z.to_nat (le_decode hdr)) (Z.to_nat (le_decode hdr)) [] (set_inbox i s) ltac:(cbn; lia)) as Hb.
  destruct (recv_loop _ _ [] (set_inbox i s)) as [[[body|]| |] s2]; [|by destruct Hb as (j & ->)..|done].
  destruct Hb as (j & -> & Hb & _). cbn [length] in Hb. unfold change.
  destruct (handle_body_any body (add_bytes (4 + le_decode hdr) (set_inbox j (set_inbox i s)))) as (s3 & -> & Hok3 & Hin3);
    [exact Hok|].
  split; [done|]. unfold arrived at 1. rewrite Hin3. unfold arrived in Hb at 1. cbn [inbox add_bytes set_inbox] in *. lia.
Qed.

Lemma receive_loop_any s :
  session_ok s ->
  exists o s', o <> Unfinished /\ session_ok s' /\
    forall fuel, (arrived s < fuel)%nat -> receive_loop hmac_sha256 aead_decrypt fuel s = (o, s').
Proof using hmac_length.
  remember (arrived s) as k eqn:Hk. assert (Hle : (arrived s <= k)%nat) by lia. clear Hk.
  revert s Hle. induction k as [k IH] using lt_wf_ind. intros s Hle Hok.
  pose proof (receive_frame_any s Hok) as Hr.
  destruct (receive_frame hmac_sha256 aead_decrypt s) as [[[]| |] s1] eqn:E; [| | |done].
  - destruct Hr as [Hok1 Hlt]. destruct (IH (arrived s1) ltac:(lia) s1 ltac:(lia) Hok1) as (o & s2 & Ho & Hok2 & Hloop).
    exists o, s2. split_and!; [done..|]. intros [|fuel] Hf; [lia|]. cbn [receive_loop]. unfold mbind, H_bind.
    rewrite E. apply Hloop. lia.
  - exists (Value tt), s1. split_and!; [done..|]. intros [|fuel] Hf; [lia|]. cbn [receive_loop]. unfold mbind, H_bind.
    by rewrite E.
  - exists Raised, s1. split_and!; [done..|]. intros [|fuel] Hf; [lia|]. cbn [receive_loop]. unfold mbind, H_bind.
    by rewrite E.
Qed.

(** C9. Whatever a peer sends, in whatever pieces, and wherever the connection
    breaks: the handler ends, within as many rounds as there are bytes to
    come, and always in the same state; the connection is closed, the cache
    holds only right keys within its bound, and the frames counted are the
    lines logged and the documents indexed. *)
Theorem handle_agent_ends master s :
  session_ok s ->
  exists s', closed s' = true /\ session_ok s' /\
    forall fuel, (arrived s < fuel)%nat ->
      handle_agent hmac_sha256 aead_decrypt fuel master s = (Value tt, s').
Proof using hmac_length.
  intros Hok. unfold handle_agent, serve, mbind, H_bind, recv_exactly.
  pose proof (recv_loop_any 4 4 [] s ltac:(cbn; lia)) as Hr.
  destruct (recv_loop 4 4 [] s) as [[magic| |] s1]; [| |done].
  2: { destruct Hr as (i & ->). by exists (close_conn (set_inbox i s)). }
  assert (H1 : exists i, s1 = set_inbox i s /\ (magic = Some MAGIC -> (arrived s1 <= arrived s)%nat)).
  { destruct magic as [m|]; [destruct Hr as (i & -> & Ha & _)|destruct Hr as (i & ->)]; exists i; split; try done.
    cbn [length] in Ha. lia. }
  destruct H1 as (i & -> & Ha). clear Hr.
  destruct (bool_decide_reflect (magic = Some MAGIC)) as [Hm|_]; cbn [negb]; [|by exists (close_conn (set_inbox i s))].
  specialize (Ha Hm). unfold sendall. destruct (sendable (set_inbox i s)); [|by exists (close_conn (set_inbox i s))].
  set (s2 := send_bytes (MSG_KEY_OFFER :: master) (set_inbox i s)).
  pose proof (recv_loop_any 1 1 [] s2 ltac:(cbn; lia)) as Hr.
  destruct (recv_loop 1 1 [] s2) as [[ack| |] s3]; [| |done].
  2: { destruct Hr as (j & ->). by exists (close_conn (set_inbox j s2)). }
  destruct ack as [a|]; [destruct Hr as (j & -> & Hj & _)|destruct Hr as (j & ->)].
  2: { by exists (close_conn (set_inbox j s2)). }
  destruct (bool_decide_reflect (Some a = Some [MSG_KEY_ACK])); cbn [negb]; [|by exists (close_conn (set_inbox j s2))].
  destruct (receive_loop_any (set_inbox j s2)) as (o & s4 & Ho & Hok4 & Hloop); [exact Hok|].
  exists (close_conn s4). split_and!; [done|exact Hok4|]. intros fuel Hf. rewrite Hloop; [by destruct o|].
  cbn [length] in Hj. assert (arrived s2 = arrived (set_inbox i s)) by done. lia.
Qed.
End server_facts.
