(* ===== verification/EndToEnd.v ===== *)
(** * From the kernel to the log server
    The agent's session on the module's own device ([AgentDevice]) and the
    server's handler ([LogServer]) joined: what the agent writes to its
    connection is what arrives at the server, and what the server sends is
    what the agent reads. *)
From Stdlib Require Import ZArith Lia.
From Stdlib Require Import Strings.Byte Strings.String.
From stdpp Require Import base numbers list option gmap.
From S2P Require Import Prelude Kernel Events Ring Crypto Cdev EventManager Device Reporting.
From S2P Require Import Agent AgentFacts AgentDevice LogServer LogServerFacts.

Section joined.
Context (hmac_sha256 : list byte -> list byte -> list byte).
Context (hmac_length : forall k m, length (hmac_sha256 k m) = 32%nat).
Context (aead_encrypt : list byte -> list byte -> list byte -> list byte).
Context (aead_length : forall k n p, length (aead_encrypt k n p) = (length p + PHOTON_TAG_SIZE)%nat).
Context (aead_decrypt : list byte -> list byte -> list byte -> option (list byte)).
Context (aead_correct : forall k n p, aead_decrypt k n (aead_encrypt k n p) = Some p).
#[local] Instance the_platform : Platform host := host_platform hmac_sha256 aead_encrypt.

(** A handler before its first byte: nothing counted, nothing logged. *)
Definition waiting (master : list byte) (inbox : list Server.arrival) : Server.session :=
  Server.mk_session inbox true [] false 0 0 0 (Server.mk_cache master ∅ 1024) [] [].

Lemma waiting_ok master inbox : cache_ok hmac_sha256 (Server.key_cache (waiting master inbox)).
Proof. split_and!; cbn; [apply map_Forall_empty|lia|rewrite map_size_empty; lia]. Qed.

(** C1. The whole path in one run.  A server with a master key answers an agent
    on a freshly loaded module: the agent finds exactly what the server sends,
    installs the key in the module, wipes its copy and relays the heartbeat the
    module seals under the rotation-0 session key; the ring is empty and the
    device closed.  The server receives what the agent wrote, cut in any way,
    and opens the frame.  Its answer to the 306-byte event inside, where it
    waits for 538, is an error: no event is logged or indexed. *)
Theorem first_session_end_to_end key fuel hostname port (s : agent host) :
  device_ready (os s) -> g_is_open (ch_cdev (chan (h_mgr (os s)))) = false ->
  unkeyed hmac_sha256 (h_mgr (os s)) -> length key = PHOTON_KEY_SIZE ->
  h_in (os s) = Server.MSG_KEY_OFFER :: key -> h_out (os s) = [] -> h_run (os s) = true -> (3 <= fuel)%nat ->
  exists s', connect_and_run fuel hostname port true s = (Some 0%Z, s') /\
    g_key_set (ch_crypto (chan (h_mgr (os s')))) = true /\
    g_session_key (ch_crypto (chan (h_mgr (os s')))) = session_key hmac_sha256 key 0 /\
    master_key s' = zeros PHOTON_KEY_SIZE /\
    ch_frames (chan (h_mgr (os s'))) = [] /\ g_is_open (ch_cdev (chan (h_mgr (os s')))) = false /\
    forall cs, Forall (fun c => c <> []) cs -> mjoin cs = h_out (os s') ->
    exists srv,
      Server.handle_agent hmac_sha256 aead_decrypt 2 key (waiting key (Server.Chunk <$> cs)) = (Server.Value tt, srv) /\
      Server.outbox srv = h_in (os s) /\ Server.closed srv = true /\
      Server.nbytes srv = Z.of_nat PHOTON_FRAME_SLOT_SIZE /\ Server.errors srv = 1%Z /\
      Server.frames srv = 0%Z /\ Server.log_lines srv = [] /\ Server.docs srv = [].
Proof using hmac_length aead_length aead_correct.
  intros Hready Hopen Hun Hkey Hin Hout Hrun Hfuel.
  destruct (agent_session hmac_sha256 aead_encrypt key fuel hostname port s)
    as (s' & nonce & ev & Hs & Hn & _ & Hwf & Ho & Hset & Hses & Hmk & Hfr & Hcl); [done..|].
  exists s'. split; [exact Hs|]. do 5 (split; [done|]). intros cs Hcs Hbytes. rewrite Hout in Ho. rewrite Ho in Hbytes. cbn [app] in Hbytes.
  set (f := event_frame aead_encrypt (session_key hmac_sha256 key 0) nonce 0 ev) in *.
  assert (Hsealed : Forall (sealed_for hmac_sha256 aead_encrypt key) [f]).
  { constructor; [|constructor]. exists nonce, 0%Z, ev. by split_and!. }
  assert (Harr : arriving (Server.MAGIC ++ [Server.MSG_KEY_ACK] ++ mjoin [f]) (waiting key (Server.Chunk <$> cs))).
  { exists cs. split_and!; [done..|]. rewrite Hbytes. change (mjoin [f]) with (f ++ []). by rewrite app_nil_r. }
  clearbody f.
  destruct (kernel_frames_logged_nowhere hmac_sha256 hmac_length aead_encrypt aead_length aead_decrypt aead_correct
    [f] 2 (waiting key (Server.Chunk <$> cs)) Hsealed (waiting_ok key _) eq_refl Harr (Nat.lt_succ_diag_r 1))
    as (srv & Hsrv & Hcls & Hob & Hfs & Hll & Hd & He & Hnb).
  exists srv. rewrite Hin. split_and!; assumption.
Qed.
End joined.
