(* ===== verification/AgentRuns.v ===== *)
(** * Runs of the agent
    A platform given by scripts (how OpenSSL cuts the stream, what the device
    answers), the promises it keeps, and the agent's theorems on concrete
    runs; then the sessions on the module's own device. *)
From Stdlib Require Import ZArith Lia.
From Stdlib Require Import Strings.Byte Strings.String.
From stdpp Require Import base numbers list option.
From S2P Require Import Prelude Kernel Events Ring Crypto Cdev EventManager Device Reporting.
From S2P Require Import Rotation Interleaving DeviceHistory ReadRace WaitQueue Smp LogSession Agent AgentFacts AgentDevice.

(** [t_reads] are the device's answers, [idle] the one it gives ever after. *)
Record toy_os (idle : Z) := mk_toy {
  t_in : list byte; t_chunks : list Z; t_out : list byte; t_writes : list Z;
  t_reads : list (Z + list byte); t_log : list (list byte); t_running : bool;
}.
Arguments mk_toy {idle}.
Arguments t_in {idle}.
Arguments t_chunks {idle}.
Arguments t_out {idle}.
Arguments t_writes {idle}.
Arguments t_reads {idle}.
Arguments t_log {idle}.
Arguments t_running {idle}.

(** The next entry of a script, or the default. *)
Definition next (script : list Z) (d : Z) : Z := default d (hd_error script).

Definition toy_read {idle} (n : nat) (w : toy_os idle) : Z * list byte * toy_os idle :=
  let k := Z.min (next (t_chunks w) (Z.of_nat n)) (Z.of_nat (min n (length (t_in w)))) in
  let c := Z.to_nat k in
  (k, take c (t_in w), mk_toy (drop c (t_in w)) (drop 1 (t_chunks w)) (t_out w) (t_writes w) (t_reads w)
                         (t_log w) (t_running w)).
Definition toy_write {idle} (buf : list byte) (w : toy_os idle) : Z * toy_os idle :=
  let k := Z.min (next (t_writes w) (Z.of_nat (length buf))) (Z.of_nat (length buf)) in
  (k, mk_toy (t_in w) (t_chunks w) (t_out w ++ take (Z.to_nat k) buf)%list (drop 1 (t_writes w))
        (t_reads w) (t_log w) (t_running w)).
Definition toy_dev_read {idle} (w : toy_os idle) : Z * list byte * toy_os idle :=
  let after l := mk_toy (t_in w) (t_chunks w) (t_out w) (t_writes w) (drop 1 (t_reads w)) l (t_running w) in
  match t_reads w with
  | [] => (Z.min idle 0, [], w)
  | inl r :: _ => (Z.min r 0, [], after (t_log w))
  | inr [] :: _ => (0%Z, [], after (t_log w))
  | inr d :: _ => (Z.of_nat (length d), d, after (t_log w ++ [d])%list)
  end.

#[export] Instance toy_platform idle : Platform (toy_os idle) := {
  SSL_read := toy_read; SSL_write := toy_write;
  SSL_new w := (1%Z, w); SSL_connect w := (1%Z, w); SSL_CTX _ w := (1%Z, w);
  getaddrinfo _ _ w := (0%Z, [1%Z], w); socket _ w := (3%Z, w); connect _ _ w := (0%Z, w);
  dev_open w := (4%Z, w); dev_ioctl _ _ w := (0%Z, w); dev_read _ := toy_dev_read;
  dev_close w := w; sleep _ w := w; g_running := t_running;
}.

#[export] Program Instance toy_wire idle : Wire (toy_os idle) := {
  incoming := t_in; sent := t_out;
}.
Next Obligation.
  intros idle n w r data w' Hn [= <- <- <-]. cbn. split_and!; [done|by rewrite take_drop| |].
  - intros Hk. rewrite length_take. lia.
  - intros Hk. by replace (Z.to_nat _) with 0%nat by lia.
Qed.
Next Obligation. intros idle buf w r w' [= <- <-]. cbn. split_and!; [done|done|lia]. Qed.

#[export] Program Instance toy_log idle : DeviceLog (toy_os idle) := { frames_read := t_log }.
Next Obligation.
  intros idle n w r data w'. cbn. unfold toy_dev_read.
  destruct (t_reads w) as [|[z|[|b d]] l]; intros [= <- <- <-]; cbn -[Z.of_nat];
    split_and!; try done; intros; try (exfalso; lia). split; [by rewrite Nat2Z.id|done].
Qed.
Next Obligation. by intros idle buf w r w' [= <- <-]. Qed.

#[export] Program Instance toy_finite : Finite (toy_os (- EIO)) := {
  reads_left w := length (t_reads w);
}.
Next Obligation.
  intros n w r data w'. cbn. unfold toy_dev_read.
  destruct (t_reads w) as [|[z|[|b d]] l] eqn:E; intros [= <- <- <-]; [by left|..]; right; left; cbn; rewrite ?E, ?drop_0; cbn; lia.
Qed.
Next Obligation. intros buf w r w' [= <- <-]. cbn. split; [lia|done]. Qed.

(** ** Transfers and the relay *)
Definition process {idle} (w : toy_os idle) : agent (toy_os idle) :=
  mk_agent w (zeros PHOTON_KEY_SIZE) 0 0 0 0 0.
(** A device with two frames and a read of three bytes between them. *)
Definition busy : toy_os (- EIO) :=
  mk_toy [] [] [] [3%Z; 2%Z]
    [inr [x02; x00; x00; x00; x11; x12]; inl (- EINTR)%Z; inr [x01; x02; x03]; inr [x00; x00; x00; x00]]
    [] true.

(** Five bytes asked for, delivered as two and three. *)
Definition chopped : toy_os 0 := mk_toy [x01; x02; x03; x04; x05; x06] [2%Z; 9%Z] [] [] [] [] true.
Lemma recv_all_exact_witness :
  exists data w, ssl_recv_all 5 (process chopped) = (Some (0%Z, data), w) /\
    data = [x01; x02; x03; x04; x05].
Proof.
  destruct (recv_all_exact 5 (process chopped)) as (rc & data & w & Hrun & _ & Hin & Hres).
  exists data, (with_os w (process chopped)).
  assert (E : exists d w', ssl_recv_all 5 (process chopped) = (Some (0%Z, d), w') /\
                d = [x01; x02; x03; x04; x05]) by (do 2 eexists; split; vm_compute; reflexivity).
  destruct E as (d & w' & E & Hd). rewrite E in Hrun. injection Hrun as <- <- <-. by split.
Defined.

Lemma relay_forwards_verbatim_witness :
  pwp (relay_open (process busy)) (relay_loop 9)
    (fun _ s' => relay_open (process busy) s' \/ relay_cut (process busy) s') (process busy) /\
  option_map (fun _ => t_out (os (relay_loop 9 (process busy)).2)) (relay_loop 9 (process busy)).1
    = Some [x02; x00; x00; x00; x11; x12; x00; x00; x00; x00].
Proof. split; [apply (relay_forwards_verbatim 9 (process busy))|vm_compute; reflexivity]. Defined.

Lemma relay_terminates_witness : exists s', relay_loop 6 (process busy) = (Some tt, s').
Proof. apply (relay_terminates (process busy) 6). simpl. lia. Defined.

(** A device whose every read fails with EFAULT. *)
Definition broken : toy_os (- EFAULT) := mk_toy [] [] [] [] [] [] true.
Lemma read_error_spins_witness :
  exists s', relay_loop 1000 (process broken) = (None, s') /\ t_out (os s') = [] /\ total_errors s' = 1000%Z.
Proof.
  destruct (read_error_spins (fun w => w = broken) 1000 (process broken)) as (s' & Hrun & Hs & He).
  - intros w ->. split; [done|]. exists (- EFAULT)%Z, broken. by split_and!.
  - done.
  - exists s'. split; [exact Hrun|]. split; [exact Hs|]. rewrite He by (simpl; lia). reflexivity.
Defined.

(** ** The key and the resources *)
Lemma agent_leaks_nothing_witness :
  pwp (fun s' => exists n : Z, (0 <= n <= 1)%Z /\ open_fds s' = (2 * n)%Z /\ live_ssl s' = (1 + n)%Z)
    (main 9 []) (fun _ s' => open_fds s' = 0%Z /\ live_ssl s' = 0%Z) (process busy).
Proof. apply (agent_leaks_nothing 9 [] (process busy)). Defined.

(** A server that offers a key and hangs up before the acknowledgement. *)
Definition rude : toy_os (- EIO) :=
  mk_toy (MSG_KEY_OFFER :: toy_key) [] [] [4%Z; 0%Z] [] [] true.
Definition connected : agent (toy_os (- EIO)) := (connect_tls "h" "p" (process rude)).2.
Definition after_magic := (ssl_send_all MAGIC (with_key (zeros PHOTON_KEY_SIZE) connected)).2.
Definition after_offer := (ssl_recv_all 1 after_magic).2.
Definition after_key := (ssl_recv_all PHOTON_KEY_SIZE after_offer).2.
Definition after_ack := (ssl_send_all [MSG_KEY_ACK] (with_key toy_key after_key)).2.

Lemma failed_ack_leaves_key_witness :
  exists s', connect_and_run 9 "h" "p" true (process rude) = (Some (-1)%Z, s') /\ master_key s' = toy_key.
Proof.
  apply (failed_ack_leaves_key 9 "h" "p" true toy_key (-1) (process rude) connected after_magic
    after_offer after_key after_ack); first [reflexivity | vm_compute; reflexivity | done].
Defined.

Lemma key_wiped_before_relay_witness :
  pwp (fun s' => master_key s' = zeros PHOTON_KEY_SIZE) (connect_and_run 9 "h" "p" true)
    (fun rc s' => rc = 0%Z -> master_key s' = zeros PHOTON_KEY_SIZE) (process busy).
Proof. apply (key_wiped_before_relay 9 "h" "p" true (process busy)). Defined.

(** ** On the module's device *)
Definition host_of (m : manager) (input : list byte) (run : bool) : agent host :=
  mk_agent (mk_host toy_env m input [] run) (zeros PHOTON_KEY_SIZE) 0 0 0 0 0.

Lemma loaded_ready input run : device_ready (os (host_of loaded input run)).
Proof.
  split; [apply toy_no_fail|by vm_compute|by vm_compute|]. destruct loaded_spec as ((_ & _ & _ & _ & (_ & Hr)) & _).
  exact Hr.
Qed.

Lemma keyed_ready input run : device_ready (os (host_of keyed input run)).
Proof.
  split; [apply toy_no_fail|by vm_compute|by vm_compute|]. destruct keyed_spec as (_ & _ & _ & _ & (_ & Hr)).
  exact Hr.
Qed.

Lemma loaded_unkeyed : unkeyed toy_hmac loaded.
Proof. destruct loaded_spec as (Hi & Hd & Hf & Ht & Hk). by split. Qed.

Lemma agent_session_witness :
  exists s', @connect_and_run host (host_platform toy_hmac toy_encrypt) 3 "h" "p" true
      (host_of loaded (MSG_KEY_OFFER :: toy_key) true) = (Some 0%Z, s') /\
    g_session_key (ch_crypto (chan (h_mgr (os s')))) = session_key toy_hmac toy_key 0 /\
    master_key s' = zeros PHOTON_KEY_SIZE.
Proof.
  destruct (agent_session toy_hmac toy_encrypt toy_key 3 "h" "p"
    (host_of loaded (MSG_KEY_OFFER :: toy_key) true) toy_hmac_length toy_encrypt_length (loaded_ready _ _)
    ltac:(vm_compute; reflexivity) loaded_unkeyed ltac:(vm_compute; reflexivity) eq_refl eq_refl ltac:(lia))
    as (s' & nonce & ev & Hrun & _ & _ & _ & _ & _ & Hse & Hmk & _).
  exists s'. by split_and!.
Defined.

Lemma keyed_closed run : g_is_open (ch_cdev (chan (h_mgr (os (host_of keyed [] run))))) = false.
Proof. vm_compute. reflexivity. Qed.
Lemma keyed_one_frame f : ch_frames (chan keyed) = [f] -> Forall (fun f => (4 <= length f)%nat) [f].
Proof.
  intros Hf. apply Forall_singleton.
  assert (E : length <$> ch_frames (chan keyed) = [356%nat]) by (vm_compute; reflexivity).
  rewrite Hf in E. injection E as ->. lia.
Qed.

Definition stopped : agent host := host_of keyed [] false.
Definition serving : agent host := host_of keyed [] true.
Lemma host_of_mgr m input run : h_mgr (os (host_of m input run)) = m.
Proof. reflexivity. Qed.
Lemma serving_frames : exists f, ch_frames (chan (h_mgr (os serving))) = [f].
Proof. destruct keyed_frames as [f Hf]. exists f. unfold serving. rewrite host_of_mgr. exact Hf. Qed.

Lemma stopped_relay_drains_nothing_witness :
  exists s', @run_relay host (host_platform toy_hmac toy_encrypt) 1 stopped = (Some 0%Z, s') /\
    h_out (os s') = h_out (os stopped) /\
    ch_frames (chan (h_mgr (os s'))) = ch_frames (chan (h_mgr (os stopped))).
Proof.
  apply (stopped_relay_drains_nothing toy_hmac toy_encrypt 1 stopped
    (keyed_ready _ _) (keyed_closed _) eq_refl ltac:(lia)).
Defined.

Lemma serving_long f : ch_frames (chan (h_mgr (os serving))) = [f] -> Forall (fun f => (4 <= length f)%nat) [f].
Proof. unfold serving. rewrite host_of_mgr. apply keyed_one_frame. Qed.

Lemma relay_empties_device_witness :
  exists f s', ch_frames (chan (h_mgr (os serving))) = [f] /\
    @run_relay host (host_platform toy_hmac toy_encrypt) 3 serving = (Some 0%Z, s') /\
    h_out (os s') = (h_out (os serving) ++ concat [f])%list /\ ch_frames (chan (h_mgr (os s'))) = [].
Proof.
  destruct serving_frames as [f Hf].
  destruct (relay_empties_device toy_hmac toy_encrypt [f] 3 serving
    (keyed_ready _ _) (keyed_closed _) Hf (serving_long f Hf) eq_refl ltac:(simpl; lia))
    as (s' & H1 & H2 & H3 & _).
  exists f, s'. exact (conj Hf (conj H1 (conj H2 H3))).
Defined.

(** ** The detectors' side *)
Lemma logged_events_well_typed_witness :
  wp (log toy_encrypt (mk_log_call 4 5 3 (Some [x01; x02]) 2)) (fun r e' m' =>
    r = 0%Z /\ Forall packed_wf (pending m') /\
    exists evs n k, deliver toy_encrypt evs (chan keyed) n k (chan m') /\
      (length evs = S (length (pending keyed)))%nat /\ Forall event_typed evs) toy_env keyed.
Proof.
  apply (logged_events_well_typed toy_hmac toy_encrypt toy_encrypt_length
    (mk_log_call 4 5 3 (Some [x01; x02]) 2) toy_env keyed); [apply keyed_spec|].
  split; [vm_compute; lia|vm_compute; discriminate].
Defined.

Lemma sequence_numbers_gapless_witness :
  wp (log_all toy_encrypt [mk_log_call 4 5 3 (Some [x01; x02]) 2; mk_log_call 7 6 1 None 0]) (fun _ e' m' =>
    exists evs n k, deliver toy_encrypt evs (chan keyed) n k (chan m') /\
      (no_fail toy_env -> k = 0%nat) /\ length evs = 2%nat /\
      (forall i ev, evs !! i = Some ev ->
        sequence_num ev = u64 (g_sequence_counter keyed + 1 + Z.of_nat i)) /\
      (forall i j ev ev', evs !! i = Some ev -> evs !! j = Some ev' ->
        (Z.abs (Z.of_nat i - Z.of_nat j) < 2 ^ 64)%Z -> sequence_num ev = sequence_num ev' -> i = j))
    toy_env keyed.
Proof.
  apply (sequence_numbers_gapless toy_hmac toy_encrypt toy_encrypt_length
    [mk_log_call 4 5 3 (Some [x01; x02]) 2; mk_log_call 7 6 1 None 0] toy_env keyed).
  1,2: apply keyed_facts.
  repeat apply Forall_cons; try apply Forall_nil; (split; [by vm_compute|vm_compute; discriminate]).
Defined.

(** ** Concurrent calls *)
Definition call_a : log_call := mk_log_call 4 5 3 (Some [x01; x02]) 2.
Definition call_b : log_call := mk_log_call 7 6 1 None 0.
Lemma calls_ok : Forall call_ok [call_a; call_b].
Proof. repeat apply Forall_cons; try apply Forall_nil; (split; [by vm_compute|vm_compute; discriminate]). Qed.

Lemma concurrent_logging_exact_witness :
  exists n s, smp_steps toy_encrypt n (smp_start [call_a; call_b] keyed) s /\
    drained (shared s) /\ handed s ++ refused s ≡ₚ made s /\ length (made s) = 2%nat.
Proof.
  destruct (smp_completes toy_hmac toy_encrypt toy_encrypt_length 0 [call_a; call_b] keyed
    (smp_start [call_a; call_b] keyed) keyed_spec keyed_drained calls_ok (smp_refl _ _))
    as (n & s & Hs & Hr).
  exists n, s. split; [exact Hs|].
  destruct (concurrent_logging_exact toy_hmac toy_encrypt toy_encrypt_length [call_a; call_b] n keyed s
    keyed_spec keyed_drained calls_ok Hs) as (_ & _ & H).
  destruct (H Hr) as (Hd & Hh & Hl & _). exact (conj Hd (conj Hh Hl)).
Defined.

Lemma concurrent_logging_terminates_witness :
  exists s', smp_step toy_encrypt 1 toy_env (smp_start [call_a; call_b] keyed) s'.
Proof.
  destruct (concurrent_logging_terminates toy_hmac toy_encrypt toy_encrypt_length [call_a; call_b] 0 keyed
    (smp_start [call_a; call_b] keyed) keyed_spec keyed_drained calls_ok (smp_refl _ _)) as [_ H].
  exact (H 1%nat (Calling call_b) toy_env eq_refl eq_refl).
Defined.

(** Thread 1, on the other CPU, takes the event of thread 0 out of its buffer
    but hands it over only after thread 0 has handed over the other one: the
    server reads number 2 before number 1. *)
Definition on_cpu (c : nat) : env := mk_env [] [] [] 0 [c] (mk_task 7 "insmod").
Definition turns_swapped : list (nat * env) :=
  [(0, on_cpu 0); (0, on_cpu 0); (1, on_cpu 1); (1, on_cpu 1); (1, on_cpu 1);
   (0, on_cpu 0); (0, on_cpu 0); (0, on_cpu 0); (0, on_cpu 0); (0, on_cpu 0);
   (1, on_cpu 1); (1, on_cpu 1); (1, on_cpu 1); (1, on_cpu 1)]%nat.
Example concurrent_calls_reorder :
  exists n s, smp_steps toy_encrypt n (smp_start [call_a; call_b] loaded) s /\
    threads s = [Returned 0; Returned 0] /\ sequence_num <$> handed s = [2%Z; 1%Z].
Proof.
  destruct (schedule toy_encrypt turns_swapped (smp_start [call_a; call_b] loaded)) as [s|] eqn:E.
  - exists 14%nat, s. split; [exact (schedule_steps _ turns_swapped _ _ E)|].
    vm_compute in E. by injection E as <-.
  - exfalso. vm_compute in E. discriminate E.
Qed.

(** ** A send during a rotation *)
Lemma keyed_channel : channel_inv toy_hmac (chan keyed).
Proof. apply keyed_spec. Qed.
Lemma blank_event : packed_wf (inhabitant : photon_event).
Proof. vm_compute. intuition discriminate. Qed.

Lemma send_during_rotation_witness : exists ch a k nonce,
  channel_inv toy_hmac ch /\ length nonce = PHOTON_IV_SIZE /\
  accepts (event_frame toy_encrypt (session_key toy_hmac (g_master_key (ch_crypto (chan keyed))) k)
    nonce a inhabitant) (chan keyed) ch.
Proof.
  destruct (race_completes toy_hmac toy_hmac_length toy_encrypt toy_encrypt_length inhabitant blank_event
    (chan keyed) keyed_channel keyed_key) as [ch Hx].
  destruct (send_during_rotation toy_hmac toy_hmac_length toy_encrypt toy_encrypt_length inhabitant
    blank_event (chan keyed) keyed_channel keyed_key _ 0 (inr _) Hx eq_refl eq_refl)
    as (_ & _ & Hi & _ & _ & a & k & nonce & Hn & _ & _ & Hacc).
  exists ch, a, k, nonce. exact (conj Hi (conj Hn Hacc)).
Defined.

Lemma rotation_mislabels_frames_witness :
  wp (label_rotate_seal toy_hmac toy_encrypt inhabitant) (fun x _ ch =>
    x = (Sent 0, Rotated (inr (u64 (g_rotation_counter (ch_crypto (chan keyed)) + 1)))) /\
    exists nonce, accepts (event_frame toy_encrypt
      (session_key toy_hmac (g_master_key (ch_crypto (chan keyed)))
        (u64 (g_rotation_counter (ch_crypto (chan keyed)) + 1))) nonce
      (g_rotation_counter (ch_crypto (chan keyed))) inhabitant) (chan keyed) ch) toy_env (chan keyed).
Proof.
  exact (proj1 (rotation_mislabels_frames toy_hmac toy_hmac_length toy_encrypt toy_encrypt_length
    inhabitant blank_event (chan keyed) keyed_channel keyed_key toy_env toy_no_fail)).
Defined.

(** The channel once it is started, and after a key has been installed. *)
Definition started : channel := after channel_start (mk_channel crypto_initial cdev_initial).
Definition started_keyed : channel := after (run_op toy_hmac toy_encrypt (OpSetKey toy_key)) started.
Lemma device_stays_in_bounds_witness :
  g_key_set (ch_crypto started_keyed) = true /\
  (0 <= rb_head (g_ring (ch_cdev started_keyed)) < 256)%Z.
Proof.
  split; [vm_compute; reflexivity|].
  apply (device_stays_in_bounds toy_hmac toy_encrypt toy_hmac_length toy_encrypt_length started_keyed).
  eapply (reach_step _ _ (OpSetKey toy_key) toy_env _ started).
  - eapply (reach_start _ _ toy_env). vm_compute. reflexivity.
  - exact I.
  - vm_compute. reflexivity.
Defined.

(** One event sent. *)
Lemma started_keyed_session : session toy_hmac toy_encrypt nothing_yet started_keyed.
Proof.
  eapply (session_other _ _ _ (OpSetKey toy_key) toy_env _ started); [|done|vm_compute; reflexivity].
  eapply (session_start _ _ toy_env). vm_compute. reflexivity.
Qed.
Lemma started_keyed_key : g_key_set (ch_crypto started_keyed) = true.
Proof. vm_compute. reflexivity. Qed.

Definition sent_one : channel :=
  after (photon_send_encrypted_event toy_encrypt inhabitant) started_keyed.
Lemma sent_one_run :
  photon_send_encrypted_event toy_encrypt inhabitant toy_env started_keyed = Ret (0%Z, toy_env, sent_one).
Proof. vm_compute. reflexivity. Qed.
Lemma sent_one_session :
  session toy_hmac toy_encrypt (mk_tally [inhabitant] 0 []) sent_one.
Proof.
  pose proof (session_send _ _ _ _ _ _ _ _ _ started_keyed_session blank_event sent_one_run) as Hs.
  by rewrite started_keyed_key in Hs.
Qed.

(** An event is sent and its frame read with a buffer of 100 bytes, which gets
    its first 100 bytes. *)
Lemma device_is_fifo_witness :
  exists r e' ch, on_cdev (photon_cdev_read 100) toy_env sent_one = Ret (r, e', ch) /\ r.1 = 100%Z /\
    exists taken accepted, accepted `sublist_of` [inhabitant] /\
      Forall2 (carries toy_encrypt) (taken ++ ch_frames ch) accepted /\
      Forall2 delivers [mk_read_record 100 true r.1 r.2] taken.
Proof.
  destruct (on_cdev (photon_cdev_read 100) toy_env sent_one) as [[[r e'] ch]| |] eqn:Hrun;
    [|vm_compute in Hrun; discriminate..].
  exists r, e', ch. split; [reflexivity|].
  assert (r.1 = 100%Z) as Hr by (vm_compute in Hrun; by injection Hrun as <- _ _). split; [exact Hr|].
  pose proof (session_read _ _ _ _ _ _ _ _ _ sent_one_session Hrun) as Hs.
  unfold count_read in Hs. rewrite Hr in Hs. cbn in Hs.
  destruct (device_is_fifo toy_hmac toy_encrypt toy_hmac_length toy_encrypt_length _ _ Hs)
    as (taken & accepted & Hsub & Hf & Hd & _).
  exists taken, accepted. rewrite Hr. exact (conj Hsub (conj Hf Hd)).
Defined.

(** A reader that has gone to sleep on the empty ring, and then the event. *)
Definition sleeper : WaitQueue.system := WaitQueue.mk_system started_keyed [(4096%Z, Asleep 0)].
Lemma sleeper_reached : reached toy_hmac toy_encrypt sleeper.
Proof.
  assert (reached toy_hmac toy_encrypt (WaitQueue.mk_system started_keyed [])) as H0.
  { eapply (reached_step _ _ Device (WaitQueue.mk_system started [])).
    - eapply (reached_start _ _ toy_env). vm_compute. reflexivity.
    - apply (step_op _ _ (OpSetKey toy_key) toy_env toy_env); [done|done|vm_compute; reflexivity]. }
  assert (forall p p', reached toy_hmac toy_encrypt (WaitQueue.mk_system started_keyed [(4096%Z, p)]) ->
    wait_turn 4096 p toy_env (ch_cdev started_keyed) = Ret (p', toy_env, ch_cdev started_keyed) ->
    reached toy_hmac toy_encrypt (WaitQueue.mk_system started_keyed [(4096%Z, p')])) as Hturn.
  { intros p p' H Hrun. eapply reached_step; [exact H|].
    exact (step_turn toy_hmac toy_encrypt started_keyed [(4096%Z, p)] 0 _ _ _ _ _ _ eq_refl Hrun). }
  apply (Hturn (Queued 0 false)); [|vm_compute; reflexivity].
  apply (Hturn Preparing); [|vm_compute; reflexivity].
  apply (Hturn WaitQueue.Calling); [|vm_compute; reflexivity].
  eapply reached_step; [exact H0|]. apply (step_read _ _ started_keyed [] 4096).
Qed.
Definition woken_up : WaitQueue.system := WaitQueue.mk_system sent_one [(4096%Z, Asleep 0)].
Lemma woken_up_reached : reached toy_hmac toy_encrypt woken_up.
Proof.
  eapply reached_step; [exact sleeper_reached|].
  apply (step_op _ _ (OpSend inhabitant) toy_env toy_env); [done|exact blank_event|].
  cbn [run_op]. unfold mbind, M_bind. by rewrite sent_one_run.
Qed.


(** Two frames waiting, read by two threads. *)
Definition frame_of (b : byte) : list byte := replicate PHOTON_FRAME_SLOT_SIZE b.
Lemma frame_of_whole b : whole (frame_of b).
Proof. apply length_replicate. Qed.
Lemma frame_of_ok b : frame_ok (frame_of b).
Proof. split; [done|by rewrite frame_of_whole]. Qed.

Lemma overlapping_reads_witness :
  wp (read_inside_read 4096) (fun x _ st' =>
    x = (Read 356 (zeros PHOTON_FRAME_SLOT_SIZE), Read 356 (frame_of x02)) /\
    ring_frames (g_ring st') = []) toy_env (holding (frame_of x01) (frame_of x02)).
Proof.
  apply (overlapping_reads 4096 ltac:(vm_compute; done) (frame_of x01) (frame_of x02) [] toy_env
    (holding (frame_of x01) (frame_of x02)));
    [apply holding_inv; apply frame_of_ok|vm_compute; reflexivity|apply frame_of_whole|apply frame_of_whole
    |vm_compute; reflexivity|apply toy_no_fail].
Defined.
