(* ===== verification/ServerRuns.v ===== *)
(** * Runs of the log server
    The server's theorems at concrete inputs, with the algorithms of
    [Reporting]'s runs, and a few complete runs of the handler. *)
From Stdlib Require Import ZArith Lia.
From Stdlib Require Import Strings.Byte Strings.String.
From stdpp Require Import base numbers list option gmap.
From S2P Require Import Prelude Kernel Events Ring Crypto Cdev EventManager Device Reporting.
From S2P Require Import Agent AgentFacts AgentDevice AgentRuns LogServer LogServerFacts EndToEnd.
Import Server.

Lemma server_derives_kernel_key_witness :
  Server.hkdf_expand toy_hmac toy_key [x01] 42 = Some (rfc_expand toy_hmac toy_key [x01] 42) /\
  Server.derive_session_key toy_hmac toy_key 7 = Some (session_key toy_hmac toy_key 7).
Proof.
  destruct (server_derives_kernel_key toy_hmac toy_hmac_length toy_key [x01] 42 toy_key 7) as [He Hk].
  rewrite decide_True in He by lia. exact (conj He Hk).
Defined.

(** An event of the format the server knows. *)
Definition long_event : list byte := zeros 538.

Lemma server_opens_frame_witness :
  exists c d l,
    handle_body toy_hmac toy_decrypt
      (frame_body toy_encrypt (session_key toy_hmac toy_key 2) (zeros PHOTON_IV_SIZE) 5 2 long_event)
      (waiting toy_key []) = (Value tt, add_frame l d (set_cache c (waiting toy_key []))).
Proof.
  destruct (server_opens_frame toy_hmac toy_hmac_length toy_encrypt toy_encrypt_length toy_decrypt toy_encrypt_correct
    (zeros PHOTON_IV_SIZE) 5 2 long_event (waiting toy_key []) (waiting_ok _ _ _) ltac:(split; lia) ltac:(split; lia)
    (length_zeros _) ltac:(unfold long_event; rewrite length_zeros; lia)) as (_ & c & _ & _ & Hrun).
  destruct (parse_photon_event long_event) as [err|e] eqn:E; [by vm_compute in E|].
  exists c, (event_to_doc e), (log_event e (frame_of toy_encrypt (session_key toy_hmac toy_key 2) (zeros PHOTON_IV_SIZE)
    5 2 long_event)).
  exact Hrun.
Defined.

Lemma waiting_session master inbox : session_ok toy_hmac (waiting master inbox).
Proof. split; [apply waiting_ok|done]. Qed.

Lemma handle_agent_ends_witness :
  exists s', closed s' = true /\
    handle_agent toy_hmac toy_decrypt 3 toy_key (waiting toy_key [Chunk [x50; x52]; Broken]) = (Value tt, s').
Proof.
  destruct (handle_agent_ends toy_hmac toy_hmac_length toy_decrypt toy_key
    (waiting toy_key [Chunk [x50; x52]; Broken]) (waiting_session _ _)) as (s' & Hc & _ & Hrun).
  exists s'. split; [exact Hc|]. apply Hrun. vm_compute. lia.
Defined.

Lemma first_session_end_to_end_witness :
  exists s', @connect_and_run host (host_platform toy_hmac toy_encrypt) 3 "h" "p" true
      (host_of loaded (Server.MSG_KEY_OFFER :: toy_key) true) = (Some 0%Z, s') /\
    master_key s' = zeros PHOTON_KEY_SIZE /\
    forall cs, Forall (fun c => c <> []) cs -> mjoin cs = h_out (os s') ->
    exists srv, handle_agent toy_hmac toy_decrypt 2 toy_key (waiting toy_key (Chunk <$> cs)) = (Value tt, srv) /\
      errors srv = 1%Z /\ docs srv = [].
Proof.
  destruct (first_session_end_to_end toy_hmac toy_hmac_length toy_encrypt toy_encrypt_length toy_decrypt
    toy_encrypt_correct toy_key 3 "h" "p" (host_of loaded (Server.MSG_KEY_OFFER :: toy_key) true) (loaded_ready _ _)
    ltac:(vm_compute; reflexivity) loaded_unkeyed ltac:(vm_compute; reflexivity) eq_refl eq_refl eq_refl ltac:(lia))
    as (s' & Hrun & _ & _ & Hmk & _ & _ & Hsrv).
  exists s'. split; [exact Hrun|]. split; [exact Hmk|]. intros cs Hne Hcs.
  destruct (Hsrv cs Hne Hcs) as (srv & Hh & _ & _ & _ & He & _ & _ & Hd). exists srv. exact (conj Hh (conj He Hd)).
Defined.

(** ** Complete runs *)
Definition served (fuel : nat) (inbox : list arrival) : session :=
  (handle_agent toy_hmac toy_decrypt fuel toy_key (waiting toy_key inbox)).2.

(** A peer without the magic gets no key. *)
Example no_magic_no_key : outbox (served 9 [Chunk [x50; x52; x4f; x00; x02]]) = [].
Proof. vm_compute. reflexivity. Qed.

(** The magic cut in two, an acknowledgement, and a length that is too large:
    "skipping" skips the length only, so the first bytes of the body it
    announced are taken for the next length, here that of a frame of one byte. *)
Example implausible_length_is_not_skipped :
  let s := served 9 [Chunk [x50]; Chunk [x52; x4f; x47; x02];
                     Chunk (le_encode 4 65537 ++ le_encode 4 1 ++ [x00])] in
  (errors s, nbytes s, frames s, closed s) = (1, 5, 0, true)%Z.
Proof. vm_compute. reflexivity. Qed.

(** A kprobe event as the server would have it. *)
Example kprobe_document :
  let payload := fit 64 kallsyms_symbol ++ le_encode 8 4096 ++ le_encode 4 0 ++ [x00] in
  let e := mk_PhotonEvent 9 0 1 1 77 (fit 512 payload) in
  event_to_doc e = mk_doc 9 0 "KPROBE_REG" "critical" (KprobePayload kallsyms_symbol 4096 0 false).
Proof. vm_compute. reflexivity. Qed.
